(* ===== verification/_CoqProject ===== *)
-Q . S2P
Prelude.v
GoStrings.v
Json.v
JsonFacts.v
JsonDecode.v
Frames.v
Supervisor.v
SvcProto.v
SvcJson.v
Resolver.v
NetIP.v
NetCIDR.v
Dns.v
GuestRoot.v
ServiceLB.v
DataPlane.v
SvcWire.v
DnsServe.v
Pod.v
Status.v
Probes.v
PodLifecycle.v
StaticPods.v
Mirror.v
AgentLoops.v
NodeAgent.v
Volumes.v
Rootfs.v
VMStart.v
HostPorts.v
Boot.v
GuestNet.v
SpecWire.v
Handlers.v
StatusPath.v
Pki.v
Logs.v
KubeletAPI.v
ControlWire.v
ControlPaths.v
PodProbes.v
Serve.v
ContainerIO.v
Erofs.v
ErofsTree.v
ErofsOut.v
ErofsEntries.v
ErofsWalk.v
ErofsDirs.v
ErofsImage.v
ErofsSpec.v
Images.v
ImageDir.v
