(* ===== verification/Prelude.v ===== *)
(** * kube-on-mac: a verification library (root file)

    kube-on-mac runs Kubernetes pods on macOS, each pod in a microVM of its
    own. The program is under src/poc/, in Go: [agent] is the kubelet of the
    node, a process on the host; [execd] is the init of every microVM; [pki]
    makes the cluster's certificates from a directory of specs; [agent/erofs]
    writes container images as EROFS file systems. The harness (C, on
    libkrun), gvproxy and vmnet-helper are the processes the agent starts for
    a VM.

    ** How the parts interact

    The agent watches the pods of its node and a directory of manifests
    (static pods), and starts one goroutine per pod. That goroutine pulls the
    images (converted to EROFS), resolves the volumes, writes the guest's boot
    filesystem with a spec of its containers, starts the helpers and the
    harness, polls the guest's status into the API, runs the probes, restarts
    a VM that died and finalizes the pod. In the guest, execd mounts a root
    for each container from its image's device, runs the init containers and
    then the main ones with restarts, answers the agent on a framed control
    channel (exec, attach, probe, status, kill, port-forward, shutdown), and
    directs the connections of the pod to cluster services by asking the agent
    over a second channel.

    ** Files

    Shared:
    - [Prelude]: results of fallible Go calls ([result]: a value, an error or
      a crash), the state and error monad [stM], machine integers, byte
      sequences, lists, the order of strings.
    - [GoStrings]: what is used of Go's strings and path packages. [NetIP]:
      of net/netip; [NetCIDR]: prefixes of net and net/netip.
    - [Json]: JSON texts as encoding/json writes and reads them (UTF-8,
      escapes, 64-bit numbers, depth), [JsonFacts]: what is printed is read
      back and what is cut off is refused, [JsonDecode]: decoding into structs.

    The agent (src/poc/agent):
    - [Pod]: pods as far as the agent reads them, and [podVM] (main.go).
    - [PodLifecycle]: reconcilePod, podDeleted, killVM, runPod, finalizePod
      (main.go) as a transition system [exec] over the agent's table, the
      goroutines' program points and the calls they make.
    - [NodeAgent]: registerNode, heartbeatLoop with the node's lease, and the
      order of main (main.go); the API server is the class [NodeAPI].
    - [StaticPods], [Mirror]: staticpods.go. A scan uses the agent as the
      watch does; the API server is the class [MirrorAPI].
    - [AgentLoops]: reconcileLoop with what the informer delivers, the loop of
      the static pods with the agent's steps in between, waitForSocket.
    - [Volumes]: resolveVolumes (main.go) and volumes.go.
    - [Rootfs]: makeRootfs and the spec (main.go), images.go's config readers,
      podIP6, collectHostPorts. [VMStart]: the attempt of runPod to start a VM.
    - [Images]: the pulls of images.go into the cache, interleaved;
      [ImageDir]: ensureImage in both of its modes and untar as the sequence
      of their calls with every exit, preparePod.
    - [Status]: status.go and setPhase. [Probes]: the loops of one container
      (probes.go), [PodProbes]: of a pod, and killContainer down to the guest.
    - [Resolver]: services.go; [SvcProto] is the interface it shares with the
      guest's data plane.
    - [Logs]: the log stream and authorisation of logs.go. [KubeletAPI]: its
      routes and handlers and those of streams.go, and kubectl exec end to end.
    - [HostPorts]: exposeHostPorts (hostports.go).
    - [Erofs] (the writer of erofs.go, and a reader of images),
      [ErofsTree], [ErofsOut], [ErofsEntries], [ErofsWalk], [ErofsDirs],
      [ErofsImage] (its invariants), [ErofsSpec] (its contract).

    The wire between the two: [Frames], module [Wire] (the codec, the same
    code on both sides) and module [Client] (streams.go, status.go);
    [ControlWire] and [SvcJson], the JSON of the control and of the service
    channel, and [SpecWire], of the spec file.

    Across the two: [ControlPaths], every request of the control channel from
    the agent's call to what the guest did and back, kubectl exec and the
    status poll included ([StatusPath]); [SvcWire], the service channel on
    bytes, with which the guest's load balancer and the agent's resolver
    compose; [SpecWire], a pod from its spec in the API to its containers;
    [ContainerIO], the final status in the share; [Serve], the listeners on
    both sides: serveVsock, startKubeletServer, startSvcListener.

    The guest (src/poc/execd):
    - [Boot]: main.go, blockroot.go: roots, mounts, network files, command
      lines and environments. [GuestRoot]: path lookup in a container's root.
    - [Supervisor]: supervisor.go, a transition system [exec] with one program
      point per container goroutine. [ContainerIO]: the copying of a
      container's output, and its final status file.
    - [Handlers]: handlers.go over [Frames], [Supervisor] and [Boot].
    - [ServiceLB]: services.go, proved against [ServiceSource] of [SvcProto],
      which [Resolver] implements. [Dns]: dns.go, one query; [DnsServe]: the
      lookups of many queries interleaved over the cache. [GuestNet]: net.go
      and setupServiceLB over the kernel's links, routes, rules and queue.

    The PKI (src/poc/pki): [Pki], over the classes [Crypto] and [CryptoLaws].

    ** What the theorems show

    - Pods: at most one goroutine and VM per pod UID in every reachable state,
      API objects deleted only when no goroutine is left, a stopped pod ends,
      at most one graceful shutdown; a scan of the manifests is a sequence of
      the agent's own steps and makes the running static pods those of the
      directory; three ticks of their loop make pods and mirrors those of the
      directory from any state; a resync repairs what the watch lost.
    - Starting a VM: a failed attempt leaves no process behind; each container
      boots the image, the command and the mounts of the pod's spec, across
      makeRootfs, the volumes, the harness's arguments, the spec's file and
      execd's boot. In the guest no container starts before every root and
      volume of the pod is mounted, and when the network is up its address
      is usable and the packets held for the balancer are the services'.
    - Containers: mains start after all inits succeeded, restarts follow the
      policy with the stated backoff, a shutdown ends in boundedly many steps,
      the exit code and the published phase agree; nothing a container prints
      is lost, whatever the interleaving with sessions and its exit.
    - The control channel: frames round-trip; kubectl exec, from the HTTP
      request on, runs the right command in the right VM and returns its
      streams and exit status, and the kubelet API serves nobody else; kill, shutdown,
      probe and status report what the guest did; all of it over the JSON of
      both sides, whose messages round-trip. The channel stays up under any
      clients, and none takes the supervisor out of its state space. The
      kubelet server lets in only chains of its client CA.
    - Status and probes: readiness, liveness and the startup gate are exact in
      the sequence of results, containers are probed apart, a failing liveness
      probe restarts the container and nothing else; one poll puts exactly
      what the supervisor knows into the API.
    - The node: it is registered before pods are reconciled, and its lease
      survives two failed heartbeats in a row.
    - Services: resolution is exact, the first packet of a connection reaches
      an endpoint that was ready in the agent's view at most 30 seconds before,
      whatever the channel between them did; DNS answers are the source's, at
      most 5 seconds old however the lookups interleave, and cluster names
      never leave the node; a VM reaches its own listener through restarts.
    - Images: a converted image gives back every tar entry and nothing else,
      its directories are sorted, and conversion ends without a crash; the
      cache holds whole images as long as pulls of one image do not overlap,
      and a pull that fails at any of its calls publishes nothing.
    - Volumes, logs, addresses, static UIDs, the merged environment and path
      lookup: exact against a reference, inside their bounds.
    - PKI: drift is exact, and a second run changes nothing.

    Theorems about behaviour that looks unintended are kept beside the model
    they are proved of ([deletion_during_pull_is_lost],
    [overlapping_pulls_break_the_cache], [follow_can_miss_the_end],
    [renamed_manifest_runs_twice], and others).

    ** Bounds and fuel

    Recursion that is not structural takes fuel, and each use has a value that
    is proved enough: the clients read with one more than the bytes of the
    connection ([read_fuel], [client_calls_return]); the EROFS path lookup
    with the length of the path ([lookup_fuel]) and the tree walk and directory
    packing with the number of nodes and entries ([convert_never_crashes]);
    resolveInRoot with 33, the code's own limit of 32 symlinks plus one.
    dialExecd makes the code's 20 attempts; waitForSocket looks once per 50
    milliseconds of its timeout and twice more ([wait_is_bounded]); the JSON
    reader has the length of the text. Images are at most [size_limit]
    bytes, what 32-bit block numbers address. Integers are [Z] with the wrap
    written out ([u8] to [u64]); times are nanoseconds, or seconds where the
    code has seconds, and microseconds in [NodeAgent].

    ** Concurrency

    Goroutines appear as explicit program points of a transition system and
    every interleaving of their steps is covered ([Supervisor],
    [PodLifecycle], [Probes], [PodProbes], [Images], [Logs], [ContainerIO],
    [DnsServe], [AgentLoops], [Serve]); a step is what the code does between
    two blocking points or under one lock. Two copiers of a process's
    output are an arbitrary merge of their chunks.

    ** What is not modelled

    Library code and the outside world are parameters or outcomes: YAML,
    SHA-256, cryptography, PEM, dnsmessage, client-go, the registry client,
    the effects and failures of netlink and nftables calls, sockets and TLS.
    Not modelled at all: the stream upgrade of the kubelet API, and the
    processes the agent starts (the vmnet and gvproxy helpers are third-party,
    the harness, in C, hands its arguments to libkrun): whether they start and
    when they exit are inputs. Flag parsing and logging are left out
    everywhere. *)
From stdpp Require Export prelude gmap strings sorting pretty.

(** ** Hint databases of the development *)

Create HintDb kom discriminated.
Create Rewrite HintDb kom_simpl.

(** ** Go results

    A Go function that returns [(T, error)] is modelled by [result E T]; a
    nil dereference, an index out of range or a loop that never ends is the
    third outcome, [Crash]. *)

Inductive crash := NilDeref | IndexRange | Hang.

Inductive result (E A : Type) :=
| Ok (a : A)
| Err (e : E)
| Crash (c : crash).
Arguments Ok {E A} a.
Arguments Err {E A} e.
Arguments Crash {E A} c.

#[export] Instance crash_eq_dec : EqDecision crash.
Proof. solve_decision. Defined.

#[export] Instance result_eq_dec {E A} `{EqDecision E, EqDecision A} : EqDecision (result E A).
Proof. solve_decision. Defined.

#[export] Instance result_ret {E} : MRet (result E) := fun A a => Ok a.
#[export] Instance result_bind {E} : MBind (result E) := fun A B f m =>
  match m with Ok a => f a | Err e => Err e | Crash c => Crash c end.
#[export] Instance result_fmap {E} : FMap (result E) := fun A B f m =>
  match m with Ok a => Ok (f a) | Err e => Err e | Crash c => Crash c end.

Definition is_ok {E A} (m : result E A) : bool :=
  match m with Ok _ => true | _ => false end.

(** [map_err] wraps the error of a call, as [fmt.Errorf("...: %w", err)]. *)
Definition map_err {E F A} (f : E -> F) (m : result E A) : result F A :=
  match m with Ok a => Ok a | Err e => Err (f e) | Crash c => Crash c end.

(** A nil pointer dereference when the option is [None]. *)
Definition deref {E A} (o : option A) : result E A :=
  match o with Some a => Ok a | None => Crash NilDeref end.

Lemma bind_ok {E A B} (m : result E A) (f : A -> result E B) (b : B) :
  m ≫= f = Ok b <-> exists a, m = Ok a /\ f a = Ok b.
Proof. destruct m; split; intros H; naive_solver. Qed.

Lemma map_err_ok {E F A} (f : E -> F) (m : result E A) (a : A) :
  map_err f m = Ok a <-> m = Ok a.
Proof. destruct m; naive_solver. Qed.

Lemma deref_ok {E A} (o : option A) (a : A) : deref (E:=E) o = Ok a <-> o = Some a.
Proof. destruct o; naive_solver. Qed.

#[export] Hint Rewrite @map_err_ok @deref_ok : kom_simpl.

(** Takes a hypothesis that a bind is [Ok] apart, down to its calls. *)
Ltac ok_inv_step H :=
  lazymatch type of H with
  | (_ ≫= _) = Ok _ =>
      let a := fresh "a" in let Ha := fresh "Hc" in
      apply bind_ok in H as (a & Ha & H)
  | map_err _ _ = Ok _ => apply map_err_ok in H
  | deref _ = Ok _ => apply deref_ok in H
  end.
Ltac ok_inv H := repeat ok_inv_step H; cbn beta in H.

(** ** Machine integers: an n-bit value is a [Z], wrapped explicitly. *)

Notation u8max := 256%Z.
Notation u16max := 65536%Z.
Notation u32max := 4294967296%Z.
Notation u64max := 18446744073709551616%Z.

Definition u8 (z : Z) : Z := z `mod` u8max.
Definition u16 (z : Z) : Z := z `mod` u16max.
Definition u32 (z : Z) : Z := z `mod` u32max.
Definition u64 (z : Z) : Z := z `mod` u64max.

(** Two's complement: the signed value of an n-bit pattern. *)
Definition i64 (z : Z) : Z :=
  let w := u64 z in if bool_decide (w < 9223372036854775808)%Z then w else (w - u64max)%Z.

Definition i32 (z : Z) : Z :=
  let w := u32 z in if bool_decide (w < 2147483648)%Z then w else (w - u32max)%Z.

Lemma u32_range z : (0 <= u32 z < u32max)%Z.
Proof. apply Z.mod_pos_bound. lia. Qed.
Lemma u32_small z : (0 <= z < u32max)%Z -> u32 z = z.
Proof. apply Z.mod_small. Qed.
Lemma u16_small z : (0 <= z < u16max)%Z -> u16 z = z.
Proof. apply Z.mod_small. Qed.
Lemma u8_small z : (0 <= z < u8max)%Z -> u8 z = z.
Proof. apply Z.mod_small. Qed.
Lemma u64_small z : (0 <= z < u64max)%Z -> u64 z = z.
Proof. apply Z.mod_small. Qed.
#[export] Hint Resolve u32_range u32_small u16_small u8_small u64_small : kom.

(** ** Byte sequences

    A byte is a [Z] in [0, 256); [le_bytes n z] is what
    [binary.LittleEndian.PutUint] writes for an n-byte unsigned value and
    [be_bytes] its big-endian counterpart. *)

Notation bytes := (list Z).

Definition is_byte (b : Z) : Prop := (0 <= b < u8max)%Z.

Fixpoint le_bytes (n : nat) (z : Z) : bytes :=
  match n with
  | O => []
  | S n' => (z `mod` u8max)%Z :: le_bytes n' (z `div` u8max)%Z
  end.

Fixpoint le_val (l : bytes) : Z :=
  match l with
  | [] => 0
  | b :: t => b + u8max * le_val t
  end%Z.

Definition be_bytes (n : nat) (z : Z) : bytes := reverse (le_bytes n z).
Definition be_val (l : bytes) : Z := le_val (reverse l).
#[global] Arguments be_bytes : simpl never.
#[global] Arguments be_val : simpl never.
#[global] Arguments u32 : simpl never.

Lemma length_le_bytes n z : length (le_bytes n z) = n.
Proof. revert z; induction n; intros z; simpl; auto. Qed.

Lemma length_be_bytes n z : length (be_bytes n z) = n.
Proof. unfold be_bytes. by rewrite length_reverse, length_le_bytes. Qed.

#[export] Hint Rewrite length_le_bytes length_be_bytes : kom_simpl.

Lemma le_val_bytes n z : le_val (le_bytes n z) = (z `mod` u8max ^ Z.of_nat n)%Z.
Proof.
  revert z; induction n as [|n IH]; intros z.
  { simpl. by rewrite Z.mod_1_r. }
  cbn [le_bytes le_val]. rewrite IH, Nat2Z.inj_succ, Z.pow_succ_r by lia.
  rewrite Z.rem_mul_r by (auto using Z.pow_pos_nonneg with lia; lia). lia.
Qed.

Lemma be_val_bytes n z : be_val (be_bytes n z) = (z `mod` u8max ^ Z.of_nat n)%Z.
Proof. unfold be_val, be_bytes. by rewrite reverse_involutive, le_val_bytes. Qed.

Lemma le_val_small n z : (0 <= z < u8max ^ Z.of_nat n)%Z -> le_val (le_bytes n z) = z.
Proof. intros H. by rewrite le_val_bytes, Z.mod_small. Qed.

Lemma le_bytes_range n z : Forall is_byte (le_bytes n z).
Proof.
  revert z; induction n as [|n IH]; intros z; cbn [le_bytes]; constructor; auto.
  apply Z.mod_pos_bound. lia.
Qed.

Lemma le_val_range l : Forall is_byte l -> (0 <= le_val l < u8max ^ Z.of_nat (length l))%Z.
Proof.
  induction 1 as [|b l [??] _ IH]; [simpl; lia|].
  cbn [le_val length]. rewrite Nat2Z.inj_succ, Z.pow_succ_r by lia. nia.
Qed.

(** *** Strings as byte sequences *)

Definition byte_of_ascii (a : Ascii.ascii) : Z := Z.of_N (Ascii.N_of_ascii a).
Definition ascii_of_byte (b : Z) : Ascii.ascii := Ascii.ascii_of_N (Z.to_N b).

Fixpoint bytes_of_string (s : string) : bytes :=
  match s with
  | EmptyString => []
  | String a s' => byte_of_ascii a :: bytes_of_string s'
  end.

Fixpoint string_of_bytes (l : bytes) : string :=
  match l with
  | [] => EmptyString
  | b :: l' => String (ascii_of_byte b) (string_of_bytes l')
  end.

Lemma ascii_of_byte_of_ascii a : ascii_of_byte (byte_of_ascii a) = a.
Proof. unfold ascii_of_byte, byte_of_ascii. by rewrite N2Z.id, Ascii.ascii_N_embedding. Qed.

Lemma byte_of_ascii_range a : is_byte (byte_of_ascii a).
Proof.
  unfold is_byte, byte_of_ascii. pose proof (Ascii.N_ascii_bounded a). lia.
Qed.

Lemma string_of_bytes_of_string s : string_of_bytes (bytes_of_string s) = s.
Proof. induction s as [|a s IH]; cbn; [done|]. by rewrite ascii_of_byte_of_ascii, IH. Qed.

Lemma bytes_of_string_range s : Forall is_byte (bytes_of_string s).
Proof. induction s; cbn; constructor; auto using byte_of_ascii_range. Qed.

Lemma length_bytes_of_string s : length (bytes_of_string s) = String.length s.
Proof. induction s; cbn; lia. Qed.

Lemma bytes_of_string_app s t : bytes_of_string (s +:+ t) = bytes_of_string s ++ bytes_of_string t.
Proof. induction s as [|a s IH]; [done|]. change (String a s +:+ t) with (String a (s +:+ t)). cbn. by rewrite IH. Qed.

Lemma bytes_of_string_inj s t : bytes_of_string s = bytes_of_string t -> s = t.
Proof. intros H. by rewrite <-(string_of_bytes_of_string s), H, string_of_bytes_of_string. Qed.

#[export] Hint Resolve byte_of_ascii_range bytes_of_string_range le_bytes_range : kom.

(** ** Slices and files *)

(** [l[off:off+len]] of a Go slice (the caller checks the range). *)
Definition slice {A} (off len : nat) (l : list A) : list A := take len (drop off l).

Declare Scope kom_scope.
Delimit Scope kom_scope with kom.
Notation "l .[ off , len ]" := (slice off len l)
  (at level 1, left associativity, format "l .[ off ,  len ]") : kom_scope.
#[global] Open Scope kom_scope.

Lemma length_slice {A} off len (l : list A) :
  off + len <= length l -> length (slice off len l) = len.
Proof. intros H. unfold slice. rewrite length_take, length_drop. lia. Qed.

Lemma slice_app_r {A} off len (l1 l2 : list A) :
  length l1 <= off -> slice off len (l1 ++ l2) = slice (off - length l1) len l2.
Proof. intros H. unfold slice. by rewrite drop_app_ge. Qed.

Lemma slice_app_l {A} off len (l1 l2 : list A) :
  off + len <= length l1 -> slice off len (l1 ++ l2) = slice off len l1.
Proof.
  intros H. unfold slice. rewrite drop_app_le by lia.
  rewrite take_app_le; [done|]. rewrite length_drop. lia.
Qed.

Lemma slice_split {A} off n m (l : list A) : slice off (n + m) l = slice off n l ++ slice (off + n) m l.
Proof. unfold slice. by rewrite <-drop_drop, take_take_drop. Qed.

Lemma slice_app_exact {A} (l1 l2 l3 : list A) :
  slice (length l1) (length l2) (l1 ++ l2 ++ l3) = l2.
Proof. unfold slice. by rewrite drop_app_length, take_app_length. Qed.

Lemma slice_app_mid {A} off len (l1 l2 l3 : list A) :
  off = length l1 -> len = length l2 -> slice off len (l1 ++ l2 ++ l3) = l2.
Proof. intros -> ->. apply slice_app_exact. Qed.

(** [Write] at position [pos] of a seekable file: overwrites, extends at the
    end, and leaves a hole of zeros when the position is past the end. *)
Definition write_at (pos : nat) (bs : bytes) (f : bytes) : bytes :=
  take pos (f ++ replicate (pos - length f) 0%Z) ++ bs ++ drop (pos + length bs) f.

Lemma write_at_end f bs : write_at (length f) bs f = f ++ bs.
Proof.
  unfold write_at. rewrite Nat.sub_diag, app_nil_r, take_ge by done.
  by rewrite drop_ge, app_nil_r by lia.
Qed.

Lemma length_write_at pos bs f :
  length (write_at pos bs f) = Nat.max (pos + length bs) (length f).
Proof.
  unfold write_at. rewrite !length_app, length_take, length_app, length_replicate, length_drop.
  lia.
Qed.

Lemma write_at_after pos bs f off len :
  pos + length bs <= off -> pos <= length f ->
  slice off len (write_at pos bs f) = slice off len f.
Proof.
  intros H Hp. unfold write_at, slice.
  rewrite drop_app_ge by (rewrite length_take, length_app, length_replicate; lia).
  rewrite length_take, length_app, length_replicate.
  rewrite drop_app_ge by lia. rewrite drop_drop. f_equal. f_equal. lia.
Qed.

Lemma write_at_same pos bs f : pos <= length f -> slice pos (length bs) (write_at pos bs f) = bs.
Proof.
  intros H. unfold write_at. apply slice_app_mid; [|done].
  rewrite length_take, length_app, length_replicate. lia.
Qed.

(** ** Step relations *)

(** An invariant of a step relation holds in every reachable state. *)
Lemma rtc_invariant {A} (R : relation A) (P : A -> Prop) x y :
  (forall a b, P a -> R a b -> P b) -> P x -> rtc R x y -> P y.
Proof. intros Hstep Hx Hr. induction Hr; eauto. Qed.

(** ** Lists *)

Lemma Forall2_fmap_eq {A B C} (f : A -> C) (g : B -> C) l k :
  Forall2 (fun a b => f a = g b) l k <-> f <$> l = g <$> k.
Proof.
  split.
  - induction 1; cbn; congruence.
  - revert k. induction l as [|x l IH]; intros [|y k] H; try discriminate; constructor.
    + by injection H.
    + apply IH. by injection H.
Qed.

(** The last write of a list of map insertions wins. *)
Definition build_map {K V} `{Countable K} (l : list (K * V)) : gmap K V :=
  foldl (fun m kv => <[kv.1 := kv.2]> m) ∅ l.

Lemma foldl_insert_lookup_ne {K V} `{Countable K} (l : list (K * V)) (m : gmap K V) k :
  k ∉ l.*1 -> foldl (fun m kv => <[kv.1 := kv.2]> m) m l !! k = m !! k.
Proof.
  revert m. induction l as [|[k' v] l IH]; intros m Hk; cbn in *; [done|].
  rewrite IH by set_solver. rewrite lookup_insert_ne; set_solver.
Qed.

Lemma build_map_lookup {K V} `{Countable K} (l : list (K * V)) k v :
  NoDup l.*1 -> (k, v) ∈ l -> build_map l !! k = Some v.
Proof.
  unfold build_map. generalize (∅ : gmap K V).
  induction l as [|[k' v'] l IH]; intros m Hnd Hin; [set_solver|].
  cbn in *. apply NoDup_cons in Hnd as [Hk' Hnd].
  apply elem_of_cons in Hin as [[= -> ->]|Hin].
  - rewrite foldl_insert_lookup_ne by done. by rewrite lookup_insert_eq.
  - by apply IH.
Qed.

Lemma build_map_snoc {K V} `{Countable K} (l : list (K * V)) k v : build_map (l ++ [(k, v)]) = <[k := v]> (build_map l).
Proof. unfold build_map. by rewrite foldl_app. Qed.
Lemma build_map_cons_lookup {K V} `{Countable K} (l : list (K * V)) k v j :
  build_map ((k, v) :: l) !! j = match build_map l !! j with Some x => Some x | None => if decide (j = k) then Some v else None end.
Proof.
  induction l as [|[k' v'] l IH] using rev_ind.
  - cbn. rewrite lookup_empty. case_decide as Hd; [subst; by rewrite lookup_insert_eq|]. rewrite lookup_insert_ne by done. apply lookup_empty.
  - rewrite app_comm_cons, !build_map_snoc. destruct (decide (j = k')) as [->|Hne]; [by rewrite !lookup_insert_eq|].
    by rewrite !lookup_insert_ne by done.
Qed.

Lemma build_map_lookup_None {K V} `{Countable K} (l : list (K * V)) k :
  k ∉ l.*1 -> build_map l !! k = None.
Proof. intros Hk. unfold build_map. by rewrite foldl_insert_lookup_ne. Qed.

(** The distinct elements of a list, in the order of their first use: what a
    loop that numbers new values with a map's size computes. *)
Definition first_uses {A} `{EqDecision A} (l : list A) : list A :=
  foldl (fun acc x => if decide (x ∈ acc) then acc else acc ++ [x]) [] l.

Definition index_of {A} `{EqDecision A} (x : A) (l : list A) : option nat := fst <$> list_find (x =.) l.

Lemma first_uses_snoc {A} `{EqDecision A} (l : list A) x :
  first_uses (l ++ [x]) = if decide (x ∈ first_uses l) then first_uses l else first_uses l ++ [x].
Proof. unfold first_uses. by rewrite foldl_app. Qed.

Lemma elem_of_first_uses {A} `{EqDecision A} (l : list A) x : x ∈ first_uses l <-> x ∈ l.
Proof.
  induction l as [|y l IH] using rev_ind; [done|]. rewrite first_uses_snoc, elem_of_app, list_elem_of_singleton.
  case_decide; [|rewrite elem_of_app, list_elem_of_singleton]; naive_solver.
Qed.

Lemma NoDup_first_uses {A} `{EqDecision A} (l : list A) : NoDup (first_uses l).
Proof.
  induction l as [|y l IH] using rev_ind; [constructor|]. rewrite first_uses_snoc. case_decide as Hy; [done|].
  apply NoDup_app. split_and!; [done| |apply NoDup_singleton]. intros x Hx ->%list_elem_of_singleton. done.
Qed.

Lemma index_of_lookup {A} `{EqDecision A} (x : A) l k : index_of x l = Some k -> l !! k = Some x.
Proof.
  unfold index_of. intros ([i y] & Hf & ->)%fmap_Some. apply list_find_Some in Hf as (Hl & -> & _). done.
Qed.

Lemma index_of_None {A} `{EqDecision A} (x : A) l : index_of x l = None <-> x ∉ l.
Proof.
  unfold index_of. rewrite fmap_None, list_find_None, Forall_forall. split; [intros H Hin; by apply (H x)|].
  intros H y Hy ->. done.
Qed.

Lemma index_of_app_l {A} `{EqDecision A} (x : A) l l' : x ∈ l -> index_of x (l ++ l') = index_of x l.
Proof.
  intros Hx. unfold index_of. destruct (list_find (x =.) l) as [[i y]|] eqn:Hf.
  - by rewrite (list_find_app_l _ _ _ _ _ Hf).
  - exfalso. apply list_find_None in Hf. rewrite Forall_forall in Hf. by apply (Hf x).
Qed.

Lemma index_of_snoc {A} `{EqDecision A} (x : A) l : x ∉ l -> index_of x (l ++ [x]) = Some (length l).
Proof.
  intros Hx. unfold index_of. rewrite list_find_app_r; [|apply list_find_None, Forall_forall; intros y Hy ->; done].
  cbn. rewrite decide_True by done. done.
Qed.

Lemma index_of_elem {A} `{EqDecision A} (x : A) l : x ∈ l -> exists k, index_of x l = Some k /\ k < length l.
Proof.
  intros Hx. destruct (index_of x l) as [k|] eqn:E.
  - exists k. split; [done|]. by eapply lookup_lt_Some, index_of_lookup.
  - by apply index_of_None in E.
Qed.

Lemma filter_every {A} (P : A -> Prop) `{!forall x, Decision (P x)} (l : list A) : Forall P l -> filter P l = l.
Proof. induction 1 as [|x l Hx _ IH]; [done|]. by rewrite filter_cons_True, IH. Qed.

(** What was put in front of a list that only grows there. *)
Definition new_of {A} (before after : list A) : list A := take (length after - length before) after.

Lemma new_of_app {A} (new l : list A) : new_of l (new ++ l) = new.
Proof. unfold new_of. rewrite length_app. replace (_ + _ - _) with (length new) by lia. by rewrite take_app_length. Qed.
Lemma new_of_same {A} (l : list A) : new_of l l = [].
Proof. apply (new_of_app []). Qed.

(** ** The order of strings: bytewise, as [sort.Strings] and [bytes.Compare] *)

Definition str_le (s t : string) : Prop := String.leb s t = true.
#[export] Instance str_le_dec s t : Decision (str_le s t).
Proof. unfold str_le. apply _. Defined.

#[export] Instance str_le_total : Total str_le.
Proof. intros s t. apply String.leb_total. Qed.

#[export] Instance str_le_antisymm : AntiSymm (=) str_le.
Proof. intros s t. apply String.leb_antisym. Qed.

#[export] Instance str_le_trans : Transitive str_le.
Proof.
  unfold str_le. intros s. induction s as [|a s IH]; intros [|b t] [|c u]; try done. unfold String.leb. cbn [String.compare].
  destruct (Ascii.compare a b) eqn:E1, (Ascii.compare b c) eqn:E2; try done; unfold Ascii.compare in *.
  - apply N.compare_eq in E1, E2. rewrite E1, E2, N.compare_refl. apply IH.
  - apply N.compare_eq in E1. by rewrite E1, E2.
  - apply N.compare_eq in E2. by rewrite <-E2, E1.
  - rewrite N.compare_lt_iff in E1, E2. assert (N.compare (Ascii.N_of_ascii a) (Ascii.N_of_ascii c) = Lt) as -> by (apply N.compare_lt_iff; lia). done.
Qed.

Lemma sorted_perm_eq l k : l ≡ₚ k <-> merge_sort str_le l = merge_sort str_le k.
Proof.
  split.
  - intros Hp. apply (StronglySorted_unique str_le); [by apply StronglySorted_merge_sort; apply _..|]. by rewrite !merge_sort_Permutation.
  - intros E. rewrite <-(merge_sort_Permutation str_le l), E. apply merge_sort_Permutation.
Qed.

(** ** A state that is threaded through calls that can fail

    A failing call keeps the changes made before it. *)

Definition stM (S E A : Type) : Type := S -> S * result E A.
#[export] Instance stM_ret {S E} : MRet (stM S E) := fun A a s => (s, Ok a).
#[export] Instance stM_bind {S E} : MBind (stM S E) := fun A B f m s =>
  match m s with
  | (s', Ok a) => f a s'
  | (s', Err e) => (s', Err e)
  | (s', Crash c) => (s', Crash c)
  end.
Definition st_lift {S E A} (r : result E A) : stM S E A := fun s => (s, r).
Definition st_get {S E A} (f : S -> A) : stM S E A := fun s => (s, Ok (f s)).
Definition st_fail {S E A} (e : E) : stM S E A := fun s => (s, Err e).

Lemma st_bind_ok {S E A B} (m : stM S E A) (f : A -> stM S E B) s s' b :
  (m ≫= f) s = (s', Ok b) -> exists s1 a, m s = (s1, Ok a) /\ f a s1 = (s', Ok b).
Proof. unfold mbind, stM_bind. destruct (m s) as [s1 [a|e|c]]; naive_solver. Qed.
Lemma st_ret_ok {S E A} (a b : A) (s s' : S) : mret (M:=stM S E) a s = (s', Ok b) -> s' = s /\ b = a.
Proof. by intros [= <- <-]. Qed.
Lemma st_lift_ok {S E A} (r : result E A) (s s' : S) b : st_lift r s = (s', Ok b) -> s' = s /\ r = Ok b.
Proof. by intros [= <- ->]. Qed.
Lemma st_get_ok {S E A} (f : S -> A) (s s' : S) b : st_get (E:=E) f s = (s', Ok b) -> s' = s /\ b = f s.
Proof. by intros [= <- <-]. Qed.
