(* ===== verification/GoStrings.v ===== *)
(** * What the code uses of Go's [strings], [path] and [path/filepath]

    Definitions of the standard-library functions the modelled code calls, on
    byte strings: [Split], [Join], [Cut], [HasPrefix], [HasSuffix],
    [TrimPrefix], [TrimSuffix], [Trim] of one character, [ToLower] and
    [ToUpper] (ASCII letters), [path.Clean], [path.Join], [path.Dir],
    [path.Base] (the Unix [filepath] functions are the same), with the lemmas
    that carry the confinement results: the shape of a cleaned rooted path and
    what joining it under a directory gives. *)
From S2P Require Import Prelude.
From Stdlib Require Import Ascii.

Notation slash := "/"%char.

(** ** Characters of a string *)

Fixpoint has_char (c : ascii) (s : string) : bool :=
  match s with
  | EmptyString => false
  | String a s' => Ascii.eqb a c || has_char c s'
  end.

Notation no_char c s := (has_char c s = false).

Lemma str_app_cons a s t : String a s +:+ t = String a (s +:+ t).
Proof. done. Qed.
Lemma str_app_nil_l t : "" +:+ t = t.
Proof. done. Qed.
Lemma str_app_nil_r s : s +:+ "" = s.
Proof. induction s as [|a s IH]; [done|]. by rewrite str_app_cons, IH. Qed.
Lemma str_app_assoc s t u : (s +:+ t) +:+ u = s +:+ (t +:+ u).
Proof. induction s as [|a s IH]; [done|]. by rewrite !str_app_cons, IH. Qed.
Lemma str_length_app s t : String.length (s +:+ t) = String.length s + String.length t.
Proof. induction s as [|a s IH]; [done|]. rewrite str_app_cons. cbn. by rewrite IH. Qed.

Lemma has_char_app c s t : has_char c (s +:+ t) = has_char c s || has_char c t.
Proof. induction s as [|a s IH]; [done|]. rewrite str_app_cons. cbn. by rewrite IH, orb_assoc. Qed.

(** A string is cut uniquely at the last occurrence of a character. *)
Lemma last_sep_inj c a b p q :
  no_char c p -> no_char c q ->
  a +:+ String c p = b +:+ String c q -> a = b /\ p = q.
Proof.
  intros Hp Hq. revert b. induction a as [|x a IH]; intros [|y b] H;
    rewrite ?str_app_cons, ?str_app_nil_l in H.
  - by injection H as ->.
  - injection H as -> ->. exfalso. rewrite has_char_app in Hp. cbn in Hp.
    by rewrite Ascii.eqb_refl, orb_true_r in Hp.
  - injection H as -> <-. exfalso. rewrite has_char_app in Hq. cbn in Hq.
    by rewrite Ascii.eqb_refl, orb_true_r in Hq.
  - injection H as -> H. destruct (IH b H) as [-> ->]. done.
Qed.

(** Decimal numbers have no colon (nor any other non-digit but a dash). *)
Lemma pretty_N_go_no_char c x s :
  (forall n, Ascii.eqb (pretty_N_char n) c = false) -> no_char c s -> no_char c (pretty_N_go x s).
Proof.
  intros Hc. revert s. induction (N.lt_wf_0 x) as [x _ IH]; intros s Hs.
  assert (x = 0 \/ 0 < x)%N as [->|Hx] by lia; [done|].
  rewrite pretty_N_go_step by done. apply IH; [by apply N.div_lt|]. cbn. by rewrite Hc, Hs.
Qed.

Lemma pretty_Z_no_colon (z : Z) : no_char ":" (pretty z).
Proof.
  assert (forall n, Ascii.eqb (pretty_N_char n) ":" = false) as Hd.
  { intros n. unfold pretty_N_char. by repeat case_match. }
  assert (forall n : N, no_char ":" (pretty n)) as HN.
  { intros n. unfold pretty, pretty_N. case_decide; [done|]. by apply pretty_N_go_no_char. }
  destruct z as [|p|p]; unfold pretty, pretty_Z; [done|apply (HN (N.pos p))|].
  rewrite has_char_app. cbn. apply (HN (N.pos p)).
Qed.

(** ** [strings] *)

(** [strings.Split(s, sep)] for a one-character separator. *)
Fixpoint Split (c : ascii) (s : string) : list string :=
  match s with
  | EmptyString => [""]
  | String a s' =>
      if Ascii.eqb a c then "" :: Split c s'
      else match Split c s' with
           | [] => [String a ""]
           | x :: xs => String a x :: xs
           end
  end.

(** [strings.Join(l, sep)] *)
Fixpoint Join (c : ascii) (l : list string) : string :=
  match l with
  | [] => ""
  | [x] => x
  | x :: l' => x +:+ String c (Join c l')
  end.

Fixpoint HasPrefix (s prefix : string) : bool :=
  match prefix, s with
  | EmptyString, _ => true
  | String p prefix', String a s' => Ascii.eqb a p && HasPrefix s' prefix'
  | _, _ => false
  end.

Fixpoint drop_string (n : nat) (s : string) : string :=
  match n, s with
  | S n', String _ s' => drop_string n' s'
  | _, _ => s
  end.

Fixpoint take_string (n : nat) (s : string) : string :=
  match n, s with
  | S n', String a s' => String a (take_string n' s')
  | _, _ => ""
  end.

Definition TrimPrefix (s prefix : string) : string :=
  if HasPrefix s prefix then drop_string (String.length prefix) s else s.

Definition HasSuffix (s suffix : string) : bool :=
  bool_decide (String.length suffix <= String.length s) &&
  String.eqb (drop_string (String.length s - String.length suffix) s) suffix.

Definition TrimSuffix (s suffix : string) : string :=
  if HasSuffix s suffix then take_string (String.length s - String.length suffix) s else s.

(** [strings.Cut(s, sep)]: the parts before and after, and whether found. *)
Fixpoint Cut (c : ascii) (s : string) : string * string * bool :=
  match s with
  | EmptyString => ("", "", false)
  | String a s' =>
      if Ascii.eqb a c then ("", s', true)
      else let '(x, y, found) := Cut c s' in (String a x, y, found)
  end.

Definition CutPrefix (s prefix : string) : option string :=
  if HasPrefix s prefix then Some (drop_string (String.length prefix) s) else None.

(** [strings.Trim(s, cutset)] for a cutset of one character. *)
Fixpoint TrimLeft (c : ascii) (s : string) : string :=
  match s with
  | String a s' => if Ascii.eqb a c then TrimLeft c s' else s
  | EmptyString => ""
  end.
Fixpoint TrimRight (c : ascii) (s : string) : string :=
  match s with
  | EmptyString => ""
  | String a s' =>
      match TrimRight c s' with
      | EmptyString => if Ascii.eqb a c then "" else String a ""
      | t => String a t
      end
  end.
Definition Trim (c : ascii) (s : string) : string := TrimRight c (TrimLeft c s).

Definition lower_ascii (a : ascii) : ascii :=
  let n := N_of_ascii a in
  if ((65 <=? n) && (n <=? 90))%N then ascii_of_N (n + 32) else a.
Definition upper_ascii (a : ascii) : ascii :=
  let n := N_of_ascii a in
  if ((97 <=? n) && (n <=? 122))%N then ascii_of_N (n - 32) else a.
Fixpoint map_string (f : ascii -> ascii) (s : string) : string :=
  match s with EmptyString => "" | String a s' => String (f a) (map_string f s') end.
Definition ToLower : string -> string := map_string lower_ascii.
Definition ToUpper : string -> string := map_string upper_ascii.

(** ** [path] *)

(** One component of [path.Clean], on the stack of components kept so far
    (the last one first). *)
Definition clean_step (rooted : bool) (stack : list string) (c : string) : list string :=
  if bool_decide (c = "" \/ c = ".") then stack
  else if bool_decide (c = "..") then
    match stack with
    | [] => if rooted then [] else [".."]
    | t :: st => if bool_decide (t = "..") then ".." :: stack else st
    end
  else c :: stack.

Definition is_rooted (p : string) : bool := HasPrefix p "/".
Definition clean_comps (p : string) : list string :=
  reverse (foldl (clean_step (is_rooted p)) [] (Split slash p)).

Definition Clean (p : string) : string :=
  let s := (if is_rooted p then "/" else "") +:+ Join slash (clean_comps p) in
  if bool_decide (s = "") then "." else s.

(** [path.Join]: empty elements are ignored. *)
Definition PathJoin (l : list string) : string :=
  match filter (fun s => s <> "") l with
  | [] => ""
  | l' => Clean (Join slash l')
  end.

(** The part up to and including the last slash, and the rest. *)
Definition split_last (p : string) : string * string :=
  match reverse (Split slash p) with
  | [] => ("", "")
  | [x] => ("", x)
  | x :: rest => (Join slash (reverse rest) +:+ "/", x)
  end.

Definition Dir (p : string) : string := Clean (split_last p).1.

Definition Base (p : string) : string :=
  if bool_decide (p = "") then "."
  else
    let t := TrimRight slash p in
    if bool_decide (t = "") then "/" else (split_last t).2.

(** ** Lemmas *)

Lemma Split_nonempty c s : Split c s <> [].
Proof. destruct s as [|a s]; cbn; [done|]. case_match; [done|]. by case_match. Qed.

Lemma Split_no_char c s : no_char c s -> Split c s = [s].
Proof.
  induction s as [|a s IH]; cbn; [done|]. intros [Ha Hs]%orb_false_iff. by rewrite Ha, IH.
Qed.

Lemma Split_comps_no_char c s : Forall (fun x => no_char c x) (Split c s).
Proof.
  induction s as [|a s IH]; cbn; [by constructor|].
  destruct (Ascii.eqb a c) eqn:Ha; [by constructor|].
  destruct (Split c s) as [|x xs]; [by constructor; cbn; rewrite ?Ha|].
  apply Forall_cons in IH as [Hx Hxs]. constructor; [|done]. cbn. by rewrite Ha.
Qed.

Lemma Split_app c s t : no_char c s -> Split c (s +:+ String c t) = s :: Split c t.
Proof.
  induction s as [|a s IH]; cbn.
  - intros _. rewrite str_app_nil_l. cbn. by rewrite Ascii.eqb_refl.
  - intros [Ha Hs]%orb_false_iff. rewrite str_app_cons. cbn. by rewrite Ha, IH.
Qed.

Lemma Split_Join c l :
  l <> [] -> Forall (fun x => no_char c x) l -> Split c (Join c l) = l.
Proof.
  intros Hne Hl. induction Hl as [|x l Hx Hl IH]; [done|].
  destruct l as [|y l]; [by apply Split_no_char|].
  change (Join c (x :: y :: l)) with (x +:+ String c (Join c (y :: l))).
  rewrite Split_app by done. by rewrite IH.
Qed.

Lemma Join_Split c s : Join c (Split c s) = s.
Proof.
  induction s as [|a s IH]; cbn; [done|].
  destruct (Ascii.eqb a c) eqn:Ha.
  - apply Ascii.eqb_eq in Ha as ->. pose proof (Split_nonempty c s).
    destruct (Split c s) as [|x xs] eqn:E; [done|].
    change (Join c ("" :: x :: xs)) with ("" +:+ String c (Join c (x :: xs))).
    by rewrite IH, str_app_nil_l.
  - pose proof (Split_nonempty c s). destruct (Split c s) as [|x xs] eqn:E; [done|].
    rewrite <-IH. by destruct xs.
Qed.

Lemma Join_cons c x l : l <> [] -> Join c (x :: l) = x +:+ String c (Join c l).
Proof. by destruct l. Qed.

Lemma Join_app c l k : l <> [] -> k <> [] -> Join c (l ++ k) = Join c l +:+ String c (Join c k).
Proof.
  intros Hl Hk. induction l as [|x l IH]; [done|]. destruct l as [|y l].
  - cbn [app]. by rewrite Join_cons.
  - rewrite <-app_comm_cons, Join_cons by (by destruct l). rewrite IH by done.
    rewrite (Join_cons c x (y :: l)) by done. by rewrite str_app_assoc, str_app_cons.
Qed.

Lemma HasPrefix_app s t : HasPrefix (s +:+ t) s = true.
Proof. induction s as [|a s IH]; [by destruct t|]. rewrite str_app_cons. cbn. by rewrite Ascii.eqb_refl. Qed.

Lemma HasPrefix_exists s p : HasPrefix s p = true <-> exists t, s = p +:+ t.
Proof.
  split; [|intros [t ->]; apply HasPrefix_app].
  revert s. induction p as [|a p IH]; intros s H; [by exists s|].
  destruct s as [|b s]; cbn in H; [done|]. apply andb_true_iff in H as [->%Ascii.eqb_eq H].
  destruct (IH s H) as [t ->]. by exists t.
Qed.

Lemma drop_string_app s t : drop_string (String.length s) (s +:+ t) = t.
Proof. induction s as [|a s IH]; [done|]. by rewrite str_app_cons. Qed.

(** *** Clean paths *)

(** A component [Clean] keeps in a rooted path. *)
Definition plain (c : string) : Prop :=
  c <> "" /\ c <> "." /\ c <> ".." /\ no_char slash c.

Lemma clean_step_plain stack c :
  Forall plain stack -> no_char slash c -> Forall plain (clean_step true stack c).
Proof.
  intros Hs Hc. unfold clean_step. case_bool_decide as H1; [done|].
  case_bool_decide as H2.
  - destruct stack as [|t st]; [done|]. apply Forall_cons in Hs as [(?&?&?&?) ?].
    by rewrite bool_decide_false by done.
  - constructor; [|done]. unfold plain. naive_solver.
Qed.

Lemma foldl_clean_plain l stack :
  Forall plain stack -> Forall (fun c => no_char slash c) l ->
  Forall plain (foldl (clean_step true) stack l).
Proof.
  intros Hs Hl. revert stack Hs. induction Hl as [|c l Hc _ IH]; intros stack Hs; [done|].
  cbn. apply IH. by apply clean_step_plain.
Qed.

Lemma clean_comps_plain p : is_rooted p = true -> Forall plain (clean_comps p).
Proof.
  intros Hr. unfold clean_comps. rewrite Hr. apply Forall_reverse.
  apply foldl_clean_plain; [done|apply Split_comps_no_char].
Qed.

(** Plain components are kept as they are. *)
Lemma foldl_clean_keep rooted l stack :
  Forall plain l -> foldl (clean_step rooted) stack l = reverse l ++ stack.
Proof.
  intros Hl. revert stack. induction Hl as [|c l (H1&H2&H3&_) _ IH]; intros stack; [done|].
  cbn [foldl]. unfold clean_step at 2. rewrite bool_decide_false by naive_solver.
  rewrite bool_decide_false by done. rewrite IH, reverse_cons, <-app_assoc. done.
Qed.

Lemma plain_no_slash l : Forall plain l -> Forall (fun x => no_char slash x) l.
Proof. intros H. eapply Forall_impl; [exact H|]. unfold plain. naive_solver. Qed.

(** The absolute path with given components. *)
Definition abs_path (l : list string) : string := "/" +:+ Join slash l.

Lemma is_rooted_abs l : is_rooted (abs_path l) = true.
Proof. apply HasPrefix_app. Qed.

Lemma Clean_rooted p : is_rooted p = true -> Clean p = abs_path (clean_comps p).
Proof. intros H. unfold Clean. rewrite H. by rewrite bool_decide_false. Qed.

Lemma Split_abs l : l <> [] -> Forall plain l -> Split slash (abs_path l) = "" :: l.
Proof.
  intros Hne Hl. unfold abs_path.
  change ("/" +:+ Join slash l) with ("" +:+ String slash (Join slash l)).
  rewrite Split_app by done. rewrite Split_Join; auto using plain_no_slash.
Qed.

Lemma clean_comps_abs l : Forall plain l -> clean_comps (abs_path l) = l.
Proof.
  intros Hl. unfold clean_comps. rewrite is_rooted_abs. destruct (decide (l = [])) as [->|Hne]; [done|].
  rewrite Split_abs by done. cbn [foldl].
  change (clean_step true [] "") with (@nil string).
  by rewrite foldl_clean_keep, app_nil_r, reverse_involutive.
Qed.

(** [Clean] is idempotent on rooted paths. *)
Lemma Clean_abs l : Forall plain l -> Clean (abs_path l) = abs_path l.
Proof. intros Hl. rewrite Clean_rooted by apply is_rooted_abs. by rewrite clean_comps_abs. Qed.

(** Joining a cleaned rooted path under a clean absolute directory appends
    its components: this is what confines the result to the directory. *)
Lemma PathJoin_abs d l :
  Forall plain d -> Forall plain l ->
  PathJoin [abs_path d; abs_path l] = abs_path (d ++ l).
Proof.
  intros Hd Hl. unfold PathJoin.
  assert (filter (fun s => s <> "") [abs_path d; abs_path l] = [abs_path d; abs_path l]) as ->.
  { unfold abs_path. rewrite !filter_cons. by rewrite !decide_True by done. }
  change (Join slash [abs_path d; abs_path l]) with (abs_path d +:+ String slash (abs_path l)).
  assert (is_rooted (abs_path d +:+ String slash (abs_path l)) = true) as Hr.
  { unfold abs_path. rewrite str_app_assoc. apply HasPrefix_app. }
  rewrite Clean_rooted by done. f_equal. unfold clean_comps. rewrite Hr.
  assert (Split slash (abs_path d +:+ String slash (abs_path l)) =
          "" :: (if decide (d = []) then [""] else d) ++ "" :: (if decide (l = []) then [""] else l)) as ->.
  { unfold abs_path at 1.
    change ("/" +:+ Join slash d) with ("" +:+ String slash (Join slash d)).
    rewrite str_app_assoc, str_app_nil_l, str_app_cons.
    change (Split slash (String slash ?x)) with ("" :: Split slash x). f_equal.
    assert (Split slash (abs_path l) = "" :: (if decide (l = []) then [""] else l)) as Hal.
    { case_decide; [by subst|by apply Split_abs]. }
    destruct (decide (d = [])) as [->|Hne].
    - cbn [Join]. rewrite (Split_app slash "" (abs_path l)) by done. by rewrite Hal.
    - rewrite <-Hal. clear Hal Hr. induction Hd as [|x d Hx Hd IH]; [done|].
      assert (no_char slash x) by (unfold plain in Hx; naive_solver).
      destruct d as [|y d]; [cbn [Join app]; by rewrite Split_app|].
      rewrite Join_cons by done. rewrite str_app_assoc, str_app_cons, Split_app by done.
      rewrite IH by done. done. }
  cbn [foldl]. change (clean_step true [] "") with (@nil string).
  rewrite foldl_app. cbn [foldl].
  assert (foldl (clean_step true) [] (if decide (d = []) then [""] else d) = reverse d) as ->.
  { case_decide; [by subst|]. by rewrite foldl_clean_keep, app_nil_r. }
  change (clean_step true (reverse d) "") with (reverse d).
  assert (foldl (clean_step true) (reverse d) (if decide (l = []) then [""] else l) = reverse l ++ reverse d) as ->.
  { case_decide; [by subst|]. by rewrite foldl_clean_keep. }
  by rewrite <-reverse_app, reverse_involutive.
Qed.

(** Being inside a directory: the directory itself or below it. *)
Definition inside (dir p : string) : Prop := p = dir \/ HasPrefix p (dir +:+ "/") = true.

Lemma abs_path_app d l : d <> [] -> l <> [] -> abs_path (d ++ l) = abs_path d +:+ "/" +:+ Join slash l.
Proof. intros. unfold abs_path. rewrite Join_app by done. by rewrite str_app_assoc. Qed.

Lemma inside_abs d l : d <> [] -> inside (abs_path d) (abs_path (d ++ l)).
Proof.
  intros Hd. destruct (decide (l = [])) as [->|Hl]; [left; by rewrite app_nil_r|right].
  rewrite abs_path_app by done. rewrite <-str_app_assoc. apply HasPrefix_app.
Qed.

(** *** Suffixes *)

Lemma string_length_app s t : String.length (s +:+ t) = String.length s + String.length t.
Proof. induction s as [|a s IH]; [done|]. rewrite str_app_cons. cbn. by rewrite IH. Qed.

Lemma take_string_app s t : take_string (String.length s) (s +:+ t) = s.
Proof. induction s as [|a s IH]; [by destruct t|]. rewrite str_app_cons. cbn. by rewrite IH. Qed.

Lemma HasSuffix_app s t : HasSuffix (s +:+ t) t = true.
Proof.
  unfold HasSuffix. rewrite string_length_app, bool_decide_true by lia.
  replace (String.length s + String.length t - String.length t) with (String.length s) by lia.
  rewrite drop_string_app. by rewrite String.eqb_refl.
Qed.

Lemma take_drop_string n s : take_string n s +:+ drop_string n s = s.
Proof.
  revert s. induction n as [|n IH]; intros [|a s]; try done. cbn. by rewrite str_app_cons, IH.
Qed.

Lemma HasSuffix_exists s t : HasSuffix s t = true <-> exists r, s = r +:+ t.
Proof.
  split; [|intros [r ->]; apply HasSuffix_app].
  unfold HasSuffix. intros [_ H%String.eqb_eq]%andb_true_iff.
  exists (take_string (String.length s - String.length t) s). rewrite <-H at 2. by rewrite take_drop_string.
Qed.

Lemma TrimSuffix_app s t : TrimSuffix (s +:+ t) t = s.
Proof.
  unfold TrimSuffix. rewrite HasSuffix_app, string_length_app.
  replace (String.length s + String.length t - String.length t) with (String.length s) by lia.
  apply take_string_app.
Qed.

Lemma str_app_inj_r s t u : s +:+ u = t +:+ u -> s = t.
Proof.
  intros H. rewrite <-(TrimSuffix_app s u), H. apply TrimSuffix_app.
Qed.

(** *** Relative paths of plain components *)

Definition rel_path (l : list string) : string := Join slash l.

Lemma HasPrefix_cons a s p t : HasPrefix (String a s) (String p t) = Ascii.eqb a p && HasPrefix s t.
Proof. done. Qed.

Lemma HasPrefix_nil s : HasPrefix s "" = true.
Proof. by destruct s. Qed.

Lemma plain_head_not_slash c : plain c -> is_rooted c = false.
Proof.
  intros (H1 & _ & _ & H4). destruct c as [|a c]; [done|]. cbn [has_char] in H4. apply orb_false_iff in H4 as [Ha _].
  unfold is_rooted. by rewrite HasPrefix_cons, Ha.
Qed.

Lemma is_rooted_app_cons a c s : is_rooted (String a c +:+ s) = is_rooted (String a c).
Proof. rewrite str_app_cons. unfold is_rooted. by rewrite !HasPrefix_cons, !HasPrefix_nil. Qed.

Lemma rel_not_rooted l : l <> [] -> Forall plain l -> is_rooted (rel_path l) = false.
Proof.
  intros Hne Hl. destruct Hl as [|c l Hc Hl]; [done|]. unfold rel_path.
  destruct l as [|d l]; [by apply plain_head_not_slash|]. rewrite Join_cons by done.
  destruct c as [|a c]; [by destruct Hc|]. rewrite is_rooted_app_cons. by apply plain_head_not_slash.
Qed.

Lemma Split_rel l : l <> [] -> Forall plain l -> Split slash (rel_path l) = l.
Proof. intros. apply Split_Join; auto using plain_no_slash. Qed.

Lemma rel_path_inj l k : l <> [] -> k <> [] -> Forall plain l -> Forall plain k -> rel_path l = rel_path k -> l = k.
Proof. intros Hl Hk Pl Pk H. rewrite <-(Split_rel l), <-(Split_rel k) by done. by rewrite H. Qed.

Lemma clean_comps_rel l : l <> [] -> Forall plain l -> clean_comps (rel_path l) = l.
Proof.
  intros Hne Hl. unfold clean_comps. rewrite Split_rel by done.
  by rewrite foldl_clean_keep, app_nil_r, reverse_involutive.
Qed.

Lemma rel_path_nonempty l : l <> [] -> Forall plain l -> rel_path l <> "" /\ rel_path l <> ".".
Proof.
  intros Hne Hl. split; intros E; pose proof (Split_rel l Hne Hl) as Hs; rewrite E in Hs; cbn in Hs; subst l;
    apply Forall_cons in Hl as [(H1 & H2 & _) _]; done.
Qed.

Lemma Clean_rel l : l <> [] -> Forall plain l -> Clean (rel_path l) = rel_path l.
Proof.
  intros Hne Hl. unfold Clean. rewrite rel_not_rooted, clean_comps_rel by done. fold (rel_path l).
  destruct (rel_path_nonempty l Hne Hl) as [H _]. by rewrite str_app_nil_l, bool_decide_false.
Qed.

Lemma TrimPrefix_rel l : l <> [] -> Forall plain l -> TrimPrefix (rel_path l) "/" = rel_path l.
Proof. intros Hne Hl. pose proof (rel_not_rooted l Hne Hl) as H. unfold is_rooted in H. unfold TrimPrefix. by rewrite H. Qed.

Lemma split_last_rel l x :
  Forall plain (l ++ [x]) ->
  split_last (rel_path (l ++ [x])) = (if bool_decide (l = []) then "" else rel_path l +:+ "/", x).
Proof.
  intros Hl. assert (l ++ [x] <> []) as Hne by (by destruct l). unfold split_last. rewrite Split_rel by done.
  rewrite reverse_snoc. destruct (reverse l) as [|y r] eqn:E.
  - apply (f_equal reverse) in E. rewrite reverse_involutive in E. by subst l.
  - rewrite bool_decide_false by (intros ->; done). rewrite <-E, reverse_involutive. done.
Qed.

Lemma clean_trailing_slash l : l <> [] -> Forall plain l -> Clean (rel_path l +:+ "/") = rel_path l.
Proof.
  intros Hne Hl. unfold Clean.
  assert (is_rooted (rel_path l +:+ "/") = false) as Hr.
  { pose proof (rel_not_rooted l Hne Hl) as H. destruct (rel_path_nonempty l Hne Hl) as [Hn _].
    destruct (rel_path l) as [|a c]; [done|]. by rewrite is_rooted_app_cons. }
  assert (clean_comps (rel_path l +:+ "/") = l) as Hc.
  { unfold clean_comps. rewrite Hr.
  assert (Split slash (rel_path l +:+ "/") = l ++ [""]) as ->.
  { change (rel_path l +:+ "/") with (Join slash l +:+ String slash (Join slash [""])).
    rewrite <-Join_app by done. apply Split_Join; [by destruct l|].
    apply Forall_app. split; [by apply plain_no_slash|by constructor]. }
  rewrite foldl_app, (foldl_clean_keep false l) by done. cbn [foldl].
  rewrite app_nil_r. change (reverse (reverse l) = l). by rewrite reverse_involutive. }
  rewrite Hr, Hc. fold (rel_path l). rewrite str_app_nil_l. destruct (rel_path_nonempty l Hne Hl) as [Hn _].
  rewrite bool_decide_false by done. done.
Qed.

Lemma Dir_rel l x : Forall plain (l ++ [x]) -> Dir (rel_path (l ++ [x])) = if bool_decide (l = []) then "." else rel_path l.
Proof.
  intros Hl. unfold Dir. rewrite split_last_rel by done. cbn [fst]. case_bool_decide as Hn; [done|].
  apply clean_trailing_slash; [done|]. by apply Forall_app in Hl as [? _].
Qed.

Lemma TrimRight_no_char c t : no_char c t -> TrimRight c t = t.
Proof.
  induction t as [|a t IH]; [done|]. cbn [has_char TrimRight]. intros [Ha Ht]%orb_false_iff.
  rewrite IH by done. destruct t; [by rewrite Ha|done].
Qed.

Lemma TrimRight_app c s t : t <> "" -> no_char c t -> TrimRight c (s +:+ t) = s +:+ t.
Proof.
  intros Hne Ht. induction s as [|b s IH]; [rewrite str_app_nil_l; by apply TrimRight_no_char|].
  rewrite str_app_cons. cbn [TrimRight]. rewrite IH.
  destruct s as [|b' s]; [rewrite str_app_nil_l; by destruct t|by rewrite str_app_cons].
Qed.

Lemma rel_path_snoc l x : rel_path (l ++ [x]) = (if bool_decide (l = []) then "" else rel_path l +:+ "/") +:+ x.
Proof.
  case_bool_decide as Hl; [by subst; rewrite str_app_nil_l|]. unfold rel_path.
  rewrite Join_app by done. by rewrite str_app_assoc, str_app_cons, str_app_nil_l.
Qed.

Lemma Base_rel l x : Forall plain (l ++ [x]) -> Base (rel_path (l ++ [x])) = x.
Proof.
  intros Hl. assert (l ++ [x] <> []) as Hne by (by destruct l). destruct (rel_path_nonempty _ Hne Hl) as [H1 _].
  unfold Base. rewrite bool_decide_false by done.
  assert (plain x) as (Hx & _ & _ & Hs) by (apply Forall_app in Hl as [_ Hl]; by apply Forall_cons in Hl as [? _]).
  assert (TrimRight slash (rel_path (l ++ [x])) = rel_path (l ++ [x])) as ->.
  { rewrite rel_path_snoc. by apply TrimRight_app. }
  rewrite bool_decide_false by done. by rewrite split_last_rel.
Qed.

Lemma rel_path_length l : length l <= S (String.length (rel_path l)).
Proof.
  induction l as [|x l IH]; [cbn; lia|]. unfold rel_path in *. destruct l as [|y l]; [cbn; lia|].
  rewrite Join_cons by done. rewrite string_length_app. cbn [length String.length] in *. lia.
Qed.

(** *** Joining and cleaning, by components *)

Lemma Split_snoc c s t : Split c (s +:+ String c t) = Split c s ++ Split c t.
Proof.
  induction s as [|a s IH]; [rewrite str_app_nil_l; cbn [Split app]; by rewrite Ascii.eqb_refl|].
  rewrite str_app_cons. cbn [Split]. rewrite IH. destruct (Ascii.eqb a c); [done|].
  destruct (Split c s) as [|x xs] eqn:E; [by apply Split_nonempty in E|done].
Qed.

Lemma Split_Join_concat c l : l <> [] -> Split c (Join c l) = concat (Split c <$> l).
Proof.
  intros Hl. induction l as [|x l IH]; [done|]. destruct (decide (l = [])) as [->|Hne]; [cbn; by rewrite app_nil_r|].
  rewrite Join_cons, Split_snoc, IH by done. done.
Qed.

Definition fold_clean (st l : list string) : list string := foldl (clean_step true) st l.

Lemma fold_clean_filter st l :
  fold_clean st (concat (Split slash <$> filter (fun s => s <> "") l)) = fold_clean st (concat (Split slash <$> l)).
Proof.
  unfold fold_clean. revert st. induction l as [|x l IH]; intros st; [done|]. rewrite filter_cons. case_decide as Hx.
  - rewrite !fmap_cons. cbn [concat]. rewrite !foldl_app. apply IH.
  - rewrite Hx. cbn. apply IH.
Qed.

Lemma is_rooted_cons s : is_rooted s = true -> exists t, s = String slash t.
Proof. intros H. apply HasPrefix_exists in H as [t ->]. by exists t. Qed.

(** Joining to a rooted path: the components, cleaned together. *)
Lemma PathJoin_comps s l :
  is_rooted s = true -> PathJoin (s :: l) = abs_path (reverse (fold_clean [] (concat (Split slash <$> s :: l)))).
Proof.
  intros Hs. destruct (is_rooted_cons _ Hs) as [t ->]. unfold PathJoin. rewrite <-fold_clean_filter.
  assert (filter (fun s => s <> "") (String slash t :: l) = String slash t :: filter (fun s => s <> "") l) as ->.
  { rewrite filter_cons. by rewrite decide_True. }
  set (l' := filter _ l). assert (is_rooted (Join slash (String slash t :: l')) = true) as Hr.
  { destruct l' as [|x l']; [done|]. rewrite Join_cons by done. by rewrite is_rooted_app_cons. }
  rewrite Clean_rooted by done. f_equal. unfold clean_comps. rewrite Hr. by rewrite Split_Join_concat.
Qed.

Lemma Forall_plain_fold st l :
  Forall plain st -> Forall (fun x => no_char slash x) l -> Forall plain (fold_clean st l).
Proof.
  unfold fold_clean. intros Hst Hl. revert st Hst. induction Hl as [|x l Hx _ IH]; intros st Hst; [done|]. cbn.
  apply IH. by apply clean_step_plain.
Qed.

Lemma fold_clean_plain st l : Forall plain l -> fold_clean st l = reverse l ++ st.
Proof. apply foldl_clean_keep. Qed.

Lemma fold_clean_app st l k : fold_clean st (l ++ k) = fold_clean (fold_clean st l) k.
Proof. apply foldl_app. Qed.

Lemma fold_clean_abs l : Forall plain l -> fold_clean [] (Split slash (abs_path l)) = reverse l.
Proof.
  intros Hl. destruct (decide (l = [])) as [->|Hne]; [done|]. rewrite Split_abs by done.
  change (fold_clean [] ("" :: l)) with (fold_clean [] l). by rewrite fold_clean_plain, app_nil_r.
Qed.

Lemma PathJoin_plain d l : Forall plain d -> Forall plain l -> PathJoin (abs_path d :: l) = abs_path (d ++ l).
Proof.
  intros Hd Hl. rewrite PathJoin_comps by apply is_rooted_abs. f_equal. rewrite fmap_cons. cbn [concat].
  rewrite fold_clean_app, fold_clean_abs by done.
  assert (concat (Split slash <$> l) = l) as ->.
  { induction Hl as [|x l (_ & _ & _ & Hx) _ IH]; [done|]. cbn. by rewrite (Split_no_char _ _ Hx), IH. }
  rewrite fold_clean_plain by done. by rewrite <-reverse_app, reverse_involutive.
Qed.

Lemma Dir_abs d x : Forall plain (d ++ [x]) -> Dir (abs_path (d ++ [x])) = abs_path d.
Proof.
  intros Hp. assert (Forall plain d) as Hd by (by apply Forall_app in Hp as [? _]).
  unfold Dir, split_last. rewrite Split_abs by (done || by destruct d). rewrite reverse_cons, reverse_app.
  change ((reverse [x] ++ reverse d) ++ [""]) with (x :: reverse d ++ [""]).
  destruct (reverse d ++ [""]) as [|y r] eqn:Hr; [by destruct (reverse d)|].
  assert (reverse (y :: r) = "" :: d) as -> by (rewrite <-Hr, reverse_app, reverse_involutive; done).
  cbn [fst].
  assert (is_rooted (Join slash ("" :: d) +:+ "/") = true) as Hroot.
  { destruct d as [|z d]; [done|]. rewrite Join_cons, str_app_nil_l, str_app_cons by done.
    unfold is_rooted. by rewrite HasPrefix_cons, HasPrefix_nil. }
  rewrite Clean_rooted by done. f_equal. unfold clean_comps. rewrite Hroot.
  change (Join slash ("" :: d) +:+ "/") with (Join slash ("" :: d) +:+ String slash "").
  rewrite Split_snoc, Split_Join; [|done|].
  - rewrite foldl_app. cbn [Split]. change (foldl (clean_step true) ?s [""]) with s.
    change (foldl (clean_step true) [] ("" :: d)) with (fold_clean [] d).
    by rewrite fold_clean_plain, app_nil_r, reverse_involutive.
  - constructor; [done|]. by apply plain_no_slash.
Qed.

Lemma Split_Trim_abs l : Forall plain l -> Split slash (Trim slash (abs_path l)) = if bool_decide (l = []) then [""] else l.
Proof.
  intros Hl. case_bool_decide as Hne; [by subst|]. unfold Trim, abs_path.
  assert (TrimLeft slash ("/" +:+ Join slash l) = rel_path l) as ->.
  { pose proof (rel_not_rooted l Hne Hl) as H. unfold rel_path in *. change ("/" +:+ Join slash l) with (String slash (Join slash l)).
    cbn [TrimLeft]. rewrite Ascii.eqb_refl. destruct (Join slash l) as [|a s]; [done|].
    unfold is_rooted in H. rewrite HasPrefix_cons, HasPrefix_nil, andb_true_r in H. cbn [TrimLeft]. by rewrite H. }
  assert (TrimRight slash (rel_path l) = rel_path l) as ->; [|by apply Split_rel].
  destruct l as [|x l _] using rev_ind; [done|]. rewrite rel_path_snoc.
  apply Forall_app in Hl as [_ [(Hx & _ & _ & Hs) _]%Forall_cons]. by apply TrimRight_app.
Qed.

(** *** Cleaning a relative path *)

(** What is left of it: ups, then names; the stack has the last one first. *)
Lemma rel_clean_shape l : Forall (fun c => no_char slash c) l ->
  exists rp n, foldl (clean_step false) [] l = rp ++ replicate n ".." /\ Forall plain rp.
Proof.
  induction l as [|c l IH] using rev_ind; intros Hl; [by exists [], 0|].
  apply Forall_app in Hl as [Hl [Hc _]%Forall_cons]. destruct (IH Hl) as (rp & n & E & Hp). rewrite foldl_app, E. cbn. unfold clean_step.
  case_bool_decide as H1; [by exists rp, n|]. case_bool_decide as H2.
  - destruct rp as [|t rp]; cbn [app].
    + destruct n as [|n]; cbn [replicate]; [by exists [], 1|]. rewrite bool_decide_true by done. by exists [], (S (S n)).
    + apply Forall_cons in Hp as [(_ & _ & Ht & _) Hp]. rewrite bool_decide_false by done. by exists rp, n.
  - exists (c :: rp), n. split; [done|]. constructor; [|done]. unfold plain. naive_solver.
Qed.

Lemma clean_step_name b st c : plain c -> clean_step b st c = c :: st.
Proof. intros (H1 & H2 & H3 & _). unfold clean_step. by rewrite !bool_decide_false by naive_solver. Qed.
Lemma clean_step_up b st t : t <> ".." -> clean_step b (t :: st) ".." = st.
Proof. intros Ht. unfold clean_step. rewrite (bool_decide_false (_ \/ _)) by naive_solver. rewrite bool_decide_true by done. by rewrite bool_decide_false. Qed.

(** It leads from any directory where the path itself leads. *)
Lemma fold_clean_rel st l : Forall (fun c => no_char slash c) l ->
  fold_clean st (reverse (foldl (clean_step false) [] l)) = fold_clean st l.
Proof.
  induction l as [|c l IH] using rev_ind; intros Hl; [done|]. apply Forall_app in Hl as [Hl [Hc _]%Forall_cons]. specialize (IH Hl).
  destruct (rel_clean_shape l Hl) as (rp & n & E & Hp). rewrite foldl_app, fold_clean_app, <-IH, E. cbn [foldl].
  assert (forall y stack, fold_clean st (reverse (y :: stack)) = clean_step true (fold_clean st (reverse stack)) y) as Hsnoc
    by (intros; by rewrite reverse_cons, fold_clean_app).
  change (fold_clean (fold_clean st (reverse (rp ++ replicate n ".."))) [c]) with (clean_step true (fold_clean st (reverse (rp ++ replicate n ".."))) c).
  assert (c = "" \/ c = "." \/ c = ".." \/ plain c) as [->|[->|[->|Hpc]]].
  { destruct (decide (c = "")), (decide (c = ".")), (decide (c = "..")); auto. right. right. right. by split_and!. }
  - done.
  - done.
  - destruct rp as [|t rp]; cbn [app].
    + rewrite <-Hsnoc. by destruct n.
    + apply Forall_cons in Hp as [Ht Hp]. rewrite Hsnoc, (clean_step_name true _ t) by done. by rewrite !clean_step_up by apply Ht.
  - rewrite clean_step_name by done. apply Hsnoc.
Qed.
