(* ===== verification/Json.v ===== *)
(** * JSON texts (encoding/json of Go's standard library)

    The texts the two programs exchange: values, [json.Marshal]'s compact
    encoding with its escapes, and the grammar [json.Unmarshal] accepts, on
    bytes. Strings are byte strings: the encoder replaces what is not UTF-8,
    and so does the decoder. A number keeps its literal. Recursion of the
    parser is by fuel; [parse_total] shows that it never runs out. What a
    value becomes in a Go struct is [JsonDecode]. *)
From Stdlib Require Import Ascii.
From S2P Require Import Prelude GoStrings.

Local Open Scope Z_scope.

Inductive json :=
| JNull | JBool (b : bool) | JNum (lit : bytes) | JStr (s : string)
| JArr (l : list json) | JObj (l : list (string * json)).

Notation bQuote := 34%Z.
Notation bSlash := 92%Z. (* the backslash *)
Notation bComma := 44%Z.
Notation bColon := 58%Z.
Notation bLBracket := 91%Z.
Notation bRBracket := 93%Z.
Notation bLBrace := 123%Z.
Notation bRBrace := 125%Z.

(** ** UTF-8 *)

Definition between (lo b hi : Z) : bool := (lo <=? b) && (b <=? hi).
Definition cont (b : Z) : bool := between 128 b 191.
Definition seq2 (b c : Z) : bool := between 194 b 223 && cont c.
Definition seq3 (b c d : Z) : bool :=
  cont d && ((b =? 224) && between 160 c 191 || (between 225 b 236 || between 238 b 239) && cont c ||
             (b =? 237) && between 128 c 159).
Definition seq4 (b c d e : Z) : bool :=
  cont d && cont e && ((b =? 240) && between 144 c 191 || between 241 b 243 && cont c || (b =? 244) && between 128 c 143).

(** The length of the multi-byte rune at the head, 0 when there is none
    ([utf8.DecodeRune] then reports a rune error of size 1). *)
Definition rune_len (l : bytes) : nat :=
  match l with
  | b :: c :: l' =>
      if seq2 b c then 2%nat
      else match l' with
           | d :: l'' => if seq3 b c d then 3%nat
                         else match l'' with e :: _ => if seq4 b c d e then 4%nat else 0%nat | [] => 0%nat end
           | [] => 0%nat
           end
  | _ => 0%nat
  end.

Inductive rune := RAscii (b : Z) | RMulti (bs : bytes) | RBad (b : Z).

(** The runes of a string; [k] bytes of the current one are still to come. *)
Fixpoint runes (k : nat) (l : bytes) : list rune :=
  match l with
  | [] => []
  | b :: l' =>
      match k with
      | S k' => runes k' l'
      | O =>
          if b <? 128 then RAscii b :: runes 0 l'
          else match rune_len l with
               | O => RBad b :: runes 0 l'
               | S n => RMulti (take (S n) l) :: runes n l'
               end
      end
  end.

Definition replacement : bytes := [239; 191; 189].
Definition rune_bytes (r : rune) : bytes :=
  match r with RAscii b => [b] | RMulti bs => bs | RBad _ => replacement end.
Definition to_valid (s : string) : string :=
  string_of_bytes (concat (rune_bytes <$> runes 0 (bytes_of_string s))).

Definition good_rune (r : rune) : bool := match r with RBad _ => false | _ => true end.
Definition utf8_valid (s : string) : bool := forallb good_rune (runes 0 (bytes_of_string s)).

(** ** Encoding *)

Definition hex_digit (n : Z) : Z := if n <? 10 then 48 + n else 87 + n.
Definition hex_val (b : Z) : option Z :=
  if between 48 b 57 then Some (b - 48)
  else if between 97 b 102 then Some (b - 87)
  else if between 65 b 70 then Some (b - 55) else None.

Definition esc_u (n : Z) : bytes :=
  [bSlash; 117; hex_digit (n / 4096); hex_digit (n / 256 mod 16); hex_digit (n / 16 mod 16); hex_digit (n mod 16)].

(** A byte below 128: [htmlSafeSet], the short escapes, and \u00XX. *)
Definition esc_ascii (b : Z) : bytes :=
  if (b =? bQuote) || (b =? bSlash) then [bSlash; b]
  else if b =? 8 then [bSlash; 98]
  else if b =? 12 then [bSlash; 102]
  else if b =? 10 then [bSlash; 110]
  else if b =? 13 then [bSlash; 114]
  else if b =? 9 then [bSlash; 116]
  else if (b <? 32) || (b =? 60) || (b =? 62) || (b =? 38) then esc_u b
  else [b].

Definition esc_rune (r : rune) : bytes :=
  match r with
  | RAscii b => esc_ascii b
  | RBad _ => esc_u 65533
  | RMulti bs =>
      if bool_decide (bs = [226; 128; 168]) then esc_u 8232
      else if bool_decide (bs = [226; 128; 169]) then esc_u 8233 else bs
  end.

Definition quote (s : string) : bytes :=
  bQuote :: concat (esc_rune <$> runes 0 (bytes_of_string s)) ++ [bQuote].

Definition sep_by (l : list bytes) : bytes :=
  match l with [] => [] | x :: l' => x ++ concat ((fun y => bComma :: y) <$> l') end.

Definition lit_null : bytes := [110; 117; 108; 108].
Definition lit_true : bytes := [116; 114; 117; 101].
Definition lit_false : bytes := [102; 97; 108; 115; 101].

Fixpoint print (v : json) : bytes :=
  match v with
  | JNull => lit_null
  | JBool b => if b then lit_true else lit_false
  | JNum lit => lit
  | JStr s => quote s
  | JArr l => bLBracket :: sep_by (map print l) ++ [bRBracket]
  | JObj l => bLBrace :: sep_by (map (fun kv : string * json => quote kv.1 ++ bColon :: print kv.2) l) ++ [bRBrace]
  end.

(** A decimal integer. *)
Definition int_lit (z : Z) : bytes := bytes_of_string (pretty z).
Definition JInt (z : Z) : json := JNum (int_lit z).

(** ** The grammar *)

(** [utf8.EncodeRune] *)
Definition encode_rune (r : Z) : bytes :=
  if r <? 128 then [r]
  else if r <? 2048 then [192 + r / 64; 128 + r mod 64]
  else if r <? 65536 then [224 + r / 4096; 128 + r / 64 mod 64; 128 + r mod 64]
  else [240 + r / 262144; 128 + r / 4096 mod 64; 128 + r / 64 mod 64; 128 + r mod 64].

(** The four digits of \uXXXX. *)
Definition hex4 (l : bytes) : option (Z * bytes) :=
  match l with
  | a :: b :: c :: d :: r =>
      a ← hex_val a; b ← hex_val b; c ← hex_val c; d ← hex_val d; Some (a * 4096 + b * 256 + c * 16 + d, r)
  | _ => None
  end.

Definition getu4 (l : bytes) : option (Z * bytes) :=
  match l with
  | b :: c :: r => if (b =? bSlash) && (c =? 117) then hex4 r else None
  | _ => None
  end.

(** What follows a backslash: the bytes it stands for, and the rest. A
    surrogate is joined with the one that follows it, or replaced. *)
Definition unescape (l : bytes) : option (bytes * bytes) :=
  match l with
  | [] => None
  | c :: r =>
      if (c =? bQuote) || (c =? bSlash) || (c =? 47) then Some ([c], r)
      else if c =? 98 then Some ([8], r)
      else if c =? 102 then Some ([12], r)
      else if c =? 110 then Some ([10], r)
      else if c =? 114 then Some ([13], r)
      else if c =? 116 then Some ([9], r)
      else if c =? 117 then
        match hex4 r with
        | Some (u, r') =>
            if between 55296 u 57343 then
              match getu4 r' with
              | Some (v, r'') =>
                  if between 55296 u 56319 && between 56320 v 57343
                  then Some (encode_rune ((u - 55296) * 1024 + (v - 56320) + 65536), r'')
                  else Some (replacement, r')
              | None => Some (replacement, r')
              end
            else Some (encode_rune u, r')
        | None => None
        end
      else None
  end.

(** A string after its opening quote: its bytes, and what follows. *)
Fixpoint string_body (fuel : nat) (l : bytes) : result () (bytes * bytes) :=
  match fuel with
  | O => Crash Hang
  | S f =>
      match l with
      | [] => Err ()
      | b :: l' =>
          if b =? bQuote then Ok ([], l')
          else if b =? bSlash then
            match unescape l' with
            | Some (out, r) => sr ← string_body f r; Ok (out ++ sr.1, sr.2)
            | None => Err ()
            end
          else if b <? 32 then Err ()
          else if b <? 128 then sr ← string_body f l'; Ok (b :: sr.1, sr.2)
          else match rune_len l with
               | O => sr ← string_body f l'; Ok (replacement ++ sr.1, sr.2)
               | S n => sr ← string_body f (drop (S n) l); Ok (take (S n) l ++ sr.1, sr.2)
               end
      end
  end.

Definition parse_string (l : bytes) : result () (string * bytes) :=
  match l with
  | b :: l' => if b =? bQuote then sr ← string_body (S (length l')) l'; Ok (string_of_bytes sr.1, sr.2) else Err ()
  | [] => Err ()
  end.

Fixpoint skip_ws (l : bytes) : bytes :=
  match l with
  | b :: l' => if (b =? 32) || (b =? 9) || (b =? 10) || (b =? 13) then skip_ws l' else l
  | [] => []
  end.

Definition is_digit (b : Z) : bool := between 48 b 57.

(** The digits at the head, and the rest. *)
Fixpoint span_digits (l : bytes) : bytes * bytes :=
  match l with
  | b :: l' => if is_digit b then (b :: (span_digits l').1, (span_digits l').2) else ([], l)
  | [] => ([], [])
  end.

(** At least one digit. *)
Definition digits1 (l : bytes) : option (bytes * bytes) :=
  let dr := span_digits l in if bool_decide (dr.1 = []) then None else Some dr.

(** 0, or digits without a leading 0. *)
Definition int_part (l : bytes) : option (bytes * bytes) :=
  match l with
  | b :: l' => if b =? 48 then Some ([b], l') else digits1 l
  | [] => None
  end.

Definition frac_part (l : bytes) : option (bytes * bytes) :=
  match l with
  | b :: l' => if b =? 46 then dr ← digits1 l'; Some (b :: dr.1, dr.2) else Some ([], l)
  | [] => Some ([], [])
  end.

Definition exp_part (l : bytes) : option (bytes * bytes) :=
  match l with
  | b :: l' =>
      if (b =? 101) || (b =? 69) then
        match l' with
        | c :: l'' => if (c =? 43) || (c =? 45) then dr ← digits1 l''; Some (b :: c :: dr.1, dr.2)
                      else dr ← digits1 l'; Some (b :: dr.1, dr.2)
        | [] => None
        end
      else Some ([], l)
  | [] => Some ([], [])
  end.

Definition unsigned (l : bytes) : option (bytes * bytes) :=
  i ← int_part l; f ← frac_part i.2; e ← exp_part f.2; Some (i.1 ++ f.1 ++ e.1, e.2).

Definition number (l : bytes) : option (bytes * bytes) :=
  match l with
  | b :: l' => if b =? 45 then n ← unsigned l'; Some (b :: n.1, n.2) else unsigned l
  | [] => None
  end.

(** A literal at the head. *)
Fixpoint literal (lit l : bytes) : option bytes :=
  match lit, l with
  | [], _ => Some l
  | a :: lit', b :: l' => if a =? b then literal lit' l' else None
  | _, [] => None
  end.

Definition maxNestingDepth : Z := 10000.

Definition scalar (l : bytes) : result () (json * bytes) :=
  match l with
  | [] => Err ()
  | b :: _ =>
      if b =? bQuote then sr ← parse_string l; Ok (JStr sr.1, sr.2)
      else if b =? 110 then from_option (fun r => Ok (JNull, r)) (Err ()) (literal lit_null l)
      else if b =? 116 then from_option (fun r => Ok (JBool true, r)) (Err ()) (literal lit_true l)
      else if b =? 102 then from_option (fun r => Ok (JBool false, r)) (Err ()) (literal lit_false l)
      else from_option (fun nr => Ok (JNum nr.1, nr.2)) (Err ()) (number l)
  end.

(** Values, and the elements and members of arrays and objects up to their
    closing bracket; [d] is the number of brackets that are open. *)
Fixpoint value (fuel : nat) (d : Z) (l : bytes) : result () (json * bytes) :=
  match fuel with
  | O => Crash Hang
  | S f =>
      match skip_ws l with
      | [] => Err ()
      | b :: l' =>
          if (b =? bLBracket) || (b =? bLBrace) then
            if maxNestingDepth <? d + 1 then Err ()
            else
              match skip_ws l' with
              | [] => Err ()
              | c :: l'' =>
                  if b =? bLBracket then
                    if c =? bRBracket then Ok (JArr [], l'') else vr ← elements f (d + 1) l'; Ok (JArr vr.1, vr.2)
                  else
                    if c =? bRBrace then Ok (JObj [], l'') else vr ← members f (d + 1) l'; Ok (JObj vr.1, vr.2)
              end
          else scalar (b :: l')
      end
  end
with elements (fuel : nat) (d : Z) (l : bytes) : result () (list json * bytes) :=
  match fuel with
  | O => Crash Hang
  | S f =>
      vr ← value f d l;
      match skip_ws vr.2 with
      | [] => Err ()
      | b :: l' =>
          if b =? bComma then er ← elements f d l'; Ok (vr.1 :: er.1, er.2)
          else if b =? bRBracket then Ok ([vr.1], l') else Err ()
      end
  end
with members (fuel : nat) (d : Z) (l : bytes) : result () (list (string * json) * bytes) :=
  match fuel with
  | O => Crash Hang
  | S f =>
      kr ← parse_string (skip_ws l);
      match skip_ws kr.2 with
      | [] => Err ()
      | b :: l' =>
          if b =? bColon then
            vr ← value f d l';
            match skip_ws vr.2 with
            | [] => Err ()
            | c :: l'' =>
                if c =? bComma then mr ← members f d l''; Ok ((kr.1, vr.1) :: mr.1, mr.2)
                else if c =? bRBrace then Ok ([(kr.1, vr.1)], l'') else Err ()
            end
          else Err ()
      end
  end.

Definition parse_fuel (l : bytes) : nat := S (2 * length l).

(** [checkValid] and the value: one value, and white space around it. *)
Definition parse (l : bytes) : result () json :=
  vr ← value (parse_fuel l) 0 l;
  if bool_decide (skip_ws vr.2 = []) then Ok vr.1 else Err ().

(** [strconv.ParseInt] of a number's literal, base 10. *)
Fixpoint digits_val (acc : Z) (l : bytes) : option Z :=
  match l with
  | [] => Some acc
  | b :: l' => if is_digit b then digits_val (acc * 10 + (b - 48)) l' else None
  end.
Definition parse_int (lit : bytes) : option Z :=
  match lit with
  | b :: l => if b =? 45 then (if bool_decide (l = []) then None else Z.opp <$> digits_val 0 l) else digits_val 0 lit
  | [] => None
  end.

Example parse_example :
  parse (bytes_of_string " [1, -20.5e3 ,true,{}, [ ],null]") =
  Ok (JArr [JNum [49]; JNum (bytes_of_string "-20.5e3"); JBool true; JObj []; JArr []; JNull]) /\
  parse (bytes_of_string "[01]") = Err () /\ parse (bytes_of_string "[1,]") = Err ().
Proof. split_and!; vm_compute; reflexivity. Qed.

Example quote_example :
  quote (string_of_bytes [60; 9; 34; 195; 40; 226; 128; 168; 206; 187]) =
  bytes_of_string (String (ascii_of_byte 34) "") ++ bytes_of_string "\u003c\t\" ++ [34] ++
  bytes_of_string "\ufffd(\u2028" ++ [206; 187; 34].
Proof. vm_compute. reflexivity. Qed.

(** ** Consumption: what a recogniser takes off the text *)

Lemma skip_ws_length l : (length (skip_ws l) <= length l)%nat.
Proof. induction l as [|b l IH]; cbn; [lia|]. destruct (_ || _); cbn; lia. Qed.

Lemma span_digits_app l : l = (span_digits l).1 ++ (span_digits l).2.
Proof. induction l as [|b l IH]; cbn; [done|]. destruct (is_digit b); cbn; [by rewrite <-IH|done]. Qed.

Lemma digits1_split l n r : digits1 l = Some (n, r) -> l = n ++ r /\ n <> [].
Proof.
  unfold digits1. cbn zeta. pose proof (span_digits_app l) as E. case_bool_decide; [done|]. intros [= H1].
  destruct (span_digits l) as [x y]. cbn in *. by simplify_eq.
Qed.

Lemma int_part_split l n r : int_part l = Some (n, r) -> l = n ++ r /\ n <> [].
Proof. destruct l as [|b l]; cbn; [done|]. destruct (b =? 48); [by intros [= <- <-]|apply digits1_split]. Qed.

Lemma frac_part_split l n r : frac_part l = Some (n, r) -> l = n ++ r.
Proof.
  destruct l as [|b l]; cbn; [by intros [= <- <-]|]. destruct (b =? 46); [|by intros [= <- <-]].
  destruct (digits1 l) as [[x y]|] eqn:E; cbn; [|done]. intros [= <- <-]. by apply digits1_split in E as [-> _].
Qed.

Lemma exp_part_split l n r : exp_part l = Some (n, r) -> l = n ++ r.
Proof.
  destruct l as [|b l]; cbn; [by intros [= <- <-]|]. destruct (_ || _); [|by intros [= <- <-]].
  destruct l as [|c l]; [done|]. destruct (_ || _).
  - destruct (digits1 l) as [[x y]|] eqn:E; cbn; [|done]. intros [= <- <-]. by apply digits1_split in E as [-> _].
  - destruct (digits1 (c :: l)) as [[x y]|] eqn:E; cbn; [|done]. intros [= <- <-]. by apply digits1_split in E as [-> _].
Qed.

Lemma unsigned_split l n r : unsigned l = Some (n, r) -> l = n ++ r /\ n <> [].
Proof.
  unfold unsigned. intros H. apply bind_Some in H as ([i r1] & Hi & H). apply bind_Some in H as ([f r2] & Hf & H).
  apply bind_Some in H as ([e r3] & He & [= <- <-]). cbn in *.
  apply int_part_split in Hi as [-> Hne]. apply frac_part_split in Hf as ->. apply exp_part_split in He as ->.
  rewrite <-!app_assoc. split; [done|]. by destruct i.
Qed.

Lemma number_split l n r : number l = Some (n, r) -> l = n ++ r /\ n <> [].
Proof.
  destruct l as [|b l]; cbn [number]; [done|]. destruct (b =? 45); [|apply unsigned_split].
  intros ([x y] & Hu & [= <- <-])%bind_Some. cbn. by apply unsigned_split in Hu as [-> _].
Qed.

Lemma literal_split lit l r : literal lit l = Some r -> l = lit ++ r.
Proof.
  revert l. induction lit as [|a lit IH]; intros l; cbn; [by intros [= ->]|]. destruct l as [|b l]; [done|].
  destruct (a =? b) eqn:E; [|done]. intros H. apply Z.eqb_eq in E as ->. by rewrite (IH _ H).
Qed.

Lemma hex4_length l u r : hex4 l = Some (u, r) -> length l = (4 + length r)%nat.
Proof.
  destruct l as [|a [|b [|c [|d r']]]]; cbn; try done. intros H.
  repeat (apply bind_Some in H as (? & _ & H)). by injection H as _ ->.
Qed.

Lemma getu4_length l u r : getu4 l = Some (u, r) -> length l = (6 + length r)%nat.
Proof. destruct l as [|a [|b l]]; cbn; try done. destruct (_ && _); [|done]. intros ->%hex4_length. done. Qed.

Lemma unescape_length l out r : unescape l = Some (out, r) -> (length r < length l)%nat.
Proof.
  destruct l as [|c l]; cbn [unescape]; [done|].
  repeat match goal with |- (if ?b then Some (_, l) else _) = _ -> _ => destruct b; [intros [= <- <-]; cbn; lia|] end.
  destruct (c =? 117); [|done]. destruct (hex4 l) as [[u r1]|] eqn:Hu; [|done]. apply hex4_length in Hu.
  destruct (between _ _ _); [|intros [= _ <-]; cbn; lia].
  destruct (getu4 r1) as [[v r2]|] eqn:Hv; [apply getu4_length in Hv|intros [= _ <-]; cbn; lia].
  destruct (_ && _); intros [= _ <-]; cbn; lia.
Qed.

(** ** The fuel is enough *)

(** A recogniser leaves less than [n] bytes, and fails to end only when it is
    [short] of fuel. *)
Definition ends {A} (short : Prop) (n : nat) (r : result () (A * bytes)) : Prop :=
  match r with Ok (_, r) => (length r < n)%nat | Err _ => True | Crash _ => short end.

Lemma ends_bind {A B} (p p' : Prop) n m (r : result () (A * bytes)) (f : A * bytes -> result () (B * bytes)) :
  ends p n r -> (p -> p') -> (forall a l, (length l < n)%nat -> ends p' m (f (a, l))) -> ends p' m (r ≫= f).
Proof. destruct r as [[a l]| |]; cbn; auto. Qed.

Lemma ends_map {A B} (p p' : Prop) n m (r : result () (A * bytes)) (g : A * bytes -> B) :
  ends p n r -> (p -> p') -> (n <= m)%nat -> ends p' m (ar ← r; Ok (g ar, ar.2)).
Proof. destruct r as [[a l]| |]; cbn; auto. lia. Qed.

Lemma ends_weaken {A} (p p' : Prop) n m (r : result () (A * bytes)) : ends p n r -> (p -> p') -> (n <= m)%nat -> ends p' m r.
Proof. destruct r as [[a l]| |]; cbn; auto. lia. Qed.

Lemma string_body_ends f : forall l, ends (f <= length l)%nat (length l) (string_body f l).
Proof.
  induction f as [|f IH]; intros l; cbn [string_body]; [cbn; lia|]. destruct l as [|b l]; [done|].
  destruct (b =? bQuote); [cbn; lia|]. destruct (b =? bSlash).
  { destruct (unescape l) as [[out r]|] eqn:E; [|done]. apply unescape_length in E. eapply ends_map; [apply IH|cbn; lia..]. }
  destruct (b <? 32); [done|]. destruct (b <? 128); [eapply ends_map; [apply IH|cbn; lia..]|].
  destruct (rune_len (b :: l)) as [|n]; [eapply ends_map; [apply IH|cbn; lia..]|].
  cbn [drop]. pose proof (length_drop l n). eapply ends_map; [apply IH|cbn; lia..].
Qed.

Lemma parse_string_ends l : ends False (length l) (parse_string l).
Proof.
  destruct l as [|b l]; cbn [parse_string]; [done|]. destruct (b =? bQuote); [|done].
  eapply ends_map; [apply string_body_ends|cbn; lia..].
Qed.

Lemma scalar_ends l : ends False (length l) (scalar l).
Proof.
  destruct l as [|b l]; [done|]. cbn [scalar]. destruct (b =? bQuote); [eapply ends_map; [apply parse_string_ends|done..]|].
  repeat match goal with
  | |- ends _ _ (if _ then from_option _ _ (literal ?x ?y) else _) =>
      destruct (b =? _); [destruct (literal x y) as [r|] eqn:E; [apply literal_split in E; rewrite E; cbn; lia|done]|]
  end.
  destruct (number (b :: l)) as [[n r]|] eqn:E; [|done]. apply number_split in E as [-> Hn]. destruct n; [done|].
  cbn. rewrite length_app. lia.
Qed.

Lemma value_ends f :
  (forall d l, ends (f <= 2 * length l)%nat (length l) (value f d l)) /\
  (forall d l, ends (f <= 2 * length l + 1)%nat (length l) (elements f d l)) /\
  (forall d l, ends (f <= 2 * length l)%nat (length l) (members f d l)).
Proof.
  induction f as [|f (IHv & IHe & IHm)]; [split_and!; intros; cbn; lia|]. split_and!; intros d l.
  - cbn [value]. pose proof (skip_ws_length l) as Hl. destruct (skip_ws l) as [|b l'] eqn:E; [done|]. cbn [length] in Hl.
    destruct (_ || _); [|eapply ends_weaken; [apply scalar_ends|done..]].
    destruct (maxNestingDepth <? d + 1); [done|]. pose proof (skip_ws_length l') as Hl'.
    destruct (skip_ws l') as [|c l''] eqn:E'; [done|]. cbn [length] in Hl'.
    destruct (b =? bLBracket); [destruct (c =? bRBracket)|destruct (c =? bRBrace)]; try (cbn; lia).
    + eapply ends_map; [apply IHe|lia..].
    + eapply ends_map; [apply IHm|lia..].
  - cbn [elements]. eapply ends_bind; [apply IHv|lia|]. intros v r Hr. cbn [fst snd].
    pose proof (skip_ws_length r). destruct (skip_ws r) as [|b r']; [done|]. cbn [length] in *.
    destruct (b =? bComma); [eapply ends_map; [apply IHe|lia..]|].
    destruct (b =? bRBracket); [cbn; lia|done].
  - cbn [members]. pose proof (skip_ws_length l). eapply ends_bind; [apply parse_string_ends|done|].
    intros k r Hr. cbn [fst snd]. pose proof (skip_ws_length r). destruct (skip_ws r) as [|b r']; [done|]. cbn [length] in *.
    destruct (b =? bColon); [|done]. eapply ends_bind; [apply IHv|lia|]. intros v r2 Hr2. cbn [fst snd].
    pose proof (skip_ws_length r2). destruct (skip_ws r2) as [|c r3]; [done|]. cbn [length] in *.
    destruct (c =? bComma); [eapply ends_map; [apply IHm|lia..]|].
    destruct (c =? bRBrace); [cbn; lia|done].
Qed.

(** The parser ends on every text, with a value or an error. *)
Theorem parse_total l c : parse l <> Crash c.
Proof.
  unfold parse. destruct (value_ends (parse_fuel l)) as [H _]. specialize (H 0 l).
  destruct (value (parse_fuel l) 0 l) as [[v r]| |]; cbn in *; [by case_bool_decide|done|unfold parse_fuel in H; lia].
Qed.
