(* ===== verification/JsonFacts.v ===== *)
(** * JSON texts: what the encoder writes is read back

    Facts on [Json]: what is recognised at the head of a text is recognised in
    a longer one, every printed value is read back ([parse_print]), a text cut
    short is refused ([parse_cut]), texts have no control characters
    ([print_printable]), integers are their decimal literals ([int_lit_ok]). *)
From Stdlib Require Import Ascii.
From S2P Require Import Prelude GoStrings Json.

Local Open Scope Z_scope.

(** ** Longer texts

    What is recognised at the head of a text is recognised at the head of a
    longer one, unless it is a number that goes on. *)

(** A number ends before [q]. *)
Definition stop (q : bytes) : Prop :=
  match q with [] => True | b :: _ => is_digit b = false /\ b <> 46 /\ b <> 101 /\ b <> 69 end.
Definition halts (r q : bytes) : Prop := r <> [] \/ stop q.

Lemma halts_app x r q : halts r q -> halts (x ++ r) q.
Proof. intros [H|H]; [left|by right]. by destruct x. Qed.
Lemma halts_cons b r q : halts (b :: r) q.
Proof. by left. Qed.

Lemma span_digits_ext l q : halts (span_digits l).2 q ->
  span_digits (l ++ q) = ((span_digits l).1, (span_digits l).2 ++ q).
Proof.
  induction l as [|b l IH]; cbn.
  - intros [?|Hq]; [done|]. destruct q as [|b q]; [done|]. destruct Hq as [Hb _]. cbn. by rewrite Hb.
  - destruct (is_digit b); cbn; [|done]. intros H. by rewrite IH.
Qed.

Lemma digits1_ext l n r q : digits1 l = Some (n, r) -> halts r q -> digits1 (l ++ q) = Some (n, r ++ q).
Proof.
  unfold digits1. cbn zeta. case_bool_decide as Hn; [done|]. intros [= E] Hh. rewrite E in Hn.
  rewrite span_digits_ext; rewrite E; [|done]. cbn [fst snd]. by rewrite bool_decide_false.
Qed.

Lemma int_part_ext l n r q : int_part l = Some (n, r) -> halts r q -> int_part (l ++ q) = Some (n, r ++ q).
Proof.
  destruct l as [|b l]; [done|]. cbn [int_part app]. destruct (b =? 48); [by intros [= <- <-]|]. apply digits1_ext.
Qed.

Lemma frac_part_ext l n r q : frac_part l = Some (n, r) -> halts r q -> frac_part (l ++ q) = Some (n, r ++ q).
Proof.
  destruct l as [|b l]; cbn [frac_part app].
  - intros [= <- <-] [?|Hq]; [done|]. destruct q as [|b q]; [done|]. destruct Hq as (_ & Hb & _). cbn.
    by rewrite (proj2 (Z.eqb_neq _ _) Hb).
  - destruct (b =? 46); [|by intros [= <- <-]]. intros ([x y] & E & [= <- <-])%bind_Some Hh. cbn in Hh. by rewrite (digits1_ext _ _ _ _ E).
Qed.

Lemma exp_part_ext l n r q : exp_part l = Some (n, r) -> halts r q -> exp_part (l ++ q) = Some (n, r ++ q).
Proof.
  destruct l as [|b l]; cbn [exp_part app].
  - intros [= <- <-] [?|Hq]; [done|]. destruct q as [|b q]; [done|]. destruct Hq as (_ & _ & H1 & H2). cbn.
    by rewrite (proj2 (Z.eqb_neq _ _) H1), (proj2 (Z.eqb_neq _ _) H2).
  - destruct (_ || _); [|by intros [= <- <-]]. destruct l as [|c l]; cbn [app]; [done|]. destruct (_ || _).
    + intros ([x y] & E & [= <- <-])%bind_Some Hh. cbn in Hh. by rewrite (digits1_ext _ _ _ _ E).
    + intros ([x y] & E & [= <- <-])%bind_Some Hh. cbn in Hh. pose proof (digits1_ext _ _ _ q E Hh) as E'. cbn [app] in E'. by rewrite E'.
Qed.

Lemma unsigned_ext l n r q : unsigned l = Some (n, r) -> halts r q -> unsigned (l ++ q) = Some (n, r ++ q).
Proof.
  unfold unsigned. intros ([i r1] & Hi & ([f r2] & Hf & ([e r3] & He & [= <- <-])%bind_Some)%bind_Some)%bind_Some Hh. cbn [fst snd] in *.
  pose proof (frac_part_split _ _ _ Hf) as E1. pose proof (exp_part_split _ _ _ He) as E2. subst r1 r2.
  rewrite (int_part_ext _ _ _ q Hi) by (by do 2 apply halts_app). cbn [mbind option_bind fst snd].
  rewrite (frac_part_ext _ _ _ q Hf) by (by apply halts_app). cbn [mbind option_bind fst snd].
  by rewrite (exp_part_ext _ _ _ q He).
Qed.

Lemma number_ext l n r q : number l = Some (n, r) -> halts r q -> number (l ++ q) = Some (n, r ++ q).
Proof.
  destruct l as [|b l]; [done|]. cbn [number app]. destruct (b =? 45); [|apply unsigned_ext].
  intros ([x y] & E & [= <- <-])%bind_Some Hh. cbn in Hh. by rewrite (unsigned_ext _ _ _ _ E).
Qed.

Lemma literal_ext lit l r q : literal lit l = Some r -> literal lit (l ++ q) = Some (r ++ q).
Proof.
  revert l. induction lit as [|a lit IH]; intros [|b l]; cbn; try done; try (by intros [= <-]).
  destruct (a =? b); [apply IH|done].
Qed.

Lemma skip_ws_ext l q : skip_ws l <> [] -> skip_ws (l ++ q) = skip_ws l ++ q.
Proof. induction l as [|b l IH]; cbn; [done|]. by destruct (_ || _). Qed.

Lemma hex4_ext l u r q : hex4 l = Some (u, r) -> hex4 (l ++ q) = Some (u, r ++ q).
Proof.
  destruct l as [|a [|b [|c [|d r']]]]; cbn; try done. intros H.
  repeat (apply bind_Some in H as (? & E & H); rewrite E; clear E; cbn). by injection H as <- ->.
Qed.

Lemma getu4_ext l u r q : getu4 l = Some (u, r) -> getu4 (l ++ q) = Some (u, r ++ q).
Proof. destruct l as [|a [|b l]]; cbn [getu4 app]; try done. destruct (_ && _); [apply hex4_ext|done]. Qed.

(** In the rest of a string a \u escape is whole. *)
Lemma getu4_none f l s r q : string_body f l = Ok (s, r) -> getu4 l = None -> getu4 (l ++ q) = None.
Proof.
  destruct f as [|f]; [done|]. destruct l as [|a [|b l]]; cbn [string_body getu4 app]; [done|..].
  - destruct (a =? bQuote) eqn:E; [apply Z.eqb_eq in E as ->; by destruct q as [|? ?]|]. destruct (a =? bSlash) eqn:E2; [done|].
    intros _ _. by destruct q as [|c q].
  - destruct (a =? bQuote) eqn:E; [apply Z.eqb_eq in E as ->; done|]. destruct (a =? bSlash); cbn [andb]; [|done].
    destruct (b =? 117) eqn:E2; [|done]. apply Z.eqb_eq in E2 as ->. cbn. intros H Hn. by rewrite Hn in H.
Qed.

Lemma unescape_ext f l out r s r' q :
  unescape l = Some (out, r) -> string_body f r = Ok (s, r') -> unescape (l ++ q) = Some (out, r ++ q).
Proof.
  destruct l as [|c l]; cbn [unescape app]; [done|]. intros H Hb.
  repeat match type of H with (if ?b then _ else _) = _ => destruct b; [by injection H as <- <-|] end.
  destruct (c =? 117); [|done]. destruct (hex4 l) as [[u r1]|] eqn:Hu; [|done]. rewrite (hex4_ext _ _ _ q Hu).
  destruct (between _ _ _); [|by injection H as <- <-].
  destruct (getu4 r1) as [[v r2]|] eqn:Hv.
  - rewrite (getu4_ext _ _ _ q Hv). by destruct (_ && _); injection H as <- <-.
  - injection H as <- <-. by rewrite (getu4_none _ _ _ _ q Hb Hv).
Qed.

Lemma rune_len_bound l n : rune_len l = S n -> (S n <= length l)%nat /\ forall q, rune_len (l ++ q) = S n.
Proof.
  destruct l as [|b [|c l]]; cbn [rune_len app]; [done|done|]. destruct (seq2 b c); [intros [= <-]; split; [cbn; lia|done]|].
  destruct l as [|d l]; cbn [app]; [done|]. destruct (seq3 b c d); [intros [= <-]; split; [cbn; lia|done]|].
  destruct l as [|e l]; cbn [app]; [done|]. destruct (seq4 b c d e); [intros [= <-]; split; [cbn; lia|done]|done].
Qed.

(** Bytes of 128 and above alone do not end a string. *)
Lemma string_body_high f l s r : Forall (fun b => 128 <= b) l -> string_body f l <> Ok (s, r).
Proof.
  revert l s r. induction f as [|f IH]; intros l s r Hl; [done|]. destruct Hl as [|b l Hb Hl]; cbn [string_body]; [done|].
  rewrite (proj2 (Z.eqb_neq b bQuote)), (proj2 (Z.eqb_neq b bSlash)), (proj2 (Z.ltb_ge b 32)), (proj2 (Z.ltb_ge b 128)) by lia.
  destruct (rune_len (b :: l)) as [|n]; intros H; apply bind_ok in H as ([s1 r1] & H & _).
  - by eapply IH.
  - cbn [drop] in H. eapply IH; [|exact H]. by apply Forall_drop.
Qed.

Lemma cont_high b : cont b = true -> 128 <= b.
Proof. unfold cont, between. lia. Qed.

Lemma rune_len_none f b l s r q : 128 <= b -> string_body f l = Ok (s, r) -> rune_len (b :: l) = 0%nat -> rune_len (b :: l ++ q) = 0%nat.
Proof.
  intros Hb Hs H0. destruct (rune_len (b :: l ++ q)) as [|n] eqn:E; [done|]. exfalso.
  destruct l as [|c [|d [|e l]]].
  - by eapply string_body_high; [|exact Hs].
  - cbn [rune_len app] in *. destruct (seq2 b c) eqn:E2; [done|]. destruct q as [|d q]; [done|].
    assert (128 <= c) by (destruct (seq3 b c d) eqn:E3; [|destruct q as [|e q]; [done|]; destruct (seq4 b c d e) eqn:E4; [|done]];
      unfold seq3, seq4, cont, between in *; lia).
    eapply string_body_high; [|exact Hs]. by repeat constructor.
  - cbn [rune_len app] in *. destruct (seq2 b c) eqn:E2; [done|]. destruct (seq3 b c d) eqn:E3; [done|].
    destruct q as [|e q]; [done|]. destruct (seq4 b c d e) eqn:E4; [|done].
    assert (128 <= c /\ 128 <= d) as [] by (unfold seq4, cont, between in *; lia).
    eapply string_body_high; [|exact Hs]. by repeat constructor.
  - cbn [rune_len app] in *. rewrite H0 in E. done.
Qed.

Lemma string_body_ext f l s r q f' :
  string_body f l = Ok (s, r) -> (length (l ++ q) < f')%nat -> string_body f' (l ++ q) = Ok (s, r ++ q).
Proof.
  revert l s r f'. induction f as [|f IH]; intros l s r f' H Hf; [done|]. destruct f' as [|f']; [lia|].
  destruct l as [|b l]; [done|]. cbn [app length] in Hf. cbn [string_body app] in H |- *.
  destruct (b =? bQuote); [by injection H as <- <-|]. destruct (b =? bSlash).
  { destruct (unescape l) as [[out r1]|] eqn:Hu; [|done]. apply bind_ok in H as ([s1 r2] & H1 & [= <- <-]).
    rewrite (unescape_ext _ _ _ _ _ _ q Hu H1). pose proof (unescape_length _ _ _ Hu). rewrite length_app in Hf.
    rewrite (IH _ _ _ f' H1); [done|]. rewrite length_app. lia. }
  destruct (b <? 32); [done|]. destruct (b <? 128) eqn:Hb.
  { apply bind_ok in H as ([s1 r2] & H1 & [= <- <-]). by rewrite (IH _ _ _ f' H1) by lia. }
  apply Z.ltb_ge in Hb. destruct (rune_len (b :: l)) as [|n] eqn:Hn.
  - apply bind_ok in H as ([s1 r2] & H1 & [= <- <-]). rewrite (rune_len_none _ _ _ _ _ q Hb H1 Hn). by rewrite (IH _ _ _ f' H1) by lia.
  - apply bind_ok in H as ([s1 r2] & H1 & [= <- <-]). destruct (rune_len_bound _ _ Hn) as [Hlen Hq]. specialize (Hq q). cbn [app] in Hq.
    rewrite Hq. cbn [length] in Hlen. change (b :: l ++ q) with ((b :: l) ++ q). rewrite drop_app_le, take_app_le by (cbn; lia).
    rewrite (IH _ _ _ f' H1); [done|]. rewrite length_app, length_drop. cbn [length]. rewrite length_app in Hf. lia.
Qed.

Lemma parse_string_ext l s r q : parse_string l = Ok (s, r) -> parse_string (l ++ q) = Ok (s, r ++ q).
Proof.
  destruct l as [|b l]; cbn [parse_string app]; [done|]. destruct (b =? bQuote); [|done]. intros H.
  apply bind_ok in H as ([s1 r2] & H1 & [= <- <-]). by rewrite (string_body_ext _ _ _ _ q _ H1) by lia.
Qed.

(** Only a number can go on. *)
Definition ext_ok (v : json) (r q : bytes) : Prop := match v with JNum _ => halts r q | _ => True end.

Lemma scalar_ext l v r q : scalar l = Ok (v, r) -> ext_ok v r q -> scalar (l ++ q) = Ok (v, r ++ q).
Proof.
  destruct l as [|b l]; [done|]. cbn [scalar app]. intros H Hh. destruct (b =? bQuote).
  { apply bind_ok in H as ([s1 r2] & H1 & [= <- <-]). by rewrite (parse_string_ext _ _ _ q H1 : parse_string (b :: l ++ q) = _). }
  repeat match type of H with
  | (if ?x then from_option _ _ (literal ?lit ?y) else _) = _ =>
      destruct x; [destruct (literal lit y) as [r0|] eqn:E; [|done]; injection H as <- <-;
        by rewrite (literal_ext _ _ _ q E : literal lit (b :: l ++ q) = _)|]
  end.
  destruct (number (b :: l)) as [[n r0]|] eqn:E; [|done]. injection H as <- <-.
  by rewrite (number_ext _ _ _ q E Hh : number (b :: l ++ q) = _).
Qed.

Lemma skip_ws_cons l b r q : skip_ws l = b :: r -> skip_ws (l ++ q) = b :: r ++ q.
Proof. intros H. by rewrite skip_ws_ext, H by (by rewrite H). Qed.

Lemma skip_ws_ext_ok v l b r q : skip_ws l = b :: r -> ext_ok v l q.
Proof. intros H. assert (halts l q) by (left; by intros ->). by destruct v. Qed.

Lemma skip_ws_le l b r : skip_ws l = b :: r -> (length r < length l)%nat.
Proof. intros H. pose proof (skip_ws_length l) as Hl. rewrite H in Hl. cbn in Hl. lia. Qed.

Lemma value_ext f q :
  (forall d l v r f', value f d l = Ok (v, r) -> ext_ok v r q -> (2 * length (l ++ q) < f')%nat ->
     value f' d (l ++ q) = Ok (v, r ++ q)) /\
  (forall d l v r f', elements f d l = Ok (v, r) -> (2 * length (l ++ q) + 1 < f')%nat ->
     elements f' d (l ++ q) = Ok (v, r ++ q)) /\
  (forall d l v r f', members f d l = Ok (v, r) -> (2 * length (l ++ q) < f')%nat ->
     members f' d (l ++ q) = Ok (v, r ++ q)).
Proof.
  induction f as [|f (IHv & IHe & IHm)]; [done|]. split_and!; intros d l v r f' H; [intros Hh|..]; intros Hf;
    (destruct f' as [|f']; [lia|]); rewrite length_app in Hf.
  - cbn [value] in *. destruct (skip_ws l) as [|b l1] eqn:E1; [done|]. rewrite (skip_ws_cons _ _ _ q E1).
    apply skip_ws_le in E1. destruct (_ || _); [|by apply (scalar_ext (b :: l1))].
    destruct (maxNestingDepth <? d + 1); [done|]. destruct (skip_ws l1) as [|c l2] eqn:E2; [done|].
    rewrite (skip_ws_cons _ _ _ q E2). destruct (b =? bLBracket).
    + destruct (c =? bRBracket); [by injection H as <- <-|]. apply bind_ok in H as ([x y] & H & [= <- <-]).
      rewrite (IHe _ _ _ _ f' H); [done|]. rewrite length_app. lia.
    + destruct (c =? bRBrace); [by injection H as <- <-|]. apply bind_ok in H as ([x y] & H & [= <- <-]).
      rewrite (IHm _ _ _ _ f' H); [done|]. rewrite length_app. lia.
  - cbn [elements] in *. apply bind_ok in H as ([x y] & Hv & H). cbn [fst snd] in H.
    destruct (skip_ws y) as [|b y1] eqn:E1; [done|].
    rewrite (IHv _ _ _ _ f' Hv (skip_ws_ext_ok _ _ _ _ q E1)) by (rewrite length_app; lia). cbn [mbind result_bind fst snd].
    rewrite (skip_ws_cons _ _ _ q E1). destruct (b =? bComma); [|by destruct (b =? bRBracket); simplify_eq].
    apply bind_ok in H as ([z w] & H & [= <- <-]). apply skip_ws_le in E1.
    pose proof (proj1 (value_ends f) d l) as Hl. rewrite Hv in Hl. cbn in Hl.
    rewrite (IHe _ _ _ _ f' H); [done|]. rewrite length_app. lia.
  - cbn [members] in *. apply bind_ok in H as ([k l1] & Hk & H). cbn [fst snd] in H.
    destruct (skip_ws l) as [|b0 l0] eqn:E0; [done|]. rewrite (skip_ws_cons _ _ _ q E0). pose proof (skip_ws_le _ _ _ E0).
    rewrite (parse_string_ext _ _ _ q Hk : parse_string (b0 :: l0 ++ q) = _). cbn [mbind result_bind fst snd].
    pose proof (parse_string_ends (b0 :: l0)) as Hl1. rewrite Hk in Hl1. cbn in Hl1.
    destruct (skip_ws l1) as [|b l2] eqn:E1; [done|]. rewrite (skip_ws_cons _ _ _ q E1). apply skip_ws_le in E1.
    destruct (b =? bColon); [|done]. apply bind_ok in H as ([v1 l3] & Hv & H). cbn [fst snd] in H.
    destruct (skip_ws l3) as [|c l4] eqn:E3; [done|].
    rewrite (IHv _ _ _ _ f' Hv (skip_ws_ext_ok _ _ _ _ q E3)) by (rewrite length_app; lia). cbn [mbind result_bind fst snd].
    rewrite (skip_ws_cons _ _ _ q E3). destruct (c =? bComma); [|by destruct (c =? bRBrace); simplify_eq].
    apply bind_ok in H as ([z w] & H & [= <- <-]). apply skip_ws_le in E3.
    pose proof (proj1 (value_ends f) d l2) as Hl3. rewrite Hv in Hl3. cbn in Hl3.
    rewrite (IHm _ _ _ _ f' H); [done|]. rewrite length_app. lia.
Qed.

(** ** Round trips *)

(** Runes that [runes] produces. *)
Definition wf_rune (r : rune) : Prop :=
  match r with
  | RAscii b => 0 <= b < 128
  | RMulti bs => (exists b l, bs = b :: l /\ 128 <= b) /\ rune_len bs = length bs
  | RBad _ => True
  end.

Lemma rune_len_cont l n : rune_len l = S n ->
  (1 <= n)%nat /\ rune_len (take (S n) l) = S n /\ exists b l', l = b :: l' /\ 194 <= b.
Proof.
  destruct l as [|b [|c l]]; cbn [rune_len]; [done|done|]. destruct (seq2 b c) eqn:E2.
  { intros [= <-]. cbn. rewrite E2. split_and!; [lia|done|]. exists b, (c :: l). unfold seq2, between in E2. split; [done|lia]. }
  destruct l as [|d l]; [done|]. destruct (seq3 b c d) eqn:E3.
  { intros [= <-]. cbn. rewrite E2, E3. split_and!; [lia|done|]. exists b, (c :: d :: l). unfold seq3, between in E3. split; [done|lia]. }
  destruct l as [|e l]; [done|]. destruct (seq4 b c d e) eqn:E4; [|done].
  intros [= <-]. cbn. rewrite E2, E3, E4. split_and!; [lia|done|]. exists b, (c :: d :: e :: l). unfold seq4, between in E4. split; [done|lia].
Qed.

Lemma runes_skip k l : runes k l = runes 0 (drop k l).
Proof. revert k. induction l as [|b l IH]; intros [|k]; try done. cbn. apply IH. Qed.

Lemma runes_wf k l : Forall is_byte l -> Forall wf_rune (runes k l).
Proof.
  intros Hl. revert k. induction Hl as [|b l Hb Hl IH]; intros [|k]; cbn [runes]; auto.
  destruct (b <? 128) eqn:E; [apply Z.ltb_lt in E; constructor; [unfold is_byte in Hb; cbn; lia|auto]|].
  destruct (rune_len (b :: l)) as [|n] eqn:Hn; constructor; auto; [done|].
  pose proof (rune_len_cont _ _ Hn) as (H1 & H2 & b' & l' & [= <- <-] & Hb'). pose proof (rune_len_bound _ _ Hn) as [Hlen _].
  cbn [wf_rune]. split; [exists b, (take n l); split; [done|lia]|]. rewrite H2. cbn [take length]. rewrite length_take_le; cbn in Hlen; lia.
Qed.

(** A valid string is its runes. *)
Lemma runes_concat k l : forallb good_rune (runes k l) = true -> concat (rune_bytes <$> runes k l) = drop k l.
Proof.
  revert k. induction l as [|b l IH]; intros [|k]; cbn [runes drop]; try done; [|apply IH].
  destruct (b <? 128); [cbn; intros H; f_equal; by rewrite (IH 0%nat) by done|].
  destruct (rune_len (b :: l)) as [|n]; [done|]. cbn [forallb good_rune andb]. intros H. rewrite fmap_cons. cbn [concat rune_bytes].
  rewrite IH by done. cbn [take app]. by rewrite take_drop.
Qed.

Lemma to_valid_id s : utf8_valid s = true -> to_valid s = s.
Proof. intros H. unfold to_valid. rewrite runes_concat by done. apply string_of_bytes_of_string. Qed.

Lemma good_app p q : forall k, (k <= length p)%nat -> forallb good_rune (runes k p) = true ->
  forallb good_rune (runes k (p ++ q)) = forallb good_rune (runes 0 q).
Proof.
  induction p as [|b p IH]; intros k Hk Hg; [by replace k with 0%nat by (cbn in Hk; lia)|].
  destruct k as [|k]; cbn [length app runes] in *; [|apply IH; [lia|done]].
  destruct (b <? 128); [by apply IH; [lia|]|].
  destruct (rune_len (b :: p)) as [|n] eqn:Hn; [done|]. pose proof (rune_len_bound _ _ Hn) as [Hl Hq].
  specialize (Hq q). cbn [app length] in Hq, Hl. rewrite Hq. cbn [forallb good_rune andb] in *. apply IH; [lia|done].
Qed.

(** Valid strings are closed under concatenation. *)
Lemma utf8_valid_app s t : utf8_valid s = true -> utf8_valid t = true -> utf8_valid (s +:+ t) = true.
Proof. intros Hs Ht. unfold utf8_valid. rewrite bytes_of_string_app, good_app; [done|lia|done]. Qed.

Lemma ascii_valid s : Forall (fun b => b < 128) (bytes_of_string s) -> utf8_valid s = true.
Proof.
  unfold utf8_valid. induction 1 as [|b l Hb _ IH]; [done|]. cbn [runes]. by rewrite (proj2 (Z.ltb_lt b 128)).
Qed.

Lemma small_cases (P : Z -> bool) n : forallb P (seqZ 0 n) = true -> forall b, 0 <= b < n -> P b = true.
Proof. intros H b Hb. rewrite forallb_forall in H. apply H, list_elem_of_In, elem_of_seqZ. lia. Qed.

(** One turn of the string loop reads one escaped rune. *)
Lemma ascii_step f b l : 0 <= b < 128 ->
  string_body (S f) (esc_ascii b ++ l) = (sr ← string_body f l; Ok (b :: sr.1, sr.2)).
Proof.
  intros Hb.
  set (known := fun b => match esc_ascii b with
    | [c] => (c =? b) && negb (c =? bQuote) && negb (c =? bSlash) && negb (c <? 32)
    | [c; d] => (c =? bSlash) && bool_decide (unescape [d] = Some ([b], []))
    | [c; u; x; y; z; w] => (c =? bSlash) && (u =? 117) && bool_decide (hex4 [x; y; z; w] = Some (b, []))
    | _ => false
    end).
  assert (known b = true) as Hk by (apply (small_cases known 128); [vm_compute; reflexivity|done]).
  unfold known in Hk. clear known. destruct (esc_ascii b) as [|c [|d [|x [|y [|z [|w [|]]]]]]]; try done.
  - apply andb_prop in Hk as [[[->%Z.eqb_eq Hq]%andb_prop Hs]%andb_prop Hc]. apply negb_true_iff in Hq, Hs, Hc.
    cbn [app string_body]. rewrite Hq, Hs, Hc. by rewrite (proj2 (Z.ltb_lt b 128)) by lia.
  - apply andb_prop in Hk as [->%Z.eqb_eq Hd%bool_decide_eq_true]. cbn [app string_body].
    change (bSlash =? bQuote) with false. change (bSlash =? bSlash) with true. cbv iota.
    assert (unescape (d :: l) = Some ([b], l)) as ->; [|done]. revert Hd. cbn [unescape].
    repeat match goal with |- (if ?t then _ else _) = _ -> _ => destruct t; [by intros [= ->]|] end. by destruct (d =? 117).
  - apply andb_prop in Hk as [[->%Z.eqb_eq ->%Z.eqb_eq]%andb_prop Hh%bool_decide_eq_true]. cbn [app string_body].
    change (bSlash =? bQuote) with false. change (bSlash =? bSlash) with true. cbv iota.
    assert (unescape (117 :: x :: y :: z :: w :: l) = Some ([b], l)) as ->; [|done].
    pose proof (hex4_ext _ _ _ l Hh) as Hh'. cbn [app] in Hh'. cbn [unescape]. cbn -[hex4]. rewrite Hh'.
    assert (between 55296 b 57343 = false) as -> by (unfold between; lia).
    unfold encode_rune. by rewrite (proj2 (Z.ltb_lt b 128)) by lia.
Qed.

Lemma rune_step f r l : wf_rune r ->
  string_body (S f) (esc_rune r ++ l) = (sr ← string_body f l; Ok (rune_bytes r ++ sr.1, sr.2)).
Proof.
  destruct r as [b|bs|b]; cbn [wf_rune esc_rune rune_bytes].
  - apply ascii_step.
  - intros ((b & bs' & -> & Hb) & Hl). case_bool_decide as H1; [injection H1 as -> ->; reflexivity|].
    case_bool_decide as H2; [injection H2 as -> ->; reflexivity|]. cbn [app length] in *. cbn [string_body].
    rewrite (proj2 (Z.eqb_neq b bQuote)), (proj2 (Z.eqb_neq b bSlash)), (proj2 (Z.ltb_ge b 32)), (proj2 (Z.ltb_ge b 128)) by lia.
    pose proof (rune_len_bound _ _ Hl) as [_ Hq]. specialize (Hq l). cbn [app] in Hq. rewrite Hq. cbn [drop take].
    by rewrite drop_app_length, take_app_length.
  - reflexivity.
Qed.

Lemma runes_parse rs f rest : Forall wf_rune rs -> (length rs < f)%nat ->
  string_body f (concat (esc_rune <$> rs) ++ bQuote :: rest) = Ok (concat (rune_bytes <$> rs), rest).
Proof.
  intros Hrs. revert f. induction Hrs as [|r rs Hr _ IH]; intros [|f] Hf; cbn [length] in Hf; try lia; [done|].
  rewrite !fmap_cons. cbn [concat]. rewrite <-app_assoc, rune_step by done. by rewrite IH by lia.
Qed.

Lemma esc_rune_length r : (1 <= length (esc_rune r))%nat \/ r = RMulti [].
Proof.
  destruct r as [b|bs|b]; cbn [esc_rune]; [left|..].
  - unfold esc_ascii. repeat case_match; cbn; lia.
  - destruct bs as [|x bs]; [by right|]. left. repeat case_bool_decide; cbn; lia.
  - left. cbn. lia.
Qed.

Lemma parse_quote s rest : parse_string (quote s ++ rest) = Ok (to_valid s, rest).
Proof.
  unfold quote, parse_string. cbn [app]. change (bQuote =? bQuote) with true. cbv iota. rewrite <-app_assoc. cbn [app].
  pose proof (runes_wf 0 _ (bytes_of_string_range s)) as Hw.
  assert (forall rs q, Forall wf_rune rs -> (length rs <= length (concat (esc_rune <$> rs) ++ bQuote :: q))%nat) as Hl.
  { intros rs q. induction 1 as [|r rs Hr _ IH]; [cbn; lia|]. rewrite fmap_cons. cbn [concat length]. rewrite <-app_assoc, length_app.
    destruct (esc_rune_length r) as [?| ->]; [lia|]. by destruct Hr as [(? & ? & ? & _) _]. }
  by rewrite runes_parse by (try done; specialize (Hl _ rest Hw); lia).
Qed.

(** *** Values *)

Section json_ind.
Variable P : json -> Prop.
Hypothesis (Pnull : P JNull) (Pbool : forall b, P (JBool b)) (Pnum : forall lit, P (JNum lit)) (Pstr : forall s, P (JStr s)).
Hypothesis Parr : forall l, Forall P l -> P (JArr l).
Hypothesis Pobj : forall l, Forall (fun kv : string * json => P kv.2) l -> P (JObj l).

Fixpoint json_nested_ind (v : json) : P v :=
  match v with
  | JNull => Pnull | JBool b => Pbool b | JNum lit => Pnum lit | JStr s => Pstr s
  | JArr l => Parr l ((fix go l : Forall P l :=
      match l with [] => Forall_nil_2 _ | x :: l' => Forall_cons_2 _ _ _ (json_nested_ind x) (go l') end) l)
  | JObj l => Pobj l ((fix go l : Forall (fun kv : string * json => P kv.2) l :=
      match l with [] => Forall_nil_2 _ | x :: l' => Forall_cons_2 _ _ _ (json_nested_ind x.2) (go l') end) l)
  end.
End json_ind.

(** The literal of a number. *)
Definition lit_ok (lit : bytes) : bool := bool_decide (number lit = Some (lit, [])).

(** A value whose numbers are numbers and whose nesting is at most [n]. *)
Fixpoint wf_json (n : nat) (v : json) {struct v} : bool :=
  match v with
  | JNum lit => lit_ok lit
  | JArr l => match n with O => false | S n' => forallb (wf_json n') l end
  | JObj l => match n with O => false | S n' => forallb (fun kv : string * json => wf_json n' kv.2) l end
  | _ => true
  end.

(** What is read back: strings with what is not UTF-8 replaced. *)
Fixpoint clean (v : json) : json :=
  match v with
  | JStr s => JStr (to_valid s)
  | JArr l => JArr (map clean l)
  | JObj l => JObj (map (fun kv : string * json => (to_valid kv.1, clean kv.2)) l)
  | _ => v
  end.

Definition not_ws (b : Z) : bool := negb ((b =? 32) || (b =? 9) || (b =? 10) || (b =? 13)).
(** The first byte of a value: no white space, comma, colon or bracket that closes. *)
Definition starts_value (b : Z) : bool :=
  not_ws b && negb ((b =? bRBracket) || (b =? bRBrace) || (b =? bComma) || (b =? bColon)).

Lemma digits1_head l n r : digits1 l = Some (n, r) -> exists b l', l = b :: l' /\ is_digit b = true.
Proof.
  unfold digits1. cbn zeta. destruct l as [|b l]; [done|]. destruct (is_digit b) eqn:E; [by exists b, l|].
  cbn [span_digits]. rewrite E. done.
Qed.

Lemma number_head l n r : number l = Some (n, r) -> exists b l', l = b :: l' /\ (b = 45 \/ is_digit b = true).
Proof.
  destruct l as [|b l]; cbn [number]; [done|]. destruct (b =? 45) eqn:E; [apply Z.eqb_eq in E; exists b, l; by auto|].
  intros H. exists b, l. split; [done|]. right. unfold unsigned in H. apply bind_Some in H as ([i r1] & Hi & _). cbn [int_part] in Hi.
  destruct (b =? 48) eqn:E2; [by apply Z.eqb_eq in E2 as ->|]. by apply digits1_head in Hi as (? & ? & [= <- <-] & ?).
Qed.

Lemma print_head n v : wf_json n v = true -> exists b l, print v = b :: l /\ starts_value b = true.
Proof.
  destruct v as [|[]|lit|s|l|l]; cbn [print wf_json]; try (intros _; by do 2 eexists).
  intros (b & l & -> & Hb)%bool_decide_eq_true%number_head. exists b, l. split; [done|].
  destruct Hb as [-> |Hb]; [done|]. unfold starts_value, not_ws. unfold is_digit, between in Hb. lia.
Qed.

Lemma skip_ws_starts b l : starts_value b = true -> skip_ws (b :: l) = b :: l.
Proof.
  unfold starts_value, not_ws. intros [Hb _]%andb_prop. apply negb_true_iff in Hb. cbn [skip_ws]. by rewrite Hb.
Qed.

Lemma skip_ws_print n v q : wf_json n v = true -> skip_ws (print v ++ q) = print v ++ q.
Proof. intros (b & l & -> & Hb)%print_head. cbn [app]. by apply skip_ws_starts. Qed.

(** The scalars. *)
Lemma scalar_print v q : wf_json 0 v = true -> stop q -> scalar (print v ++ q) = Ok (clean v, q).
Proof.
  destruct v as [|[]|lit|s|l|l]; cbn [wf_json]; try done; intros Hw Hq.
  - apply bool_decide_eq_true in Hw. pose proof (number_ext _ _ _ q Hw ltac:(by right)) as Hn. cbn [print clean].
    destruct (number_head _ _ _ Hw) as (b & l & -> & Hb). cbn [app] in *. cbn [scalar].
    assert ((b =? bQuote) = false /\ (b =? 110) = false /\ (b =? 116) = false /\ (b =? 102) = false) as (-> & -> & -> & ->).
    { destruct Hb as [-> |Hb]; [done|]. unfold is_digit, between in Hb. lia. }
    rewrite Hn. done.
  - cbn [print clean]. pose proof (parse_quote s q) as H. unfold quote in *. cbn [app] in *. cbn [scalar].
    change (bQuote =? bQuote) with true. cbv iota. by rewrite H.
Qed.

Lemma sep_by_cons x l : sep_by (x :: l) = x ++ match l with [] => [] | _ => bComma :: sep_by l end.
Proof. destruct l; cbn; [done|]. done. Qed.

#[local] Arguments sep_by : simpl never.

(** The members' texts, with the bracket that closes. *)
Definition member_text (kv : string * json) : bytes := quote kv.1 ++ bColon :: print kv.2.
Definition clean_member (kv : string * json) : string * json := (to_valid kv.1, clean kv.2).

(** A value is read back from its text. *)
Definition reads_back (n : nat) (v : json) : Prop :=
  forall f d q, wf_json n v = true -> d + Z.of_nat n <= maxNestingDepth -> stop q -> (2 * length (print v ++ q) < f)%nat ->
    value f d (print v ++ q) = Ok (clean v, q).

Lemma elements_print n l : l <> [] -> Forall (reads_back n) l -> forall f d q,
  forallb (wf_json n) l = true -> d + Z.of_nat n <= maxNestingDepth ->
  (2 * length (sep_by (map print l) ++ bRBracket :: q) + 1 < f)%nat ->
  elements f d (sep_by (map print l) ++ bRBracket :: q) = Ok (map clean l, q).
Proof.
  intros Hne Hl. induction Hl as [|v l Hv Hl IH]; [done|]. intros f d q Hw Hd Hf. destruct f as [|f]; [lia|].
  cbn [forallb] in Hw. apply andb_prop in Hw as [Hw Hws]. cbn [map] in *. rewrite sep_by_cons in *. cbn [elements].
  rewrite <-app_assoc in *. destruct l as [|v' l]; cbn [map] in *.
  - rewrite Hv; [|done|done| |rewrite length_app in *; cbn [length] in *; lia]; [done|]. cbn. done.
  - cbn [app] in *. rewrite Hv; [|done|done| |rewrite length_app in *; cbn [length] in *; lia].
    + cbn. rewrite (IH ltac:(done) f d q Hws Hd); [done|]. rewrite length_app in Hf. cbn [length] in Hf. lia.
    + cbn. done.
Qed.

Lemma members_print n l : l <> [] -> Forall (fun kv : string * json => reads_back n kv.2) l -> forall f d q,
  forallb (fun kv : string * json => wf_json n kv.2) l = true -> d + Z.of_nat n <= maxNestingDepth ->
  (2 * length (sep_by (map member_text l) ++ bRBrace :: q) < f)%nat ->
  members f d (sep_by (map member_text l) ++ bRBrace :: q) = Ok (map clean_member l, q).
Proof.
  intros Hne Hl. induction Hl as [|[k v] l Hv Hl IH]; [done|]. intros f d q Hw Hd Hf. destruct f as [|f]; [lia|].
  cbn [forallb snd] in *. apply andb_prop in Hw as [Hw Hws]. cbn [map] in *. rewrite sep_by_cons in *. cbn [members].
  unfold member_text in *. cbn [fst snd] in *. rewrite <-!app_assoc in *. cbn [app] in *.
  assert (forall x, skip_ws (quote k ++ x) = quote k ++ x) as -> by done.
  rewrite parse_quote. cbn [mbind result_bind fst snd]. change (skip_ws (bColon :: ?x)) with (bColon :: x). cbv iota.
  change (bColon =? bColon) with true. cbv iota.
  destruct l as [|kv' l]; cbn [map] in *.
  - rewrite Hv; [|done|done|done|repeat (rewrite length_app in * || cbn [length app] in * ); lia]. done.
  - cbn [app] in *. rewrite Hv; [|done|done|done|repeat (rewrite length_app in * || cbn [length app] in * ); lia].
    cbn [mbind result_bind fst snd]. change (skip_ws (bComma :: ?x)) with (bComma :: x). cbv iota. change (bComma =? bComma) with true. cbv iota.
    rewrite (IH ltac:(done) f d q Hws Hd); [done|]. repeat (rewrite length_app in Hf || cbn [length app] in Hf). rewrite length_app. cbn [length]. lia.
Qed.

Lemma value_scalar n v f d q :
  match v with JArr _ | JObj _ => False | _ => True end -> wf_json n v = true -> stop q -> (0 < f)%nat ->
  value f d (print v ++ q) = Ok (clean v, q).
Proof.
  intros Hv Hw Hq Hf. destruct f as [|f]; [lia|]. rewrite <-(scalar_print v q) by (by destruct v). cbn [value].
  rewrite (skip_ws_print n v q Hw). destruct (print_head n v Hw) as (b & t & E & Hb). rewrite E. cbn [app].
  assert ((b =? bLBracket) || (b =? bLBrace) = false) as ->; [|done].
  destruct v as [|[]|lit|s| |]; try done; cbn [print] in E; try (by injection E as <- _).
  apply bool_decide_eq_true, number_head in Hw as (b' & l' & -> & Hb'). injection E as <- <-.
  destruct Hb' as [-> |Hb']; [done|]. unfold is_digit, between in Hb'. lia.
Qed.

(** A bracket that opens before a closing one, or before a value's first byte. *)
Lemma value_print v : forall n, reads_back n v.
Proof.
  induction v as [|b|lit|s|l IH|l IH] using json_nested_ind; intros n f d q Hw Hd Hq Hf.
  1-4: by apply (value_scalar n); (done || lia).
  - destruct n as [|n]; [done|]. cbn [wf_json] in Hw. destruct f as [|f]; [lia|]. cbn [print clean app] in *. rewrite <-app_assoc in *. cbn [app] in *.
    cbn [value]. change (skip_ws (bLBracket :: ?x)) with (bLBracket :: x). cbv iota. cbn [orb].
    change (bLBracket =? bLBracket) with true. cbn [orb]. rewrite (proj2 (Z.ltb_ge _ _)) by lia.
    destruct l as [|v l]; [done|]. assert (exists b t, sep_by (map print (v :: l)) = b :: t /\ starts_value b = true) as (b & t & E & Hb).
    { cbn [map]. rewrite sep_by_cons. cbn [forallb] in Hw. apply andb_prop in Hw as [Hw _].
      destruct (print_head n v Hw) as (b & t & E & Hb). rewrite E. cbn [app]. by do 2 eexists. }
    assert (skip_ws (sep_by (map print (v :: l)) ++ bRBracket :: q) = b :: t ++ bRBracket :: q) as ->
      by (rewrite E; cbn [app]; by apply skip_ws_starts).
    assert ((b =? bRBracket) = false) as -> by (unfold starts_value in Hb; lia).
    rewrite (elements_print n); [done|done| |done|lia|cbn [length] in Hf; lia].
    eapply Forall_impl; [exact IH|]. auto.
  - destruct n as [|n]; [done|]. cbn [wf_json] in Hw. destruct f as [|f]; [lia|]. cbn [print clean app] in *. rewrite <-app_assoc in *. cbn [app] in *.
    cbn [value]. change (skip_ws (bLBrace :: ?x)) with (bLBrace :: x). cbv iota.
    change (bLBrace =? bLBracket) with false. change (bLBrace =? bLBrace) with true. cbn [orb]. rewrite (proj2 (Z.ltb_ge _ _)) by lia.
    fold member_text in *. destruct l as [|kv l]; [done|]. 
    assert (exists t, sep_by (map member_text (kv :: l)) = bQuote :: t) as [t E]
      by (cbn [map]; rewrite sep_by_cons; unfold member_text, quote; cbn [app]; by eexists).
    assert (skip_ws (sep_by (map member_text (kv :: l)) ++ bRBrace :: q) = bQuote :: t ++ bRBrace :: q) as -> by (by rewrite E).
    change (bQuote =? bRBrace) with false. cbv iota.
    rewrite (members_print n); [done|done| |done|lia|cbn [length] in Hf; lia].
    eapply Forall_impl; [exact IH|]. auto.
Qed.

(** Printed values are read back, up to what is not UTF-8 in their strings. *)
Theorem parse_print n v : wf_json n v = true -> Z.of_nat n <= maxNestingDepth -> parse (print v) = Ok (clean v).
Proof.
  intros Hw Hn. unfold parse. rewrite <-(app_nil_r (print v)). rewrite (value_print v n); [reflexivity|done|lia|done|].
  unfold parse_fuel. lia.
Qed.

(** ** Texts that are cut *)

Lemma value_bracket f d b l v r :
  value f d (b :: l) = Ok (v, r) -> b = bLBracket \/ b = bLBrace -> forall n, v <> JNum n.
Proof.
  destruct f as [|f]; [done|]. intros H Hb n ->. cbn [value] in H.
  assert (skip_ws (b :: l) = b :: l) as E by (apply skip_ws_starts; by destruct Hb as [-> | ->]). rewrite E in H.
  assert ((b =? bLBracket) || (b =? bLBrace) = true) as E2 by (by destruct Hb as [-> | ->]). rewrite E2 in H.
  destruct (maxNestingDepth <? d + 1); [done|]. destruct (skip_ws l) as [|c l']; [done|].
  destruct (b =? bLBracket); [destruct (c =? bRBracket)|destruct (c =? bRBrace)]; try done;
    by apply bind_ok in H as ([x y] & _ & H).
Qed.

(** A text that is cut short is an error. *)
Theorem parse_cut n l p q :
  wf_json n (JObj l) = true -> Z.of_nat n <= maxNestingDepth -> print (JObj l) = p ++ q -> q <> [] -> parse p = Err ().
Proof.
  intros Hw Hn E Hq. destruct (parse p) as [v|[]|c] eqn:Hp; [|done|by apply parse_total in Hp]. exfalso.
  unfold parse in Hp. apply bind_ok in Hp as ([v' r] & Hv & _). destruct p as [|b p]; [done|].
  assert (b = bLBrace) as -> by (by injection E as <- _).
  pose proof (value_bracket _ _ _ _ _ _ Hv ltac:(by right)) as Hnum.
  pose proof (proj1 (value_ext _ q) _ _ _ _ (parse_fuel (print (JObj l))) Hv ltac:(by destruct v'; try done; destruct (Hnum lit))) as Hx.
  rewrite <-E in Hx. specialize (Hx ltac:(unfold parse_fuel; lia)). rewrite <-(app_nil_r (print (JObj l))) in Hx at 2.
  rewrite (value_print (JObj l) n) in Hx; [|done|lia|done|rewrite app_nil_r; unfold parse_fuel; lia].
  injection Hx as _ Hr. destruct r; [by destruct q|done].
Qed.

(** Texts have no control characters, hence no line ends. *)
Lemma quote_printable s : Forall (fun b => 32 <= b) (quote s).
Proof.
  unfold quote. constructor; [lia|]. apply Forall_app. split; [|by repeat constructor].
  apply Forall_concat, Forall_fmap. eapply Forall_impl; [apply runes_wf, bytes_of_string_range|]. intros [b|bs|b]; cbn [wf_rune compose esc_rune].
  - intros Hb. set (ok := fun b => forallb (fun c => 32 <=? c) (esc_ascii b)).
    assert (ok b = true) as Hk by (apply (small_cases ok 128); [vm_compute; reflexivity|done]).
    apply Forall_forall. intros c Hc. unfold ok in Hk. rewrite forallb_forall in Hk. apply Z.leb_le, Hk. by apply list_elem_of_In.
  - intros ((b & l & -> & Hb) & Hl). repeat case_bool_decide; [apply (bool_decide_unpack _); vm_compute; exact I..|].
    constructor; [lia|]. clear -Hl Hb. destruct l as [|c [|d [|e [|? ?]]]]; cbn [rune_len length] in Hl; repeat case_match; try done;
      unfold seq2, seq3, seq4, cont, between in *; repeat constructor; lia.
  - intros _. apply (bool_decide_unpack _). vm_compute. exact I.
Qed.

Notation printable := (Forall (fun b => 32 <= b)).

Lemma digits1_printable l n r : digits1 l = Some (n, r) -> printable n.
Proof.
  unfold digits1. cbn zeta. case_bool_decide; [done|]. intros [= E]. assert (n = (span_digits l).1) as -> by (by rewrite E). clear.
  induction l as [|b l IH]; cbn; [constructor|]. destruct (is_digit b) eqn:E; cbn; constructor; [|done]. unfold is_digit, between in E. lia.
Qed.

Lemma number_printable l n r : number l = Some (n, r) -> printable n.
Proof.
  assert (forall l n r, unsigned l = Some (n, r) -> printable n) as Hu.
  { clear. intros l n r ([i r1] & Hi & ([f r2] & Hf & ([e r3] & He & [= <- <-])%bind_Some)%bind_Some)%bind_Some. cbn [fst snd] in *.
    repeat rewrite Forall_app. split_and!.
    - destruct l as [|b l]; cbn in Hi; [done|]. destruct (b =? 48) eqn:E; [injection Hi as <- <-; repeat constructor; lia|by eapply digits1_printable].
    - destruct r1 as [|b l']; cbn in Hf; [by injection Hf as <- _|]. destruct (b =? 46) eqn:E; [|by injection Hf as <- _].
      apply bind_Some in Hf as ([x y] & Hd & [= <- _]). constructor; [lia|by eapply digits1_printable].
    - destruct r2 as [|b l']; cbn in He; [by injection He as <- _|]. destruct ((b =? 101) || (b =? 69)) eqn:E; [|by injection He as <- _].
      destruct l' as [|c l'']; [done|]. destruct ((c =? 43) || (c =? 45)) eqn:E2;
        apply bind_Some in He as ([x y] & Hd & [= <- _]); apply digits1_printable in Hd; repeat constructor; (lia || done). }
  destruct l as [|b l]; cbn [number]; [done|]. destruct (b =? 45) eqn:E; [|apply Hu].
  intros ([x y] & Hx & [= <- _])%bind_Some. constructor; [lia|by eapply Hu].
Qed.

Lemma sep_by_printable l : Forall printable l -> printable (sep_by l).
Proof.
  destruct 1 as [|x l Hx Hl]; [constructor|]. cbn. apply Forall_app. split; [done|]. apply Forall_concat, Forall_fmap.
  eapply Forall_impl; [exact Hl|]. intros y Hy. cbn. constructor; [lia|done].
Qed.

Lemma print_printable v : forall n, wf_json n v = true -> printable (print v).
Proof.
  induction v as [|[]|lit|s|l IH|l IH] using json_nested_ind; intros n Hw; cbn [print wf_json] in *.
  1-3: repeat constructor; lia.
  - apply bool_decide_eq_true in Hw. by eapply number_printable.
  - apply quote_printable.
  - destruct n as [|n]; [done|]. constructor; [lia|]. apply Forall_app. split; [|by repeat constructor].
    apply sep_by_printable, Forall_map, Forall_forall. intros v Hv. rewrite Forall_forall in IH. rewrite forallb_forall in Hw.
    eapply IH; [done|]. apply Hw. by apply list_elem_of_In.
  - destruct n as [|n]; [done|]. constructor; [lia|]. apply Forall_app. split; [|by repeat constructor].
    apply sep_by_printable, Forall_map, Forall_forall. intros kv Hv. rewrite Forall_forall in IH. rewrite forallb_forall in Hw.
    apply Forall_app. split; [apply quote_printable|]. constructor; [lia|]. eapply IH; [done|]. apply (Hw kv). by apply list_elem_of_In.
Qed.

(** ** Integers *)

Lemma pretty_digit d : (d < 10)%N -> byte_of_ascii (pretty_N_char d) = 48 + Z.of_N d.
Proof.
  intros Hd. set (ok := fun d => bool_decide (byte_of_ascii (pretty_N_char (Z.to_N d)) = 48 + d)).
  assert (ok (Z.of_N d) = true) as Hk by (apply (small_cases ok 10); [vm_compute; reflexivity|lia]).
  apply bool_decide_eq_true in Hk. by rewrite N2Z.id in Hk.
Qed.

Lemma digit_ok d : (d < 10)%N -> is_digit (48 + Z.of_N d) = true.
Proof. unfold is_digit, between. intros H. apply andb_true_iff. split; apply Z.leb_le; lia. Qed.

Lemma digits_val_pretty x s : digits_val 0 (bytes_of_string (pretty_N_go x s)) = digits_val (Z.of_N x) (bytes_of_string s).
Proof.
  revert s. induction (N.lt_wf_0 x) as [x _ IH]; intros s. assert (x = 0 \/ 0 < x)%N as [->|Hx] by lia; [done|].
  rewrite pretty_N_go_step by done. rewrite IH by (by apply N.div_lt). cbn [bytes_of_string digits_val].
  pose proof (N.mod_lt x 10 ltac:(done)). rewrite pretty_digit by done.
  rewrite (digit_ok _ H). f_equal. pose proof (N.div_mod' x 10). lia.
Qed.

(** A positive number's digits: no leading 0. *)
Lemma pretty_N_go_head x s : (0 < x)%N -> Forall (fun b => is_digit b = true) (bytes_of_string s) ->
  exists b l, bytes_of_string (pretty_N_go x s) = b :: l /\ b <> 48 /\ Forall (fun b => is_digit b = true) (b :: l).
Proof.
  revert s. induction (N.lt_wf_0 x) as [x _ IH]; intros s Hx Hs. rewrite pretty_N_go_step by done.
  pose proof (N.mod_lt x 10 ltac:(done)) as Hm.
  assert (Forall (fun b => is_digit b = true) (bytes_of_string (String (pretty_N_char (x `mod` 10)) s))) as Hs'.
  { cbn [bytes_of_string]. constructor; [|done]. rewrite pretty_digit by done. by apply digit_ok. }
  destruct (N.eq_0_gt_0_cases (x `div` 10)) as [E|Hd]; [|apply IH; [by apply N.div_lt|done..]].
  rewrite E. cbn [pretty_N_go]. change (pretty_N_go 0 ?t) with t. do 2 eexists. split; [reflexivity|]. split; [|exact Hs'].
  rewrite pretty_digit by done. pose proof (N.div_mod' x 10). lia.
Qed.

Lemma span_digits_all l : Forall (fun b => is_digit b = true) l -> span_digits l = (l, []).
Proof. induction 1 as [|b l Hb _ IH]; [done|]. cbn. by rewrite Hb, IH. Qed.

Lemma unsigned_digits b l : b <> 48 -> Forall (fun b => is_digit b = true) (b :: l) -> unsigned (b :: l) = Some (b :: l, []).
Proof.
  intros Hb Hl. unfold unsigned. cbn [int_part]. rewrite (proj2 (Z.eqb_neq _ _) Hb). unfold digits1. rewrite span_digits_all by done.
  cbn. by rewrite app_nil_r.
Qed.

Lemma is_digit_not_minus b : is_digit b = true -> (b =? 45) = false.
Proof. unfold is_digit, between. lia. Qed.

Lemma pos_lit p : exists b l, bytes_of_string (pretty (N.pos p)) = b :: l /\ b <> 48 /\
  Forall (fun b => is_digit b = true) (b :: l) /\ digits_val 0 (b :: l) = Some (Z.pos p).
Proof.
  unfold pretty, pretty_N. rewrite decide_False by done.
  destruct (pretty_N_go_head (N.pos p) "" ltac:(lia) ltac:(constructor)) as (b & l & E & Hb & Hl). exists b, l. split_and!; try done.
  rewrite <-E, digits_val_pretty. done.
Qed.

Lemma int_lit_ok z : lit_ok (int_lit z) = true /\ parse_int (int_lit z) = Some z.
Proof.
  unfold lit_ok. rewrite bool_decide_eq_true. unfold int_lit.
  destruct z as [|p|p]; [done|..]; destruct (pos_lit p) as (b & l & E & Hb & Hl & Hv).
  - change (pretty (Z.pos p)) with (pretty (N.pos p)). rewrite E. cbn [number parse_int].
    pose proof (is_digit_not_minus b ltac:(by inversion Hl)) as ->. split; [by apply unsigned_digits|done].
  - change (bytes_of_string (pretty (Z.neg p))) with (45 :: bytes_of_string (pretty (N.pos p))). rewrite E. cbn [number parse_int].
    change (45 =? 45) with true. cbv iota. rewrite unsigned_digits, Hv by done. done.
Qed.

Lemma int_lit_sign z : 0 <= z -> exists b l, int_lit z = b :: l /\ b <> 45.
Proof.
  intros Hz. destruct z as [|p|p]; [by do 2 eexists| |lia]. destruct (pos_lit p) as (b & l & E & _ & Hl & _).
  exists b, l. split; [exact E|]. intros ->. by inversion Hl.
Qed.
