(* ===== verification/JsonDecode.v ===== *)
(** * JSON and Go values (encoding/json of Go's standard library)

    What [json.Unmarshal] makes of a value for a Go type: a decoder takes the
    old contents of the variable and says whether every part fitted its type.
    A part that does not fit leaves its variable alone and the rest is still
    decoded, as in Go, where only the error tells. Struct fields are found by
    their name, then regardless of case. (A name that occurs again decodes
    into what the earlier one left, except that Go can also bring back
    elements a shorter array in between had cut off.) *)
From Stdlib Require Import Ascii.
From S2P Require Import Prelude GoStrings Json JsonFacts.

Local Open Scope Z_scope.

Definition decoder (A : Type) : Type := A -> json -> A * bool.

Definition dec_string : decoder string := fun old j =>
  match j with JStr s => (s, true) | JNull => (old, true) | _ => (old, false) end.
Definition dec_bool : decoder bool := fun old j =>
  match j with JBool b => (b, true) | JNull => (old, true) | _ => (old, false) end.

(** A signed integer type. *)
Definition dec_int (lo hi : Z) : decoder Z := fun old j =>
  match j with
  | JNum lit => match parse_int lit with
                | Some z => if (lo <=? z) && (z <=? hi) then (z, true) else (old, false)
                | None => (old, false)
                end
  | JNull => (old, true)
  | _ => (old, false)
  end.
Definition dec_int64 : decoder Z := dec_int (-9223372036854775808) 9223372036854775807.
Definition dec_int32 : decoder Z := dec_int (-2147483648) 2147483647.
(** [uint16]: no sign. *)
Definition dec_uint16 : decoder Z := fun old j =>
  match j with
  | JNum (45 :: _) => (old, false)
  | _ => dec_int 0 65535 old j
  end.

(** A slice: elements are decoded into the old ones, then into zero values. *)
Fixpoint dec_elems {A} (zero : A) (d : decoder A) (old : list A) (l : list json) : list A * bool :=
  match l with
  | [] => ([], true)
  | j :: l' =>
      let '(a, ok) := d (match old with x :: _ => x | [] => zero end) j in
      let '(r, ok') := dec_elems zero d (tail old) l' in (a :: r, ok && ok')
  end.
Definition dec_list {A} (zero : A) (d : decoder A) : decoder (list A) := fun old j =>
  match j with JArr l => dec_elems zero d old l | JNull => ([], true) | _ => (old, false) end.

(** A pointer to a struct. *)
Definition dec_ptr {A} (zero : A) (d : decoder A) : decoder (option A) := fun old j =>
  match j with
  | JNull => (None, true)
  | _ => let '(a, ok) := d (default zero old) j in (Some a, ok)
  end.

(** *** Structs *)

Record field (A : Type) := Field { f_name : string; f_decode : A -> json -> A * bool }.
Arguments Field {A} f_name f_decode.
Arguments f_name {A} f.
Arguments f_decode {A} f.

(** A field that is read and written with [get] and [set]. *)
Definition fld {A B} (name : string) (d : decoder B) (get : A -> B) (set : A -> B -> A) : field A :=
  Field name (fun a j => let '(b, ok) := d (get a) j in (set a b, ok)).

(** [foldName]: ASCII letters in upper case, and the two runes that are equal
    to one of them regardless of case; no other rune is. *)
Definition fold_rune (r : rune) : bytes :=
  match r with
  | RAscii b => [if between 97 b 122 then b - 32 else b]
  | RMulti bs => if bool_decide (bs = [197; 191]) then [83] else if bool_decide (bs = [226; 132; 170]) then [75] else bs
  | RBad _ => replacement
  end.
Definition foldName (s : string) : string := string_of_bytes (concat (fold_rune <$> runes 0 (bytes_of_string s))).

Definition find_field {A} (fs : list (field A)) (k : string) : option (field A) :=
  match find (fun f => String.eqb (f_name f) k) fs with
  | Some f => Some f
  | None => find (fun f => String.eqb (foldName (f_name f)) (foldName k)) fs
  end.

Definition dec_member {A} (fs : list (field A)) (acc : A * bool) (kv : string * json) : A * bool :=
  match find_field fs kv.1 with
  | Some f => let '(a, ok) := f_decode f acc.1 kv.2 in (a, acc.2 && ok)
  | None => acc
  end.
Definition dec_struct {A} (fs : list (field A)) : decoder A := fun old j =>
  match j with
  | JObj l => foldl (dec_member fs) (old, true) l
  | JNull => (old, true)
  | _ => (old, false)
  end.

(** [json.Unmarshal] into a variable with contents [old]: what it holds then,
    and whether there was no error. A text that is no value changes nothing. *)
Definition Unmarshal {A} (d : decoder A) (old : A) (text : bytes) : A * bool :=
  match parse text with Ok v => d old v | _ => (old, false) end.

(** Into a fresh variable, when the error is looked at. *)
Definition unmarshal {A} (d : decoder A) (zero : A) (text : bytes) : option A :=
  let '(a, ok) := Unmarshal d zero text in if ok then Some a else None.

Example field_names :
  let fs := [fld "name" dec_string fst (fun a s => (s, a.2)); fld "code" dec_int64 snd (fun a z => (a.1, z))] in
  let q := String (ascii_of_byte 34) "" in
  unmarshal (dec_struct fs) ("", 0)
    (bytes_of_string ("{" +:+ q +:+ "CODE" +:+ q +:+ ":7," +:+ q +:+ "x" +:+ q +:+ ":[]," +:+ q +:+ "name" +:+ q +:+ ":null}")) = Some ("", 7).
Proof. vm_compute. reflexivity. Qed.

(** ** What is encoded is decoded *)

(** The value [j] gives [a], whatever the variable held. *)
Definition carries {A} (d : decoder A) (old : A) (j : json) (a : A) : Prop := d old (clean j) = (a, true).

Lemma carries_string old s : utf8_valid s = true -> carries dec_string old (JStr s) s.
Proof. intros H. unfold carries. cbn. by rewrite to_valid_id. Qed.
Lemma carries_bool old b : carries dec_bool old (JBool b) b.
Proof. done. Qed.
Lemma carries_int lo hi old z : lo <= z <= hi -> carries (dec_int lo hi) old (JInt z) z.
Proof.
  intros Hz. unfold carries, dec_int, JInt. cbn [clean]. destruct (int_lit_ok z) as [_ ->].
  by rewrite (proj2 (Z.leb_le _ _)), (proj2 (Z.leb_le _ _)) by lia.
Qed.

Lemma carries_list {A B} (zero : B) (d : decoder B) (enc : A -> json) (val : A -> B) l :
  (forall x, x ∈ l -> carries d zero (enc x) (val x)) -> carries (dec_list zero d) [] (JArr (map enc l)) (map val l).
Proof.
  intros Hx. unfold carries. cbn [clean dec_list]. rewrite map_map. induction l as [|x l IH]; [done|].
  cbn [map dec_elems tail]. rewrite (Hx x) by set_solver. by rewrite IH by set_solver.
Qed.

Definition utf8_all (l : list string) : Prop := Forall (fun s => utf8_valid s = true) l.

Lemma carries_strings l : utf8_all l -> carries (dec_list "" dec_string) [] (JArr (map JStr l)) l.
Proof.
  intros Hl. unfold utf8_all in Hl. rewrite Forall_forall in Hl. replace l with (map id l) at 2 by apply map_id.
  apply carries_list. intros x Hx. by apply carries_string, Hl.
Qed.

Lemma carries_ptr {A} (zero : A) (d : decoder A) j a :
  clean j <> JNull -> carries d zero j a -> carries (dec_ptr zero d) None j (Some a).
Proof. unfold carries, dec_ptr. intros Hj Hc. cbn [default from_option id]. rewrite Hc. by destruct (clean j). Qed.

(** An object gives a struct what its members give, in order. *)
Fixpoint members_carry {A} (fs : list (field A)) (old : A) (l : list (string * json)) (a : A) : Prop :=
  match l with
  | [] => a = old
  | (k, j) :: l' => exists f a1, utf8_valid k = true /\ find_field fs k = Some f /\ carries (f_decode f) old j a1 /\ members_carry fs a1 l' a
  end.

Lemma carries_struct {A} (fs : list (field A)) old l a : members_carry fs old l a -> carries (dec_struct fs) old (JObj l) a.
Proof.
  unfold carries. cbn [clean dec_struct]. revert old. induction l as [|[k j] l IH]; intros old; [by intros ->|].
  intros (f & a1 & Hk & Hf & Hc & Hl). cbn [map foldl fst snd]. unfold dec_member at 2. cbn [fst snd]. rewrite to_valid_id, Hf, Hc by done. by apply IH.
Qed.

Lemma carries_fld {A B} name (d : decoder B) (get : A -> B) (set : A -> B -> A) old j b a :
  carries d (get old) j b -> set old b = a -> carries (f_decode (fld name d get set)) old j a.
Proof. unfold carries. cbn. by intros -> ->. Qed.

Lemma unmarshal_print {A} (d : decoder A) zero n j a :
  wf_json n j = true -> Z.of_nat n <= maxNestingDepth -> carries d zero j a -> unmarshal d zero (print j) = Some a.
Proof. intros Hw Hn Hc. unfold unmarshal, Unmarshal. rewrite (parse_print n) by done. by rewrite Hc. Qed.

(** Follow a struct's members one by one: each has a field of its name, which
    takes its value. *)
Ltac carry_value := first
  [ apply carries_bool | apply carries_string; first [assumption | vm_compute; reflexivity]
  | apply carries_int; first [assumption | lia] | apply carries_strings; assumption | eassumption | idtac ].
Ltac carry_members := repeat first
  [ apply carries_struct
  | progress cbn [members_carry]
  | eexists _, _; split; [vm_compute; reflexivity|]; split; [reflexivity|]; split; [eapply carries_fld; [carry_value|cbn; reflexivity]|] ];
  try reflexivity.

(** Texts of known shape. *)
Lemma lit_ok_int z : lit_ok (int_lit z) = true.
Proof. apply int_lit_ok. Qed.

Lemma wf_array {A} (enc : A -> json) n l : (forall x, wf_json n (enc x) = true) -> wf_json (S n) (JArr (map enc l)) = true.
Proof. intros H. cbn [wf_json]. induction l as [|x l IH]; [done|]. cbn. by rewrite H. Qed.
