(* ===== verification/Frames.v ===== *)
(** * The execd wire protocol

    The framed protocol between the agent and the in-guest daemon, as both
    sides implement it: [framedConn] and [frameWriter] of poc/execd/main.go,
    [execdConn], [dialExecd], [session] and [execdRequest] of
    poc/agent/streams.go, and [execdStatus] of poc/agent/status.go.

    Module [Wire] holds the codec (the two sides have the same code), Module
    [Client] the agent's read loops. JSON payloads are decoded by functions
    that are arguments of the definitions. *)
From S2P Require Import Prelude.

Module Wire.

Definition frameStdin : Z := 0.
Definition frameStdout : Z := 1.
Definition frameStderr : Z := 2.
Definition frameExit : Z := 3.
Definition frameResize : Z := 4.
Definition frameStdinClose : Z := 5.
Definition frameRequest : Z := 6.

Inductive io_error := EOF | UnexpectedEOF | WriteFailed.

#[export] Instance io_error_eq_dec : EqDecision io_error.
Proof. solve_decision. Defined.

(** One end of a connection: the bytes the peer sends before it closes, the
    bytes written so far, and how many more the transport takes before a
    write fails ([None]: it never fails). *)
Record conn := Conn { c_in : bytes; c_out : bytes; c_room : option nat }.

(** [Write] on the transport; a failing write may have sent a prefix. *)
Definition conn_write (p : bytes) (c : conn) : conn * option io_error :=
  match c_room c with
  | None => (Conn (c_in c) (c_out c ++ p) None, None)
  | Some r =>
      if bool_decide (length p <= r)
      then (Conn (c_in c) (c_out c ++ p) (Some (r - length p)), None)
      else (Conn (c_in c) (c_out c ++ take r p) (Some 0), Some WriteFailed)
  end.

(** [io.ReadFull] into a buffer of [n] bytes. *)
Definition read_full (n : nat) (c : conn) : result io_error (bytes * conn) :=
  if bool_decide (n <= length (c_in c))
  then Ok (take n (c_in c), Conn (drop n (c_in c)) (c_out c) (c_room c))
  else match c_in c with [] => Err EOF | _ => Err UnexpectedEOF end.

(** The 5 header bytes of a frame: type, then the length as a [uint32]. *)
Definition frame_header (typ : Z) (payload : bytes) : bytes :=
  typ :: be_bytes 4 (u32 (Z.of_nat (length payload))).

Definition writeFrame (typ : Z) (payload : bytes) (c : conn) : conn * option io_error :=
  match conn_write (frame_header typ payload) c with
  | (c', Some e) => (c', Some e)
  | (c', None) => conn_write payload c'
  end.

Definition readFrame (c : conn) : result io_error (Z * bytes * conn) :=
  hc ← read_full 5 c;
  let '(hdr, c1) := hc in
  let n := Z.to_nat (be_val (drop 1 hdr)) in
  pc ← read_full n c1;
  let '(payload, c2) := pc in
  Ok (default 0%Z (head hdr), payload, c2).

(** [frameWriter.Write]: reports the whole length, or an error. *)
Definition frameWriter_Write (typ : Z) (p : bytes) (c : conn) : conn * result io_error nat :=
  match writeFrame typ p c with
  | (c', Some e) => (c', Err e)
  | (c', None) => (c', Ok (length p))
  end.

(** *** The bytes of frames *)

Definition encode (f : Z * bytes) : bytes := frame_header f.1 f.2 ++ f.2.
Definition encode_all (fs : list (Z * bytes)) : bytes := concat (encode <$> fs).

(** A payload whose length the 4-byte field can carry. *)
Definition frame_fits (f : Z * bytes) : Prop := (Z.of_nat (length f.2) < u32max)%Z.

(** Reads frames until the stream fails; [None] when the fuel runs out. *)
Fixpoint read_all (fuel : nat) (c : conn) : option (list (Z * bytes) * io_error) :=
  match fuel with
  | O => None
  | S fuel' =>
      match readFrame c with
      | Ok (typ, p, c') => prod_map (cons (typ, p)) id <$> read_all fuel' c'
      | Err e => Some ([], e)
      | Crash _ => None
      end
  end.

#[global] Arguments frame_header : simpl never.
#[global] Arguments encode : simpl never.
#[global] Arguments readFrame : simpl never.
#[global] Arguments read_full : simpl never.

(** *** Lemmas *)

Lemma frame_header_length typ p : length (frame_header typ p) = 5.
Proof. unfold frame_header. cbn [length]. by rewrite length_be_bytes. Qed.

Lemma encode_length f : length (encode f) = 5 + length f.2.
Proof. unfold encode. by rewrite length_app, frame_header_length. Qed.

Lemma header_length_field typ p :
  be_val (drop 1 (frame_header typ p)) = u32 (Z.of_nat (length p)).
Proof.
  unfold frame_header. rewrite skipn_cons, drop_0, be_val_bytes. change (u8max ^ Z.of_nat 4)%Z with u32max.
  apply Z.mod_small, u32_range.
Qed.

Lemma read_full_app a b out room :
  read_full (length a) (Conn (a ++ b) out room) = Ok (a, Conn b out room).
Proof.
  unfold read_full; cbn [c_in c_out c_room].
  rewrite bool_decide_true by (rewrite length_app; lia).
  by rewrite take_app_length, drop_app_length.
Qed.

Lemma read_full_header typ p b out room :
  read_full 5 (Conn (frame_header typ p ++ b) out room) = Ok (frame_header typ p, Conn b out room).
Proof. rewrite <-(frame_header_length typ p) at 1. apply read_full_app. Qed.

Lemma read_full_prefix n a b out room :
  n <= length a -> read_full n (Conn (a ++ b) out room) =
  Ok (take n a, Conn (drop n a ++ b) out room).
Proof.
  intros Hn. rewrite <-(take_drop n a) at 1. rewrite <-app_assoc.
  rewrite <-(length_take_le a n Hn) at 1. apply read_full_app.
Qed.

Lemma read_full_short n c :
  length (c_in c) < n -> exists e, read_full n c = Err e /\ (e = EOF \/ e = UnexpectedEOF).
Proof.
  intros Hn. unfold read_full. rewrite bool_decide_false by lia.
  destruct (c_in c); eauto.
Qed.

Lemma read_full_ok n c p c' :
  read_full n c = Ok (p, c') -> p = take n (c_in c) /\ n <= length (c_in c) /\
  c' = Conn (drop n (c_in c)) (c_out c) (c_room c).
Proof.
  unfold read_full. case_bool_decide; [naive_solver|]. by destruct (c_in c).
Qed.

(** What a reader gets from one written frame: the length field is the
    payload's length modulo 2^32, so it takes that many payload bytes. *)
Lemma readFrame_encode_mod typ p rest out room :
  readFrame (Conn (encode (typ, p) ++ rest) out room) =
  let n := Z.to_nat (u32 (Z.of_nat (length p))) in
  Ok (typ, take n p, Conn (drop n p ++ rest) out room).
Proof.
  unfold readFrame, encode; cbn [fst snd]. rewrite <-app_assoc.
  rewrite read_full_header. cbn [mbind result_bind].
  rewrite header_length_field, read_full_prefix; [done|].
  pose proof (Z.mod_le (Z.of_nat (length p)) u32max). unfold u32. lia.
Qed.

Lemma readFrame_encode f rest out room :
  frame_fits f -> readFrame (Conn (encode f ++ rest) out room) = Ok (f.1, f.2, Conn rest out room).
Proof.
  destruct f as [typ p]. unfold frame_fits; cbn. intros Hf.
  rewrite readFrame_encode_mod. cbn. rewrite u32_small by lia.
  by rewrite Nat2Z.id, take_ge, drop_ge by lia.
Qed.

(** Every frame read consumes at least its header. *)
Lemma readFrame_consumes c typ p c' :
  readFrame c = Ok (typ, p, c') -> length (c_in c') + 5 <= length (c_in c).
Proof.
  unfold readFrame. intros H. ok_inv H. destruct a as [hdr c1]. ok_inv H.
  destruct a as [p' c2]. simplify_eq/=.
  apply read_full_ok in Hc as (-> & Hl & ->), Hc0 as (-> & Hl' & ->). cbn in *.
  rewrite !length_drop in *. lia.
Qed.

Lemma writeFrame_out typ p c :
  c_room c = None -> writeFrame typ p c = (Conn (c_in c) (c_out c ++ encode (typ, p)) None, None).
Proof.
  intros Hr. unfold writeFrame, conn_write. rewrite Hr; cbn.
  unfold encode. by rewrite app_assoc.
Qed.

(** Writing frames one after the other appends their encodings. *)
Lemma writeFrames_out fs c :
  c_room c = None ->
  foldl (fun c f => (writeFrame f.1 f.2 c).1) c fs =
  Conn (c_in c) (c_out c ++ encode_all fs) None.
Proof.
  revert c. induction fs as [|[typ p] fs IH]; intros c Hr.
  { cbn. rewrite app_nil_r. destruct c; naive_solver. }
  cbn [foldl]. rewrite writeFrame_out by done. rewrite IH by done. cbn.
  by rewrite <-app_assoc.
Qed.

Lemma read_all_encode fs fuel :
  Forall frame_fits fs -> length fs < fuel ->
  forall out room, read_all fuel (Conn (encode_all fs) out room) = Some (fs, EOF).
Proof.
  intros Hf. revert fuel. induction Hf as [|f fs Hf _ IH]; intros [|fuel] Hl out room;
    cbn in *; try lia; [done|].
  change (concat (encode <$> fs)) with (encode_all fs).
  rewrite readFrame_encode by done. rewrite IH by lia. by destruct f.
Qed.

(** A proper prefix of a frame is never read as a frame. *)
Lemma readFrame_truncated f n out room :
  frame_fits f -> n < length (encode f) ->
  exists e, readFrame (Conn (take n (encode f)) out room) = Err e.
Proof.
  intros Hf Hn. rewrite encode_length in Hn. unfold encode, readFrame.
  destruct (decide (n < 5)) as [Hlt|Hge].
  { destruct (read_full_short 5 (Conn (take n (frame_header f.1 f.2 ++ f.2)) out room))
      as (e & -> & _); [cbn; rewrite length_take; lia|]. by exists e. }
  rewrite take_app_ge by (rewrite frame_header_length; lia).
  rewrite frame_header_length.
  rewrite read_full_header. cbn [mbind result_bind].
  rewrite header_length_field, u32_small by (unfold frame_fits in Hf; lia). rewrite Nat2Z.id.
  destruct (read_full_short (length f.2) (Conn (take (n - 5) f.2) out room)) as (e & -> & _).
  { cbn. rewrite length_take. lia. }
  by exists e.
Qed.

(** What a reader gets from a cut stream: only whole frames that were sent. *)
Lemma read_all_cut fs n fuel out room :
  Forall frame_fits fs -> n < length (encode_all fs) -> n < fuel ->
  exists k e, k < length fs /\ read_all fuel (Conn (take n (encode_all fs)) out room) = Some (take k fs, e).
Proof.
  intros Hf. revert n fuel. induction Hf as [|f fs Hf Hfs IH]; intros n fuel Hn Hl; [cbn in Hn; lia|].
  destruct fuel as [|fuel]; [lia|]. cbn [read_all].
  change (encode_all (f :: fs)) with (encode f ++ encode_all fs) in *.
  destruct (decide (n < length (encode f))) as [Hlt|Hge].
  { destruct (readFrame_truncated f n out room Hf Hlt) as [e He].
    rewrite take_app_le, He by lia. exists 0, e. cbn. split; [lia|done]. }
  rewrite take_app_ge by lia. rewrite readFrame_encode by done.
  rewrite encode_length in *. rewrite length_app, encode_length in Hn.
  destruct (IH (n - (5 + length f.2)) fuel) as (k & e & Hk & Hr); [lia..|].
  rewrite Hr. exists (S k), e. cbn. split; [lia|]. by destruct f.
Qed.

(** C4 The codec: frames written one after the other are read back exactly,
    in order and with their types, whatever the payloads (each shorter than
    the 4-byte length field allows); a stream cut anywhere before its end
    yields a shorter prefix of the frames and then an error, never a frame
    that was not sent. *)
Theorem frames_roundtrip fs c rc :
  Forall frame_fits fs -> c_out c = [] -> c_room c = None ->
  let sent := c_out (foldl (fun c f => (writeFrame f.1 f.2 c).1) c fs) in
  read_all (S (length sent)) (Conn sent (c_out rc) (c_room rc)) = Some (fs, EOF) /\
  (forall n, n < length sent -> exists k e, k < length fs /\
     read_all (S n) (Conn (take n sent) (c_out rc) (c_room rc)) = Some (take k fs, e)).
Proof.
  intros Hf Ho Hr sent. assert (sent = encode_all fs) as ->.
  { unfold sent. rewrite writeFrames_out by done. cbn. by rewrite Ho. }
  split; [|intros n Hn; apply read_all_cut; [done..|lia]].
  apply read_all_encode; [done|]. clear. induction fs as [|f fs IH]; cbn; [lia|].
  rewrite length_app, encode_length. unfold encode_all in IH. lia.
Qed.

(** The 4-byte length field is the limit, exactly: one written frame is
    read back unchanged if and only if its payload is shorter than 2^32
    bytes. *)
Theorem frame_limit typ p rest out room :
  readFrame (Conn (encode (typ, p) ++ rest) out room) = Ok (typ, p, Conn rest out room) <->
  (Z.of_nat (length p) < u32max)%Z.
Proof.
  rewrite readFrame_encode_mod. cbn zeta. split; [|intros H; by rewrite u32_small, Nat2Z.id, take_ge, drop_ge by lia].
  intros [= Ht _]. apply (f_equal length) in Ht. rewrite length_take in Ht.
  pose proof (u32_range (Z.of_nat (length p))). lia.
Qed.

End Wire.

Module Client.
Import Wire.

(** The decoded exit frame: [struct { Code int; Error string }]. *)
Record exit_info := ExitInfo { e_code : Z; e_error : string }.

(** [utilexec.CodeExitError] *)
Record code_exit_error := CodeExitError { x_msg : string; x_code : Z }.

Inductive client_error :=
| DialingExecd (lastErr : string)
| ConnError (e : io_error)
| ParsingStatus
| CodeExit (e : code_exit_error).

Section Client.
(** [json.Unmarshal] of an exit payload into a zeroed struct (its error is
    ignored by the code), of a status body, and the marshalled request. *)
Context (unmarshal_exit : bytes -> exit_info).
Context {status : Type} (unmarshal_status : bytes -> option (list status)).

(** [dialExecd]: up to 20 attempts; [dial i] is the outcome of attempt [i]. *)
Fixpoint dial_loop (fuel i : nat) (lastErr : string) (dial : nat -> result string conn)
  : result client_error conn :=
  match fuel with
  | O => Err (DialingExecd lastErr)
  | S fuel' =>
      match dial i with
      | Ok c => Ok c
      | Err e => dial_loop fuel' (S i) e dial
      | Crash k => Crash k
      end
  end.
Definition dialExecd (dial : nat -> result string conn) : result client_error conn :=
  dial_loop 20 0 "" dial.

(** The error value of an exit frame: nil for code 0. *)
Definition exit_error (dflt : string) (e : exit_info) : option code_exit_error :=
  if bool_decide (e_code e = 0%Z) then None
  else Some (CodeExitError
    (if bool_decide (e_error e = "") then dflt +:+ pretty (e_code e) else e_error e) (e_code e)).

(** [w.Write(payload)] when the writer is not nil. *)
Definition sink_write (w : option bytes) (p : bytes) : option bytes := (.++ p) <$> w.

(** The outcome of a session: the two output writers and the returned error. *)
Record session_out := SessionOut {
  so_out : option bytes; so_err : option bytes; so_ret : option code_exit_error }.

(** The read loop of [session]; [None] when the fuel runs out. A dropped
    connection ends the session with a nil error. *)
Fixpoint session_loop (fuel : nat) (c : conn) (out errw : option bytes) : option session_out :=
  match fuel with
  | O => None
  | S fuel' =>
      match readFrame c with
      | Err _ | Crash _ => Some (SessionOut out errw None)
      | Ok (typ, payload, c') =>
          if bool_decide (typ = frameStdout) then session_loop fuel' c' (sink_write out payload) errw
          else if bool_decide (typ = frameStderr) then session_loop fuel' c' out (sink_write errw payload)
          else if bool_decide (typ = frameExit) then
            Some (SessionOut out errw
              (exit_error "command terminated with exit code " (unmarshal_exit payload)))
          else session_loop fuel' c' out errw
      end
  end.

(** A frame is at least 5 bytes long, so this fuel reads any connection. *)
Definition read_fuel (c : conn) : nat := S (length (c_in c)).

(** [session]: dial, send the request frame, pump the guest's frames. *)
Definition session (dial : nat -> result string conn) (reqData : bytes) (out errw : option bytes)
  : result client_error session_out :=
  fc ← dialExecd dial;
  match writeFrame frameRequest reqData fc with
  | (_, Some e) => Err (ConnError e)
  | (fc', None) =>
      match session_loop (read_fuel fc') fc' out errw with
      | Some so => Ok so
      | None => Crash Hang
      end
  end.

(** The stdin pump: one frame per non-empty read, a close frame at the first
    read error. A read is its bytes and whether it came with an error. *)
Fixpoint stdin_pump (reads : list (bytes * bool)) : list (Z * bytes) :=
  match reads with
  | [] => []
  | (buf, err) :: reads' =>
      (if bool_decide (0 < length buf) then [(frameStdin, buf)] else []) ++
      (if err then [(frameStdinClose, [])] else stdin_pump reads')
  end.

(** The loop of [execdRequest]: everything but an exit frame is discarded. *)
Fixpoint request_loop (fuel : nat) (c : conn) : option (result client_error unit) :=
  match fuel with
  | O => None
  | S fuel' =>
      match readFrame c with
      | Err e => Some (Err (ConnError e))
      | Crash k => Some (Crash k)
      | Ok (typ, payload, c') =>
          if bool_decide (typ = frameExit) then
            match exit_error "exit code " (unmarshal_exit payload) with
            | None => Some (Ok ())
            | Some e => Some (Err (CodeExit e))
            end
          else request_loop fuel' c'
      end
  end.

Definition execdRequest (dial : nat -> result string conn) (reqData : bytes)
  : result client_error unit :=
  fc ← dialExecd dial;
  match writeFrame frameRequest reqData fc with
  | (_, Some e) => Err (ConnError e)
  | (fc', None) => default (Crash Hang) (request_loop (read_fuel fc') fc')
  end.

(** The loop of [execdStatus]: stdout frames make up the body. *)
Fixpoint status_loop (fuel : nat) (c : conn) (body : bytes) : option (result client_error (list status)) :=
  match fuel with
  | O => None
  | S fuel' =>
      match readFrame c with
      | Err e => Some (Err (ConnError e))
      | Crash k => Some (Crash k)
      | Ok (typ, payload, c') =>
          if bool_decide (typ = frameStdout) then status_loop fuel' c' (body ++ payload)
          else if bool_decide (typ = frameExit) then
            match unmarshal_status body with
            | Some sts => Some (Ok sts)
            | None => Some (Err ParsingStatus)
            end
          else status_loop fuel' c' body
      end
  end.

Definition execdStatus (dial : nat -> result string conn) (reqData : bytes)
  : result client_error (list status) :=
  fc ← dialExecd dial;
  match writeFrame frameRequest reqData fc with
  | (_, Some e) => Err (ConnError e)
  | (fc', None) => default (Crash Hang) (status_loop (read_fuel fc') fc' [])
  end.

(** *** Lemmas *)

(** The payloads of one stream, in order. *)
Definition stream_of (typ : Z) (fs : list (Z * bytes)) : bytes :=
  concat (snd <$> filter (fun f => f.1 = typ) fs).

Lemma stream_of_cons typ f fs :
  stream_of typ (f :: fs) = (if bool_decide (f.1 = typ) then f.2 else []) ++ stream_of typ fs.
Proof. unfold stream_of. rewrite filter_cons. by case_decide; case_bool_decide. Qed.

Lemma sink_write_app w p q : sink_write (sink_write w p) q = sink_write w (p ++ q).
Proof. destruct w; cbn; by rewrite ?app_assoc. Qed.

Lemma sink_write_nil w : sink_write w [] = w.
Proof. destruct w; cbn; by rewrite ?app_nil_r. Qed.

(** The read loop over the encoding of frames that do not exit, followed by
    an exit frame and anything after it. *)
Lemma session_loop_frames fs fuel rest out errw c_o room payload :
  Forall frame_fits fs -> Forall (fun f => f.1 <> frameExit) fs -> frame_fits (frameExit, payload) ->
  length fs < fuel ->
  session_loop fuel (Conn (encode_all fs ++ encode (frameExit, payload) ++ rest) c_o room) out errw =
  Some (SessionOut (sink_write out (stream_of frameStdout fs)) (sink_write errw (stream_of frameStderr fs))
    (exit_error "command terminated with exit code " (unmarshal_exit payload))).
Proof.
  intros Hf Hx Hp. revert fuel out errw. induction fs as [|[typ p] fs IH]; intros [|fuel] out errw Hl;
    cbn [length] in Hl; try lia.
  { cbn [session_loop encode_all concat fmap list_fmap app].
    rewrite readFrame_encode by done. cbn. by rewrite !sink_write_nil. }
  apply Forall_cons in Hf as [Hf1 Hf], Hx as [Hx1 Hx]. cbn [fst] in Hx1.
  change (encode_all ((typ, p) :: fs)) with (encode (typ, p) ++ encode_all fs).
  rewrite <-app_assoc. cbn [session_loop]. rewrite readFrame_encode by done. cbn [fst snd].
  rewrite !stream_of_cons. cbn [fst snd].
  assert (length fs < fuel) by lia.
  repeat case_bool_decide; subst; try done; try (exfalso; discriminate);
    rewrite IH by done; by rewrite ?sink_write_app, ?app_nil_l.
Qed.

(** Enough fuel: the loops end on every connection. *)
Lemma session_loop_total fuel c out errw :
  length (c_in c) < fuel -> is_Some (session_loop fuel c out errw).
Proof.
  revert c out errw. induction fuel as [|fuel IH]; intros c out errw Hl; [lia|]. cbn [session_loop].
  destruct (readFrame c) as [[[typ p] c']|e|k] eqn:Hr; eauto.
  apply readFrame_consumes in Hr. repeat case_bool_decide; eauto; apply IH; lia.
Qed.

Lemma request_loop_total fuel c :
  length (c_in c) < fuel -> is_Some (request_loop fuel c).
Proof.
  revert c. induction fuel as [|fuel IH]; intros c Hl; [lia|]. cbn [request_loop].
  destruct (readFrame c) as [[[typ p] c']|e|k] eqn:Hr; eauto.
  apply readFrame_consumes in Hr. case_bool_decide; [destruct exit_error; eauto|]. apply IH; lia.
Qed.

Lemma status_loop_total fuel c body :
  length (c_in c) < fuel -> is_Some (status_loop fuel c body).
Proof.
  revert c body. induction fuel as [|fuel IH]; intros c body Hl; [lia|]. cbn [status_loop].
  destruct (readFrame c) as [[[typ p] c']|e|k] eqn:Hr; eauto.
  apply readFrame_consumes in Hr.
  repeat case_bool_decide; [apply IH; lia|destruct unmarshal_status; eauto|apply IH; lia].
Qed.

Lemma readFrame_no_crash c k : readFrame c <> Crash k.
Proof.
  unfold readFrame, read_full. case_bool_decide; cbn; [|by destruct (c_in c)].
  case_bool_decide; cbn; [done|]. by destruct (drop 5 (c_in c)).
Qed.

Lemma dial_loop_first fuel i l dial j c :
  i <= j < i + fuel -> dial j = Ok c -> (forall k, i <= k < j -> exists e, dial k = Err e) ->
  dial_loop fuel i l dial = Ok c.
Proof.
  revert i l. induction fuel as [|fuel IH]; intros i l Hj Hok Herr; [lia|]. cbn [dial_loop].
  destruct (decide (i = j)) as [->|Hne]; [by rewrite Hok|].
  destruct (Herr i) as [e ->]; [lia|]. apply IH; [lia|done|]. intros k Hk. apply Herr. lia.
Qed.

Lemma encode_all_app fs gs : encode_all (fs ++ gs) = encode_all fs ++ encode_all gs.
Proof. unfold encode_all. by rewrite fmap_app, concat_app. Qed.

Lemma encode_all_length fs : length fs <= length (encode_all fs).
Proof.
  induction fs as [|f fs IH]; [done|]. change (encode_all (f :: fs)) with (encode f ++ encode_all fs).
  rewrite length_app, encode_length. cbn. lia.
Qed.

(** A connection that ends before an exit frame, wherever it is cut, ends the
    session with no error. *)
Lemma session_loop_cut fs n fuel out errw c_o room :
  Forall frame_fits fs -> Forall (fun f => f.1 <> frameExit) fs -> n < fuel ->
  exists so, session_loop fuel (Conn (take n (encode_all fs)) c_o room) out errw = Some so /\ so_ret so = None.
Proof.
  intros Hf Hx. revert n fuel out errw. induction fs as [|[typ p] fs IH]; intros n [|fuel] out errw Hl; try lia;
    cbn [session_loop].
  { cbn. rewrite take_nil. cbn. by eexists. }
  apply Forall_cons in Hf as [Hf1 Hf], Hx as [Hx1 Hx]. cbn [fst] in Hx1.
  change (encode_all ((typ, p) :: fs)) with (encode (typ, p) ++ encode_all fs).
  destruct (decide (n < length (encode (typ, p)))) as [Hlt|Hge].
  { destruct (readFrame_truncated (typ, p) n c_o room Hf1 Hlt) as [e He].
    rewrite take_app_le, He by lia. by eexists. }
  rewrite take_app_ge by lia. rewrite readFrame_encode by done. cbn [fst snd].
  assert (n - length (encode (typ, p)) < fuel) by (rewrite encode_length in *; lia).
  repeat case_bool_decide; try done; by apply IH.
Qed.

(** The guest's side of a session: output chunks written through its two
    frame writers as they come, then the exit frame. *)
Definition guest_stream (chunks : list (bool * bytes)) (exit : bytes) (c : conn) : conn :=
  let c := foldl (fun (c : conn) (ch : bool * bytes) =>
    (frameWriter_Write (if ch.1 then frameStderr else frameStdout) ch.2 c).1) c chunks in
  (writeFrame frameExit exit c).1.

Definition chunks_of (err : bool) (chunks : list (bool * bytes)) : bytes :=
  concat (snd <$> filter (fun ch : bool * bytes => ch.1 = err) chunks).

Definition chunk_frame (ch : bool * bytes) : Z * bytes := (if ch.1 then frameStderr else frameStdout, ch.2).

Lemma guest_stream_out chunks exit c :
  c_room c = None -> c_out c = [] ->
  c_out (guest_stream chunks exit c) = encode_all (chunk_frame <$> chunks) ++ encode (frameExit, exit).
Proof.
  intros Hr Ho. unfold guest_stream.
  assert (foldl (fun (c : conn) (ch : bool * bytes) =>
      (frameWriter_Write (if ch.1 then frameStderr else frameStdout) ch.2 c).1) c chunks =
    foldl (fun c f => (writeFrame f.1 f.2 c).1) c (chunk_frame <$> chunks)) as ->.
  { clear. revert c. induction chunks as [|ch chunks IH]; intros c; [done|]. cbn. rewrite IH. f_equal.
    unfold frameWriter_Write, chunk_frame. cbn. by destruct (writeFrame _ _ _) as [c' [e|]]. }
  rewrite writeFrames_out by done. rewrite writeFrame_out by done. cbn. by rewrite Ho.
Qed.

Lemma stream_of_chunks err chunks :
  stream_of (if err : bool then frameStderr else frameStdout) (chunk_frame <$> chunks) = chunks_of err chunks.
Proof.
  induction chunks as [|[e p] chunks IH]; [done|]. cbn [fmap list_fmap]. rewrite stream_of_cons, IH.
  unfold chunks_of. rewrite filter_cons. cbn [fst snd chunk_frame].
  destruct err, e; cbn; done.
Qed.

(** A session delivers the streams and the exit status: when one of the
    20 dials succeeds (all before it failed) and the request is written, the
    client's stdout and stderr are exactly the bytes the guest wrote to each,
    in order, and the result is the decoded exit status (nil for code 0). *)
Theorem session_delivers dial j c req chunks exit gc out errw :
  j < 20 -> dial j = Ok c -> (forall k, k < j -> exists e, dial k = Err e) -> c_room c = None ->
  c_room gc = None -> c_out gc = [] -> c_in c = c_out (guest_stream chunks exit gc) ->
  Forall (fun ch => Z.of_nat (length ch.2) < u32max)%Z chunks -> (Z.of_nat (length exit) < u32max)%Z ->
  session dial req out errw =
  Ok (SessionOut (sink_write out (chunks_of false chunks)) (sink_write errw (chunks_of true chunks))
        (exit_error "command terminated with exit code " (unmarshal_exit exit))).
Proof.
  intros Hj Hd Hprev Hr Hgr Hgo Hin Hf He. unfold session, dialExecd.
  rewrite (dial_loop_first 20 0 "" dial j c); [|lia|done|intros k Hk; apply Hprev; lia].
  cbn [mbind result_bind]. rewrite writeFrame_out by done.
  rewrite guest_stream_out in Hin by done. rewrite Hin. unfold read_fuel. cbn [c_in].
  rewrite <-(app_nil_r (encode (frameExit, exit))).
  rewrite session_loop_frames.
  - by rewrite <-(stream_of_chunks false), <-(stream_of_chunks true).
  - apply Forall_fmap. eapply Forall_impl; [exact Hf|]. intros [b p]. done.
  - apply Forall_fmap, Forall_forall. intros [[] p] _; done.
  - done.
  - rewrite length_app. pose proof (encode_all_length (chunk_frame <$> chunks)). lia.
Qed.

Lemma request_loop_no_crash fuel c k : request_loop fuel c <> Some (Crash k).
Proof.
  revert c. induction fuel as [|fuel IH]; intros c; [done|]. cbn [request_loop].
  destruct (readFrame c) as [[[typ p] c']|e|k'] eqn:Hr; [|done|by apply readFrame_no_crash in Hr].
  case_bool_decide; [by destruct exit_error|apply IH].
Qed.

Lemma status_loop_no_crash fuel c body k : status_loop fuel c body <> Some (Crash k).
Proof.
  revert c body. induction fuel as [|fuel IH]; intros c body; [done|]. cbn [status_loop].
  destruct (readFrame c) as [[[typ p] c']|e|k'] eqn:Hr; [|done|by apply readFrame_no_crash in Hr].
  repeat case_bool_decide; [apply IH|by destruct unmarshal_status|apply IH].
Qed.

Lemma dial_loop_no_crash fuel i l dial k :
  (forall i k, dial i <> Crash k) -> dial_loop fuel i l dial <> Crash k.
Proof.
  intros Hd. revert i l. induction fuel as [|fuel IH]; intros i l; [done|]. cbn [dial_loop].
  destruct (dial i) as [c|e|k'] eqn:Hi; [done|apply IH|by apply Hd in Hi].
Qed.

(** The agent's calls into a guest always return: whatever bytes the
    guest sends (however truncated, mistyped or long), and whether or not the
    connection or the writes fail, a session, a request and a status query
    end with a result or an error. *)
Theorem client_calls_return dial req out errw :
  (forall i k, dial i <> Crash k) ->
  (forall k, session dial req out errw <> Crash k) /\
  (forall k, execdRequest dial req <> Crash k) /\
  (forall k, execdStatus dial req <> Crash k).
Proof.
  intros Hd. unfold session, execdRequest, execdStatus, dialExecd.
  destruct (dial_loop 20 0 "" dial) as [c|e|k] eqn:Hl; [|done|by apply dial_loop_no_crash in Hl].
  cbn [mbind result_bind]. destruct (writeFrame frameRequest req c) as [c' [e|]]; [done|].
  destruct (session_loop_total (read_fuel c') c' out errw) as [so Hso]; [unfold read_fuel; lia|].
  destruct (request_loop_total (read_fuel c') c') as [rq Hrq]; [unfold read_fuel; lia|].
  destruct (status_loop_total (read_fuel c') c' []) as [st Hst]; [unfold read_fuel; lia|].
  rewrite Hso, Hrq, Hst. cbn [default from_option id]. split_and!; [done|intros k ->..].
  - by apply request_loop_no_crash in Hrq.
  - by apply status_loop_no_crash in Hst.
Qed.

End Client.

(** *** Witnesses *)

Definition ex_conn (input : bytes) : conn := Conn input [] None.

(** One failed dial, then a guest that writes to both streams and exits. *)
Definition ex_guest : conn := guest_stream [(false, [104; 105]%Z); (true, [33]%Z)] [3]%Z (ex_conn []).
Definition ex_dial (i : nat) : result string conn :=
  if bool_decide (i = 0) then Err "refused" else Ok (ex_conn (c_out ex_guest)).
Definition ex_exit (p : bytes) : exit_info := ExitInfo (default 0%Z (head p)) "".

Lemma session_delivers_witness :
  session ex_exit ex_dial [] (Some []) None =
  Ok (SessionOut (Some [104; 105]%Z) None (exit_error "command terminated with exit code " (ExitInfo 3 ""))).
Proof.
  apply (session_delivers ex_exit ex_dial 1 (ex_conn (c_out ex_guest)) []
           [(false, [104; 105]%Z); (true, [33]%Z)] [3]%Z (ex_conn []) (Some []) None);
    try reflexivity; [lia| |repeat constructor].
  intros k Hk. exists "refused". unfold ex_dial. by rewrite bool_decide_true by lia.
Defined.

Lemma client_calls_return_witness :
  (forall k, session ex_exit ex_dial [] (Some []) None <> Crash k) /\
  (forall k, execdRequest ex_exit ex_dial [] <> Crash k) /\
  (forall k, execdStatus (fun _ => @None (list nat)) ex_dial [] <> Crash k).
Proof.
  apply (client_calls_return ex_exit (fun _ => @None (list nat)) ex_dial [] (Some []) None).
  intros i k. unfold ex_dial. by case_bool_decide.
Defined.

End Client.

Lemma frames_roundtrip_witness :
  let sent := Wire.c_out (foldl (fun c f => (Wire.writeFrame f.1 f.2 c).1) (Wire.Conn [] [] None) [(1, [7; 8]); (3, [])]%Z) in
  Wire.read_all (S (length sent)) (Wire.Conn sent [] None) = Some ([(1, [7; 8]); (3, [])]%Z, Wire.EOF) /\
  (forall n, n < length sent -> exists k e, k < length [(1, [7; 8]); (3, [])]%Z /\
     Wire.read_all (S n) (Wire.Conn (take n sent) [] None) = Some (take k [(1, [7; 8]); (3, [])]%Z, e)).
Proof.
  apply (Wire.frames_roundtrip [(1, [7; 8]); (3, [])]%Z (Wire.Conn [] [] None) (Wire.Conn [] [] None));
    [repeat constructor|reflexivity|reflexivity].
Defined.
