(* ===== verification/Supervisor.v ===== *)
(** * The in-guest supervisor (poc/execd/supervisor.go)

    A pod's containers under [supervisor.run]: one goroutine per supervised
    container, the shutdown flag, signals and kill timers. A goroutine's
    program point is a [pc]; one [action] is one step of one goroutine, of a
    timer or of the control channel, and [exec] is executable. The bodies of
    the steps ([begin_run], [after_exit], [after_sleep], ...) are the
    straight-line parts of the Go functions.

    Times are in nanoseconds since the epoch; a zero [time.Time] is [None]. *)
From S2P Require Import Prelude.

Inductive cstate := Waiting | Running | Terminated.

#[export] Instance cstate_eq_dec : EqDecision cstate.
Proof. solve_decision. Defined.

(** The fields of [container] the supervisor reads or writes. [c_cmd] is the
    identity of the current [*exec.Cmd] (nil before the first start). *)
Record container := mkContainer {
  c_name : string;
  c_state : cstate;
  c_exitCode : Z;
  c_restarts : Z;
  c_startedAt : option Z;
  c_finishedAt : option Z;
  c_reason : string;
  c_cmd : option nat
}.

Record containerStatus := mkContainerStatus {
  s_Name : string; s_State : cstate; s_ExitCode : Z; s_Restarts : Z;
  s_StartedAt : Z; s_FinishedAt : Z; s_Reason : string; s_Init : bool
}.

Notation second := 1000000000%Z.
Notation minute := 60000000000%Z.
(** The largest [time.Duration]: what [Sub] saturates to. *)
Notation maxDuration := 9223372036854775807%Z.

Definition unix (t : Z) : Z := (t `div` second)%Z.

Definition container_status (c : container) (init : bool) : containerStatus :=
  mkContainerStatus (c_name c) (c_state c) (c_exitCode c) (c_restarts c)
    (from_option unix 0%Z (c_startedAt c)) (from_option unix 0%Z (c_finishedAt c))
    (c_reason c) init.

(** [build] in execd's main: a fresh container is Waiting. *)
Definition new_container (name : string) : container :=
  mkContainer name Waiting 0 0 None None "" None.

Definition shouldRestart (policy : string) (exitCode : Z) : bool :=
  if bool_decide (policy = "Never") then false
  else if bool_decide (policy = "OnFailure") then bool_decide (exitCode <> 0%Z)
  else true.

Definition initPolicy (pod : string) : string :=
  if bool_decide (pod = "Always") then "OnFailure" else pod.

(** What [cmd.Wait] reports: a clean exit, an [*exec.ExitError] with its
    code (-1 for a signal), or some other error. *)
Inductive wait_result := WaitOk | WaitExit (code : Z) | WaitErr.

Definition wait_code (w : wait_result) : Z :=
  match w with WaitOk => 0 | WaitExit code => code | WaitErr => 1 end.

(** The tail of [startOnce]: the process runs under the command [cmd]. *)
Definition begin_run (cmd : nat) (now : Z) (c : container) : container :=
  mkContainer (c_name c) Running (c_exitCode c) (c_restarts c) (Some now) (c_finishedAt c)
    (c_reason c) (Some cmd).

Definition set_state (st : cstate) (c : container) : container :=
  mkContainer (c_name c) st (c_exitCode c) (c_restarts c) (c_startedAt c) (c_finishedAt c)
    (c_reason c) (c_cmd c).

(** [now.Sub(t)], saturating for the zero time. *)
Definition sub_time (now : Z) (t : option Z) : Z :=
  match t with Some t => now - t | None => maxDuration end.

Definition backoff_of (attempt : nat) : Z := (Z.shiftl 1 (Z.of_nat (Nat.min attempt 5)) * second)%Z.

(** Where [supervise] goes after a run: it returns, or sleeps and starts
    again with the next attempt number. *)
Inductive next := Finish | Backoff (attempt : nat) (d : Z).

(** The body of [supervise]'s loop after [startOnce] returned [(code, err)]:
    record the exit, consult the stop flag and the policy, enter the backoff. *)
Definition after_exit (policy : string) (stop : bool) (attempt : nat) (code : Z) (err : option string)
    (now : Z) (c : container) : container * next :=
  let ran := sub_time now (c_startedAt c) in
  let c := mkContainer (c_name c) (c_state c) code (c_restarts c) (c_startedAt c) (Some now)
             (default "" err) (c_cmd c) in
  if stop || negb (shouldRestart policy code) then (set_state Terminated c, Finish)
  else
    let attempt := if bool_decide (ran > 5 * minute)%Z then 0 else attempt in
    let backoff := backoff_of attempt in
    (mkContainer (c_name c) Waiting (c_exitCode c) (c_restarts c + 1) (c_startedAt c) (c_finishedAt c)
       ("CrashLoopBackOff: restarting in " +:+ pretty (backoff `div` second)%Z +:+ "s") (c_cmd c),
     Backoff attempt backoff).

(** The check after the sleep; [None]: the loop starts the container again. *)
Definition after_sleep (stop : bool) (c : container) : option container :=
  if stop then Some (set_state Terminated c) else None.

(** ** The whole pod *)

(** Where a container's goroutine stands: not yet supervised; about to call
    [startOnce]; waiting for the process; sleeping; returned. *)
Inductive pc := Idle | Starting (attempt : nat) | Waits (attempt : nat)
              | Sleeping (attempt : nat) (d : Z) | Done.

#[export] Instance pc_eq_dec : EqDecision pc.
Proof. solve_decision. Defined.

Notation proc := (container * pc)%type.

(** Where [run] stands: supervising init container [i], waiting for the main
    containers, or returned with the pod's exit code. *)
Inductive run_pc := RunInit (i : nat) | RunMains | Returned (code : Z).

Inductive signal := SIGTERM | SIGKILL.

Record sup := Sup {
  policy : string;
  stopping : bool;
  inits : list proc;
  mains : list proc;
  run_at : run_pc;
  nextCmd : nat;                  (* fresh command identities *)
  killTimers : nat;               (* pending SIGKILL timers of [shutdownAll] *)
  termTimers : list (bool * nat * nat);  (* [terminate] timers: init?, index, command *)
  signals : list (bool * nat * signal);  (* signals delivered, newest first *)
  killed : list nat               (* commands whose process was sent SIGKILL *)
}.

Definition procs (init : bool) (s : sup) : list proc := if init then inits s else mains s.

Definition set_proc (init : bool) (i : nat) (p : proc) (s : sup) : sup :=
  Sup (policy s) (stopping s)
    (if init then <[i:=p]> (inits s) else inits s)
    (if init then mains s else <[i:=p]> (mains s))
    (run_at s) (nextCmd s) (killTimers s) (termTimers s) (signals s) (killed s).

Definition set_phase (ph : run_pc) (s : sup) : sup :=
  Sup (policy s) (stopping s) (inits s) (mains s) ph (nextCmd s) (killTimers s) (termTimers s) (signals s) (killed s).

(** A command identity was used. *)
Definition bump_cmd (s : sup) : sup :=
  Sup (policy s) (stopping s) (inits s) (mains s) (run_at s) (S (nextCmd s)) (killTimers s) (termTimers s) (signals s) (killed s).

(** The policy a container is supervised with. *)
Definition policy_of (init : bool) (s : sup) : string :=
  if init then initPolicy (policy s) else policy s.

(** One event of one container's goroutine. *)
Inductive event :=
| EvStartOk (now : Z)                      (* [cmd.Start] succeeded *)
| EvStartErr (now : Z) (err : string)      (* [startOnce] returned [(128, err)] *)
| EvExit (now : Z) (w : wait_result)       (* the process exited *)
| EvWake.                                  (* the backoff sleep ended *)

Definition next_pc (n : next) : pc :=
  match n with Finish => Done | Backoff a d => Sleeping a d end.

Definition container_event (s : sup) (init : bool) (ev : event) (p : proc) : option (proc * bool) :=
  match ev, p.2 with
  | EvStartOk now, Starting a => Some ((begin_run (nextCmd s) now p.1, Waits a), true)
  | EvStartErr now err, Starting a =>
      let '(c, n) := after_exit (policy_of init s) (stopping s) a 128 (Some err) now p.1 in
      Some ((c, next_pc n), false)
  | EvExit now w, Waits a =>
      let '(c, n) := after_exit (policy_of init s) (stopping s) a (wait_code w) None now p.1 in
      Some ((c, next_pc n), false)
  | EvWake, Sleeping a d =>
      match after_sleep (stopping s) p.1 with
      | Some c => Some ((c, Done), false)
      | None => Some ((p.1, Starting (S a)), false)
      end
  | _, _ => None
  end.

Definition signalled (sg : signal) (s : sup) : list (bool * nat * signal) :=
  let pick b l := imap (fun i (p : proc) => (b, i, p)) l in
  (fun x : bool * nat * proc => (x.1.1, x.1.2, sg)) <$>
    filter (fun x : bool * nat * proc => c_state x.2.1 = Running /\ is_Some (c_cmd x.2.1))
      (pick false (mains s) ++ pick true (inits s)).

(** [shutdownAll]: raise the flag, SIGTERM what runs, arm the kill timer. *)
Definition shutdownAll (s : sup) : sup :=
  Sup (policy s) true (inits s) (mains s) (run_at s) (nextCmd s) (S (killTimers s)) (termTimers s)
    (signalled SIGTERM s ++ signals s) (killed s).

(** The commands of the processes that run. *)
Definition running_cmds (s : sup) : list nat :=
  omap (fun p : proc => if bool_decide (c_state p.1 = Running) then c_cmd p.1 else None) (mains s ++ inits s).

Definition kill_timer (s : sup) : sup :=
  Sup (policy s) (stopping s) (inits s) (mains s) (run_at s) (nextCmd s) (pred (killTimers s)) (termTimers s)
    (signalled SIGKILL s ++ signals s) (running_cmds s ++ killed s).

(** [terminate]: SIGTERM to a running container, and a timer bound to the
    current command. *)
Definition terminate (init : bool) (i : nat) (s : sup) : sup :=
  match procs init s !! i with
  | Some (mkContainer _ Running _ _ _ _ _ (Some cmd), _) =>
      Sup (policy s) (stopping s) (inits s) (mains s) (run_at s) (nextCmd s) (killTimers s)
        ((init, i, cmd) :: termTimers s) ((init, i, SIGTERM) :: signals s) (killed s)
  | _ => s
  end.

(** The timer of [terminate]: SIGKILL only if that same command still runs. *)
Definition term_timer (init : bool) (i cmd : nat) (s : sup) : sup :=
  match procs init s !! i with
  | Some (c, _) =>
      if bool_decide (c_cmd c = Some cmd /\ c_state c = Running) then
        Sup (policy s) (stopping s) (inits s) (mains s) (run_at s) (nextCmd s) (killTimers s) (termTimers s)
          ((init, i, SIGKILL) :: signals s) (cmd :: killed s)
      else s
  | None => s
  end.

(** The code [run] returns once the mains are done: the last non-zero one. *)
Definition mains_code (l : list proc) : Z :=
  foldl (fun code (p : proc) => if bool_decide (c_exitCode p.1 <> 0%Z) then c_exitCode p.1 else code) 0%Z l.

(** The [for] loop over the inits, entered at index [i]: supervise it, or go
    on to the mains, which all start. *)
Definition enter_init (i : nat) (s : sup) : sup :=
  match inits s !! i with
  | Some (c, _) => set_phase (RunInit i) (set_proc true i (c, Starting 0) s)
  | None =>
      set_phase RunMains
        (Sup (policy s) (stopping s) (inits s) ((fun p : proc => (p.1, Starting 0)) <$> mains s)
           (run_at s) (nextCmd s) (killTimers s) (termTimers s) (signals s) (killed s))
  end.

(** [run] moving on: the supervised init returned, or [wg.Wait] did. *)
Definition run_advance (s : sup) : option sup :=
  match run_at s with
  | RunInit i =>
      match inits s !! i with
      | Some (c, Done) =>
          Some (if bool_decide (c_exitCode c <> 0%Z) then set_phase (Returned (c_exitCode c)) s
                else enter_init (S i) s)
      | _ => None
      end
  | RunMains =>
      if bool_decide (Forall (fun p : proc => p.2 = Done) (mains s))
      then Some (set_phase (Returned (mains_code (mains s))) s) else None
  | Returned _ => None
  end.

Inductive action :=
| AContainer (init : bool) (i : nat) (ev : event)
| ARun
| AShutdown
| AKillTimer
| ATerminate (init : bool) (i : nat)
| ATermTimer (init : bool) (i cmd : nat).

Definition exec (a : action) (s : sup) : option sup :=
  match a with
  | AContainer init i ev =>
      match procs init s !! i with
      | Some p =>
          match container_event s init ev p with
          | Some (p', started) =>
              let s' := set_proc init i p' s in
              Some (if started then bump_cmd s' else s')
          | None => None
          end
      | None => None
      end
  | ARun => run_advance s
  | AShutdown => Some (shutdownAll s)
  | AKillTimer => if bool_decide (0 < killTimers s) then Some (kill_timer s) else None
  | ATerminate init i => Some (terminate init i s)
  | ATermTimer init i cmd =>
      if bool_decide ((init, i, cmd) ∈ termTimers s) then Some (term_timer init i cmd s) else None
  end.

Fixpoint exec_all (l : list action) (s : sup) : option sup :=
  match l with [] => Some s | a :: l' => exec a s ≫= exec_all l' end.

Definition step (s s' : sup) : Prop := exists a, exec a s = Some s'.

(** The state [run] starts in. *)
Definition start (pol : string) (initNames mainNames : list string) : sup :=
  let mk n := (new_container n, Idle) in
  enter_init 0 (Sup pol false (mk <$> initNames) (mk <$> mainNames) (RunInit 0) 0 0 [] [] []).

Definition reachable (pol : string) (initNames mainNames : list string) : sup -> Prop :=
  rtc step (start pol initNames mainNames).

(** [byName]: the empty name is the first main container; mains before inits. *)
Definition byName (name : string) (s : sup) : option (bool * nat) :=
  if bool_decide (name = "" /\ mains s <> []) then Some (false, 0)
  else
    match list_find (fun p : proc => c_name p.1 = name) (mains s) with
    | Some (i, _) => Some (false, i)
    | None => (fun x => (true, x.1)) <$> list_find (fun p : proc => c_name p.1 = name) (inits s)
    end.

Definition statuses (s : sup) : list containerStatus :=
  ((fun p : proc => container_status p.1 true) <$> inits s) ++
  ((fun p : proc => container_status p.1 false) <$> mains s).

(** ** Invariants *)

(** What a container's fields say at each program point of its goroutine. *)
Definition proc_ok (pol : string) (stop : bool) (p : proc) : Prop :=
  let c := p.1 in
  (pol = "Never" -> c_restarts c = 0%Z) /\ (0 <= c_restarts c)%Z /\
  match p.2 with
  | Idle => c = new_container (c_name c)
  | Starting _ => c_state c = Waiting
  | Waits _ => c_state c = Running /\ is_Some (c_cmd c) /\ is_Some (c_startedAt c)
  | Sleeping a d => c_state c = Waiting /\ d = backoff_of a /\ shouldRestart pol (c_exitCode c) = true
  | Done => c_state c = Terminated /\ (stop = false -> shouldRestart pol (c_exitCode c) = false)
  end.

Definition finished (p : proc) : Prop := p.2 = Done /\ c_exitCode p.1 = 0%Z.
Definition idle (p : proc) : Prop := p.2 = Idle.
Definition active (p : proc) : Prop := p.2 <> Idle.

(** The inits up to index [i] succeeded, the later ones have not begun. *)
Definition inits_upto (i : nat) (l : list proc) : Prop :=
  Forall finished (take i l) /\ Forall idle (drop (S i) l).

Definition phase_ok (s : sup) : Prop :=
  match run_at s with
  | RunInit i =>
      inits_upto i (inits s) /\ (exists p, inits s !! i = Some p /\ active p) /\ Forall idle (mains s)
  | RunMains => Forall finished (inits s) /\ Forall active (mains s)
  | Returned code =>
      (exists i p, inits_upto i (inits s) /\ inits s !! i = Some p /\ p.2 = Done /\
                   c_exitCode p.1 = code /\ code <> 0%Z /\ Forall idle (mains s)) \/
      (Forall finished (inits s) /\ Forall (fun p : proc => p.2 = Done) (mains s) /\
       code = mains_code (mains s))
  end.

Definition sup_ok (s : sup) : Prop :=
  Forall (proc_ok (policy_of true s) (stopping s)) (inits s) /\
  Forall (proc_ok (policy_of false s) (stopping s)) (mains s) /\
  phase_ok s.

(** *** Lemmas on one event *)

Lemma backoff_range a : (second <= backoff_of a <= 32 * second)%Z.
Proof.
  unfold backoff_of. rewrite Z.shiftl_1_l.
  pose proof (Z.pow_le_mono_r 2 0 (Z.of_nat (Nat.min a 5))).
  pose proof (Z.pow_le_mono_r 2 (Z.of_nat (Nat.min a 5)) 5). lia.
Qed.

Lemma shouldRestart_never code : shouldRestart "Never" code = false.
Proof. done. Qed.

Lemma after_exit_ok pol stop a code err now c c' n :
  (pol = "Never" -> c_restarts c = 0%Z) -> (0 <= c_restarts c)%Z ->
  after_exit pol stop a code err now c = (c', n) ->
  proc_ok pol stop (c', next_pc n).
Proof.
  intros Hn Hr. unfold after_exit. destruct (stop || negb (shouldRestart pol code)) eqn:Hs;
    intros [= <- <-]; unfold proc_ok; cbn.
  - repeat split; auto. intros ->. by apply negb_true_iff in Hs.
  - apply orb_false_iff in Hs as [-> Hs%negb_false_iff].
    repeat split; auto; [|lia]. intros ->. by rewrite shouldRestart_never in Hs.
Qed.

Lemma container_event_ok s init ev p p' started :
  proc_ok (policy_of init s) (stopping s) p -> container_event s init ev p = Some (p', started) ->
  proc_ok (policy_of init s) (stopping s) p' /\ active p /\ p.2 <> Done /\ active p'.
Proof.
  destruct p as [c pc]. intros (Hn & Hr & Hpc). unfold container_event, active.
  destruct ev, pc; cbn [fst snd] in *; try done.
  - intros [= <- <-]. cbn. unfold proc_ok; cbn. naive_solver.
  - destruct (after_exit _ _ _ _ _ _ _) as [c' n] eqn:He. intros [= <- <-].
    apply after_exit_ok in He; [|done..]. destruct n; naive_solver.
  - destruct (after_exit _ _ _ _ _ _ _) as [c' n] eqn:He. intros [= <- <-].
    apply after_exit_ok in He; [|done..]. destruct n; naive_solver.
  - unfold after_sleep. destruct (stopping s) eqn:Hst; intros [= <- <-]; unfold proc_ok; cbn; naive_solver.
Qed.

Lemma container_event_name s init ev p p' started :
  container_event s init ev p = Some (p', started) -> c_name p'.1 = c_name p.1.
Proof.
  destruct p as [c pc]. unfold container_event, after_exit, after_sleep.
  destruct ev, pc; cbn; try done; repeat case_match; naive_solver.
Qed.

Lemma proc_ok_stop pol p : proc_ok pol false p -> proc_ok pol true p.
Proof. intros (?&?&H). split_and!; [done..|]. destruct p.2; naive_solver. Qed.

(** *** Lemmas on the lists of a pod *)

Lemma inits_upto_insert i p l :
  inits_upto i l -> inits_upto i (<[i:=p]> l).
Proof.
  intros [H1 H2]. split.
  - by rewrite take_insert_ge by done.
  - by rewrite drop_insert_lt by lia.
Qed.

Lemma inits_upto_lookup i l j p :
  inits_upto i l -> l !! j = Some p -> j < i /\ finished p \/ j = i \/ i < j /\ idle p.
Proof.
  intros [H1 H2] Hp. destruct (lt_eq_lt_dec j i) as [[Hlt| ->]|Hgt]; [left|by right; left|right; right].
  - split; [done|]. eapply Forall_lookup_1; [exact H1|]. by rewrite lookup_take_lt.
  - split; [done|]. eapply Forall_lookup_1; [exact H2|]. rewrite lookup_drop.
    by replace (S i + (j - S i)) with j by lia.
Qed.

Lemma inits_upto_next i l p :
  inits_upto i l -> l !! i = Some p -> finished p -> inits_upto (S i) l.
Proof.
  intros [H1 H2] Hp Hf. split.
  - rewrite (take_S_r _ _ _ Hp). apply Forall_app; auto.
  - replace (S (S i)) with (S i + 1) by lia. rewrite <-drop_drop. by apply Forall_drop.
Qed.

Lemma inits_upto_end i l : inits_upto i l -> l !! i = None -> Forall finished l.
Proof. intros [H1 _] Hn%lookup_ge_None. by rewrite take_ge in H1. Qed.

Lemma idle_ok_starting pol stop p : proc_ok pol stop p -> idle p -> proc_ok pol stop (p.1, Starting 0).
Proof.
  unfold proc_ok, idle. destruct p as [c pc]; cbn. intros (?&?&Hp) ->. split_and!; auto.
  by rewrite Hp.
Qed.

(** *** The invariant *)

Lemma enter_init_ok i s :
  Forall (proc_ok (policy_of true s) (stopping s)) (inits s) ->
  Forall (proc_ok (policy_of false s) (stopping s)) (mains s) ->
  Forall finished (take i (inits s)) -> Forall idle (drop i (inits s)) -> Forall idle (mains s) ->
  sup_ok (enter_init i s).
Proof.
  intros Hi Hm Hf Hd Hmi. unfold enter_init. destruct (inits s !! i) as [[c pc]|] eqn:Hl.
  - assert (idle (c, pc)) as Hidle.
    { eapply Forall_lookup_1; [exact Hd|]. rewrite lookup_drop. by rewrite Nat.add_0_r. }
    split_and!; cbn.
    + apply Forall_insert; [done|]. change c with (c, pc).1. apply idle_ok_starting; [|done].
      by eapply Forall_lookup_1.
    + done.
    + unfold phase_ok; cbn. split_and!; [|eexists; split; [apply list_lookup_insert_eq|done]|done].
      * split; [by rewrite take_insert_ge by done|]. rewrite drop_insert_lt by lia.
        replace (S i) with (i + 1) by lia. rewrite <-drop_drop. by apply Forall_drop.
      * by apply lookup_lt_Some in Hl.
  - split_and!; cbn; [done| |].
    + apply Forall_fmap. unfold compose. rewrite Forall_forall in Hm, Hmi |- *.
      intros p Hp. cbn. apply idle_ok_starting; auto.
    + unfold phase_ok; cbn. split.
      * apply lookup_ge_None in Hl. by rewrite take_ge in Hf.
      * apply Forall_fmap. by apply Forall_true.
Qed.

Lemma start_ok pol ns ms : sup_ok (start pol ns ms).
Proof.
  unfold start. assert (Hnew : forall q stop l, Forall (proc_ok q stop) ((fun n => (new_container n, Idle)) <$> l)).
  { intros. apply Forall_fmap, Forall_true. done. }
  apply enter_init_ok; cbn; auto; rewrite ?drop_0; apply Forall_fmap, Forall_true; done.
Qed.

Lemma set_proc_ok (s : sup) init i p p' :
  sup_ok s -> procs init s !! i = Some p -> proc_ok (policy_of init s) (stopping s) p' ->
  active p -> p.2 <> Done -> active p' ->
  sup_ok (set_proc init i p' s).
Proof.
  intros (Hi & Hm & Hph) Hp Hok Ha Hnd Ha'.
  split_and!.
  - destruct init; cbn; [by apply Forall_insert|done].
  - destruct init; cbn; [done|by apply Forall_insert].
  - unfold phase_ok in *. destruct init; cbn in *; destruct (run_at s) as [k| |code].
    + destruct Hph as (Hu & (q & Hq & Hqa) & Hmi).
      destruct (inits_upto_lookup _ _ _ _ Hu Hp) as [[_ [Hd _]]|[-> |[_ Hid]]]; [done| |done].
      split_and!; [by apply inits_upto_insert|eexists; split; [apply list_lookup_insert_eq|done]|done].
      by apply lookup_lt_Some in Hp.
    + destruct Hph as [Hf _]. by destruct (Forall_lookup_1 _ _ _ _ Hf Hp).
    + destruct Hph as [(k & q & Hu & Hq & Hqd & _)|[Hf _]].
      * destruct (inits_upto_lookup _ _ _ _ Hu Hp) as [[_ [Hd _]]|[-> |[_ Hid]]]; [done| |done].
        by simplify_eq.
      * by destruct (Forall_lookup_1 _ _ _ _ Hf Hp).
    + destruct Hph as (_ & _ & Hmi). by pose proof (Forall_lookup_1 _ _ _ _ Hmi Hp).
    + destruct Hph as [Hf Hma]. split; [done|by apply Forall_insert].
    + destruct Hph as [(_ & _ & _ & _ & _ & _ & _ & Hmi)|(_ & Hmd & _)].
      * by pose proof (Forall_lookup_1 _ _ _ _ Hmi Hp).
      * by pose proof (Forall_lookup_1 _ _ _ _ Hmd Hp).
Qed.

Lemma run_advance_ok s s' : sup_ok s -> run_advance s = Some s' -> sup_ok s'.
Proof.
  intros (Hi & Hm & Hph). unfold run_advance, phase_ok in *. destruct (run_at s) as [i| |code]; [| |done].
  - destruct Hph as (Hu & _ & Hmi). destruct (inits s !! i) as [[c pc]|] eqn:Hl; [|done].
    destruct pc; try done. intros [= <-]. case_bool_decide as Hc.
    + split_and!; cbn; [done..|]. unfold phase_ok; cbn. left. exists i, (c, Done). done.
    + assert (finished (c, Done)) as Hfin.
      { split; [done|]. cbn. by destruct (decide (c_exitCode c = 0%Z)). }
      destruct (inits_upto_next _ _ _ Hu Hl Hfin) as [H1 _]. destruct Hu as [_ H2].
      by apply enter_init_ok.
  - case_bool_decide; [|done]. intros [= <-]. split_and!; cbn; [done..|].
    unfold phase_ok; cbn. right. naive_solver.
Qed.

Lemma sup_ok_flags s s' :
  inits s' = inits s -> mains s' = mains s -> run_at s' = run_at s -> policy s' = policy s ->
  (stopping s = true -> stopping s' = true) ->
  sup_ok s -> sup_ok s'.
Proof.
  intros Hi Hm Hp Hpol Hst (H1 & H2 & H3). unfold sup_ok, phase_ok, policy_of in *.
  rewrite Hi, Hm, Hp, Hpol. split_and!; [| |done].
  - eapply Forall_impl; [exact H1|]. intros x Hx.
    destruct (stopping s), (stopping s'); auto using proc_ok_stop. by discriminate Hst.
  - eapply Forall_impl; [exact H2|]. intros x Hx.
    destruct (stopping s), (stopping s'); auto using proc_ok_stop. by discriminate Hst.
Qed.

Lemma terminate_fields b i s :
  inits (terminate b i s) = inits s /\ mains (terminate b i s) = mains s /\
  run_at (terminate b i s) = run_at s /\ policy (terminate b i s) = policy s /\
  stopping (terminate b i s) = stopping s.
Proof. unfold terminate. repeat case_match; done. Qed.

Lemma term_timer_fields b i cmd s :
  inits (term_timer b i cmd s) = inits s /\ mains (term_timer b i cmd s) = mains s /\
  run_at (term_timer b i cmd s) = run_at s /\ policy (term_timer b i cmd s) = policy s /\
  stopping (term_timer b i cmd s) = stopping s.
Proof. unfold term_timer. repeat case_match; done. Qed.

Lemma exec_ok a s s' : sup_ok s -> exec a s = Some s' -> sup_ok s'.
Proof.
  intros Hok He. destruct a as [init i ev| | | |b i|b i cmd]; cbn in He.
  - destruct (procs init s !! i) as [p|] eqn:Hp; [|done].
    destruct (container_event s init ev p) as [[p' st]|] eqn:Hev; [|done].
    assert (proc_ok (policy_of init s) (stopping s) p) as Hpo.
    { destruct Hok as (Hi & Hm & _). destruct init; by eapply Forall_lookup_1. }
    destruct (container_event_ok _ _ _ _ _ _ Hpo Hev) as (H1 & H2 & H3 & H4).
    pose proof (set_proc_ok s init i p p' Hok Hp H1 H2 H3 H4) as Hs.
    injection He as <-. destruct st; [|done]. by eapply sup_ok_flags; [..|exact Hs].
  - by eapply run_advance_ok.
  - injection He as <-. by eapply sup_ok_flags; [..|exact Hok].
  - case_bool_decide; [|done]. injection He as <-. by eapply sup_ok_flags; [..|exact Hok].
  - injection He as <-. destruct (terminate_fields b i s) as (?&?&?&?&Hst).
    eapply sup_ok_flags; [done..| |exact Hok]. by rewrite Hst.
  - case_bool_decide; [|done]. injection He as <-. destruct (term_timer_fields b i cmd s) as (?&?&?&?&Hst).
    eapply sup_ok_flags; [done..| |exact Hok]. by rewrite Hst.
Qed.

Lemma reachable_ok pol ns ms s : reachable pol ns ms s -> sup_ok s.
Proof.
  apply rtc_invariant; [|apply start_ok]. intros a b Ha [act Hact]. by eapply exec_ok.
Qed.

(** ** Shutdown ends: a measure on the goroutines' program points *)

Definition weight (p : proc) : nat :=
  match p.2 with Idle => 3 | Starting _ => 2 | Waits _ | Sleeping _ _ => 1 | Done => 0 end.

Definition total (l : list proc) : nat := sum_list_with weight l.
#[global] Arguments total : simpl never.

Definition phase_weight (ph : run_pc) : nat :=
  match ph with RunInit _ => 2 | RunMains => 1 | Returned _ => 0 end.

(** Steps of the goroutines and of [run] still to come after a shutdown. *)
Definition steps_left (s : sup) : nat := total (inits s) + total (mains s) + phase_weight (run_at s).

Definition is_goroutine_step (a : action) : bool :=
  match a with AContainer _ _ _ | ARun => true | _ => false end.

Lemma sum_list_insert (l : list proc) i p q :
  l !! i = Some p -> total (<[i:=q]> l) + weight p = total l + weight q.
Proof.
  revert i. induction l as [|x l IH]; intros [|i] H; try done.
  - injection H as ->. unfold total. cbn [sum_list_with insert list_insert]. lia.
  - specialize (IH i H). unfold total in *.
    change (<[S i:=q]> (x :: l)) with (x :: <[i:=q]> l). cbn [sum_list_with]. lia.
Qed.

Lemma total_cons p l : total (p :: l) = weight p + total l.
Proof. done. Qed.

Lemma total_le l : total l <= 3 * length l.
Proof.
  induction l as [|p l IH]; [done|]. rewrite total_cons. cbn [length].
  assert (weight p <= 3) by (destruct p as [c []]; cbn; lia). lia.
Qed.

Lemma total_starting l : Forall idle l -> total ((fun p : proc => (p.1, Starting 0)) <$> l) <= total l.
Proof.
  induction 1 as [|[c pc] l H _ IH]; [done|]. unfold idle in H; cbn in H. subst.
  rewrite fmap_cons, !total_cons. cbn [weight fst snd]. lia.
Qed.

Lemma container_event_weight s init ev p p' st :
  stopping s = true -> container_event s init ev p = Some (p', st) -> weight p' < weight p.
Proof.
  intros Hs. destruct p as [c pc]. unfold container_event, after_exit, after_sleep. rewrite Hs.
  destruct ev, pc; cbn; intros [= <- <-]; cbn; lia.
Qed.

Lemma enter_init_steps i s :
  (forall p, inits s !! i = Some p -> idle p) -> Forall idle (mains s) -> run_at s = RunInit (pred i) ->
  steps_left (enter_init i s) < steps_left s.
Proof.
  intros Hi Hm Hph. unfold enter_init, steps_left. rewrite Hph.
  destruct (inits s !! i) as [[c pc]|] eqn:Hl; cbn.
  - specialize (Hi _ eq_refl). unfold idle in Hi; cbn in Hi. subst.
    pose proof (sum_list_insert _ _ _ (c, Starting 0) Hl) as Hw. cbn [weight snd] in Hw. lia.
  - pose proof (total_starting _ Hm). lia.
Qed.

Lemma goroutine_step_decreases a s s' :
  sup_ok s -> stopping s = true -> exec a s = Some s' ->
  stopping s' = true /\
  (if is_goroutine_step a then steps_left s' < steps_left s else steps_left s' = steps_left s).
Proof.
  intros (_ & _ & Hph) Hs He. destruct a as [init i ev| | | |b i|b i cmd]; cbn in *.
  - destruct (procs init s !! i) as [p|] eqn:Hp; [|done].
    destruct (container_event s init ev p) as [[p' st]|] eqn:Hev; [|done].
    pose proof (container_event_weight _ _ _ _ _ _ Hs Hev) as Hw.
    assert (steps_left (set_proc init i p' s) < steps_left s) as Hlt.
    { unfold steps_left. destruct init; cbn in *;
        pose proof (sum_list_insert _ _ _ p' Hp); lia. }
    injection He as <-. by destruct st.
  - unfold run_advance, phase_ok in *. destruct (run_at s) as [i| |code] eqn:Hpe; [| |done].
    + destruct (inits s !! i) as [[c []]|] eqn:Hl; simplify_eq. case_bool_decide as Hc.
      { unfold steps_left; rewrite Hpe; cbn. split; [done|lia]. }
      destruct Hph as ((_ & Hid) & _ & Hm). split.
      { unfold enter_init. by destruct (inits s !! S i) as [[]|]. }
      apply enter_init_steps; [|done..]. intros p Hp.
      eapply (Forall_lookup_1 _ _ 0); [exact Hid|]. by rewrite lookup_drop, Nat.add_0_r.
    + case_bool_decide; simplify_eq. unfold steps_left; rewrite Hpe; cbn. split; [done|lia].
  - injection He as <-. done.
  - case_bool_decide; [|done]. injection He as <-. done.
  - injection He as <-. destruct (terminate_fields b i s) as (Hi & Hm & Hpe & _ & Hst).
    unfold steps_left. by rewrite Hi, Hm, Hpe, Hst.
  - case_bool_decide; [|done]. injection He as <-.
    destruct (term_timer_fields b i cmd s) as (Hi & Hm & Hpe & _ & Hst).
    unfold steps_left. by rewrite Hi, Hm, Hpe, Hst.
Qed.

Lemma goroutine_steps_bounded l s s' :
  sup_ok s -> stopping s = true -> exec_all l s = Some s' ->
  length (filter (fun a => is_goroutine_step a = true) l) + steps_left s' <= steps_left s.
Proof.
  revert s. induction l as [|a l IH]; intros s Hok Hs Hl; cbn in Hl.
  { injection Hl as <-. cbn. lia. }
  destruct (exec a s) as [s1|] eqn:He; [|done]. cbn in Hl.
  destruct (goroutine_step_decreases _ _ _ Hok Hs He) as [Hs1 Hd].
  specialize (IH _ (exec_ok _ _ _ Hok He) Hs1 Hl).
  rewrite filter_cons. destruct (is_goroutine_step a) eqn:Hg; case_decide; try done; cbn [length]; lia.
Qed.

(** A container's goroutine that has begun and not returned can step. *)
Lemma active_enabled s init p :
  active p -> p.2 <> Done -> exists ev, is_Some (container_event s init ev p).
Proof.
  destruct p as [c []]; unfold active; cbn; intros H1 H2; try done.
  - exists (EvStartOk 0). by eexists.
  - exists (EvExit 0 WaitOk). unfold container_event. cbn. destruct (after_exit _ _ _ _ _ _ _); by eexists.
  - exists EvWake. unfold container_event. cbn. destruct (after_sleep _ _); by eexists.
Qed.

(** ** Repeated failures of one container *)

Fixpoint run_events (s : sup) (init : bool) (evs : list event) (p : proc) : option proc :=
  match evs with
  | [] => Some p
  | ev :: evs' => match container_event s init ev p with
                  | Some (p', _) => run_events s init evs' p'
                  | None => None
                  end
  end.

Lemma run_events_app s init e1 e2 p :
  run_events s init (e1 ++ e2) p = (run_events s init e1 p ≫= run_events s init e2).
Proof.
  revert p. induction e1 as [|ev e1 IH]; intros p; cbn; [done|].
  destruct (container_event s init ev p) as [[p' st]|]; cbn; auto.
Qed.

(** A run that starts at [t], lasts [r] and exits with [w]. *)
Definition run_round (x : Z * Z * wait_result) : list event :=
  [EvStartOk x.1.1; EvExit (x.1.1 + x.1.2) x.2].

(** Runs with their backoff sleeps. *)
Definition crash_loop (l : list (Z * Z * wait_result)) : list event :=
  concat ((fun x => run_round x ++ [EvWake]) <$> l).

Definition restarts_with (pol : string) (x : Z * Z * wait_result) : Prop :=
  (x.1.2 <= 5 * minute)%Z /\ shouldRestart pol (wait_code x.2) = true.

Lemma run_round_backoff s init x c a :
  stopping s = false -> restarts_with (policy_of init s) x ->
  exists c', run_events s init (run_round x) (c, Starting a) = Some (c', Sleeping a (backoff_of a)) /\
    c_restarts c' = (c_restarts c + 1)%Z.
Proof.
  intros Hs [Hr Hp]. destruct x as [[t r] w]; cbn in *. unfold after_exit. rewrite Hs, Hp; cbn.
  rewrite bool_decide_false by lia. by eexists.
Qed.

Lemma crash_loop_state s init l c a :
  stopping s = false -> Forall (restarts_with (policy_of init s)) l ->
  exists c', run_events s init (crash_loop l) (c, Starting a) = Some (c', Starting (a + length l)) /\
    c_restarts c' = (c_restarts c + Z.of_nat (length l))%Z.
Proof.
  intros Hs Hl. revert c a. induction Hl as [|x l Hx _ IH]; intros c a.
  { exists c. cbn. rewrite Nat.add_0_r, Z.add_0_r. done. }
  destruct (run_round_backoff s init x c a Hs Hx) as (c1 & H1 & Hr1).
  destruct (IH c1 (S a)) as (c2 & H2 & Hr2). exists c2. split.
  - change (crash_loop (x :: l)) with ((run_round x ++ [EvWake]) ++ crash_loop l).
    rewrite !run_events_app, H1. cbn [mbind option_bind].
    replace (run_events s init [EvWake] (c1, Sleeping a (backoff_of a))) with (Some (c1, Starting (S a))).
    { cbn [mbind option_bind]. rewrite H2. by rewrite Nat.add_succ_comm. }
    unfold run_events, container_event, after_sleep. by rewrite Hs.
  - rewrite Hr2, Hr1. cbn [length]. lia.
Qed.

Lemma exec_all_rtc l s s' : exec_all l s = Some s' -> rtc step s s'.
Proof.
  revert s. induction l as [|a l IH]; intros s H; cbn in H.
  { injection H as <-. apply rtc_refl. }
  destruct (exec a s) as [s1|] eqn:He; [|done]. eapply rtc_l; [by exists a|]. by apply IH.
Qed.

Lemma exec_all_snoc l a s : exec_all (l ++ [a]) s = exec_all l s ≫= exec a.
Proof.
  revert s. induction l as [|b l IH]; intros s; cbn; [by destruct (exec a s)|]. destruct (exec b s); cbn; auto.
Qed.

(** ** The life of one container *)

Definition events_of (init : bool) (i : nat) (l : list action) : list event :=
  omap (fun a => match a with AContainer b j ev => if decide (b = init /\ j = i) then Some ev else None | _ => None end) l.

Lemma events_of_snoc init i l a : events_of init i (l ++ [a]) =
  events_of init i l ++ match a with AContainer b j ev => if decide (b = init /\ j = i) then [ev] else [] | _ => [] end.
Proof. unfold events_of. rewrite omap_app. f_equal. destruct a as [b j ev| | | | |]; cbn; try done. by case_decide. Qed.

(** An attempt to start, and the end of a run with the code [k]. *)
Definition starts (ev : event) : bool := match ev with EvStartOk _ | EvStartErr _ _ => true | _ => false end.
Definition ends_with (ev : event) (k : Z) : Prop :=
  match ev with EvExit _ w => k = wait_code w | EvStartErr _ _ => k = 128%Z | _ => False end.

(** What a goroutine has been through when it starts its container: nothing
    yet, or a run whose end its policy restarts and then the whole backoff. *)
Definition may_start (pol : string) (h : list event) : Prop :=
  h = [] \/ exists h' e k, h = h' ++ [e; EvWake] /\ ends_with e k /\ shouldRestart pol k = true.
Definition disciplined (pol : string) (evs : list event) : Prop :=
  forall h ev t, evs = h ++ ev :: t -> starts ev = true -> may_start pol h.

(** What the program point says of the events so far. *)
Definition lived (pol : string) (evs : list event) (p : proc) : Prop :=
  disciplined pol evs /\
  match p.2 with
  | Idle => evs = []
  | Starting _ => may_start pol evs
  | Sleeping _ _ => exists h e k, evs = h ++ [e] /\ ends_with e k /\ shouldRestart pol k = true
  | Waits _ | Done => True
  end.

Lemma disciplined_snoc pol evs ev : disciplined pol evs -> (starts ev = true -> may_start pol evs) -> disciplined pol (evs ++ [ev]).
Proof.
  intros Hd Hev h e t E Hs. destruct t as [|x t _] using rev_ind.
  - apply app_inj_tail in E as [-> ->]. by apply Hev.
  - rewrite app_comm_cons, app_assoc in E. apply app_inj_tail in E as [-> _]. by eapply Hd.
Qed.

Lemma after_exit_next pol stop a code err now c c' n :
  after_exit pol stop a code err now c = (c', n) -> n = Finish \/ shouldRestart pol code = true /\ exists a' d, n = Backoff a' d.
Proof.
  unfold after_exit. destruct stop; [by intros [= _ <-]; left|]. destruct (shouldRestart pol code); [|by intros [= _ <-]; left].
  intros [= _ <-]. right. split; [done|]. by eexists _, _.
Qed.

(** One event: the goroutine's history goes on in order. *)
Lemma container_event_lived s init ev p p' started evs :
  lived (policy_of init s) evs p -> container_event s init ev p = Some (p', started) -> lived (policy_of init s) (evs ++ [ev]) p'.
Proof.
  destruct p as [c pc]. intros [Hd Hp]. unfold container_event. destruct ev as [now|now err|now w|], pc as [|a|a|a d|]; cbn [fst snd] in *; try done.
  - intros [= <- _]. split; [|done]. by apply disciplined_snoc.
  - destruct (after_exit _ _ _ _ _ _ _) as [c' n] eqn:E. intros [= <- _]. split; [by apply disciplined_snoc|]. cbn [snd].
    destruct (after_exit_next _ _ _ _ _ _ _ _ _ E) as [->|(Hk & a' & d & ->)]; [done|]. by exists evs, (EvStartErr now err), 128%Z.
  - destruct (after_exit _ _ _ _ _ _ _) as [c' n] eqn:E. intros [= <- _]. split; [by apply disciplined_snoc|]. cbn [snd].
    destruct (after_exit_next _ _ _ _ _ _ _ _ _ E) as [->|(Hk & a' & d & ->)]; [done|]. by exists evs, (EvExit now w), (wait_code w).
  - destruct (after_sleep _ _) as [c'|]; intros [= <- _]; (split; [by apply disciplined_snoc|]); cbn [snd]; [done|].
    destruct Hp as (h & e & k & -> & He & Hk). right. exists h, e, k. by rewrite <-app_assoc.
Qed.

(** Every other step leaves a goroutine where it is, or begins it. *)
Lemma other_step a s s' init i p' :
  sup_ok s -> exec a s = Some s' -> (forall ev, a <> AContainer init i ev) -> procs init s' !! i = Some p' ->
  exists p, procs init s !! i = Some p /\ (p' = p \/ p.2 = Idle /\ p' = (p.1, Starting 0)).
Proof.
  intros (_ & _ & Hph) He Ha Hp. destruct a as [b j ev| | | |b j|b j cmd]; cbn in He.
  - destruct (procs b s !! j) as [q|] eqn:Hq; [|done]. destruct (container_event s b ev q) as [[q' st]|]; [|done].
    assert (procs init (set_proc b j q' s) !! i = Some p') as Hp' by (injection He as <-; by destruct st).
    exists p'. split; [|by left]. clear He Hp. destruct b, init; cbn in *; try done;
      (destruct (decide (j = i)) as [->|Hne]; [by destruct (Ha ev)|by rewrite list_lookup_insert_ne in Hp' by done]).
  - unfold run_advance, phase_ok in *. destruct (run_at s) as [k| |code]; [| |done].
    + destruct Hph as ((_ & Hid) & _ & Hm). destruct (inits s !! k) as [[c []]|] eqn:Hk; try done. injection He as <-. case_bool_decide; [by exists p'; auto|].
      unfold enter_init in Hp. destruct (inits s !! S k) as [[c1 pc1]|] eqn:Hk1; cbn in Hp.
      * destruct init; cbn in Hp; [|by exists p'; auto]. destruct (decide (i = S k)) as [->|Hne]; [|rewrite list_lookup_insert_ne in Hp by done; by exists p'; auto].
        assert (idle (c1, pc1)) as Hi by (eapply (Forall_lookup_1 _ _ 0); [exact Hid|]; by rewrite lookup_drop, Nat.add_0_r).
        rewrite list_lookup_insert_eq in Hp by (by eapply lookup_lt_Some). injection Hp as <-. exists (c1, pc1). split; [done|]. by right.
      * destruct init; cbn in Hp; [by exists p'; auto|]. rewrite list_lookup_fmap in Hp. apply fmap_Some in Hp as (p & Hp & ->). exists p. split; [done|].
        right. split; [|done]. by eapply (Forall_lookup_1 idle).
    + case_bool_decide; [|done]. injection He as <-. exists p'. by auto.
  - injection He as <-. exists p'. by auto.
  - case_bool_decide; [|done]. injection He as <-. exists p'. by auto.
  - injection He as <-. destruct (terminate_fields b j s) as (Hi & Hm & _). exists p'. split; [|by left]. destruct init; cbn in *; congruence.
  - case_bool_decide; [|done]. injection He as <-. destruct (term_timer_fields b j cmd s) as (Hi & Hm & _). exists p'. split; [|by left]. destruct init; cbn in *; congruence.
Qed.

Lemma exec_policy a s s' : exec a s = Some s' -> policy s' = policy s.
Proof.
  destruct a as [b j ev| | | |b j|b j cmd]; cbn; intros He.
  - repeat case_match; by simplify_eq.
  - unfold run_advance, enter_init in He. repeat case_match; by simplify_eq.
  - by injection He as <-.
  - case_bool_decide; by simplify_eq.
  - injection He as <-. apply terminate_fields.
  - case_bool_decide; [|done]. injection He as <-. apply term_timer_fields.
Qed.

Lemma start_lived pol ns ms init i p : procs init (start pol ns ms) !! i = Some p -> lived (policy_of init (start pol ns ms)) [] p.
Proof.
  intros Hp. split; [by intros [] ? ? ?|].
  assert (p.2 = Idle \/ p.2 = Starting 0) as [-> | ->]; [|done|by left].
  unfold start, enter_init in Hp. destruct (_ !! 0) as [[c0 pc0]|] in Hp; destruct init; cbn in Hp.
  - apply list_lookup_insert_Some in Hp as [(<- & <- & _)|[_ Hp]]; [by right|]. apply list_lookup_fmap_Some in Hp as (? & -> & _). by left.
  - apply list_lookup_fmap_Some in Hp as (? & -> & _). by left.
  - apply list_lookup_fmap_Some in Hp as (? & -> & _). by left.
  - rewrite <-list_fmap_compose in Hp. apply list_lookup_fmap_Some in Hp as (? & -> & _). by right.
Qed.

Lemma exec_lived l pol ns ms s : exec_all l (start pol ns ms) = Some s ->
  reachable pol ns ms s /\ forall init i p, procs init s !! i = Some p -> lived (policy_of init s) (events_of init i l) p.
Proof.
  revert s. induction l as [|a l IH] using rev_ind; intros s H.
  { injection H as <-. split; [apply rtc_refl|]. intros init i p Hp. by apply start_lived in Hp. }
  rewrite exec_all_snoc in H. apply bind_Some in H as (s1 & H & Ha). destruct (IH _ H) as [Hr Hl]. split; [eapply rtc_r; [exact Hr|by exists a]|].
  intros init i p' Hp'. rewrite events_of_snoc. assert (policy_of init s = policy_of init s1) as -> by (unfold policy_of; by rewrite (exec_policy _ _ _ Ha)).
  assert ((exists ev, a = AContainer init i ev) \/ (forall ev, a <> AContainer init i ev)) as [[ev ->]|Ha'].
  { destruct a as [b j ev| | | | |]; try (by right). destruct (decide (b = init /\ j = i)) as [[-> ->]|Hne]; [left; by eexists|right; naive_solver]. }
  - rewrite decide_True by done. cbn in Ha. destruct (procs init s1 !! i) as [p|] eqn:Hp; [|done].
    destruct (container_event s1 init ev p) as [[q st]|] eqn:He; [|done].
    assert (procs init (set_proc init i q s1) !! i = Some p') as Hq by (injection Ha as <-; by destruct st).
    assert (q = p') as ->.
    { destruct init; cbn in *; (rewrite list_lookup_insert_eq in Hq by (by eapply lookup_lt_Some)); by injection Hq. }
    eapply container_event_lived; [|exact He]. by apply Hl.
  - assert (match a with AContainer b j ev => if decide (b = init /\ j = i) then [ev] else [] | _ => [] end = []) as ->.
    { destruct a as [b j ev| | | | |]; try done. case_decide as Hd; [destruct Hd as [-> ->]; by destruct (Ha' ev)|done]. }
    rewrite app_nil_r. destruct (other_step a s1 s init i p' (reachable_ok _ _ _ _ Hr) Ha Ha' Hp') as (p & Hp & [-> |[Hi ->]]); [by apply Hl|].
    destruct (Hl _ _ _ Hp) as [Hd Hi']. rewrite Hi in Hi'. rewrite Hi' in *. split; [done|]. by left.
Qed.

(** ** What a shutdown brings about *)

(** The steps that come by themselves: a start that is under way ends, a
    backoff is slept, a timer fires, [run] goes on, and a process that was sent
    SIGKILL exits. Any other process may run for ever. *)
Definition goes_on (s : sup) (a : action) : bool :=
  match a with
  | AContainer init i (EvExit _ _) =>
      match procs init s !! i with
      | Some (c, _) => match c_cmd c with Some cmd => bool_decide (cmd ∈ killed s) | None => false end
      | None => false
      end
  | AContainer _ _ _ | ARun | AKillTimer => true
  | _ => false
  end.

(** A process was started after a kill timer had fired. *)
Definition late_start (l : list action) : Prop :=
  exists l1 l2 init i now, l = l1 ++ AContainer init i (EvStartOk now) :: l2 /\ AKillTimer ∈ l1.

Definition count (f : action -> bool) (l : list action) : nat := length (filter (fun a => f a = true) l).
Definition is_kill_timer (a : action) : bool := match a with AKillTimer => true | _ => false end.
Definition is_shutdown (a : action) : bool := match a with AShutdown => true | _ => false end.

Lemma count_snoc f l a : count f (l ++ [a]) = count f l + (if f a then 1 else 0).
Proof. unfold count. rewrite filter_app, length_app. f_equal. rewrite filter_cons, filter_nil. case_decide as H; [by rewrite H|]. by destruct (f a). Qed.

Lemma late_start_snoc l a : late_start l -> late_start (l ++ [a]).
Proof. intros (l1 & l2 & b & i & now & -> & H). exists l1, (l2 ++ [a]), b, i, now. by rewrite <-app_assoc. Qed.

(** A process that runs has a command, and waits. *)
Lemma waits_runs s init i c att : sup_ok s -> procs init s !! i = Some (c, Waits att) -> c_state c = Running /\ exists cmd, c_cmd c = Some cmd.
Proof.
  intros (Hi & Hm & _) Hp. assert (proc_ok (policy_of init s) (stopping s) (c, Waits att)) as (_ & _ & H) by (destruct init; by eapply Forall_lookup_1).
  destruct H as (Hst & [cmd Hc] & _). split; [done|by exists cmd].
Qed.

Lemma signalled_waits sg s init i c att : sup_ok s -> procs init s !! i = Some (c, Waits att) -> (init, i, sg) ∈ signalled sg s.
Proof.
  intros Hok Hp. destruct (waits_runs _ _ _ _ _ Hok Hp) as (Hst & cmd & Hc). unfold signalled. apply list_elem_of_fmap.
  exists (init, i, (c, Waits att)). split; [done|]. apply list_elem_of_filter. split; [by cbn; rewrite Hc|]. apply elem_of_app.
  destruct init; [right|left]; apply list_elem_of_lookup; exists i; cbn in Hp; by rewrite list_lookup_imap, Hp.
Qed.

Lemma running_cmds_waits s init i c att cmd :
  sup_ok s -> procs init s !! i = Some (c, Waits att) -> c_cmd c = Some cmd -> cmd ∈ running_cmds s.
Proof.
  intros Hok Hp Hc. destruct (waits_runs _ _ _ _ _ Hok Hp) as [Hst _]. unfold running_cmds. apply list_elem_of_omap.
  exists (c, Waits att). cbn. rewrite bool_decide_true by done. split; [|done]. apply elem_of_app.
  destruct init; [right|left]; by eapply list_elem_of_lookup_2.
Qed.

(** Signals and kills are not undone; timers are used up one by one. *)
Lemma exec_grows a s s' : exec a s = Some s' ->
  signals s ⊆ signals s' /\ killed s ⊆ killed s' /\
  killTimers s' + (if is_kill_timer a then 1 else 0) = killTimers s + (if is_shutdown a then 1 else 0).
Proof.
  destruct a as [b j ev| | | |b j|b j cmd]; cbn; intros He.
  - repeat case_match; simplify_eq; cbn; split_and!; (done || lia).
  - unfold run_advance, enter_init in He. repeat case_match; simplify_eq; cbn; split_and!; (done || lia).
  - injection He as <-. cbn. split_and!; [by apply list_subseteq_app_r|done|lia].
  - case_bool_decide; [|done]. injection He as <-. cbn. split_and!; [by apply list_subseteq_app_r|by apply list_subseteq_app_r|lia].
  - injection He as <-. unfold terminate. repeat case_match; cbn; split_and!; try done; try lia; intros x Hx; by right.
  - case_bool_decide; [|done]. injection He as <-. unfold term_timer. repeat case_match; cbn; split_and!; try done; try lia; intros x Hx; by right.
Qed.

(** A goroutine waits for a process because it did before, or has started it. *)
Lemma waits_since a s s' init i c att : sup_ok s -> exec a s = Some s' -> procs init s' !! i = Some (c, Waits att) ->
  procs init s !! i = Some (c, Waits att) \/ exists now, a = AContainer init i (EvStartOk now).
Proof.
  intros Hok He Hp. assert ((exists ev, a = AContainer init i ev) \/ (forall ev, a <> AContainer init i ev)) as [[ev ->]|Ha].
  { destruct a as [b j ev| | | | |]; try (by right). destruct (decide (b = init /\ j = i)) as [[-> ->]|Hne]; [left; by eexists|right; naive_solver]. }
  - right. cbn in He. destruct (procs init s !! i) as [p|] eqn:Hq; [|done].
    destruct (container_event s init ev p) as [[q st]|] eqn:Hev; [|done].
    assert (procs init (set_proc init i q s) !! i = Some (c, Waits att)) as Hs by (injection He as <-; by destruct st).
    assert (q = (c, Waits att)) as ->.
    { destruct init; cbn in *; (rewrite list_lookup_insert_eq in Hs by (by eapply lookup_lt_Some)); by injection Hs. }
    destruct p as [c0 pc]. unfold container_event in Hev. destruct ev as [now|now err|now w|], pc; cbn [fst snd] in Hev; try done; [by exists now|..].
    + destruct (after_exit _ _ _ _ _ _ _) as [c' n] eqn:E. injection Hev as _ Hn _. by destruct n.
    + destruct (after_exit _ _ _ _ _ _ _) as [c' n] eqn:E. injection Hev as _ Hn _. by destruct n.
    + by destruct (after_sleep _ _).
  - destruct (other_step _ _ _ _ _ _ Hok He Ha Hp) as (p & Hq & [<-|[_ E]]); [by left|done].
Qed.

(** From the shutdown on: a kill timer is pending until one has fired; after
    that every process was killed that did not start late. *)
Lemma shutdown_kills l s s' : sup_ok s -> exec_all l (shutdownAll s) = Some s' ->
  sup_ok s' /\ stopping s' = true /\ signals (shutdownAll s) ⊆ signals s' /\
  count is_kill_timer l + killTimers s' = S (killTimers s) + count is_shutdown l /\
  (AKillTimer ∈ l -> late_start l \/ forall init i c att, procs init s' !! i = Some (c, Waits att) -> exists cmd, c_cmd c = Some cmd /\ cmd ∈ killed s').
Proof.
  intros Hok. revert s'. induction l as [|a l IH] using rev_ind; intros s' H.
  { injection H as <-. split; [apply (exec_ok AShutdown s); done|]. split_and!; [done|done|cbn; lia|by intros ?%elem_of_nil]. }
  rewrite exec_all_snoc in H. apply bind_Some in H as (s1 & H & Ha). destruct (IH _ H) as (Hok1 & Hst1 & Hsig & Ht & Hk).
  destruct (exec_grows _ _ _ Ha) as (Hg1 & Hg2 & Hg3). destruct (goroutine_step_decreases _ _ _ Hok1 Hst1 Ha) as [Hst _].
  split; [by eapply exec_ok|]. split; [done|]. split; [by etransitivity|]. rewrite !count_snoc. split; [lia|].
  intros [Hin|Hin]%elem_of_app.
  - destruct (Hk Hin) as [Hl|Hall]; [left; by apply late_start_snoc|].
    assert ((exists init i now, a = AContainer init i (EvStartOk now)) \/ forall init i now, a <> AContainer init i (EvStartOk now)) as [(b & j & now & ->)|Hns].
    { destruct a as [b j []| | | | |]; try (by right); left; by eexists _, _, _. }
    + left. by exists l, [], b, j, now.
    + right. intros init i c att Hp. destruct (waits_since _ _ _ _ _ _ _ Hok1 Ha Hp) as [Hp1|[now ->]]; [|by destruct (Hns init i now)].
      destruct (Hall _ _ _ _ Hp1) as (cmd & Hc & Hcmd). exists cmd. split; [done|by apply Hg2].
  - apply list_elem_of_singleton in Hin as <-. right. intros init i c att Hp. cbn in Ha. case_bool_decide; [|done]. injection Ha as <-.
    destruct (waits_runs _ _ _ _ _ Hok1 Hp) as (_ & cmd & Hc). exists cmd. split; [done|]. cbn. apply elem_of_app. left.
    by eapply running_cmds_waits.
Qed.

(** A goroutine that has begun and not returned goes on, unless it waits for a
    process that was not killed. *)
Lemma goroutine_goes_on s init i p :
  procs init s !! i = Some p -> active p -> p.2 <> Done ->
  (forall c att, p = (c, Waits att) -> exists cmd, c_cmd c = Some cmd /\ cmd ∈ killed s) ->
  exists ev, goes_on s (AContainer init i ev) = true /\ is_Some (exec (AContainer init i ev) s).
Proof.
  intros Hp Ha Hd Hk. destruct (active_enabled s init p Ha Hd) as (ev & [p' st] & Hev).
  exists ev. split; [|cbn; rewrite Hp, Hev; by destruct st; eexists]. destruct ev; try done. cbn. rewrite Hp.
  destruct p as [c pc]. unfold container_event in Hev. destruct pc; try done. destruct (Hk _ _ eq_refl) as (cmd & -> & Hcmd). by rewrite bool_decide_true.
Qed.

(** What [run] waits for. *)
Lemma run_waits_for s : sup_ok s -> (forall code, run_at s <> Returned code) ->
  is_Some (run_advance s) \/ exists init i p, procs init s !! i = Some p /\ active p /\ p.2 <> Done.
Proof.
  intros (_ & _ & Hph) Hr. unfold phase_ok in Hph. unfold run_advance. destruct (run_at s) as [i| |code] eqn:Hpe; [| |by destruct (Hr code)].
  - destruct Hph as (_ & ([c pc] & Hp & Ha) & _). destruct (decide (pc = Done)) as [->|Hd]; [left; rewrite Hp; by eexists|].
    right. by exists true, i, (c, pc).
  - destruct Hph as [_ Hm]. case_bool_decide as Hd; [left; by eexists|].
    apply not_Forall_Exists in Hd; [|intros ?; apply _]. apply Exists_exists in Hd as (p & Hin & Hnd).
    apply list_elem_of_lookup in Hin as [i Hi]. right. exists false, i, p. split_and!; [done|by eapply (Forall_lookup_1 active)|done].
Qed.

Lemma mains_fold_nonzero l x :
  x <> 0%Z ->
  foldl (fun code (p : proc) => if bool_decide (c_exitCode p.1 <> 0%Z) then c_exitCode p.1 else code) x l <> 0%Z.
Proof. revert x. induction l as [|p l IH]; intros x Hx; cbn; [done|]. case_bool_decide; auto. Qed.

Lemma mains_code_zero l :
  mains_code l = 0%Z <-> Forall (fun p : proc => c_exitCode p.1 = 0%Z) l.
Proof.
  unfold mains_code. induction l as [|p l IH]; cbn; [done|].
  rewrite Forall_cons. case_bool_decide as Hp.
  - pose proof (mains_fold_nonzero l _ Hp). naive_solver.
  - destruct (decide (c_exitCode p.1 = 0%Z)); [naive_solver|done].
Qed.

Lemma finished_ok pol stop p :
  proc_ok pol stop p -> finished p -> c_state p.1 = Terminated /\ c_exitCode p.1 = 0%Z.
Proof. intros (_ & _ & H) [Hd Hc]. rewrite Hd in H. naive_solver. Qed.

(** The container after a failed first start that the policy restarts. *)
Definition failed_start (now : Z) (err : string) (c : container) : container :=
  mkContainer (c_name c) Waiting 128 (c_restarts c + 1) None (Some now)
    ("CrashLoopBackOff: restarting in " +:+ pretty (backoff_of 0 `div` second)%Z +:+ "s") (c_cmd c).

Lemma start_failure s init now err c k :
  stopping s = false -> shouldRestart (policy_of init s) 128 = true -> c_startedAt c = None ->
  container_event s init (EvStartErr now err) (c, Starting k) =
  Some ((failed_start now err c, Sleeping 0 second), false).
Proof.
  intros Hs Hp Hc. unfold container_event, after_exit; cbn [fst snd]. rewrite Hs, Hp, Hc.
  cbn [orb negb sub_time]. by rewrite bool_decide_true by lia.
Qed.

(** *** Names never change *)

Notation names_of l := ((fun p : proc => c_name p.1) <$> l).

Lemma names_insert (l : list proc) i (p q : proc) :
  l !! i = Some p -> c_name q.1 = c_name p.1 -> names_of (<[i:=q]> l) = names_of l.
Proof.
  intros Hi Hn. rewrite list_fmap_insert. apply list_insert_id. by rewrite list_lookup_fmap, Hi, Hn.
Qed.

Lemma enter_init_names i s :
  names_of (inits (enter_init i s)) = names_of (inits s) /\ names_of (mains (enter_init i s)) = names_of (mains s).
Proof.
  unfold enter_init. destruct (inits s !! i) as [[c pc]|] eqn:Hl; cbn.
  - split; [by eapply names_insert|done].
  - split; [done|]. rewrite <-list_fmap_compose. done.
Qed.

Lemma exec_names a s s' :
  exec a s = Some s' -> names_of (inits s') = names_of (inits s) /\ names_of (mains s') = names_of (mains s).
Proof.
  destruct a as [init i ev| | | |init i|init i cmd]; cbn; intros H.
  - destruct (procs init s !! i) as [p|] eqn:Hp; [|done].
    destruct (container_event s init ev p) as [[p' st]|] eqn:He; [|done].
    apply container_event_name in He. injection H as <-.
    assert (forall s1, inits (bump_cmd s1) = inits s1 /\ mains (bump_cmd s1) = mains s1) as Hb by done.
    destruct st; [destruct (Hb (set_proc init i p' s)) as [-> ->]|]; destruct init; cbn in *;
      split; try done; by eapply names_insert.
  - unfold run_advance in H. destruct (run_at s) as [i| |]; [| |done].
    + destruct (inits s !! i) as [[c []]|]; try done. injection H as <-.
      case_bool_decide; [done|apply enter_init_names].
    + case_bool_decide; [|done]. by injection H as <-.
  - by injection H as <-.
  - case_bool_decide; [|done]. by injection H as <-.
  - injection H as <-. by destruct (terminate_fields init i s) as (-> & -> & _).
  - case_bool_decide; [|done]. injection H as <-. by destruct (term_timer_fields init i cmd s) as (-> & -> & _).
Qed.

Lemma reachable_names pol ns ms s :
  reachable pol ns ms s -> names_of (inits s) = ns /\ names_of (mains s) = ms.
Proof.
  intros Hr. refine (rtc_invariant step (fun s => names_of (inits s) = ns /\ names_of (mains s) = ms) _ _ _ _ Hr).
  - intros x y Hx [a Ha]. apply exec_names in Ha. naive_solver congruence.
  - unfold start. destruct (enter_init_names 0 (Sup pol false ((fun n => (new_container n, Idle)) <$> ns)
      ((fun n => (new_container n, Idle)) <$> ms) (RunInit 0) 0 0 [] [] [])) as [-> ->]. cbn.
    rewrite <-!list_fmap_compose. by rewrite !list_fmap_id.
Qed.

(** *** The result *)

Lemma run_code_zero pol ns ms s code :
  reachable pol ns ms s -> run_at s = Returned code ->
  code = 0%Z <->
  Forall (fun q : proc => c_state q.1 = Terminated /\ c_exitCode q.1 = 0%Z) (inits s ++ mains s).
Proof.
  intros Hr Hp. destruct (reachable_ok _ _ _ _ Hr) as (Hi & Hm & Hph). unfold phase_ok in Hph.
  rewrite Hp in Hph. rewrite Forall_app. split.
  - intros ->. destruct Hph as [(i & p & _ & _ & _ & _ & [] & _)|(Hf & Hd & Hc)]; [done|].
    split; apply Forall_forall; intros q Hq.
    + rewrite Forall_forall in Hi, Hf. by apply (finished_ok _ _ _ (Hi q Hq)), Hf.
    + rewrite Forall_forall in Hm, Hd. apply (finished_ok _ _ _ (Hm q Hq)). split; [by apply Hd|].
      symmetry in Hc. rewrite mains_code_zero in Hc. rewrite Forall_forall in Hc. by apply Hc.
  - intros [Hif Hmf]. destruct Hph as [(i & p & _ & Hl & _ & Hc & _ & _)|(_ & _ & ->)].
    + destruct (Forall_lookup_1 _ _ _ _ Hif Hl) as [_ H0]. by rewrite <-Hc.
    + apply mains_code_zero. eapply Forall_impl; [exact Hmf|]. naive_solver.
Qed.

(** ** Theorems *)

(** C2 No main container is started before every init container has
    terminated with exit code 0, in any interleaving. *)
Theorem mains_start_after_inits pol ns ms s i p :
  reachable pol ns ms s -> mains s !! i = Some p -> active p ->
  Forall (fun q : proc => c_state q.1 = Terminated /\ c_exitCode q.1 = 0%Z) (inits s).
Proof.
  intros Hr Hp Ha. destruct (reachable_ok _ _ _ _ Hr) as (Hi & _ & Hph).
  assert (Forall finished (inits s)) as Hf.
  { unfold phase_ok in Hph. destruct (run_at s).
    - destruct Hph as (_ & _ & Hm). by pose proof (Forall_lookup_1 _ _ _ _ Hm Hp).
    - naive_solver.
    - destruct Hph as [(?&?&_&_&_&_&_&Hm)|[? _]]; [|done]. by pose proof (Forall_lookup_1 _ _ _ _ Hm Hp). }
  apply Forall_forall. intros q Hq. rewrite Forall_forall in Hi, Hf.
  destruct (Hf q Hq) as [Hd Hc]. destruct (Hi q Hq) as (_ & _ & Hok). rewrite Hd in Hok. naive_solver.
Qed.


Lemma mains_start_after_inits_witness :
  exists s, reachable "Always" ["i"] ["m"] s /\ mains s !! 0 = Some ((new_container "m"), Starting 0) /\
    Forall (fun q : proc => c_state q.1 = Terminated /\ c_exitCode q.1 = 0%Z) (inits s).
Proof.
  destruct (exec_all [AContainer true 0 (EvStartOk 5); AContainer true 0 (EvExit 9 WaitOk); ARun]
              (start "Always" ["i"] ["m"])) as [s|] eqn:Hs; [|discriminate Hs].
  assert (reachable "Always" ["i"] ["m"] s) as Hr by exact (exec_all_rtc _ _ _ Hs).
  vm_compute in Hs. injection Hs as <-.
  eexists. split; [exact Hr|]. split; [reflexivity|].
  apply (mains_start_after_inits "Always" ["i"] ["m"] _ 0 (new_container "m", Starting 0) Hr eq_refl).
  discriminate.
Defined.

(** [run] returns 0 exactly when every container, init and main, has
    terminated with exit code 0. *)
Theorem run_result pol ns ms s code :
  reachable pol ns ms s -> run_at s = Returned code ->
  code = 0%Z <->
  Forall (fun q : proc => c_state q.1 = Terminated /\ c_exitCode q.1 = 0%Z) (inits s ++ mains s).
Proof. apply run_code_zero. Qed.

Lemma run_result_witness :
  exists s, reachable "Never" [] ["a"; "b"] s /\ run_at s = Returned 3 /\
    ~ Forall (fun q : proc => c_state q.1 = Terminated /\ c_exitCode q.1 = 0%Z) (inits s ++ mains s).
Proof.
  destruct (exec_all [AContainer false 0 (EvStartOk 5); AContainer false 1 (EvStartOk 6);
              AContainer false 0 (EvExit 9 (WaitExit 3)); AContainer false 1 (EvExit 10 WaitOk); ARun]
              (start "Never" [] ["a"; "b"])) as [s|] eqn:Hs; [|discriminate Hs].
  assert (reachable "Never" [] ["a"; "b"] s) as Hr by exact (exec_all_rtc _ _ _ Hs).
  vm_compute in Hs. injection Hs as <-.
  eexists. split; [exact Hr|]. split; [reflexivity|].
  intros H. apply (run_result "Never" [] ["a"; "b"] _ 3 Hr eq_refl) in H. discriminate H.
Defined.

(** C28 The restart policy is respected in every interleaving. Whatever happens
    around it, a container is started once, and after that only where its last
    run, or its last attempt to start, ended with a code the policy restarts
    and its goroutine has slept the backoff since, of 1 to 32 seconds; with
    [Never] it is not restarted at all; and unless the pod is being stopped it
    is Terminated only by an exit its policy does not restart. *)
Theorem restart_discipline pol ns ms l s init i p :
  exec_all l (start pol ns ms) = Some s -> procs init s !! i = Some p ->
  let policy := policy_of init s in
  (forall h ev t, events_of init i l = h ++ ev :: t -> starts ev = true ->
     h = [] \/ exists h' e k, h = h' ++ [e; EvWake] /\ ends_with e k /\ shouldRestart policy k = true) /\
  (forall a d, p.2 = Sleeping a d ->
     shouldRestart policy (c_exitCode p.1) = true /\ d = backoff_of a /\ (second <= d <= 32 * second)%Z) /\
  (policy = "Never" -> c_restarts p.1 = 0%Z) /\
  (c_state p.1 = Terminated -> stopping s = false -> shouldRestart policy (c_exitCode p.1) = false).
Proof.
  intros Hl Hp. destruct (exec_lived _ _ _ _ _ Hl) as [Hr Hlife]. destruct (reachable_ok _ _ _ _ Hr) as (Hi & Hm & _).
  assert (proc_ok (policy_of init s) (stopping s) p) as (Hn & _ & Hok).
  { destruct init; by eapply Forall_lookup_1. }
  split; [apply (Hlife _ _ _ Hp)|]. split_and!; [|done|].
  - intros a d Hpc. rewrite Hpc in Hok. destruct Hok as (_ & -> & Hs). split; [done|]. split; [done|apply backoff_range].
  - intros Ht Hst. destruct p as [c []]; cbn in *.
    + by rewrite Hok in Ht.
    + congruence.
    + naive_solver congruence.
    + naive_solver congruence.
    + naive_solver.
Qed.

Definition ex_restart : list action :=
  [AContainer false 0 (EvStartOk 5); AContainer false 0 (EvExit 9 (WaitExit 3)); AContainer false 0 EvWake; AContainer false 0 (EvStartOk 1000000010)].
Lemma restart_discipline_witness :
  exists s p, exec_all ex_restart (start "OnFailure" [] ["a"]) = Some s /\ procs false s !! 0 = Some p /\ c_state p.1 = Running /\
    ([EvStartOk 5; EvExit 9 (WaitExit 3); EvWake] = [] \/
     exists h' e k, [EvStartOk 5; EvExit 9 (WaitExit 3); EvWake] = h' ++ [e; EvWake] /\ ends_with e k /\ shouldRestart "OnFailure" k = true).
Proof.
  destruct (exec_all ex_restart (start "OnFailure" [] ["a"])) as [s|] eqn:Hs; [|discriminate Hs].
  destruct (procs false s !! 0) as [p|] eqn:Hp; [|by (vm_compute in Hs; injection Hs as <-; discriminate Hp)].
  destruct (restart_discipline "OnFailure" [] ["a"] ex_restart s false 0 p Hs Hp) as [H _].
  exists s, p. split; [done|]. split; [done|]. vm_compute in Hs. injection Hs as <-. injection Hp as <-. split; [reflexivity|].
  exact (H [EvStartOk 5; EvExit 9 (WaitExit 3); EvWake] (EvStartOk 1000000010) [] eq_refl eq_refl).
Defined.



(** Crash backoff: after [k] restartable exits of runs of at most five
    minutes each, the next such exit sleeps [2^min(k,5)] seconds (1, 2, 4, 8,
    16, 32, 32, ...), and every exit counts one restart. *)
Theorem crash_loop_backoff s init l x c :
  stopping s = false -> Forall (restarts_with (policy_of init s)) l -> restarts_with (policy_of init s) x ->
  exists c', run_events s init (crash_loop l ++ run_round x) (c, Starting 0) =
    Some (c', Sleeping (length l) (2 ^ Z.min (Z.of_nat (length l)) 5 * second)%Z) /\
    c_restarts c' = (c_restarts c + Z.of_nat (length l) + 1)%Z.
Proof.
  intros Hs Hl Hx. destruct (crash_loop_state s init l c 0 Hs Hl) as (c1 & H1 & Hr1).
  destruct (run_round_backoff s init x c1 (length l) Hs Hx) as (c2 & H2 & Hr2).
  exists c2. split.
  - rewrite run_events_app, H1. cbn [mbind option_bind]. rewrite Nat.add_0_l, H2.
    unfold backoff_of. by rewrite Z.shiftl_1_l, Nat2Z.inj_min.
  - rewrite Hr2, Hr1. lia.
Qed.

Lemma crash_loop_backoff_witness :
  exists c', run_events (start "Always" [] ["a"]) false
    (crash_loop [(0%Z, second, WaitExit 1)] ++ run_round ((3 * second)%Z, second, WaitOk))
    (new_container "a", Starting 0) = Some (c', Sleeping 1 (2 * second)%Z) /\ c_restarts c' = 2%Z.
Proof.
  refine (crash_loop_backoff (start "Always" [] ["a"]) false [(0%Z, second, WaitExit 1)]
    ((3 * second)%Z, second, WaitOk) (new_container "a") eq_refl _ _).
  - apply Forall_singleton. split; [cbn; lia|reflexivity].
  - split; [cbn; lia|reflexivity].
Defined.

(** A container that has never started has no start time, so the check for
    a long run always holds and its attempts are reset: however often
    [startOnce] fails (a missing executable), the backoff stays at one second
    and never grows. *)
Theorem start_failure_backoff_never_grows s init errs c now err :
  stopping s = false -> shouldRestart (policy_of init s) 128 = true -> c_startedAt c = None ->
  exists c', run_events s init
    (concat ((fun x : Z * string => [EvStartErr x.1 x.2; EvWake]) <$> errs) ++ [EvStartErr now err])
    (c, Starting 0) = Some (c', Sleeping 0 second) /\ c_startedAt c' = None /\
    c_restarts c' = (c_restarts c + Z.of_nat (length errs) + 1)%Z.
Proof.
  intros Hs Hp. generalize 0 at 1 as k. revert c.
  induction errs as [|[t e] errs IH]; intros c k Hc.
  - cbn [fmap list_fmap concat app run_events]. rewrite start_failure by done.
    eexists. split_and!; [reflexivity|done|]. cbn. lia.
  - cbn [fmap list_fmap concat app run_events fst snd]. rewrite start_failure by done.
    cbn [run_events container_event snd fst]. rewrite Hs. cbn [after_sleep].
    destruct (IH (failed_start t e c) 1 eq_refl) as (c' & H1 & H2 & H3).
    exists c'. split_and!; [exact H1|done|]. rewrite H3. cbn [failed_start c_restarts length]. lia.
Qed.

Lemma start_failure_backoff_never_grows_witness :
  exists c', run_events (start "Always" [] ["a"]) false
    [EvStartErr 1 "not found"; EvWake; EvStartErr 2 "not found"; EvWake; EvStartErr 3 "not found"]
    (new_container "a", Starting 0) = Some (c', Sleeping 0 second) /\ c_startedAt c' = None /\
    c_restarts c' = 3%Z.
Proof.
  exact (start_failure_backoff_never_grows (start "Always" [] ["a"]) false
    [(1%Z, "not found"); (2%Z, "not found")] (new_container "a") 3 "not found" eq_refl eq_refl eq_refl).
Defined.

(** A shutdown that arrives while an init container runs does not keep the
    main containers from starting: when the init container then exits 0, [run]
    starts them, after [shutdownAll] has sent its SIGTERMs, so they run
    without having been signalled. *)
Theorem shutdown_during_init_starts_mains pol i m now1 now2 now3 :
  exists s, exec_all [AContainer true 0 (EvStartOk now1); AShutdown; AContainer true 0 (EvExit now2 WaitOk);
                      ARun; AContainer false 0 (EvStartOk now3)] (start pol [i] [m]) = Some s /\
    stopping s = true /\ c_state <$> (fst <$> mains s !! 0) = Some Running /\
    signals s = [(true, 0, SIGTERM)].
Proof. eexists. split; [vm_compute; reflexivity|]. done. Qed.
