(* ===== verification/SvcProto.v ===== *)
(** * The lazy service protocol

    The query and answer records both sides of the service channel declare
    (poc/agent/services.go and poc/execd/services.go), and the interface
    between them: what a source of answers promises to the in-guest data
    plane. [ServiceLB] is proved against the interface, [Resolver] provides
    the instance. *)
From S2P Require Import Prelude.

Record svcQuery := SvcQuery {
  q_VIP : string; q_Port : Z; q_Proto : string;
  q_Name : string; q_Namespace : string
}.

Record svcAnswer := SvcAnswer {
  Endpoints : list string;
  TargetPort : Z;
  ClusterIPs : list string;
  TTLSeconds : Z;
  Error : string
}.

#[export] Instance svcAnswer_eq_dec : EqDecision svcAnswer.
Proof. solve_decision. Defined.

(** A source answers queries (or the channel fails); every endpoint of an
    answer without an error, with the answer's target port, is a backend of
    the query. *)
Class ServiceSource := {
  answer : svcQuery -> result string svcAnswer;
  backend : svcQuery -> string * Z -> Prop;
  answer_backend q a : answer q = Ok a -> Error a = "" ->
    Forall (fun addr => backend q (addr, TargetPort a)) (Endpoints a)
}.
