(* ===== verification/SvcJson.v ===== *)
(** * The service protocol as JSON (poc/agent/services.go, poc/execd/services.go)

    The two records of [SvcProto] with the tags both sides declare: what
    [json.Encoder] writes, the structs [json.Unmarshal] decodes into, and the
    facts the channel relies on: values arrive, texts are single lines, and a
    text cut short is an error. *)
From Stdlib Require Import Ascii.
From S2P Require Import Prelude GoStrings SvcProto Json JsonFacts JsonDecode.

(** An [omitempty] field. *)
Definition omit (empty : bool) (k : string) (j : json) : list (string * json) := if empty then [] else [(k, j)].

Definition query_members (q : svcQuery) : list (string * json) :=
  omit (bool_decide (q_VIP q = "")) "vip" (JStr (q_VIP q)) ++
  omit (bool_decide (q_Port q = 0%Z)) "port" (JInt (q_Port q)) ++
  omit (bool_decide (q_Proto q = "")) "proto" (JStr (q_Proto q)) ++
  omit (bool_decide (q_Name q = "")) "name" (JStr (q_Name q)) ++
  omit (bool_decide (q_Namespace q = "")) "namespace" (JStr (q_Namespace q)).
Definition query_text (q : svcQuery) : bytes := print (JObj (query_members q)).

Definition answer_members (a : svcAnswer) : list (string * json) :=
  [("endpoints", if bool_decide (Endpoints a = []) then JNull else JArr (map JStr (Endpoints a))); ("targetPort", JInt (TargetPort a))] ++
  omit (bool_decide (ClusterIPs a = [])) "clusterIPs" (JArr (map JStr (ClusterIPs a))) ++
  [("ttl", JInt (TTLSeconds a))] ++
  omit (bool_decide (Error a = "")) "error" (JStr (Error a)).
Definition answer_text (a : svcAnswer) : bytes := print (JObj (answer_members a)).

Definition query_fields : list (field svcQuery) :=
  [ fld "vip" dec_string q_VIP (fun q v => SvcQuery v (q_Port q) (q_Proto q) (q_Name q) (q_Namespace q));
    fld "port" dec_int64 q_Port (fun q v => SvcQuery (q_VIP q) v (q_Proto q) (q_Name q) (q_Namespace q));
    fld "proto" dec_string q_Proto (fun q v => SvcQuery (q_VIP q) (q_Port q) v (q_Name q) (q_Namespace q));
    fld "name" dec_string q_Name (fun q v => SvcQuery (q_VIP q) (q_Port q) (q_Proto q) v (q_Namespace q));
    fld "namespace" dec_string q_Namespace (fun q v => SvcQuery (q_VIP q) (q_Port q) (q_Proto q) (q_Name q) v) ].
Definition unmarshal_query : bytes -> option svcQuery := unmarshal (dec_struct query_fields) (SvcQuery "" 0 "" "" "").

Definition answer_fields : list (field svcAnswer) :=
  [ fld "endpoints" (dec_list "" dec_string) Endpoints (fun a v => SvcAnswer v (TargetPort a) (ClusterIPs a) (TTLSeconds a) (Error a));
    fld "targetPort" dec_int64 TargetPort (fun a v => SvcAnswer (Endpoints a) v (ClusterIPs a) (TTLSeconds a) (Error a));
    fld "clusterIPs" (dec_list "" dec_string) ClusterIPs (fun a v => SvcAnswer (Endpoints a) (TargetPort a) v (TTLSeconds a) (Error a));
    fld "ttl" dec_int64 TTLSeconds (fun a v => SvcAnswer (Endpoints a) (TargetPort a) (ClusterIPs a) v (Error a));
    fld "error" dec_string Error (fun a v => SvcAnswer (Endpoints a) (TargetPort a) (ClusterIPs a) (TTLSeconds a) v) ].
Definition unmarshal_answer : bytes -> option svcAnswer := unmarshal (dec_struct answer_fields) (SvcAnswer [] 0 [] 0 "").

(** ** Values arrive *)

Definition is_int64 (z : Z) : Prop := (- 9223372036854775808 <= z < 9223372036854775808)%Z.
Notation utf8 s := (utf8_valid s = true).

Definition query_valid (q : svcQuery) : Prop :=
  utf8 (q_VIP q) /\ utf8 (q_Proto q) /\ utf8 (q_Name q) /\ utf8 (q_Namespace q) /\ is_int64 (q_Port q).
Definition answer_valid (a : svcAnswer) : Prop :=
  utf8_all (Endpoints a) /\ utf8_all (ClusterIPs a) /\ utf8 (Error a) /\ is_int64 (TargetPort a) /\ is_int64 (TTLSeconds a).

Lemma query_wf q : wf_json 1 (JObj (query_members q)) = true.
Proof. unfold query_members, omit. repeat case_bool_decide; cbn; by rewrite ?lit_ok_int. Qed.

Lemma answer_wf a : wf_json 2 (JObj (answer_members a)) = true.
Proof.
  pose proof (fun l => wf_array JStr 0 l (fun _ => eq_refl)) as Hs. cbn [wf_json] in Hs.
  unfold answer_members, omit. repeat case_bool_decide; cbn; by rewrite ?lit_ok_int, ?Hs.
Qed.

Lemma query_decoded q : query_valid q -> unmarshal_query (query_text q) = Some q.
Proof.
  destruct q as [vip port proto name ns]. unfold query_valid, is_int64. cbn [q_VIP q_Port q_Proto q_Name q_Namespace]. intros (H1 & H2 & H3 & H4 & H5).
  apply (unmarshal_print _ _ 1); [apply query_wf|done|]. unfold query_members, omit. cbn.
  repeat case_bool_decide; subst; cbn; carry_members.
Qed.

Lemma answer_decoded a : answer_valid a -> unmarshal_answer (answer_text a) = Some a.
Proof.
  destruct a as [eps port ips ttl err]. unfold answer_valid, is_int64. cbn [Endpoints TargetPort ClusterIPs TTLSeconds Error]. intros (H1 & H2 & H3 & H4 & H5).
  apply (unmarshal_print _ _ 2); [apply answer_wf|done|]. unfold answer_members, omit. cbn.
  repeat case_bool_decide; subst; cbn; carry_members.
Qed.

(** ** Texts *)

Lemma answer_text_cut a p : p `prefix_of` answer_text a -> p <> answer_text a -> unmarshal_answer p = None.
Proof.
  intros [q E] Hne. unfold unmarshal_answer, unmarshal, Unmarshal.
  rewrite (parse_cut 2 (answer_members a) p q); [done|apply answer_wf|done|done|].
  intros ->. apply Hne. by rewrite E, app_nil_r.
Qed.

Lemma query_text_printable q : Forall (fun b => 32 <= b)%Z (query_text q).
Proof. by eapply print_printable, query_wf. Qed.
Lemma answer_text_printable a : Forall (fun b => 32 <= b)%Z (answer_text a).
Proof. by eapply print_printable, answer_wf. Qed.
