(* ===== verification/Resolver.v ===== *)
(** * The lazy service resolver (poc/agent/services.go)

    [resolveService] over the agent's own table of bootstrap VIPs and the
    watch caches (Services and EndpointSlices), [endpointsFor],
    [resolveServiceName], and the line protocol of [serveSvcConn]. The
    listers are functions of the state: what the informer caches return.
    Last, the instance of [ServiceSource] that the in-guest data plane
    ([ServiceLB]) is proved against. *)
From S2P Require Import Prelude GoStrings SvcProto.

(** ** The API objects the resolver reads *)

Record ServicePort := SPort { sp_Name : string; sp_Port : Z; sp_Protocol : string }.
Record Service := Svc {
  svc_Namespace : string; svc_Name : string;
  svc_ClusterIP : string; svc_ClusterIPs : list string;
  svc_Ports : list ServicePort
}.
(** Optional API fields are options. *)
Record EndpointPort := EPort { ep_Name : option string; ep_Protocol : option string; ep_Port : option Z }.
Record Endpoint := Ep { ep_Ready : option bool; ep_Addresses : list string }.
Record EndpointSlice := Slice {
  sl_AddressType : string; sl_Ports : list EndpointPort; sl_Endpoints : list Endpoint
}.

(** The part of a [podVM] the resolver reads. *)
Record backendVM := BackendVM { bv_ip : string; bv_stopping : bool }.

(** What the resolver sees of the agent. *)
Record view := View {
  v_staticVIPs : gmap string backendVM;
  v_client : bool;                       (* [a.cs() != nil] *)
  v_synced : bool;                       (* [a.cachesSynced] *)
  v_services : string + list Service;                      (* [svcLister.List]: error or list *)
  v_getService : string -> string -> string + Service;     (* [Services(ns).Get(name)] *)
  v_slices : string -> string -> string + list EndpointSlice (* the slices labelled with the service *)
}.

(** Errors of the listers have a message. *)
Definition view_ok (v : view) : Prop :=
  v_services v <> inl "" /\ (forall ns n, v_getService v ns n <> inl "") /\ (forall ns n, v_slices v ns n <> inl "").

Definition errAnswer (e : string) (ttl : Z) : svcAnswer := SvcAnswer [] 0 [] ttl e.

(** ** Operations *)

Definition clusterIPMatches (svc : Service) (vip : string) : bool :=
  bool_decide (svc_ClusterIP svc = vip) || bool_decide (vip ∈ svc_ClusterIPs svc).

(** The name of the first port of the service that matches. *)
Definition match_port (ports : list ServicePort) (port : Z) (proto : string) : option string :=
  (fun x : nat * ServicePort => sp_Name x.2) <$> list_find (fun p =>
    sp_Port p = port /\ (sp_Protocol p = proto \/ sp_Protocol p = "")) ports.

(** [strings.EqualFold] on ASCII. *)
Definition EqualFold (s t : string) : bool := String.eqb (ToLower s) (ToLower t).

(** A slice port the search stops at: the name (nil is "") is the port's
    name, and the protocol, when set, is the flow's. *)
Definition port_matches (portName proto : string) (p : EndpointPort) : bool :=
  bool_decide (default "" (ep_Name p) = portName) &&
  match ep_Protocol p with Some pr => EqualFold pr proto | None => true end.

(** The resolved port number in one slice: 0 when there is none. *)
Fixpoint slice_port (portName proto : string) (ports : list EndpointPort) : Z :=
  match ports with
  | [] => 0
  | p :: ports' =>
      if port_matches portName proto p then default 0%Z (ep_Port p) else slice_port portName proto ports'
  end.

(** The addresses one slice contributes. *)
Definition slice_addrs (sl : EndpointSlice) : list string :=
  omap (fun ep => if bool_decide (ep_Ready ep = Some false) then None else head (ep_Addresses ep)) (sl_Endpoints sl).

(** The loop of [endpointsFor] over the slices. *)
Fixpoint endpoints_loop (portName proto : string) (slices : list EndpointSlice) (eps : list string) (targetPort : Z)
  : list string * Z :=
  match slices with
  | [] => (eps, targetPort)
  | sl :: slices' =>
      if bool_decide (sl_AddressType sl <> "IPv6") then endpoints_loop portName proto slices' eps targetPort
      else
        let slicePort := slice_port portName proto (sl_Ports sl) in
        if bool_decide (slicePort = 0%Z) then endpoints_loop portName proto slices' eps targetPort
        else endpoints_loop portName proto slices' (eps ++ slice_addrs sl) slicePort
  end.

Definition endpointsFor (v : view) (svc : Service) (portName proto : string) : string + (list string * Z) :=
  match v_slices v (svc_Namespace svc) (svc_Name svc) with
  | inl e => inl e
  | inr slices =>
      let '(eps, targetPort) := endpoints_loop portName proto slices [] 0 in
      if bool_decide (targetPort = 0%Z) then
        inl ("no endpointslice yet for " +:+ svc_Namespace svc +:+ "/" +:+ svc_Name svc +:+ " port " +:+ portName)
      else inr (eps, targetPort)
  end.

Definition resolveServiceName (v : view) (q : svcQuery) : svcAnswer :=
  let ns := if bool_decide (q_Namespace q = "") then "default" else q_Namespace q in
  match v_getService v ns (q_Name q) with
  | inr svc =>
      let ips := svc_ClusterIPs svc in
      let ips := if bool_decide (ips = [] /\ svc_ClusterIP svc <> "" /\ svc_ClusterIP svc <> "None")
                 then [svc_ClusterIP svc] else ips in
      SvcAnswer [] 0 ips 5 ""
  | inl e => errAnswer e 5
  end.

(** The protocol the service ports are compared with. *)
Definition query_proto (q : svcQuery) : string :=
  if bool_decide (ToUpper (q_Proto q) = "") then "TCP" else ToUpper (q_Proto q).

(** The loop over the services: the first one that has the VIP decides. *)
Fixpoint service_loop (v : view) (q : svcQuery) (svcs : list Service) : svcAnswer :=
  match svcs with
  | [] => errAnswer ("no service with ClusterIP " +:+ q_VIP q) 0
  | svc :: svcs' =>
      if negb (clusterIPMatches svc (q_VIP q)) then service_loop v q svcs'
      else
        match match_port (svc_Ports svc) (q_Port q) (query_proto q) with
        | None => errAnswer "no matching service port" 0
        | Some portName =>
            match endpointsFor v svc portName (query_proto q) with
            | inr (eps, targetPort) =>
                SvcAnswer eps targetPort [] (if bool_decide (eps = []) then 5 else 30)%Z ""
            | inl e => errAnswer e 1
            end
        end
  end.

(** The part after the bootstrap VIPs. *)
Definition resolve_cached (v : view) (q : svcQuery) : svcAnswer :=
  if negb (v_client v) then errAnswer "apiserver not available yet" 1
  else if negb (v_synced v) then errAnswer "watch caches not synced yet" 1
  else if bool_decide (q_Name q <> "") then resolveServiceName v q
  else
    match v_services v with
    | inr svcs => service_loop v q svcs
    | inl e => errAnswer e 0
    end.

Definition static_backend (v : view) (q : svcQuery) : option backendVM :=
  if bool_decide (q_VIP q <> "") then v_staticVIPs v !! q_VIP q else None.

Definition resolveService (v : view) (q : svcQuery) : svcAnswer :=
  match static_backend v q with
  | Some vm =>
      if bool_decide (bv_ip vm = "") || bv_stopping vm
      then errAnswer "bootstrap VIP backend not ready" 1
      else SvcAnswer [bv_ip vm] (q_Port q) [] 5 ""
  | None => resolve_cached v q
  end.

(** [serveSvcConn]: one answer per line; [decode] is [json.Unmarshal] into a
    fresh query. *)
Definition serveSvcConn (decode : bytes -> string + svcQuery) (v : view) (lines : list bytes) : list svcAnswer :=
  (fun line => match decode line with
               | inr q => resolveService v q
               | inl e => errAnswer ("bad query: " +:+ e) 0
               end) <$> lines.

(** ** Specification *)

(** A slice that carries the port: an IPv6 slice with a resolved number. *)
Definition carries (portName proto : string) (sl : EndpointSlice) (port : Z) : Prop :=
  sl_AddressType sl = "IPv6" /\ slice_port portName proto (sl_Ports sl) = port /\ port <> 0%Z.

(** The first address of an endpoint of the slice that is not unready. *)
Definition serves (sl : EndpointSlice) (addr : string) : Prop :=
  exists ep, ep ∈ sl_Endpoints sl /\ ep_Ready ep <> Some false /\ head (ep_Addresses ep) = Some addr.

(** The service the loop decides on: it has the VIP, and no earlier one. *)
Definition owner (v : view) (q : svcQuery) (svc : Service) : Prop :=
  exists pre post, v_services v = inr (pre ++ svc :: post) /\ clusterIPMatches svc (q_VIP q) = true /\
    Forall (fun s => clusterIPMatches s (q_VIP q) = false) pre.

(** What it means for an address and port to be a backend of a query: the
    ready bootstrap backend of the VIP with the port passed through, or a
    not-unready endpoint of a slice of the service that owns the VIP, with
    the number a slice of the service gives the matching service port. *)
Definition backend_of (v : view) (q : svcQuery) (b : string * Z) : Prop :=
  (exists vm, q_VIP q <> "" /\ v_staticVIPs v !! q_VIP q = Some vm /\
     bv_ip vm <> "" /\ bv_stopping vm = false /\ b = (bv_ip vm, q_Port q)) \/
  (exists svc portName slices sl sl',
     owner v q svc /\
     match_port (svc_Ports svc) (q_Port q) (query_proto q) = Some portName /\
     v_slices v (svc_Namespace svc) (svc_Name svc) = inr slices /\
     sl ∈ slices /\ (exists p, carries portName (query_proto q) sl p) /\ serves sl b.1 /\
     sl' ∈ slices /\ carries portName (query_proto q) sl' b.2).

(** All slices that carry the port agree on its number. *)
Definition ports_agree (portName proto : string) (slices : list EndpointSlice) : Prop :=
  forall s1 s2 p1 p2, s1 ∈ slices -> s2 ∈ slices -> carries portName proto s1 p1 -> carries portName proto s2 p2 -> p1 = p2.

(** ** Lemmas *)

#[local] Instance carries_dec portName proto sl : Decision (exists p, carries portName proto sl p).
Proof.
  destruct (decide (sl_AddressType sl = "IPv6" /\ slice_port portName proto (sl_Ports sl) <> 0%Z)) as [[H1 H2]|H].
  - left. by exists (slice_port portName proto (sl_Ports sl)).
  - right. intros (p & H1 & H2 & H3). apply H. by rewrite H2.
Defined.

Lemma slice_addrs_spec sl addr : addr ∈ slice_addrs sl <-> serves sl addr.
Proof.
  unfold slice_addrs, serves. rewrite list_elem_of_omap. split; intros (ep & Hin & H).
  - exists ep. case_bool_decide; [done|]. done.
  - destruct H as [Hr Hh]. exists ep. by rewrite bool_decide_false.
Qed.

(** The loop collects the addresses of the carrying slices, in order, and
    keeps the number of the last one. *)
Lemma endpoints_loop_spec portName proto slices eps t :
  let good := filter (fun sl => exists p, carries portName proto sl p) slices in
  endpoints_loop portName proto slices eps t =
  (eps ++ concat (slice_addrs <$> good),
   from_option (fun sl => slice_port portName proto (sl_Ports sl)) t (last good)).
Proof.
  revert eps t. induction slices as [|sl slices IH]; intros eps t; cbn zeta; [by rewrite app_nil_r|].
  cbn [endpoints_loop]. rewrite filter_cons.
  case_bool_decide as Ht.
  { rewrite decide_False by (intros (p & ? & _); done). apply IH. }
  case_bool_decide as Hp.
  { rewrite decide_False by (intros (p & ? & ? & ?); congruence). apply IH. }
  rewrite decide_True by (by exists (slice_port portName proto (sl_Ports sl))).
  rewrite IH. cbn [fmap list_fmap concat]. rewrite <-app_assoc. f_equal.
  destruct (filter _ slices) as [|x l] eqn:E; [done|]. rewrite last_cons_cons.
  destruct (last (x :: l)) eqn:El; [done|]. by apply last_None in El.
Qed.

Lemma endpointsFor_ok v svc portName proto eps port :
  endpointsFor v svc portName proto = inr (eps, port) ->
  exists slices, v_slices v (svc_Namespace svc) (svc_Name svc) = inr slices /\ port <> 0%Z /\
    (exists sl', sl' ∈ slices /\ carries portName proto sl' port) /\
    forall addr, addr ∈ eps <-> exists sl, sl ∈ slices /\ (exists p, carries portName proto sl p) /\ serves sl addr.
Proof.
  unfold endpointsFor. destruct (v_slices v _ _) as [e|slices]; [done|]. intros H. exists slices. split; [done|].
  rewrite endpoints_loop_spec in H. set (good := filter _ slices) in *. rewrite app_nil_l in H.
  case_bool_decide as Hp; [done|]. injection H as <- Hport. subst port. split; [done|]. split.
  - destruct (last good) as [sl'|] eqn:Hl; [|done]. cbn in *. exists sl'.
    apply last_Some_elem_of in Hl. apply list_elem_of_filter in Hl as [(p & H1 & H2 & H3) Hin]. done.
  - intros addr. rewrite list_elem_of_In, in_concat. split.
    + intros (l & Hl & Ha). apply list_elem_of_In, list_elem_of_fmap in Hl as (sl & -> & Hsl).
      apply list_elem_of_In, slice_addrs_spec in Ha. apply list_elem_of_filter in Hsl as [Hc Hin]. by exists sl.
    + intros (sl & Hin & Hc & Hs). exists (slice_addrs sl). rewrite <-!list_elem_of_In, slice_addrs_spec.
      split; [|done]. apply list_elem_of_fmap. exists sl. split; [done|]. by apply list_elem_of_filter.
Qed.

Lemma endpointsFor_err v svc portName proto : view_ok v -> endpointsFor v svc portName proto <> inl "".
Proof.
  intros (_ & _ & Hs). unfold endpointsFor. destruct (v_slices v _ _) as [e|slices] eqn:E.
  - intros [= ->]. by eapply Hs.
  - destruct (endpoints_loop _ _ _ _ _). by case_bool_decide.
Qed.

(** What the loop over the services returns without an error. *)
Lemma service_loop_ok v q svcs :
  view_ok v -> Error (service_loop v q svcs) = "" ->
  exists pre svc post portName eps port, svcs = pre ++ svc :: post /\
    Forall (fun s => clusterIPMatches s (q_VIP q) = false) pre /\ clusterIPMatches svc (q_VIP q) = true /\
    match_port (svc_Ports svc) (q_Port q) (query_proto q) = Some portName /\
    endpointsFor v svc portName (query_proto q) = inr (eps, port) /\
    service_loop v q svcs = SvcAnswer eps port [] (if bool_decide (eps = []) then 5 else 30)%Z "".
Proof.
  intros Hv He. induction svcs as [|svc svcs IH]; [done|]. cbn [service_loop] in *.
  destruct (clusterIPMatches svc (q_VIP q)) eqn:Hm; cbn [negb] in *.
  - destruct (match_port _ _ _) as [portName|] eqn:Hp; [|done].
    destruct (endpointsFor v svc portName (query_proto q)) as [e|[eps port]] eqn:Hep.
    + cbn in He. subst e. by apply endpointsFor_err in Hep.
    + exists [], svc, svcs, portName, eps, port. split_and!; done.
  - destruct (IH He) as (pre & s & post & pn & eps & port & -> & Hpre & H). exists (svc :: pre), s, post, pn, eps, port.
    split; [done|]. split; [by constructor|done].
Qed.

(** Every endpoint of an answer without an error is a backend. *)
Lemma resolveService_backends v q :
  view_ok v -> Error (resolveService v q) = "" ->
  Forall (fun addr => backend_of v q (addr, TargetPort (resolveService v q))) (Endpoints (resolveService v q)).
Proof.
  intros Hv. unfold resolveService. destruct (static_backend v q) as [vm|] eqn:Hs.
  - destruct (bool_decide (bv_ip vm = "") || bv_stopping vm) eqn:Hb; [done|]. intros _.
    apply orb_false_iff in Hb as [Hip%bool_decide_eq_false Hst]. constructor; [|done]. left. exists vm.
    unfold static_backend in Hs. case_bool_decide; done.
  - unfold resolve_cached. destruct (v_client v); cbn [negb]; [|done]. destruct (v_synced v); cbn [negb]; [|done].
    case_bool_decide.
    { unfold resolveServiceName. destruct (v_getService v _ _); constructor. }
    destruct (v_services v) as [e|svcs] eqn:Hsvcs; [by constructor|]. intros He.
    destruct (service_loop_ok v q svcs Hv He) as (pre & svc & post & pn & eps & port & -> & Hpre & Hm & Hp & Hep & ->).
    apply endpointsFor_ok in Hep as (slices & Hsl & Hport & (sl' & Hin' & Hc') & Heps).
    apply Forall_forall. intros addr Ha. right. cbn in Ha. apply Heps in Ha as (sl & Hin & Hc & Hserv).
    exists svc, pn, slices, sl, sl'. split_and!; try done. by exists pre, post.
Qed.

(** The resolver as a source for the in-guest data plane. *)
#[program] Definition resolver_source (v : view) (Hv : view_ok v) : ServiceSource := {|
  answer q := Ok (resolveService v q);
  backend := backend_of v
|}.
Next Obligation. intros v Hv q a [= <-] He. by apply resolveService_backends. Qed.

(** ** Theorems *)

(** C6 The resolver answers exactly the ready backends: for a query of a
    ClusterIP without a bootstrap backend, once the caches are synced, the
    answer of the service that owns the address lists precisely the first
    addresses of the not-unready endpoints of its IPv6 slices that carry the
    service port; and when those slices agree on the port number, every one
    of them is answered with its own slice's number. *)
Theorem resolve_exact v q pre svc post portName slices :
  view_ok v -> static_backend v q = None -> v_client v = true -> v_synced v = true -> q_Name q = "" ->
  v_services v = inr (pre ++ svc :: post) -> Forall (fun s => clusterIPMatches s (q_VIP q) = false) pre ->
  clusterIPMatches svc (q_VIP q) = true ->
  match_port (svc_Ports svc) (q_Port q) (query_proto q) = Some portName ->
  v_slices v (svc_Namespace svc) (svc_Name svc) = inr slices ->
  ((exists sl p, sl ∈ slices /\ carries portName (query_proto q) sl p) ->
   Error (resolveService v q) = "" /\
   (forall addr, addr ∈ Endpoints (resolveService v q) <->
      exists sl p, sl ∈ slices /\ carries portName (query_proto q) sl p /\ serves sl addr) /\
   (ports_agree portName (query_proto q) slices ->
    forall sl p, sl ∈ slices -> carries portName (query_proto q) sl p -> TargetPort (resolveService v q) = p)) /\
  ((forall sl p, sl ∈ slices -> ~ carries portName (query_proto q) sl p) ->
   Error (resolveService v q) <> "" /\ Endpoints (resolveService v q) = [] /\ TTLSeconds (resolveService v q) = 1%Z).
Proof.
  intros Hv Hst Hc Hsy Hn Hsvcs Hpre Hm Hp Hsl.
  assert (resolveService v q = match endpointsFor v svc portName (query_proto q) with
    | inr (eps, t) => SvcAnswer eps t [] (if bool_decide (eps = []) then 5 else 30)%Z ""
    | inl e => errAnswer e 1 end) as Hr.
  { unfold resolveService, resolve_cached. rewrite Hst, Hc, Hsy, Hsvcs, bool_decide_false by (intros Hx; congruence).
    cbn [negb]. clear Hsvcs. induction Hpre as [|s pre Hs _ IH]; cbn [app service_loop]; [by rewrite Hm, Hp|].
    rewrite Hs. apply IH. }
  rewrite Hr. split.
  - intros (sl0 & p0 & Hin0 & Hc0).
    destruct (endpointsFor v svc portName (query_proto q)) as [e|[eps t]] eqn:Hep.
    + exfalso. unfold endpointsFor in Hep. rewrite Hsl, endpoints_loop_spec in Hep.
      set (good := filter _ slices) in *. assert (sl0 ∈ good) as Hg by (apply list_elem_of_filter; eauto).
      case_bool_decide as Ht; [|done]. destruct (last good) as [x|] eqn:Hl.
      * apply last_Some_elem_of, list_elem_of_filter in Hl as [(p & H1 & H2 & H3) _]. cbn in Ht. congruence.
      * apply last_None in Hl. rewrite Hl in Hg. set_solver.
    + apply endpointsFor_ok in Hep as (sls & Hsls & Ht & (sl' & Hin' & Hc') & Heps). rewrite Hsl in Hsls.
      injection Hsls as <-. cbn. split; [done|]. split.
      * intros addr. rewrite Heps. naive_solver.
      * intros Hag sl p Hin Hcp. exact (Hag sl' sl t p Hin' Hin Hc' Hcp).
  - intros Hnone. destruct (endpointsFor v svc portName (query_proto q)) as [e|[eps t]] eqn:Hep.
    + cbn. split; [|done]. intros ->. by apply endpointsFor_err in Hep.
    + apply endpointsFor_ok in Hep as (sls & Hsls & Ht & (sl' & Hin' & Hc') & _). rewrite Hsl in Hsls.
      injection Hsls as <-. by apply Hnone in Hc'.
Qed.

(** *** Witness *)

Definition ex_slice (port : Z) (addr : string) : EndpointSlice :=
  Slice "IPv6" [EPort (Some "http") (Some "TCP") (Some port)]
    [Ep (Some true) [addr]; Ep (Some false) ["unready"]; Ep None []].
Definition ex_svc : Service := Svc "ns" "web" "vip" ["vip"] [SPort "http" 80 "TCP"].
Definition ex_view (slices : list EndpointSlice) : view :=
  View ∅ true true (inr [ex_svc]) (fun _ _ => inr ex_svc) (fun _ _ => inr slices).
Definition ex_query : svcQuery := SvcQuery "vip" 80 "tcp" "" "".

Lemma ex_view_ok slices : view_ok (ex_view slices).
Proof. by split_and!. Qed.

Lemma resolve_exact_witness :
  let v := ex_view [ex_slice 8080 "a"; ex_slice 8080 "b"] in
  (Error (resolveService v ex_query) = "" /\
   Endpoints (resolveService v ex_query) = ["a"; "b"]) /\
  (forall addr, addr ∈ Endpoints (resolveService v ex_query) <->
      exists sl p, sl ∈ [ex_slice 8080 "a"; ex_slice 8080 "b"] /\ carries "http" (query_proto ex_query) sl p /\ serves sl addr).
Proof.
  split; [by vm_compute|].
  destruct (resolve_exact (ex_view [ex_slice 8080 "a"; ex_slice 8080 "b"]) ex_query [] ex_svc [] "http"
              [ex_slice 8080 "a"; ex_slice 8080 "b"]) as [H _];
    [apply ex_view_ok|reflexivity|reflexivity|reflexivity|reflexivity|reflexivity|constructor|reflexivity
    |reflexivity|reflexivity|].
  apply H. exists (ex_slice 8080 "a"), 8080%Z. split; [left|by vm_compute].
Defined.

(** Finding: the answer carries one target port for all slices, the last
    one's, so when the slices of a service resolve a (named) target port to
    different numbers, an endpoint is answered with another slice's number. *)
Theorem mixed_target_ports :
  let v := ex_view [ex_slice 8080 "a"; ex_slice 9090 "b"] in
  resolveService v ex_query = SvcAnswer ["a"; "b"] 9090 [] 30 "" /\
  serves (ex_slice 8080 "a") "a" /\ carries "http" "TCP" (ex_slice 8080 "a") 8080.
Proof.
  split; [vm_compute; reflexivity|]. split; [|by vm_compute].
  exists (Ep (Some true) ["a"]). split; [left|done].
Qed.
