(* ===== verification/NetIP.v ===== *)
(** * IP addresses and prefixes (net/netip, as the agent uses it)

    [ParseAddr], [ParsePrefix] and [Prefix.Contains] of Go's standard
    library. An address is its value, of 32 or 128 bits, and its zone. *)
From Stdlib Require Import Ascii.
From S2P Require Import Prelude GoStrings.
Local Open Scope Z_scope.

Record Addr := MkAddr { ad_is4 : bool; ad_val : Z; ad_zone : string }.
Record Prefix := MkPrefix { px_ip : Addr; px_bits : Z }.

Definition BitLen (a : Addr) : Z := if ad_is4 a then 32 else 128.
Definition Is6 (a : Addr) : bool := negb (ad_is4 a).

Definition digit (a : ascii) : option Z :=
  let b := byte_of_ascii a in if bool_decide (48 <= b <= 57) then Some (b - 48) else None.

Definition hex_digit (a : ascii) : option Z :=
  let b := byte_of_ascii a in
  if bool_decide (48 <= b <= 57) then Some (b - 48)
  else if bool_decide (97 <= b <= 102) then Some (b - 87)
  else if bool_decide (65 <= b <= 70) then Some (b - 55)
  else None.

(** A decimal octet: digits only, at least one, no leading zero, at most 255. *)
Fixpoint octet_go (val : Z) (digLen : nat) (s : string) : option Z :=
  match s with
  | EmptyString => if bool_decide (digLen = 0%nat) then None else Some val
  | String a s' =>
      d ← digit a;
      if bool_decide (digLen = 1%nat /\ val = 0) then None
      else let val := val * 10 + d in if bool_decide (val > 255) then None else octet_go val (S digLen) s'
  end.

(** [parseIPv4Fields]: exactly four octets. *)
Definition parseIPv4Fields (s : string) : option (list Z) :=
  l ← mapM (octet_go 0 0) (Split "." s);
  if bool_decide (length l = 4%nat) then Some l else None.

Definition bytes_value (l : list Z) : Z := foldl (fun v b => v * 256 + b) 0 l.

(** The longest prefix of hex digits: their value, how many, the rest. More
    than four digits are refused. *)
Fixpoint hex_group (acc : Z) (off : nat) (s : string) : option (Z * nat * string) :=
  match s with
  | String a s' =>
      match hex_digit a with
      | Some d => if bool_decide (3 < off)%nat then None else hex_group (acc * 16 + d) (S off) s'
      | None => Some (acc, off, s)
      end
  | EmptyString => Some (acc, off, s)
  end.

Definition has_dot_first (s : string) : bool := match s with String a _ => Ascii.eqb a "." | EmptyString => false end.

(** The loop of [parseIPv6]: [ip] are the bytes read, [ellipsis] where ["::"]
    was. It gives the bytes, the ellipsis and what is left of the text; [n]
    groups are left, so it runs at most eight times. *)
Fixpoint groups (n : nat) (ip : list Z) (ellipsis : option nat) (s : string) : option (list Z * option nat * string) :=
  match n with
  | O => Some (ip, ellipsis, s)
  | S n' =>
      '(acc, off, rest) ← hex_group 0 0 s;
      if bool_decide (off = 0%nat) then None
      else if has_dot_first rest then
        if bool_decide (ellipsis = None /\ length ip <> 12%nat) then None
        else if bool_decide (16 < length ip + 4)%nat then None
        else l ← parseIPv4Fields s; Some (ip ++ l, ellipsis, "")
      else
        let ip := ip ++ [acc / 256; acc mod 256] in
        match rest with
        | EmptyString => Some (ip, ellipsis, "")
        | String c EmptyString => None
        | String c s1 =>
            if negb (Ascii.eqb c ":") then None
            else if HasPrefix s1 ":" then
              match ellipsis with
              | Some _ => None
              | None =>
                  let s2 := drop_string 1 s1 in
                  if bool_decide (s2 = "") then Some (ip, Some (length ip), "")
                  else groups n' ip (Some (length ip)) s2
              end
            else groups n' ip ellipsis s1
        end
  end.

Definition parseIPv6 (text : string) : option Addr :=
  let '(s, zone, found) := Cut "%" text in
  if found && bool_decide (zone = "") then None
  else
    let ell := HasPrefix s "::" in
    let s := if ell then drop_string 2 s else s in
    if ell && bool_decide (s = "") then Some (MkAddr false 0 zone)
    else
      '(ip, ellipsis, rest) ← groups 8 [] (if ell then Some 0%nat else None) s;
      if negb (bool_decide (rest = "")) then None
      else if bool_decide (length ip < 16)%nat then
        match ellipsis with
        | None => None
        | Some e => Some (MkAddr false (bytes_value (take e ip ++ replicate (16 - length ip) 0 ++ drop e ip)) zone)
        end
      else match ellipsis with
           | Some _ => None
           | None => Some (MkAddr false (bytes_value ip) zone)
           end.

(** The first of [.], [:] and [%] decides. *)
Fixpoint family (s : string) : option ascii :=
  match s with
  | String a s' => if Ascii.eqb a "." || Ascii.eqb a ":" || Ascii.eqb a "%" then Some a else family s'
  | EmptyString => None
  end.

Definition ParseAddr (s : string) : option Addr :=
  match family s with
  | Some "."%char => l ← parseIPv4Fields s; Some (MkAddr true (bytes_value l) "")
  | Some ":"%char => parseIPv6 s
  | _ => None
  end.

(** The bits of a prefix: no sign and no leading zero. *)
Fixpoint decimal_go (val : Z) (s : string) : option Z :=
  match s with
  | EmptyString => Some val
  | String a s' => d ← digit a; decimal_go (val * 10 + d) s'
  end.

Definition prefix_bits (s : string) : option Z :=
  match s with
  | EmptyString => None
  | String a (String _ _) => if Ascii.eqb a "0" then None else decimal_go 0 s
  | _ => decimal_go 0 s
  end.

Definition ParsePrefix (s : string) : option Prefix :=
  match reverse (Split slash s) with
  | bitsStr :: rest =>
      if bool_decide (rest = []) then None
      else
        ip ← ParseAddr (Join slash (reverse rest));
        if bool_decide (ad_zone ip <> "") then None
        else bits ← prefix_bits bitsStr;
             if bool_decide (bits > BitLen ip) then None else Some (MkPrefix ip bits)
  | [] => None
  end.

Definition Contains (p : Prefix) (a : Addr) : bool :=
  bool_decide (ad_zone a = "") && Bool.eqb (ad_is4 a) (ad_is4 (px_ip p)) &&
  bool_decide (Z.shiftr (Z.lxor (ad_val a) (ad_val (px_ip p))) (BitLen a - px_bits p) = 0).

Example parse_examples :
  ParseAddr "fd00:10:96::a" = Some (MkAddr false 0xfd00001000960000000000000000000a "") /\
  ParseAddr "::" = Some (MkAddr false 0 "") /\ ParseAddr "::ffff:10.0.0.1%eth0" = Some (MkAddr false 0xffff0a000001 "eth0") /\
  ParseAddr "1:2:3:4:5:6:7:8" = Some (MkAddr false 0x00010002000300040005000600070008 "") /\
  ParseAddr "10.1.2.3" = Some (MkAddr true 0x0a010203 "") /\
  ParseAddr "10.01.2.3" = None /\ ParseAddr "1::2::3" = None /\ ParseAddr "12345::" = None /\
  ParseAddr "1:2:3:4:5:6:7::8" = None /\ ParseAddr "fe80::1%" = None /\ ParseAddr "1:2:3:" = None /\ ParseAddr "web" = None.
Proof. vm_compute. repeat split. Qed.

Example contains_examples :
  (p ← ParsePrefix "fd00:10:96::/112"; a ← ParseAddr "fd00:10:96::ffff"; Some (Contains p a)) = Some true /\
  (p ← ParsePrefix "fd00:10:96::/112"; a ← ParseAddr "fd00:10:96::1:0"; Some (Contains p a)) = Some false /\
  ParsePrefix "fd00::/129" = None /\ ParsePrefix "fd00::/064" = None.
Proof. vm_compute. repeat split. Qed.

(** An address is in a prefix exactly when it shares the prefix's leading bits. *)
Lemma Contains_spec p a :
  0 <= ad_val a -> 0 <= ad_val (px_ip p) -> 0 <= px_bits p <= BitLen a ->
  Contains p a = true <->
  ad_zone a = "" /\ ad_is4 a = ad_is4 (px_ip p) /\
  ad_val a / 2 ^ (BitLen a - px_bits p) = ad_val (px_ip p) / 2 ^ (BitLen a - px_bits p).
Proof.
  intros Ha Hp Hb. unfold Contains. rewrite !andb_true_iff, !bool_decide_eq_true, Bool.eqb_true_iff.
  rewrite Z.shiftr_lxor, Z.lxor_eq_0_iff, !Z.shiftr_div_pow2 by lia. tauto.
Qed.
