(* ===== verification/NetCIDR.v ===== *)
(** * Addresses and networks as package net has them (Go's standard library,
      as poc/execd/net.go, services.go and dns.go use it)

    [ParseIP], [ParseCIDR], [CIDRMask], [IP.Mask] and [IsGlobalUnicast] on
    top of [NetIP]'s parser, and the fact the service addresses rest on: the
    agent, which reads the service CIDR as a [netip.Prefix], and the guest,
    which reads it as a [net.IPNet] and compares masked bytes, mean the same
    set of addresses. *)
From Stdlib Require Import Ascii.
From S2P Require Import Prelude GoStrings NetIP.

(** The 16 bytes of an address; 4-byte addresses are mapped. *)
Definition v4_prefix : bytes := replicate 10 0%Z ++ [255; 255]%Z.
Definition As16 (a : Addr) : bytes := if ad_is4 a then v4_prefix ++ be_bytes 4 (ad_val a) else be_bytes 16 (ad_val a).

Definition ParseIP (s : string) : option bytes :=
  a ← ParseAddr s; if bool_decide (ad_zone a = "") then Some (As16 a) else None.

(** [IP.To4] *)
Definition To4 (ip : bytes) : option bytes :=
  if bool_decide (length ip = 4) then Some ip
  else if bool_decide (length ip = 16 /\ take 12 ip = v4_prefix) then Some (drop 12 ip) else None.

(** [CIDRMask]: [l] bytes, the first [n] bits set. *)
Fixpoint CIDRMask (n : Z) (l : nat) : bytes :=
  match l with
  | O => []
  | S l' => if bool_decide (8 <= n)%Z then 255%Z :: CIDRMask (n - 8) l' else (255 - Z.shiftr 255 n)%Z :: CIDRMask 0 l'
  end.

(** [IP.Mask], for masks of the address's family. *)
Definition Mask (ip mask : bytes) : bytes :=
  let ip := if bool_decide (length mask = 4 /\ length ip = 16 /\ take 12 ip = v4_prefix) then drop 12 ip else ip in
  zip_with Z.land ip mask.

(** [dtoi] of a whole text: digits only, below 0xFFFFFF. *)
Fixpoint dtoi (n : Z) (s : string) : option Z :=
  match s with
  | EmptyString => Some n
  | String a s' => d ← digit a; let n := (n * 10 + d)%Z in if bool_decide (0xFFFFFF <= n)%Z then None else dtoi n s'
  end.

(** [ParseCIDR]: the network's address and mask. *)
Definition ParseCIDR (s : string) : option (bytes * bytes) :=
  let '(addr, mask, found) := Cut slash s in
  if negb found then None
  else
    a ← ParseAddr addr;
    if negb (bool_decide (ad_zone a = "")) || bool_decide (mask = "") then None
    else
      n ← dtoi 0 mask;
      if bool_decide (BitLen a < n)%Z then None
      else let m := CIDRMask n (if ad_is4 a then 4 else 16) in Some (Mask (As16 a) m, m).

(** [IsGlobalUnicast], its exclusions of 16-byte addresses with [To4]'s. *)
Definition IsGlobalUnicast (ip : bytes) : bool :=
  match To4 ip with
  | Some [a; b; c; d] =>
      negb (bool_decide ([a; b; c; d] = [255; 255; 255; 255]%Z)) && negb (bool_decide ([a; b; c; d] = [0; 0; 0; 0]%Z)) &&
      negb (bool_decide (a = 127%Z)) && negb (bool_decide (Z.land a 240 = 224%Z)) && negb (bool_decide (a = 169%Z /\ b = 254%Z))
  | _ =>
      bool_decide (length ip = 16) && negb (bool_decide (ip = replicate 16 0%Z)) && negb (bool_decide (ip = replicate 15 0%Z ++ [1%Z])) &&
      match ip with a :: b :: _ => negb (bool_decide (a = 255%Z)) && negb (bool_decide (a = 254%Z /\ Z.land b 192 = 128%Z)) | _ => false end
  end.

Example parse_cidr_examples :
  ParseCIDR "fd00:10:96::/112" = Some (be_bytes 16 0xfd00001000960000000000000000_0000, replicate 14 255%Z ++ [0; 0]%Z) /\
  ParseCIDR "fd00::1" = None /\ ParseCIDR "fd00::/129" = None /\ ParseCIDR "fd00::/1/2" = None /\
  ParseCIDR "10.1.2.3/8" = Some ([10; 0; 0; 0]%Z, [255; 0; 0; 0]%Z) /\
  (ParseIP "::1" ≫= fun ip => Some (IsGlobalUnicast ip)) = Some false /\ (ParseIP "fe80::1" ≫= fun ip => Some (IsGlobalUnicast ip)) = Some false /\
  (ParseIP "fd00::1" ≫= fun ip => Some (IsGlobalUnicast ip)) = Some true /\ (ParseIP "10.0.0.1" ≫= fun ip => Some (IsGlobalUnicast ip)) = Some true.
Proof. vm_compute. repeat split. Qed.

(** ** Masked bytes are leading bits *)

Lemma be_val_cons x l : be_val (x :: l) = (x * u8max ^ Z.of_nat (length l) + be_val l)%Z.
Proof.
  unfold be_val. rewrite reverse_cons. rewrite <-(length_reverse l). generalize (reverse l). clear l. intros l.
  induction l as [|y l IH]; [cbn; lia|]. cbn [app le_val length]. rewrite IH, Nat2Z.inj_succ, Z.pow_succ_r by lia. lia.
Qed.

Lemma be_val_bound l : Forall is_byte l -> (0 <= be_val l < u8max ^ Z.of_nat (length l))%Z.
Proof. intros Hl. unfold be_val. rewrite <-(length_reverse l). apply le_val_range. by apply Forall_reverse. Qed.

(** One byte under a partial mask. *)
Lemma land_mask x n : is_byte x -> (0 <= n < 8)%Z -> Z.land x (255 - Z.shiftr 255 n) = (x / 2 ^ (8 - n) * 2 ^ (8 - n))%Z.
Proof.
  intros Hx Hn.
  set (ok := fun x => forallb (fun n => bool_decide (Z.land x (255 - Z.shiftr 255 n) = (x / 2 ^ (8 - n) * 2 ^ (8 - n))%Z)) (seqZ 0 8)).
  assert (forallb ok (seqZ 0 256) = true) as H by (vm_compute; reflexivity).
  rewrite forallb_forall in H. specialize (H x). unfold is_byte in Hx.
  assert (List.In x (seqZ 0 256)) as Hin by (apply list_elem_of_In, elem_of_seqZ; lia). specialize (H Hin). unfold ok in H.
  rewrite forallb_forall in H. specialize (H n). apply bool_decide_eq_true in H; [done|]. apply list_elem_of_In, elem_of_seqZ. lia.
Qed.

Lemma zip_land_zero a n : zip_with Z.land a (CIDRMask 0 n) = zip_with (fun _ _ => 0%Z) a (CIDRMask 0 n).
Proof.
  revert n. induction a as [|x a IH]; intros [|n]; [done..|]. cbn [CIDRMask]. rewrite bool_decide_false by lia. cbn [zip_with].
  rewrite IH. f_equal. change (255 - Z.shiftr 255 0)%Z with 0%Z. by rewrite Z.land_0_r.
Qed.

Lemma length_CIDRMask n l : length (CIDRMask n l) = l.
Proof. revert n. induction l as [|l IH]; intros n; cbn; [done|]. case_bool_decide; cbn; by rewrite IH. Qed.

Lemma zip_const {A B} (a b : list A) (m : list B) : length a = length b -> zip_with (fun _ _ => 0%Z) a m = zip_with (fun _ _ => 0%Z) b m.
Proof. revert b m. induction a as [|x a IH]; intros [|y b] [|z m] H; try done. cbn. f_equal. apply IH. by injection H. Qed.

(** Two addresses agree under the mask exactly when their leading bits do. *)
Lemma masked_bits a b n :
  Forall is_byte a -> Forall is_byte b -> length a = length b -> (0 <= n <= 8 * Z.of_nat (length a))%Z ->
  zip_with Z.land a (CIDRMask n (length a)) = zip_with Z.land b (CIDRMask n (length a)) <->
  (be_val a / 2 ^ (8 * Z.of_nat (length a) - n) = be_val b / 2 ^ (8 * Z.of_nat (length a) - n))%Z.
Proof.
  intros Ha. revert b n. induction Ha as [|x a Hx Ha IH]; intros [|y b] n Hb Hl Hn; try done.
  apply Forall_cons in Hb as [Hy Hb]. injection Hl as Hl. cbn [length CIDRMask] in *.
  assert (u8max ^ Z.of_nat (length a) = 2 ^ (8 * Z.of_nat (length a)))%Z as Hpow by (rewrite Z.pow_mul_r by lia; done).
  pose proof (be_val_bound _ Ha) as Ba. pose proof (be_val_bound _ Hb) as Bb. rewrite <-Hl in Bb. rewrite !be_val_cons, <-Hl, Hpow. rewrite Hpow in Ba, Bb.
  set (k := (8 * Z.of_nat (length a))%Z) in *. case_bool_decide as H8; cbn [zip_with].
  - assert (Z.land x 255 = x /\ Z.land y 255 = y) as [Ex Ey].
    { change 255%Z with (Z.ones 8). unfold is_byte in *. rewrite !Z.land_ones by lia. rewrite !Z.mod_small by lia. done. }
    rewrite Ex, Ey. specialize (IH b (n - 8)%Z Hb Hl ltac:(lia)).
    replace (k - (n - 8))%Z with (k + 8 - n)%Z in IH by lia.
    replace (8 * Z.of_nat (S (length a)) - n)%Z with (k + 8 - n)%Z by lia.
    set (d := (k + 8 - n)%Z) in *. assert (0 <= d <= k)%Z as Hd by lia.
    assert (2 ^ k = 2 ^ (k - d) * 2 ^ d)%Z as Hk by (rewrite <-Z.pow_add_r by lia; f_equal; lia).
    assert (0 < 2 ^ d)%Z by (by apply Z.pow_pos_nonneg; lia).
    assert (0 < 2 ^ (k - d))%Z by (by apply Z.pow_pos_nonneg; lia).
    assert (forall u v, 0 <= v < 2 ^ k -> (u * 2 ^ k + v) / 2 ^ d = u * 2 ^ (k - d) + v / 2 ^ d /\ 0 <= v / 2 ^ d < 2 ^ (k - d))%Z as Hdiv.
    { intros u v Hv. split; [rewrite Hk, Z.mul_assoc, Z.div_add_l by lia; done|]. split; [apply Z.div_pos; lia|].
      apply Z.div_lt_upper_bound; [lia|]. rewrite Z.mul_comm, <-Hk. lia. }
    destruct (Hdiv x _ Ba) as [-> Ra]. destruct (Hdiv y _ Bb) as [-> Rb]. split.
    + intros [= -> E]. f_equal. by apply IH.
    + intros E. assert (x = y) as -> by nia. f_equal. apply IH. lia.
  - rewrite !zip_land_zero, (zip_const a b) by done. rewrite !land_mask by (done || lia).
    replace (8 * Z.of_nat (S (length a)) - n)%Z with (k + (8 - n))%Z by lia.
    rewrite Z.pow_add_r by lia. assert (0 < 2 ^ k)%Z by (apply Z.pow_pos_nonneg; lia).
    assert (0 < 2 ^ (8 - n))%Z by (apply Z.pow_pos_nonneg; lia).
    rewrite <-!Z.div_div by lia. rewrite !Z.div_add_l by lia. rewrite !(Z.div_small (be_val _)) by lia. rewrite !Z.add_0_r.
    split; [intros [= E]; by apply Z.mul_reg_r in E; [|lia]|by intros ->].
Qed.

(** ** Parsed addresses are in range *)

Lemma digit_range a d : digit a = Some d -> (0 <= d <= 9)%Z.
Proof. unfold digit. case_bool_decide; [|done]. intros [= <-]. lia. Qed.

Lemma hex_digit_range a d : hex_digit a = Some d -> (0 <= d < 16)%Z.
Proof. unfold hex_digit. repeat case_bool_decide; intros [= <-]; lia. Qed.

Lemma octet_range s : forall val n v, (0 <= val <= 255)%Z -> octet_go val n s = Some v -> is_byte v.
Proof.
  induction s as [|a s IH]; intros val n v Hv; cbn [octet_go].
  - case_bool_decide; [done|]. intros [= <-]. unfold is_byte. lia.
  - destruct (digit a) as [d|] eqn:Hd; [|done]. apply digit_range in Hd. cbn [mbind option_bind]. case_bool_decide; [done|]. cbn zeta.
    case_bool_decide; [done|]. apply IH. lia.
Qed.

Lemma fields_range s l : parseIPv4Fields s = Some l -> length l = 4 /\ Forall is_byte l.
Proof.
  unfold parseIPv4Fields. destruct (mapM _ _) as [k|] eqn:E; [|done]. cbn [mbind option_bind]. case_bool_decide as H4; [|done]. intros [= <-].
  split; [done|]. apply mapM_Some_1 in E. clear H4. induction E as [|x y l k Hxy _ IH]; constructor; [|done]. by apply octet_range in Hxy; [|lia].
Qed.

Lemma hex_group_range s : forall acc off acc' off' r, (off <= 4)%nat -> (0 <= acc < 16 ^ Z.of_nat off)%Z -> hex_group acc off s = Some (acc', off', r) ->
  (0 <= acc' < 65536)%Z.
Proof.
  assert (forall acc off, (off <= 4)%nat -> (0 <= acc < 16 ^ Z.of_nat off)%Z -> (0 <= acc < 65536)%Z) as Hb.
  { intros acc off Ho Ha. pose proof (Z.pow_le_mono_r 16 (Z.of_nat off) 4 ltac:(lia) ltac:(lia)). lia. }
  induction s as [|a s IH]; intros acc off acc' off' r Ho Ha; cbn [hex_group]; [intros [= <- _ _]; by eapply Hb|].
  destruct (hex_digit a) as [d|] eqn:Hd; [|intros [= <- _ _]; by eapply Hb]. apply hex_digit_range in Hd. case_bool_decide; [done|].
  apply IH; [lia|]. rewrite Nat2Z.inj_succ, Z.pow_succ_r by lia. lia.
Qed.

Lemma groups_range n : forall ip ell s ip' ell' r,
  groups n ip ell s = Some (ip', ell', r) -> (length ip + 2 * n <= 16)%nat -> Forall is_byte ip -> (length ip' <= 16)%nat /\ Forall is_byte ip'.
Proof.
  induction n as [|n IH]; intros ip ell s ip' ell' r; cbn [groups]; [intros [= <- _ _]; split; [lia|done]|].
  destruct (hex_group 0 0 s) as [[[acc off] rest]|] eqn:Hh; [|done]. cbn [mbind option_bind]. case_bool_decide; [done|].
  apply hex_group_range in Hh; [|lia|cbn; lia]. destruct (has_dot_first rest).
  { case_bool_decide; [done|]. case_bool_decide; [done|]. destruct (parseIPv4Fields s) as [l|] eqn:El; [|done]. apply fields_range in El as [H4 Hl].
    cbn [mbind option_bind]. intros [= <- _ _] Hlen Hip. rewrite length_app. split; [lia|by apply Forall_app]. }
  intros Hg Hlen Hip.
  assert (Forall is_byte (ip ++ [acc / 256; acc mod 256]%Z)) as Hb.
  { apply Forall_app. split; [done|]. unfold is_byte. repeat constructor; Z.to_euclidean_division_equations; lia. }
  assert (length (ip ++ [acc / 256; acc mod 256]%Z) + 2 * n <= 16)%nat as Hl by (rewrite length_app; cbn; lia).
  assert ((length (ip ++ [acc / 256; acc mod 256]%Z) <= 16)%nat) by lia.
  destruct rest as [|c [|c1 s1]]; [by injection Hg as <- _ _|done|]. destruct (negb _); [done|]. destruct (HasPrefix _ _); [|by eapply IH].
  destruct ell; [done|]. case_bool_decide; [by injection Hg as <- _ _|by eapply IH].
Qed.

Lemma bytes_value_be l : bytes_value l = be_val l.
Proof.
  unfold bytes_value. enough (forall acc, foldl (fun v b => v * 256 + b)%Z acc l = (acc * u8max ^ Z.of_nat (length l) + be_val l)%Z) as H by (by rewrite H).
  induction l as [|x l IH]; intros acc; [change (be_val []) with 0%Z; cbn; lia|]. cbn [foldl]. rewrite IH, be_val_cons. cbn [length].
  rewrite Nat2Z.inj_succ, Z.pow_succ_r by lia. lia.
Qed.

Lemma parseIPv6_range s a : parseIPv6 s = Some a -> ad_is4 a = false /\ (0 <= ad_val a < 2 ^ 128)%Z.
Proof.
  unfold parseIPv6. destruct (Cut _ s) as [[t zone] found]. destruct (found && _); [done|]. cbn zeta.
  destruct (HasPrefix t "::" && _); [by intros [= <-]|].
  destruct (groups _ _ _ _) as [[[ip ell] rest]|] eqn:Hg; [|done]. cbn [mbind option_bind].
  apply groups_range in Hg as [Hl Hb]; [|cbn; lia|constructor]. destruct (negb _); [done|].
  assert (forall l, length l = 16 -> Forall is_byte l -> (0 <= bytes_value l < 2 ^ 128)%Z) as Hv.
  { intros l E Hf. rewrite bytes_value_be. pose proof (be_val_bound l Hf) as Hv. rewrite E in Hv. exact Hv. }
  case_bool_decide as H16; destruct ell as [e|]; try done; intros [= <-]; (split; [done|]); cbn [ad_val]; apply Hv.
  - rewrite !length_app, length_replicate, length_take, length_drop. lia.
  - apply Forall_app. split; [by apply Forall_take|]. apply Forall_app. split; [|by apply Forall_drop].
    apply Forall_replicate. unfold is_byte. lia.
  - lia.
  - done.
Qed.

Lemma ParseAddr_range s a : ParseAddr s = Some a -> (0 <= ad_val a < 2 ^ BitLen a)%Z.
Proof.
  unfold ParseAddr. destruct (family s) as [c|] eqn:Hc; [|done].
  assert (forall x : option Addr, (if Ascii.eqb c "." then l ← parseIPv4Fields s; Some (MkAddr true (bytes_value l) "") else if Ascii.eqb c ":" then parseIPv6 s else x) = Some a ->
    x = None -> (0 <= ad_val a < 2 ^ BitLen a)%Z) as H.
  { intros x Hx ->. destruct (Ascii.eqb c ".").
    - destruct (parseIPv4Fields s) as [l|] eqn:El; [|done]. apply fields_range in El as [H4 Hl]. injection Hx as <-. cbn [ad_val BitLen ad_is4].
      rewrite bytes_value_be. pose proof (be_val_bound l Hl) as Hb. rewrite H4 in Hb. exact Hb.
    - destruct (Ascii.eqb c ":"); [|done]. apply parseIPv6_range in Hx as [E Hx]. unfold BitLen. by rewrite E. }
  intros E. apply (H None); [|done]. by destruct c as [[] [] [] [] [] [] [] []].
Qed.

(** ** Both sides read the same network *)

Lemma Cut_found c s x y : Cut c s = (x, y, true) -> s = x +:+ String c y /\ no_char c x.
Proof.
  revert x. induction s as [|a s IH]; intros x; cbn [Cut]; [done|]. destruct (Ascii.eqb a c) eqn:Ha.
  - intros [= <- <-]. apply Ascii.eqb_eq in Ha as ->. split; [by rewrite str_app_nil_l|done].
  - destruct (Cut c s) as [[x' y'] f]. intros [= <- <- ->]. destruct (IH x' eq_refl) as [-> Hn]. split; [by rewrite str_app_cons|].
    cbn. by rewrite Ha, Hn.
Qed.

Lemma dtoi_digits s : forall v n, dtoi v s = Some n -> (0 <= v)%Z -> no_char slash s /\ decimal_go v s = Some n /\ (0 <= n)%Z.
Proof.
  induction s as [|a s IH]; intros v n; cbn [dtoi decimal_go has_char]; [by intros [= <-]|].
  destruct (digit a) as [d|] eqn:Hd; [|done]. cbn [mbind option_bind]. cbn zeta. case_bool_decide; [done|]. intros Hdt Hv.
  pose proof (digit_range _ _ Hd). apply IH in Hdt as (Hn & Hg & Hn0); [|lia]. split; [|done]. rewrite Hn, orb_false_r.
  destruct (Ascii.eqb a slash) eqn:E; [|done]. apply Ascii.eqb_eq in E as ->. done.
Qed.

Lemma prefix_and_cidr s p net m : ParsePrefix s = Some p -> ParseCIDR s = Some (net, m) ->
  m = CIDRMask (px_bits p) (if ad_is4 (px_ip p) then 4 else 16) /\ net = Mask (As16 (px_ip p)) m /\
  (0 <= px_bits p <= BitLen (px_ip p))%Z /\ (0 <= ad_val (px_ip p) < 2 ^ BitLen (px_ip p))%Z.
Proof.
  intros Hp Hc. unfold ParseCIDR in Hc. destruct (Cut slash s) as [[addr mask] found] eqn:Ecut. destruct found; [|done]. cbn [negb] in Hc.
  apply Cut_found in Ecut as [-> Hna]. destruct (ParseAddr addr) as [a|] eqn:Ea; [|done]. cbn [mbind option_bind] in Hc.
  destruct (negb _ || _) eqn:Ez; [done|]. destruct (dtoi 0 mask) as [n|] eqn:Ed; [|done]. cbn [mbind option_bind] in Hc.
  apply dtoi_digits in Ed as (Hnm & Hdec & Hn0); [|lia]. case_bool_decide as Hlen; [done|]. injection Hc as <- <-.
  unfold ParsePrefix in Hp. rewrite Split_app, Split_no_char in Hp by done. cbn [reverse rev_append] in Hp.
  change (reverse [addr; mask]) with [mask; addr] in Hp. cbn -[ParseAddr prefix_bits Join BitLen] in Hp.
  change (Join slash [addr]) with addr in Hp. rewrite Ea in Hp. cbn [mbind option_bind] in Hp.
  apply orb_false_iff in Ez as [Ez%negb_false_iff _]. apply bool_decide_eq_true in Ez. rewrite (bool_decide_false (ad_zone a <> "")) in Hp by naive_solver.
  assert (prefix_bits mask = Some n \/ prefix_bits mask = None) as [E|E].
  { unfold prefix_bits. destruct mask as [|x [|y t]]; [by left|by left|]. destruct (Ascii.eqb x "0"); [by right|by left]. }
  2: by rewrite E in Hp.
  rewrite E in Hp. cbn [mbind option_bind] in Hp. case_bool_decide; [done|]. injection Hp as <-. cbn [px_ip px_bits].
  split_and!; [done|done|done|lia|by eapply ParseAddr_range..].
Qed.

(** An IPv6 network of the agent ([netip.Prefix]) and of the guest
    ([net.IPNet]) have the same addresses. *)
Theorem cidr_agree s p net m dst : ParsePrefix s = Some p -> ParseCIDR s = Some (net, m) -> ad_is4 (px_ip p) = false ->
  Forall is_byte dst -> length dst = 16 ->
  Contains p (MkAddr false (be_val dst) "") = true <-> zip_with Z.land dst m = net.
Proof.
  intros Hp Hc H6 Hd Hl. destruct (prefix_and_cidr _ _ _ _ Hp Hc) as (-> & -> & Hb & Hv). rewrite H6.
  unfold BitLen in Hb, Hv. rewrite H6 in Hb, Hv. pose proof (be_val_bound dst Hd) as Hbd.
  rewrite Contains_spec by (cbn [ad_val ad_is4 BitLen]; unfold BitLen; cbn [ad_is4]; lia).
  cbn [ad_val ad_zone ad_is4]. unfold BitLen. cbn [ad_is4]. unfold Mask. rewrite length_CIDRMask, bool_decide_false by naive_solver lia.
  unfold As16. rewrite H6.
  assert (ad_val (px_ip p) = be_val (be_bytes 16 (ad_val (px_ip p)))) as Ev.
  { rewrite be_val_bytes, Z.mod_small; [done|]. exact Hv. }
  pose proof (masked_bits dst (be_bytes 16 (ad_val (px_ip p))) (px_bits p) Hd) as Hm. rewrite Hl in Hm.
  rewrite Hm; [|unfold be_bytes; apply Forall_reverse, le_bytes_range|by rewrite length_be_bytes|lia]. rewrite <-Ev. change (8 * Z.of_nat 16)%Z with 128%Z. tauto.
Qed.
