(* ===== verification/Dns.v ===== *)
(** * The in-guest DNS proxy (poc/execd/dns.go)

    [handle] decides what happens to a query: answered from the service
    source (through a short cache), refused, or forwarded verbatim. Unpacking
    and packing of DNS messages (golang.org/x/net/dns/dnsmessage), the
    upstream exchange and [net.ParseIP] are parameters; a reply is the message
    [dnsReply] hands to [Pack]. Times are in nanoseconds. *)
From Stdlib Require Import Ascii.
From S2P Require Import Prelude GoStrings NetIP NetCIDR SvcProto.

Definition TypeA : Z := 1.
Definition TypeAAAA : Z := 28.
Definition RCodeSuccess : Z := 0.
Definition RCodeNameError : Z := 3.
Definition dnsCacheTTL : Z := 5 * 1000000000.

Record question := Question { q_fqdn : string; q_type : Z }.
Record message := Message { m_ID : Z; m_questions : list question }.

Inductive rdata := AResource (a : bytes) | AAAAResource (a : bytes).
Record resource := Resource { r_name : string; r_ttl : Z; r_body : rdata }.
Record reply := Reply {
  re_ID : Z; re_Response : bool; re_Authoritative : bool; re_RCode : Z;
  re_Questions : list question; re_Answers : list resource
}.

Record dnsCacheEntry := DnsEntry { d_ips : list bytes; d_found : bool; d_expiry : Z }.

Section Dns.
Context (unpack : bytes -> option message) (pack : reply -> option bytes)
        (forward : bytes -> option bytes) (parse_ip : string -> option bytes).

(** The answer record of one address, if it has the question's type. *)
Definition answer_of (q : question) (ip : bytes) : option resource :=
  match To4 ip with
  | Some a => if bool_decide (q_type q = TypeA) then Some (Resource (q_fqdn q) 5 (AResource a)) else None
  | None => if bool_decide (q_type q = TypeAAAA) then Some (Resource (q_fqdn q) 5 (AAAAResource ip)) else None
  end.

Definition dnsReply (req : message) (q : question) (ips : list bytes) (rcode : Z) : reply :=
  Reply (m_ID req) true true rcode [q] (omap (answer_of q) ips).

(** The cache, where an entry is still good. *)
Definition cached (now : Z) (key : string) (cache : gmap string dnsCacheEntry) : option dnsCacheEntry :=
  ent ← cache !! key; if bool_decide (now < d_expiry ent)%Z then Some ent else None.

(** The entry of an answer: [now] before and [now'] after the exchange. *)
Definition entry_of (now now' : Z) (ans : svcAnswer) : dnsCacheEntry :=
  if bool_decide (Error ans = "") then
    DnsEntry (omap parse_ip (ClusterIPs ans)) true
      (if bool_decide (0 < TTLSeconds ans)%Z then now' + TTLSeconds ans * 1000000000 else now + dnsCacheTTL)
  else DnsEntry [] false (now + dnsCacheTTL).

(** The end of [lookup], with what the exchange with the host gave: an answer
    is cached, a failure is not. *)
Definition resolved (now now' : Z) (key : string) (r : result string svcAnswer) (cache : gmap string dnsCacheEntry)
  : gmap string dnsCacheEntry * dnsCacheEntry :=
  match r with
  | Ok ans => (<[key := entry_of now now' ans]> cache, entry_of now now' ans)
  | _ => (cache, DnsEntry [] false (now + dnsCacheTTL))
  end.

Definition cache_key (svc ns : string) : string := svc +:+ "." +:+ ns.

(** [lookup] *)
Definition lookup `{ServiceSource} (now now' : Z) (svc ns : string) (cache : gmap string dnsCacheEntry)
  : gmap string dnsCacheEntry * dnsCacheEntry :=
  match cached now (cache_key svc ns) cache with
  | Some ent => (cache, ent)
  | None => resolved now now' (cache_key svc ns) (answer (SvcQuery "" 0 "" svc ns)) cache
  end.

(** The reply to a name that was looked up. *)
Definition reply_of (msg : message) (q : question) (ent : dnsCacheEntry) : reply :=
  if d_found ent then
    dnsReply msg q (filter (fun ip => bool_decide (q_type q = TypeAAAA) = bool_decide (To4 ip = None)) (d_ips ent)) RCodeSuccess
  else dnsReply msg q [] RCodeNameError.

(** What [handle] does with a query, up to the lookup. *)
Inductive verdict := VForward | VReply (r : reply) | VLookup (msg : message) (q : question) (svc ns : string).

Definition classify (query : bytes) : verdict :=
  match unpack query with
  | Some (Message id [q] as msg) =>
      let name := ToLower (q_fqdn q) in
      let labels := Split "." (TrimSuffix name ".") in
      if bool_decide (length labels < 3 \/ Join "." (drop (length labels - 3) labels) <> "svc.cluster.local") then
        if HasSuffix name ".cluster.local." then VReply (dnsReply msg q [] RCodeNameError) else VForward
      else
        match labels with
        | [svc; ns; _; _; _] => VLookup msg q svc ns
        | _ => VReply (dnsReply msg q [] RCodeNameError)
        end
  | _ => VForward
  end.

Inductive outcome := Forwarded | Answered (r : reply).

Definition decide_query `{ServiceSource} (now now' : Z) (query : bytes) (cache : gmap string dnsCacheEntry)
  : gmap string dnsCacheEntry * outcome :=
  match classify query with
  | VForward => (cache, Forwarded)
  | VReply r => (cache, Answered r)
  | VLookup msg q svc ns =>
      let '(cache, ent) := lookup now now' svc ns cache in (cache, Answered (reply_of msg q ent))
  end.

(** [handle]: the bytes sent back, if any. *)
Definition handle `{ServiceSource} (now now' : Z) (query : bytes) (cache : gmap string dnsCacheEntry)
  : gmap string dnsCacheEntry * option bytes :=
  match decide_query now now' query cache with
  | (cache, Forwarded) => (cache, forward query)
  | (cache, Answered r) => (cache, pack r)
  end.

(** ** Lemmas *)

(** The name of a service, as the resolver search path builds it. *)
Definition service_fqdn (svc ns : string) : string := svc +:+ "." +:+ ns +:+ ".svc.cluster.local.".

Lemma service_labels svc ns :
  no_char "." svc -> no_char "." ns ->
  Split "." (TrimSuffix (service_fqdn svc ns) ".") = [svc; ns; "svc"; "cluster"; "local"].
Proof.
  intros Hs Hn. unfold service_fqdn.
  change (svc +:+ "." +:+ ns +:+ ".svc.cluster.local.") with
    (svc +:+ String "." (ns +:+ String "." ("svc.cluster.local" +:+ "."))).
  rewrite <-(str_app_cons "." "svc.cluster.local"), <-(str_app_assoc ns), <-str_app_cons, <-str_app_assoc.
  rewrite TrimSuffix_app. rewrite Split_app by done. rewrite Split_app by done. done.
Qed.

Lemma omap_answers_family q (ips : list bytes) :
  q_type q = TypeA \/ q_type q = TypeAAAA ->
  omap (answer_of q) (filter (fun ip => bool_decide (q_type q = TypeAAAA) = bool_decide (To4 ip = None)) ips) =
  omap (answer_of q) ips.
Proof.
  intros Hq. induction ips as [|ip ips IH]; [done|]. rewrite filter_cons. 
  destruct (decide (bool_decide (q_type q = TypeAAAA) = bool_decide (To4 ip = None))) as [Hd|Hd]; csimpl.
  - by rewrite IH.
  - rewrite IH. unfold answer_of. destruct (To4 ip) eqn:E.
    + rewrite (bool_decide_false (_ = None)) in Hd by done. apply not_false_is_true, bool_decide_eq_true in Hd.
      rewrite bool_decide_false; [done|]. rewrite Hd. done.
    + rewrite (bool_decide_true (_ = None)) in Hd by done. apply not_true_is_false in Hd. by rewrite Hd.
Qed.

(** A name in the service zone has the zone's suffix. *)
Lemma zone_suffix labels name :
  labels = Split "." (TrimSuffix name ".") -> 3 <= length labels -> HasSuffix name "." = true ->
  Join "." (drop (length labels - 3) labels) = "svc.cluster.local" ->
  4 <= length labels -> HasSuffix name ".cluster.local." = true.
Proof.
  intros Hl H3 Hd Hz H4. apply HasSuffix_exists in Hd as [r ->]. rewrite TrimSuffix_app in Hl.
  assert (r = Join "." labels) as Hr by (by rewrite Hl, Join_Split).
  rewrite <-(take_drop (length labels - 3) labels), Join_app in Hr.
  - rewrite Hz in Hr. rewrite Hr. apply HasSuffix_exists.
    exists (Join "." (take (length labels - 3) labels) +:+ ".svc"). by rewrite !str_app_assoc.
  - intros E. apply (f_equal length) in E. rewrite length_take in E. cbn in E. lia.
  - intros E. apply (f_equal length) in E. rewrite length_drop in E. cbn in E. lia.
Qed.

(** ** Theorems *)

(** DNS answers are the service's ClusterIPs: an address query for
    service.namespace.svc.cluster.local (in any case) that misses the cache
    is answered authoritatively from the source's answer, with exactly the
    ClusterIPs of the queried family, in order; a service the source does not
    know, or a source that fails, gives NXDOMAIN; the answer is cached, a
    failure is not. *)
Theorem dns_service_answer `{ServiceSource} now now' query id q svc ns cache :
  unpack query = Some (Message id [q]) -> ToLower (q_fqdn q) = service_fqdn svc ns ->
  no_char "." svc -> no_char "." ns -> cache !! (svc +:+ "." +:+ ns) = None ->
  q_type q = TypeA \/ q_type q = TypeAAAA ->
  match answer (SvcQuery "" 0 "" svc ns) with
  | Ok ans =>
      is_Some ((decide_query now now' query cache).1 !! (svc +:+ "." +:+ ns)) /\
      (decide_query now now' query cache).2 =
        Answered (if bool_decide (Error ans = "")
                  then Reply id true true RCodeSuccess [q] (omap (answer_of q) (omap parse_ip (ClusterIPs ans)))
                  else Reply id true true RCodeNameError [q] [])
  | _ => decide_query now now' query cache = (cache, Answered (Reply id true true RCodeNameError [q] []))
  end.
Proof.
  intros Hu Hname Hs Hn Hc Hq. unfold decide_query, classify. rewrite Hu, Hname, service_labels by done.
  cbn [length Nat.sub drop]. rewrite bool_decide_false by (intros [?|?]; [lia|done]).
  unfold lookup, cached, cache_key, resolved, entry_of. rewrite Hc. cbn [mbind option_bind].
  destruct (answer (SvcQuery "" 0 "" svc ns)) as [ans|e|k]; [|done..].
  case_bool_decide as He; cbn [d_found d_ips fst snd].
  - split; [by rewrite lookup_insert_eq|]. unfold reply_of, dnsReply. cbn [d_found d_ips]. by rewrite omap_answers_family.
  - split; [by rewrite lookup_insert_eq|done].
Qed.

(** Cluster names never leave the pod and other names are never touched:
    a one-question query whose name ends in ".cluster.local." is answered,
    not forwarded; a name that does not is forwarded verbatim, without asking
    the source or changing the cache, unless it is svc.cluster.local itself. *)
Theorem dns_split_horizon `{ServiceSource} now now' query id q cache :
  unpack query = Some (Message id [q]) -> HasSuffix (ToLower (q_fqdn q)) "." = true ->
  (HasSuffix (ToLower (q_fqdn q)) ".cluster.local." = true ->
     exists r, (decide_query now now' query cache).2 = Answered r) /\
  (HasSuffix (ToLower (q_fqdn q)) ".cluster.local." = false -> ToLower (q_fqdn q) <> "svc.cluster.local." ->
     handle now now' query cache = (cache, forward query)).
Proof.
  intros Hu Hdot. unfold handle, decide_query, classify. rewrite Hu.
  set (name := ToLower (q_fqdn q)) in *. set (labels := Split "." (TrimSuffix name ".")). split.
  - intros ->. case_bool_decide; [by eexists|].
    destruct labels as [|svc [|ns [|a [|b [|c [|]]]]]]; try by eexists.
    destruct (lookup _ _ _ _ _) as [cache' ent]. destruct (d_found ent); by eexists.
  - intros Hsuf Hne. rewrite Hsuf. case_bool_decide as Hz; [done|]. exfalso.
    assert (3 <= length labels) as H3 by (destruct (decide (3 <= length labels)); [done|destruct Hz; left; lia]).
    assert (Join "." (drop (length labels - 3) labels) = "svc.cluster.local") as Hj.
    { destruct (decide (Join "." (drop (length labels - 3) labels) = "svc.cluster.local")); [done|].
      destruct Hz. by right. }
    destruct (decide (4 <= length labels)) as [H4|H4].
    { by rewrite (zone_suffix labels name) in Hsuf. }
    replace (length labels - 3) with 0 in Hj by lia. rewrite drop_0 in Hj. unfold labels in Hj.
    rewrite Join_Split in Hj. apply HasSuffix_exists in Hdot as [r Hr]. rewrite Hr, TrimSuffix_app in Hj.
    apply Hne. by rewrite Hr, Hj.
Qed.

End Dns.

(** ** Witnesses *)

#[program] Definition ex_dns_source : ServiceSource := {|
  answer q := if bool_decide (q_Name q = "web" /\ q_Namespace q = "ns")
              then Ok (SvcAnswer [] 0 ["fd::5"; "10.0.0.7"] 5 "")
              else Ok (SvcAnswer [] 0 [] 5 "not found");
  backend _ _ := False
|}.
Next Obligation. intros q a H _. cbn in H. destruct (bool_decide _) in H; injection H as <-; constructor. Qed.

Definition ex_unpack (b : bytes) : option message :=
  match b with
  | [0] => Some (Message 7 [Question "Web.NS.svc.cluster.local." TypeAAAA])
  | [1] => Some (Message 8 [Question "example.com." TypeA])
  | [2] => Some (Message 9 [Question "pod.cluster.local." TypeA])
  | _ => None
  end%Z.
Definition ex_forward (b : bytes) : option bytes := Some (b ++ [99]%Z).
Definition ex_parse (s : string) : option bytes :=
  if bool_decide (s = "10.0.0.7") then Some (replicate 10 0 ++ [255; 255; 10; 0; 0; 7])%Z
  else if bool_decide (s = "fd::5") then Some (253 :: replicate 14 0 ++ [5])%Z else None.

Lemma dns_service_answer_witness :
  (@decide_query ex_unpack ex_parse ex_dns_source 0 0 [0]%Z ∅).2 =
  Answered (Reply 7 true true RCodeSuccess [Question "Web.NS.svc.cluster.local." TypeAAAA]
    [Resource "Web.NS.svc.cluster.local." 5 (AAAAResource (253 :: replicate 14 0 ++ [5])%Z)]).
Proof.
  destruct (@dns_service_answer ex_unpack ex_parse ex_dns_source 0 0 [0]%Z 7
    (Question "Web.NS.svc.cluster.local." TypeAAAA) "web" "ns" ∅) as [_ ->];
    [reflexivity|reflexivity|reflexivity|reflexivity|reflexivity|by right|].
  vm_compute; reflexivity.
Defined.

Lemma dns_split_horizon_witness :
  @handle ex_unpack (fun _ => None) ex_forward ex_parse ex_dns_source 0 0 [1]%Z ∅ = (∅, Some [1; 99]%Z) /\
  exists r, (@decide_query ex_unpack ex_parse ex_dns_source 0 0 [2]%Z ∅).2 = Answered r.
Proof.
  split.
  - apply (@dns_split_horizon ex_unpack (fun _ => None) ex_forward ex_parse ex_dns_source 0 0 [1]%Z 8
      (Question "example.com." TypeA) ∅); [reflexivity|reflexivity|reflexivity|done].
  - apply (@dns_split_horizon ex_unpack (fun _ => None) ex_forward ex_parse ex_dns_source 0 0 [2]%Z 9
      (Question "pod.cluster.local." TypeA) ∅); [reflexivity|reflexivity|reflexivity].
Defined.
