(* ===== verification/GuestRoot.v ===== *)
(** * Paths inside a container's root (poc/execd/blockroot.go)

    [resolveInRoot] resolves a path under a container's root without leaving
    it, and [lookPathInRoot] finds a command there. The root's files are a map
    from component lists ([fsys]); [Lstat] is the host's [lstat] on the joined
    path, which would follow a symlink met on the way out of the root
    ([LEscape]). The specification is the kernel's own walk in a chroot
    ([kres]), over the same files with every symlink's target cleaned as text
    ([cleaned]), because [filepath.Join] cleans it before it is resolved. Where
    the targets have their dots first ([tame]) that makes no difference. *)
From Stdlib Require Import Ascii.
From S2P Require Import Prelude GoStrings.

(** ** The root's files *)

Inductive fnode := FDir | FFile (mode : Z) | FLink (target : string).
Notation fsys := (list string -> option fnode).

Inductive lres := LNode (n : fnode) | LNone | LEscape.

Fixpoint lstat_from (fs : fsys) (pre l : list string) : lres :=
  match l with
  | [] => match fs pre with Some n => LNode n | None => LNone end
  | x :: l' =>
      match fs pre with
      | Some FDir => lstat_from fs (pre ++ [x]) l'
      | Some (FLink _) => LEscape
      | _ => LNone
      end
  end.

(** [os.Lstat(filepath.Join(root, cur))] for a rooted [cur]. *)
Definition Lstat (fs : fsys) (cur : string) : lres := lstat_from fs [] (clean_comps cur).

(** ** [resolveInRoot] *)

Inductive resolve_error := NoEntry | TooManyLinks | Escaped.

(** The loop over the components; [again] is the recursive call. *)
Fixpoint resolve_walk (fs : fsys) (again : string -> result resolve_error string) (cur : string) (comps : list string)
  : result resolve_error string :=
  match comps with
  | [] => Ok cur
  | comp :: rest =>
      let cur := PathJoin [cur; comp] in
      match Lstat fs cur with
      | LNone => Err NoEntry
      | LEscape => Err Escaped
      | LNode (FLink target) =>
          let target := if is_rooted target then target else PathJoin [Dir cur; target] in
          again (PathJoin (target :: rest))
      | LNode _ => resolve_walk fs again cur rest
      end
  end.

(** [fuel] is 33 less the code's [depth]: the code gives up beyond depth 32. *)
Fixpoint resolveInRoot (fs : fsys) (fuel : nat) (p : string) : result resolve_error string :=
  match fuel with
  | O => Err TooManyLinks
  | S fuel' => resolve_walk fs (resolveInRoot fs fuel') "/" (Split slash (Trim slash (Clean ("/" +:+ p))))
  end.

(** ** [lookPathInRoot] *)

Definition default_path : string := "/usr/local/sbin:/usr/local/bin:/usr/sbin:/usr/bin:/sbin:/bin".

(** The last [PATH=] wins. *)
Definition path_env (env : list string) : string :=
  foldl (fun p kv => if HasPrefix kv "PATH=" then TrimPrefix kv "PATH=" else p) default_path env.

Definition SplitList (p : string) : list string := if bool_decide (p = "") then [] else Split ":" p.

Definition executable (fs : fsys) (resolved : string) : bool :=
  match Lstat fs resolved with
  | LNode (FFile mode) => negb (bool_decide (Z.land mode 0x49 = 0%Z))
  | _ => false
  end.

Fixpoint find_in_path (fs : fsys) (dirs : list string) (name : string) : option string :=
  match dirs with
  | [] => None
  | dir :: dirs' =>
      if bool_decide (dir = "") then find_in_path fs dirs' name
      else
        let candidate := PathJoin [dir; name] in
        match resolveInRoot fs 33 candidate with
        | Ok resolved => if executable fs resolved then Some candidate else find_in_path fs dirs' name
        | _ => find_in_path fs dirs' name
        end
  end.

Definition lookPathInRoot (fs : fsys) (env : list string) (name : string) : option string :=
  if has_char slash name then Some name else find_in_path fs (SplitList (path_env env)) name.

(** ** The kernel's walk in a chroot

    [kres fs k cwd todo r]: from the directory [cwd], walking [todo] ends at
    [r] after following [k] symlinks. *)
Inductive kres (fs : fsys) : nat -> list string -> list string -> list string -> Prop :=
| k_done cwd : kres fs 0 cwd [] cwd
| k_dot k cwd c t r : c = "" \/ c = "." -> fs cwd = Some FDir -> kres fs k cwd t r -> kres fs k cwd (c :: t) r
| k_up k cwd t r : fs cwd = Some FDir -> kres fs k (removelast cwd) t r -> kres fs k cwd (".." :: t) r
| k_step k cwd c t r n : plain c -> fs cwd = Some FDir -> fs (cwd ++ [c]) = Some n ->
    (forall tgt, n <> FLink tgt) -> kres fs k (cwd ++ [c]) t r -> kres fs k cwd (c :: t) r
| k_link k cwd c t r tgt : plain c -> fs cwd = Some FDir -> fs (cwd ++ [c]) = Some (FLink tgt) ->
    kres fs k (if is_rooted tgt then [] else cwd) (Split slash tgt ++ t) r -> kres fs (S k) cwd (c :: t) r.

(** A target whose dots come first: [../../lib/x], [/bin/x], [x/y], [..]. *)
Definition dots (c : string) : Prop := c = "" \/ c = "." \/ c = "..".
Definition tame (tgt : string) : Prop :=
  tgt <> "" /\ exists s l, Split slash tgt = s ++ l /\ Forall dots s /\ Forall plain l.

(** A directory tree: no symlink is empty. *)
Record fs_tree (fs : fsys) : Prop := {
  ft_root : fs [] = Some FDir;
  ft_parent : forall p x, is_Some (fs (p ++ [x])) -> fs p = Some FDir;
  ft_target : forall p tgt, fs p = Some (FLink tgt) -> tgt <> ""
}.
Definition tame_links (fs : fsys) : Prop := forall p tgt, fs p = Some (FLink tgt) -> tame tgt.

(** The tree with every symlink's target cleaned. *)
Definition clean_node (n : fnode) : fnode := match n with FLink tgt => FLink (Clean tgt) | n => n end.
Definition cleaned (fs : fsys) : fsys := fun p => clean_node <$> fs p.

(** What the comparison with the kernel's walk needs first. *)
Record fs_ok (fs : fsys) : Prop := {
  fs_root : fs [] = Some FDir;
  fs_parent : forall p x, is_Some (fs (p ++ [x])) -> fs p = Some FDir;
  fs_tame : tame_links fs
}.

Section Resolve.
Context (fs : fsys) (Hfs : fs_ok fs).

Lemma fs_prefix p q : is_Some (fs (p ++ q)) -> q <> [] -> fs p = Some FDir.
Proof.
  revert p. induction q as [|x q IH]; intros p H Hne; [done|]. apply (fs_parent _ Hfs p x).
  destruct (decide (q = [])) as [->|Hq]; [done|]. exists FDir. apply IH; [|done]. by rewrite <-app_assoc.
Qed.

(** *** [Lstat] *)

Lemma lstat_from_app q : forall pre r, (forall q1 q2, q = q1 ++ q2 -> q2 <> [] -> fs (pre ++ q1) = Some FDir) ->
  lstat_from fs pre (q ++ r) = lstat_from fs (pre ++ q) r.
Proof.
  induction q as [|x q IH]; intros pre r Hd; [by rewrite app_nil_r|]. cbn.
  rewrite <-(app_nil_r pre) at 1. rewrite (Hd [] (x :: q)) by done. rewrite IH, <-app_assoc; [done|].
  intros q1 q2 -> Hq2. rewrite <-app_assoc. by apply (Hd (x :: q1) q2).
Qed.

(** Next to an existing path that is not a symlink, [Lstat] sees the entry. *)
Lemma Lstat_child p x n :
  Forall plain (p ++ [x]) -> fs p = Some n -> (forall tgt, n <> FLink tgt) ->
  Lstat fs (abs_path (p ++ [x])) = match fs (p ++ [x]) with Some m => LNode m | None => LNone end.
Proof.
  intros Hp Hn Hl. unfold Lstat. rewrite clean_comps_abs by done.
  rewrite lstat_from_app; [|intros q1 q2 -> Hq2; apply (fs_prefix _ q2); [by eexists|done]].
  cbn. rewrite Hn. destruct n as [|m|tgt]; [done| |by destruct (Hl tgt)].
  destruct (fs (p ++ [x])) eqn:E; [|done]. pose proof (fs_parent _ Hfs p x). rewrite E in *. naive_solver.
Qed.

Lemma Lstat_root : Lstat fs (abs_path []) = LNode FDir.
Proof. unfold Lstat. rewrite clean_comps_abs by done. cbn. by rewrite (fs_root _ Hfs). Qed.

(** *** The kernel's walk *)

(** Where leading dots lead. *)
Definition up (d s : list string) : list string := reverse (fold_clean (reverse d) s).

Lemma up_nil d : up d [] = d.
Proof. apply reverse_involutive. Qed.

Lemma up_step d c s : Forall plain d -> dots c -> exists d', Forall plain d' /\ up d (c :: s) = up d' s /\
  (d' = d /\ (c = "" \/ c = ".") \/ c = ".." /\ d' = removelast d).
Proof.
  intros Hd [->|[->| ->]]; [exists d; naive_solver..|]. exists (removelast d).
  destruct d as [|x d _] using rev_ind; [naive_solver|]. rewrite removelast_last.
  apply Forall_app in Hd as [Hd [(_ & _ & Hx & _) _]%Forall_cons]. split_and!; [done| |by right].
  unfold up. rewrite reverse_snoc. change (fold_clean (x :: reverse d) (".." :: s)) with
    (fold_clean (if bool_decide (x = "..") then ".." :: x :: reverse d else reverse d) s).
  by rewrite bool_decide_false.
Qed.

Lemma up_dir s : forall d, Forall plain d -> Forall dots s -> fs d = Some FDir -> Forall plain (up d s) /\ fs (up d s) = Some FDir.
Proof.
  induction s as [|c s IH]; intros d Hp Hs Hd; [by rewrite up_nil|].
  apply Forall_cons in Hs as [Hc Hs]. destruct (up_step d c s Hp Hc) as (d' & Hp' & -> & Hd').
  apply IH; [done..|]. destruct Hd' as [[-> _]|[_ ->]]; [done|].
  destruct d as [|x d _] using rev_ind; [done|]. rewrite removelast_last. apply (fs_parent _ Hfs d x). by rewrite Hd.
Qed.

Lemma plain_not_dots c : plain c -> dots c -> False.
Proof. unfold plain, dots. naive_solver. Qed.

Lemma kres_dots k s : forall d t r, Forall plain d -> Forall dots s -> fs d = Some FDir ->
  kres fs k d (s ++ t) r <-> kres fs k (up d s) t r.
Proof.
  induction s as [|c s IH]; intros d t r Hp Hs Hd; [by rewrite up_nil|].
  apply Forall_cons in Hs as [Hc Hs]. destruct (up_dir [c] d) as [_ Hd1]; [done|by apply Forall_singleton|done|].
  destruct (up_step d c s Hp Hc) as (d' & Hp' & -> & Hd'). rewrite <-IH; [|done..|].
  2:{ destruct Hd' as [[-> _]|[-> ->]]; [done|]. destruct (up_step d ".." [] Hp Hc) as (d2 & _ & E & [[_ [?|?]]|[_ ->]]); [done..|].
      by rewrite E, up_nil in Hd1. }
  cbn. split.
  - inversion 1; subst; destruct Hd' as [[-> ?]|[? ->]]; subst; try done; try naive_solver.
    all: exfalso; by eapply plain_not_dots.
  - intros H. destruct Hd' as [[-> ?]|[-> ->]]; [by apply k_dot|by apply k_up].
Qed.

Lemma kres_step k d c t r n :
  plain c -> fs d = Some FDir -> fs (d ++ [c]) = Some n -> (forall tgt, n <> FLink tgt) ->
  kres fs k d (c :: t) r <-> kres fs k (d ++ [c]) t r.
Proof.
  intros Hc Hd Hn Hl. split; [|by eapply k_step]. inversion 1; subst; try done.
  - exfalso. eapply plain_not_dots; [exact Hc|unfold dots; naive_solver].
  - exfalso. eapply plain_not_dots; [exact Hc|unfold dots; naive_solver].
  - naive_solver.
Qed.

Lemma kres_abs k q : forall d t r, Forall plain q -> fs (d ++ q) = Some FDir -> kres fs k d (q ++ t) r <-> kres fs k (d ++ q) t r.
Proof.
  induction q as [|x q IH]; intros d t r Hq Hd; [by rewrite app_nil_r|]. apply Forall_cons in Hq as [Hx Hq].
  assert (fs (d ++ [x]) = Some FDir) as H1.
  { destruct (decide (q = [])) as [->|]; [done|]. apply (fs_prefix _ q); [rewrite <-app_assoc; by eexists|done]. }
  cbn. rewrite (kres_step _ _ _ _ _ FDir); [|done| |done|done]; [|by apply (fs_parent _ Hfs d x); rewrite H1].
  rewrite IH; [by rewrite <-app_assoc|done|by rewrite <-app_assoc].
Qed.

Lemma kres_link k d c t r tgt :
  plain c -> fs d = Some FDir -> fs (d ++ [c]) = Some (FLink tgt) ->
  kres fs k d (c :: t) r <-> exists k', k = S k' /\ kres fs k' (if is_rooted tgt then [] else d) (Split slash tgt ++ t) r.
Proof.
  intros Hc Hd Hn. split; [|intros (k' & -> & H); by eapply k_link]. inversion 1; subst; try done.
  - exfalso. eapply plain_not_dots; [exact Hc|unfold dots; naive_solver].
  - exfalso. eapply plain_not_dots; [exact Hc|unfold dots; naive_solver].
  - naive_solver.
  - naive_solver.
Qed.

Lemma kres_cons_dir k d c t r : kres fs k d (c :: t) r -> fs d = Some FDir.
Proof. by inversion 1. Qed.

Lemma kres_missing k d c t r : plain c -> fs (d ++ [c]) = None -> ~ kres fs k d (c :: t) r.
Proof.
  intros Hc Hn. inversion 1; subst; try congruence; (eapply plain_not_dots; [exact Hc|unfold dots; naive_solver]).
Qed.

(** *** The two agree *)

(** What the code returns with [n] walks left, against the kernel's walk of
    [l] from [d]. *)
Definition outcome (n : nat) (d l : list string) (res : result resolve_error string) : Prop :=
  match res with
  | Ok q => exists k r, k < n /\ kres fs k d l r /\ q = abs_path r /\ Forall plain r
  | Err NoEntry => forall k r, ~ kres fs k d l r
  | Err TooManyLinks => forall k r, kres fs k d l r -> n <= k
  | Err Escaped | Crash _ => False
  end.

Lemma outcome_iff n d l d' l' res :
  (forall k r, kres fs k d l r <-> kres fs k d' l' r) -> outcome n d' l' res -> outcome n d l res.
Proof.
  intros H. destruct res as [q|[]|w]; cbn; [|naive_solver..]. intros (k & r & ? & ? & ?). exists k, r. by rewrite H.
Qed.

Lemma outcome_link n d l d' l' res :
  (forall k r, kres fs k d l r <-> exists k', k = S k' /\ kres fs k' d' l' r) -> outcome n d' l' res -> outcome (S n) d l res.
Proof.
  intros H. destruct res as [q|[]|w]; cbn; [| | |done..].
  - intros (k & r & Hlt & Hk & Hr). exists (S k), r. split; [lia|]. split; [apply H; eauto|done].
  - intros Hn k r (k' & _ & Hk)%H. by apply (Hn k' r).
  - intros Hn k r (k' & -> & Hk)%H. apply Hn in Hk. lia.
Qed.

(** Where the code goes on after a symlink. *)
Lemma link_rest d c t tgt s l :
  Forall plain (d ++ [c]) -> Forall plain t -> tgt <> "" -> Split slash tgt = s ++ l -> Forall dots s -> Forall plain l ->
  PathJoin ((if is_rooted tgt then tgt else PathJoin [Dir (abs_path (d ++ [c])); tgt]) :: t) =
  abs_path (up (if is_rooted tgt then [] else d) s ++ l ++ t).
Proof.
  intros Hd Ht Hne Hs Hdots Hl. assert (Forall plain d) as Hpd by (by apply Forall_app in Hd as [? _]).
  assert (concat (Split slash <$> t) = t) as Hct.
  { clear -Ht. induction Ht as [|x t (_ & _ & _ & Hx) _ IH]; [done|]. cbn. by rewrite (Split_no_char _ _ Hx), IH. }
  assert (forall st, reverse (fold_clean st ((s ++ l) ++ t)) = reverse (fold_clean st s) ++ l ++ t) as Hf.
  { intros st. rewrite !fold_clean_app, (fold_clean_plain _ l), (fold_clean_plain _ t) by done.
    rewrite !reverse_app, !reverse_involutive. by rewrite <-app_assoc. }
  destruct (is_rooted tgt) eqn:Hr.
  - rewrite PathJoin_comps by done. rewrite fmap_cons. cbn [concat]. by rewrite Hct, Hs, Hf.
  - rewrite Dir_abs by done. rewrite (PathJoin_comps (abs_path d)) by apply is_rooted_abs.
    cbn [fmap list_fmap concat]. rewrite app_nil_r, fold_clean_app, fold_clean_abs, Hs by done.
    assert (fold_clean (reverse d) (s ++ l) = reverse (up d s ++ l)) as ->.
    { rewrite fold_clean_app, (fold_clean_plain _ l) by done. unfold up. by rewrite reverse_app, reverse_involutive. }
    rewrite reverse_involutive, PathJoin_plain; [by rewrite <-app_assoc| |done].
    apply Forall_app. split; [|done]. unfold up. apply Forall_reverse, Forall_plain_fold; [by apply Forall_reverse|].
    eapply Forall_impl; [exact Hdots|]. by intros x [->|[->| ->]].
Qed.

Lemma resolve_walk_spec n again :
  (forall l, Forall plain l -> outcome n [] l (again (abs_path l))) ->
  forall todo d m, Forall plain d -> Forall plain todo -> fs d = Some m -> (forall tgt, m <> FLink tgt) ->
  outcome (S n) d todo (resolve_walk fs again (abs_path d) todo).
Proof.
  intros Hagain todo. induction todo as [|c t IH]; intros d m Hd Hct Hm Hl; cbn [resolve_walk].
  { exists 0, d. split; [lia|]. split; [constructor|done]. }
  assert (Forall plain (d ++ [c])) as Hdc by (apply Forall_app; apply Forall_cons in Hct as [? ?]; by rewrite Forall_singleton).
  apply Forall_cons in Hct as [Hc Ht]. rewrite PathJoin_plain by (done || by apply Forall_singleton).
  rewrite (Lstat_child d c m) by done. destruct (fs (d ++ [c])) as [n'|] eqn:Hn; [|intros k r; by apply kres_missing].
  assert (fs d = Some FDir) as Hdd by (apply (fs_parent _ Hfs d c); by rewrite Hn).
  assert ((forall tgt, n' <> FLink tgt) -> outcome (S n) d (c :: t) (resolve_walk fs again (abs_path (d ++ [c])) t)) as Hplain.
  { intros Hn'. apply (outcome_iff _ _ _ (d ++ [c]) t); [|by apply (IH _ n')]. intros k r. by apply (kres_step _ _ _ _ _ n'). }
  destruct n' as [|mode|tgt]; [by apply Hplain..|]. clear Hplain.
  destruct (fs_tame _ Hfs _ _ Hn) as (Hne & s & l & Hs & Hdots & Hpl).
  rewrite (link_rest d c t tgt s l) by done. set (b := if is_rooted tgt then [] else d).
  assert (fs b = Some FDir /\ Forall plain b) as [Hb Hbp].
  { subst b. destruct (is_rooted tgt); [split; [apply (fs_root _ Hfs)|done]|done]. }
  destruct (up_dir s b Hbp Hdots Hb) as [Hup Hupd].
  eapply outcome_link; [|apply Hagain; apply Forall_app; split; [done|by apply Forall_app]].
  intros k r. rewrite kres_link by done. fold b. setoid_rewrite Hs.
  split; intros (k' & -> & H); exists k'; (split; [done|]).
  - apply kres_abs; [done..|]. rewrite <-app_assoc in H. by apply kres_dots in H.
  - apply kres_abs in H; [|done..]. rewrite <-app_assoc. by apply kres_dots.
Qed.

Lemma Clean_slash p : Clean ("/" +:+ p) = abs_path (clean_comps ("/" +:+ p)).
Proof. apply Clean_rooted, HasPrefix_app. Qed.

Lemma resolve_spec n : forall p, outcome n [] (clean_comps ("/" +:+ p)) (resolveInRoot fs n p).
Proof.
  induction n as [|n IH]; intros p; [intros k r _; lia|]. cbn [resolveInRoot]. rewrite Clean_slash.
  assert (Forall plain (clean_comps ("/" +:+ p))) as Hp by (apply clean_comps_plain, HasPrefix_app).
  rewrite Split_Trim_abs by done. case_bool_decide as E.
  - rewrite E. cbn [resolve_walk]. change (PathJoin ["/"; ""]) with (abs_path []). rewrite Lstat_root.
    exists 0, []. split; [lia|]. split; [constructor|done].
  - change "/" with (abs_path []) at 2. eapply (resolve_walk_spec _ _); [|done..|apply (fs_root _ Hfs)|done].
    intros l Hl. specialize (IH (abs_path l)). assert (clean_comps ("/" +:+ abs_path l) = l) as Hcl; [|by rewrite Hcl in IH].
    unfold clean_comps. change (is_rooted _) with true. change ("/" +:+ abs_path l) with ("" +:+ String slash (abs_path l)).
    rewrite Split_snoc. change (foldl (clean_step true)) with fold_clean. rewrite fold_clean_app.
    change (fold_clean [] (Split slash "")) with (@nil string). by rewrite fold_clean_abs, reverse_involutive.
Qed.
End Resolve.

Lemma kres_det fs k1 d l r1 : kres fs k1 d l r1 -> forall k2 r2, kres fs k2 d l r2 -> k1 = k2 /\ r1 = r2.
Proof.
  induction 1 as [d|k d c t r Hc Hd H IH|k d t r Hd H IH|k d c t r n Hc Hd Hn Hl H IH|k d c t r tgt Hc Hd Hn H IH];
    intros k2 r2; inversion 1; subst; try done; try (by apply IH); try congruence;
    try (exfalso; eapply plain_not_dots; [eassumption|unfold dots; naive_solver]).
  all: naive_solver.
Qed.

Lemma resolve_ok fs p q : fs_ok fs ->
  resolveInRoot fs 33 p = Ok q <-> exists k r, k <= 32 /\ kres fs k [] (clean_comps ("/" +:+ p)) r /\ q = abs_path r.
Proof.
  intros Hfs. pose proof (resolve_spec fs Hfs 33 p) as H. split.
  - intros E. rewrite E in H. destruct H as (k & r & Hk & Hr & -> & _). exists k, r. split; [lia|done].
  - intros (k & r & Hk & Hr & ->). destruct (resolveInRoot fs 33 p) as [q|[]|w]; cbn in H; [..|done|done].
    + destruct H as (k2 & r2 & _ & H2 & -> & _). by destruct (kres_det _ _ _ _ _ Hr _ _ H2) as [_ ->].
    + by destruct (H k r).
    + apply H in Hr. lia.
Qed.

(** *** Any symlink *)

(** Cleaned targets have their dots first, and lead where the targets lead. *)
Lemma Clean_target tgt : tgt <> "" ->
  tame (Clean tgt) /\ is_rooted (Clean tgt) = is_rooted tgt /\ forall st, (is_rooted tgt = true -> st = []) -> fold_clean st (Split slash (Clean tgt)) = fold_clean st (Split slash tgt).
Proof.
  intros Hne. destruct (is_rooted tgt) eqn:Hr.
  - rewrite (Clean_rooted _ Hr). pose proof (clean_comps_plain _ Hr) as Hp. split_and!; [|apply is_rooted_abs|].
    + split; [done|]. destruct (decide (clean_comps tgt = [])) as [->|Hc]; [exists [""; ""], []; split; [done|]; split; [|done]; repeat constructor|].
      rewrite Split_abs by done. exists [""], (clean_comps tgt). split; [done|]. split; [|done]. repeat constructor.
    + intros st ->; [|done]. rewrite fold_clean_abs by done. unfold clean_comps. by rewrite reverse_involutive, Hr.
  - assert (Forall (fun c => no_char slash c) (Split slash tgt)) as Hs by apply Split_comps_no_char.
    destruct (rel_clean_shape _ Hs) as (rp & n & E & Hp). unfold Clean, clean_comps. rewrite Hr.
    destruct (decide (foldl (clean_step false) [] (Split slash tgt) = [])) as [E0|E0].
    { pose proof (fun st => fold_clean_rel st _ Hs) as Hf. rewrite E0 in Hf |- *. cbn. split_and!; [|done|intros st _; by rewrite <-Hf].
      split; [done|]. exists ["."], []. split; [done|]. split; [|done]. constructor; [by right; left|constructor]. }
    set (l := reverse (foldl (clean_step false) [] (Split slash tgt))).
    assert (Forall dots (replicate n "..")) as Hd by (apply Forall_replicate; by right; right).
    assert (l = replicate n ".." ++ reverse rp) as El by (subst l; by rewrite E, reverse_app, reverse_replicate).
    assert (l <> []) as Hl by (subst l; intros H; apply E0; by rewrite <-(reverse_involutive (foldl _ _ _)), H).
    assert (Forall (fun c => no_char slash c) l) as Hn.
    { rewrite El. apply Forall_app. split; [by apply Forall_replicate|]. eapply Forall_impl; [by apply Forall_reverse|]. by intros c (_ & _ & _ & Hc). }
    assert (Join slash l <> "" /\ is_rooted (Join slash l) = false) as [Hj Hjr].
    { destruct l as [|c l']; [done|]. assert (c <> "" /\ is_rooted c = false) as [Hc Hcr].
      { destruct n as [|n]; [|by injection El as -> _]. cbn in El. assert (plain c) as Hc.
        { apply (Forall_inv (P:=plain) (l:=l')). rewrite El. by apply Forall_reverse. }
        split; [apply Hc|by apply plain_head_not_slash]. }
      destruct l' as [|c' l']; [done|]. rewrite Join_cons by done. destruct c as [|a c]; [done|]. split; [done|]. by rewrite is_rooted_app_cons. }
    rewrite bool_decide_false by done. change ("" +:+ Join slash l) with (Join slash l). split_and!; [|done|].
    + split; [done|]. rewrite Split_Join by done. exists (replicate n ".."), (reverse rp). split; [done|]. split; [done|by apply Forall_reverse].
    + intros st _. rewrite Split_Join by done. apply fold_clean_rel, Hs.
Qed.

Lemma next_cleaned d c tgt rest : Forall plain (d ++ [c]) -> tgt <> "" ->
  PathJoin ((if is_rooted (Clean tgt) then Clean tgt else PathJoin [Dir (abs_path (d ++ [c])); Clean tgt]) :: rest) =
  PathJoin ((if is_rooted tgt then tgt else PathJoin [Dir (abs_path (d ++ [c])); tgt]) :: rest).
Proof.
  intros Hd Hne. assert (Forall plain d) as Hpd by (by apply Forall_app in Hd as [? _]).
  destruct (Clean_target tgt Hne) as (_ & Hr & Hf). rewrite Hr. destruct (is_rooted tgt) eqn:E.
  - rewrite !PathJoin_comps by (congruence || done). do 2 f_equal. rewrite !fmap_cons. cbn [concat]. by rewrite !fold_clean_app, Hf.
  - rewrite Dir_abs by done. assert (PathJoin [abs_path d; Clean tgt] = PathJoin [abs_path d; tgt]) as ->; [|done].
    rewrite !(PathJoin_comps (abs_path d)) by apply is_rooted_abs. do 2 f_equal. rewrite !fmap_cons. cbn [concat fmap list_fmap].
    by rewrite !app_nil_r, !fold_clean_app, Hf.
Qed.

Lemma lstat_cleaned fs l : forall pre, lstat_from (cleaned fs) pre l = match lstat_from fs pre l with LNode n => LNode (clean_node n) | x => x end.
Proof.
  induction l as [|x l IH]; intros pre; cbn; unfold cleaned at 1; [by destruct (fs pre)|]. destruct (fs pre) as [[]|]; cbn; try done.
Qed.

Lemma lstat_target fs l : forall pre tgt, (forall p tgt, fs p = Some (FLink tgt) -> tgt <> "") -> lstat_from fs pre l = LNode (FLink tgt) -> tgt <> "".
Proof.
  induction l as [|x l IH]; intros pre tgt Ht H; cbn in H.
  - destruct (fs pre) as [n|] eqn:E; [|done]. injection H as ->. by eapply Ht.
  - destruct (fs pre) as [[]|]; try done. by eapply IH.
Qed.

(** The code does not see the difference: it cleans the targets itself. *)
Lemma walk_cleaned fs again1 again2 : fs_tree fs -> (forall p, again1 p = again2 p) -> forall todo d,
  Forall plain d -> Forall plain todo -> resolve_walk (cleaned fs) again1 (abs_path d) todo = resolve_walk fs again2 (abs_path d) todo.
Proof.
  intros Ht Ha todo. induction todo as [|c t IH]; intros d Hd Hct; [done|]. apply Forall_cons in Hct as [Hc Hpt]. cbn [resolve_walk].
  assert (Forall plain (d ++ [c])) as Hdc by (apply Forall_app; by rewrite Forall_singleton).
  rewrite PathJoin_plain by (done || by apply Forall_singleton). unfold Lstat. rewrite lstat_cleaned.
  destruct (lstat_from fs [] _) as [[|mode|tgt]| |] eqn:E; cbn [clean_node]; try done; [by apply IH..|].
  rewrite Ha, next_cleaned; [done|done|]. eapply lstat_target; [apply Ht|exact E].
Qed.

Lemma resolve_cleaned fs n : fs_tree fs -> forall p, resolveInRoot (cleaned fs) n p = resolveInRoot fs n p.
Proof.
  intros Ht. induction n as [|n IH]; intros p; [done|]. cbn [resolveInRoot]. rewrite Clean_slash.
  assert (Forall plain (clean_comps ("/" +:+ p))) as Hp by (apply clean_comps_plain, HasPrefix_app).
  rewrite Split_Trim_abs by done. case_bool_decide as E.
  - cbn [resolve_walk]. change (PathJoin ["/"; ""]) with (abs_path []). unfold Lstat. rewrite lstat_cleaned.
    change (clean_comps (abs_path [])) with (@nil string). cbn [lstat_from]. by rewrite (ft_root _ Ht).
  - by apply (walk_cleaned fs _ _ Ht IH _ []).
Qed.

Lemma cleaned_ok fs : fs_tree fs -> fs_ok (cleaned fs).
Proof.
  intros [Hr Hp Ht]. split; unfold cleaned.
  - by rewrite Hr.
  - intros p x H. rewrite (Hp p x); [done|]. by destruct (fs (p ++ [x])); [eexists|destruct H].
  - intros p tgt H. destruct (fs p) as [[| |t]|] eqn:E; try done. injection H as <-. apply Clean_target. by eapply Ht.
Qed.

(** C21 [resolveInRoot] is the kernel's own walk in the chroot, of the path
    cleaned as text, over the files with every symlink's target cleaned as
    text: it returns a path exactly when that walk reaches it following at
    most 32 symlinks, says a file is missing only when the walk fails, and
    never asks the host about a path that would leave the root through a
    symlink. Where every target has its dots first ([x/y], [../../x], [/x])
    cleaning changes nothing and it is the kernel's walk over the files as
    they are; where one has not, as [b/../x] with [b] a symlink, the kernel
    may end elsewhere ([lexical_join_differs]). *)
Theorem resolve_is_chroot_walk fs p :
  fs_tree fs ->
  let reached fs' q := exists k r, k <= 32 /\ kres fs' k [] (clean_comps ("/" +:+ p)) r /\ q = abs_path r in
  (forall q, resolveInRoot fs 33 p = Ok q <-> reached (cleaned fs) q) /\
  (resolveInRoot fs 33 p = Err NoEntry -> forall k r, ~ kres (cleaned fs) k [] (clean_comps ("/" +:+ p)) r) /\
  resolveInRoot fs 33 p <> Err Escaped /\
  (tame_links fs -> forall q, resolveInRoot fs 33 p = Ok q <-> reached fs q).
Proof.
  intros Ht reached. pose proof (cleaned_ok _ Ht) as Hok. rewrite <-(resolve_cleaned fs 33 Ht p).
  split; [intros q; by apply resolve_ok|]. pose proof (resolve_spec (cleaned fs) Hok 33 p) as H.
  split; [intros E; rewrite E in H; apply H|]. split; [intros E; by rewrite E in H|].
  intros Htame q. rewrite resolve_cleaned by done. apply resolve_ok. destruct Ht as [H1 H2 H3]. by split.
Qed.

(** The kernel, started in the root, would run this path: a file with an
    execute bit, behind at most 32 symlinks. *)
Definition runnable (fs : fsys) (cand : string) : Prop :=
  exists k r mode, k <= 32 /\ kres fs k [] (clean_comps ("/" +:+ cand)) r /\
    fs r = Some (FFile mode) /\ Z.land mode 0x49 <> 0%Z.

Lemma kres_plain fs k d l r : kres fs k d l r -> fs_ok fs -> Forall plain d -> is_Some (fs d) -> Forall plain r /\ is_Some (fs r).
Proof.
  intros H Hfs. induction H as [d|k d c t r Hc Hd H IH|k d t r Hd H IH|k d c t r n Hc Hd Hn Hl H IH|k d c t r tgt Hc Hd Hn H IH];
    intros Hp Hs; [done|by apply IH|..].
  - apply IH; destruct d as [|x d _] using rev_ind; try done; rewrite removelast_last;
      [by apply Forall_app in Hp as [? _]|exists FDir; by apply (fs_parent _ Hfs d x)].
  - apply IH; [apply Forall_app; by rewrite Forall_singleton|by rewrite Hn].
  - destruct (is_rooted tgt); apply IH; try done. exists FDir. apply (fs_root _ Hfs).
Qed.

Lemma executable_spec fs r : fs_ok fs -> Forall plain r -> is_Some (fs r) ->
  executable fs (abs_path r) = true <-> exists mode, fs r = Some (FFile mode) /\ Z.land mode 0x49 <> 0%Z.
Proof.
  intros Hfs Hr [n Hn]. assert (Lstat fs (abs_path r) = LNode n) as HL.
  { unfold Lstat. rewrite clean_comps_abs by done. rewrite <-(app_nil_r r), (lstat_from_app fs r [] []).
    - cbn. by rewrite Hn.
    - intros q1 q2 -> Hq. apply (fs_prefix _ Hfs _ q2); [by eexists|done]. }
  unfold executable. rewrite HL, Hn. destruct n as [|mode|tgt]; [naive_solver| |naive_solver].
  rewrite negb_true_iff, bool_decide_eq_false. naive_solver.
Qed.

(** One round of the search. *)
Lemma candidate_spec fs cand : fs_ok fs ->
  match resolveInRoot fs 33 cand with Ok resolved => executable fs resolved | _ => false end = true <-> runnable fs cand.
Proof.
  intros Hfs. split.
  - destruct (resolveInRoot fs 33 cand) as [q|[]|w] eqn:E; [|done..]. apply resolve_ok in E as (k & r & Hk & Hr & ->); [|done]. intros Hx.
    destruct (kres_plain _ _ _ _ _ Hr Hfs) as [Hp Hs]; [done|exists FDir; apply (fs_root _ Hfs)|].
    apply executable_spec in Hx as (mode & ? & ?); [|done..]. by exists k, r, mode.
  - intros (k & r & mode & Hk & Hr & Hm & Hx). assert (resolveInRoot fs 33 cand = Ok (abs_path r)) as -> by (apply resolve_ok; eauto).
    destruct (kres_plain _ _ _ _ _ Hr Hfs) as [Hp Hs]; [done|exists FDir; apply (fs_root _ Hfs)|].
    apply executable_spec; eauto.
Qed.

Lemma find_in_path_spec fs name dirs : fs_ok fs ->
  match find_in_path fs dirs name with
  | Some cand => exists before d after, dirs = before ++ d :: after /\ d <> "" /\ cand = PathJoin [d; name] /\
      runnable fs cand /\ forall e, e ∈ before -> e <> "" -> ~ runnable fs (PathJoin [e; name])
  | None => forall e, e ∈ dirs -> e <> "" -> ~ runnable fs (PathJoin [e; name])
  end.
Proof.
  intros Hfs. induction dirs as [|dir dirs IH]; cbn [find_in_path]; [intros e He; by apply elem_of_nil in He|].
  assert (~ (dir <> "" /\ runnable fs (PathJoin [dir; name])) ->
    match find_in_path fs dirs name with
    | Some cand => exists before d after, dir :: dirs = before ++ d :: after /\ d <> "" /\ cand = PathJoin [d; name] /\
        runnable fs cand /\ forall e, e ∈ before -> e <> "" -> ~ runnable fs (PathJoin [e; name])
    | None => forall e, e ∈ dir :: dirs -> e <> "" -> ~ runnable fs (PathJoin [e; name])
    end) as Hskip.
  { intros Hn. destruct (find_in_path fs dirs name) as [cand|].
    - destruct IH as (b & d & a & -> & Hd & Hc & Hr & Hb). exists (dir :: b), d, a. split_and!; [done..|].
      intros e [->|He]%elem_of_cons Hne Hre; [by apply Hn|by apply (Hb e)].
    - intros e [->|He]%elem_of_cons Hne Hre; [by apply Hn|by apply (IH e)]. }
  case_bool_decide as Hd; [apply Hskip; naive_solver|].
  pose proof (candidate_spec fs (PathJoin [dir; name]) Hfs) as Hc.
  destruct (resolveInRoot fs 33 (PathJoin [dir; name])) as [q|err|w]; [|apply Hskip; naive_solver..].
  destruct (executable fs q); [|apply Hskip; naive_solver].
  exists [], dir, dirs. split_and!; [done..|by apply Hc|]. intros e He. by apply elem_of_nil in He.
Qed.

Lemma look_cleaned fs env name : fs_tree fs -> lookPathInRoot (cleaned fs) env name = lookPathInRoot fs env name.
Proof.
  intros Ht. unfold lookPathInRoot. destruct (has_char slash name); [done|]. induction (SplitList (path_env env)) as [|d dirs IH]; [done|].
  cbn [find_in_path]. case_bool_decide; [done|]. rewrite (resolve_cleaned fs 33 Ht), IH.
  assert (forall q, executable (cleaned fs) q = executable fs q) as He.
  { intros q. unfold executable, Lstat. rewrite lstat_cleaned. by destruct (lstat_from fs [] _) as [[]| |]. }
  destruct (resolveInRoot fs 33 _); [by rewrite He|done..].
Qed.

(** [lookPathInRoot] gives a bare command the first directory of the
    container's [PATH] where the kernel, over cleaned symlinks, would find an
    executable of that name inside the container's root, and fails only when
    no directory has one. *)
Theorem look_path_first fs env name :
  fs_tree fs -> has_char slash name = false ->
  match lookPathInRoot fs env name with
  | Some cand => exists before d after, SplitList (path_env env) = before ++ d :: after /\ d <> "" /\
      cand = PathJoin [d; name] /\ runnable (cleaned fs) cand /\
      forall e, e ∈ before -> e <> "" -> ~ runnable (cleaned fs) (PathJoin [e; name])
  | None => forall e, e ∈ SplitList (path_env env) -> e <> "" -> ~ runnable (cleaned fs) (PathJoin [e; name])
  end.
Proof.
  intros Ht Hn. rewrite <-look_cleaned by done. unfold lookPathInRoot. rewrite Hn. by apply find_in_path_spec, cleaned_ok.
Qed.

(** *** Concrete roots *)

(** A root given by its entries. *)
Definition files (l : list (list string * fnode)) : fsys := fun p => (list_to_map l : gmap (list string) fnode) !! p.

(** A busybox image: [/bin -> usr/bin], [/usr/bin/sh -> ../../bin/busybox]. *)
Definition busybox_files : list (list string * fnode) := [
  ([], FDir); (["usr"], FDir); (["usr"; "bin"], FDir); (["bin"], FLink "usr/bin");
  (["usr"; "bin"; "busybox"], FFile 0x1ED); (["usr"; "bin"; "sh"], FLink "../../bin/busybox")].
Definition busybox : fsys := files busybox_files.

Lemma files_In l p n : files l p = Some n -> In (p, n) l.
Proof. intros H. apply list_elem_of_In. by apply elem_of_list_to_map_2. Qed.

Lemma busybox_tree : fs_tree busybox.
Proof.
  split.
  - done.
  - intros p x [n Hn]. apply files_In in Hn. cbn in Hn.
    repeat (destruct Hn as [Hn|Hn]; [injection Hn as Hp _;
      (by destruct p) || (destruct p as [|a [|b [|c p]]]; simplify_eq/=; try (by destruct p); reflexivity)|]). done.
  - intros p tgt Hn. apply files_In in Hn. cbn in Hn. by repeat (destruct Hn as [Hn|Hn]; [try discriminate Hn; by injection Hn as _ <-|]).
Qed.
Lemma busybox_tame : tame_links busybox.
Proof.
  intros p tgt Hn. apply files_In in Hn. cbn in Hn.
  repeat (destruct Hn as [Hn|Hn]; [try discriminate Hn|]); [injection Hn as _ <-..|done].
  + split; [done|]. exists [], ["usr"; "bin"]. split; [done|]. split; [done|]. repeat apply Forall_cons_2; done.
  + split; [done|]. exists [".."; ".."], ["bin"; "busybox"]. split; [done|].
    split; repeat apply Forall_cons_2; try done; by right; right.
Qed.

Lemma busybox_sh : resolveInRoot busybox 33 "bin/sh" = Ok "/usr/bin/busybox".
Proof. vm_compute. reflexivity. Qed.

Lemma resolve_is_chroot_walk_witness :
  (exists k r, k <= 32 /\ kres (cleaned busybox) k [] (clean_comps "/bin/sh") r /\ "/usr/bin/busybox" = abs_path r) /\
  exists k r, k <= 32 /\ kres busybox k [] (clean_comps "/bin/sh") r /\ "/usr/bin/busybox" = abs_path r.
Proof.
  destruct (resolve_is_chroot_walk busybox "bin/sh" busybox_tree) as (H1 & _ & _ & H2).
  split; [exact (proj1 (H1 "/usr/bin/busybox") busybox_sh)|exact (proj1 (H2 busybox_tame "/usr/bin/busybox") busybox_sh)].
Defined.

Lemma busybox_look : lookPathInRoot busybox ["PATH=/sbin:/bin"] "sh" = Some "/bin/sh".
Proof. vm_compute. reflexivity. Qed.

Lemma look_path_first_witness :
  match lookPathInRoot busybox ["PATH=/sbin:/bin"] "sh" with
  | Some cand => exists before d after, SplitList (path_env ["PATH=/sbin:/bin"]) = before ++ d :: after /\ d <> "" /\
      cand = PathJoin [d; "sh"] /\ runnable (cleaned busybox) cand /\
      forall e, e ∈ before -> e <> "" -> ~ runnable (cleaned busybox) (PathJoin [e; "sh"])
  | None => forall e, e ∈ SplitList (path_env ["PATH=/sbin:/bin"]) -> e <> "" -> ~ runnable (cleaned busybox) (PathJoin [e; "sh"])
  end.
Proof. exact (look_path_first busybox ["PATH=/sbin:/bin"] "sh" busybox_tree eq_refl). Defined.

(** Without [tame] the two differ: [filepath.Join] removes [b/..] even when
    [b] is a symlink. Here [/a -> b/../x] and [/b -> /c/d]: the kernel's walk
    is [/c/x], the code's [/x]. *)
Definition untamed : fsys := files [
  ([], FDir); (["a"], FLink "b/../x"); (["b"], FLink "/c/d"); (["c"], FDir); (["c"; "d"], FDir);
  (["c"; "x"], FFile 0x1ED); (["x"], FFile 0x1A4)].

Example lexical_join_differs : resolveInRoot untamed 33 "a" = Ok "/x" /\ kres untamed 2 [] ["a"] ["c"; "x"].
Proof.
  split; [vm_compute; reflexivity|]. assert (forall c, c = "a" \/ c = "b" \/ c = "c" \/ c = "d" \/ c = "x" -> plain c) as Hp
    by (intros c [->|[->|[->|[->| ->]]]]; done).
  eapply k_link; [apply Hp; tauto|reflexivity..|]. eapply (k_link _ _ _ _ _ _ "/c/d"); [apply Hp; tauto|reflexivity..|].
  apply k_dot; [by left|done|]. eapply k_step; [apply Hp; tauto|reflexivity|reflexivity|done|].
  eapply k_step; [apply Hp; tauto|reflexivity|reflexivity|done|]. apply k_up; [reflexivity|].
  eapply k_step; [apply Hp; tauto|reflexivity|reflexivity|done|]. apply k_done.
Qed.
