(* ===== verification/ServiceLB.v ===== *)
(** * The in-guest service load balancer (poc/execd/services.go)

    The mark-based data plane: the nftables chain [installBase] builds and an
    evaluator for its expressions, the flow parser, endpoint ids ([idFor]),
    the cache and round robin ([pick]), endpoint removal
    ([reconcileEndpoints]), and the NFQUEUE callback ([on_packet]) that ties
    them together. The kernel's nft map [eps] and the conntrack flushes are
    part of the state. Parsing and printing of IP addresses ([net.ParseIP],
    [net.IP.String]) are parameters. Times are in nanoseconds. *)
From Stdlib Require Import Ascii.
From S2P Require Import Prelude GoStrings SvcProto.

Notation endpoint := (string * Z)%type.

Definition cacheTTL : Z := 10 * 1000000000.
Definition nfQueueNum : Z := 0.

(** ** The rule set *)

Inductive cmp_op := CmpOpEq | CmpOpNeq.

(** The nftables expressions [installBase] uses. *)
Inductive nft_expr :=
| ExPayload (reg off len : nat)          (* network header *)
| ExBitwise (src dst : nat) (mask xor : bytes)
| ExCmp (op : cmp_op) (reg : nat) (data : bytes)
| ExMetaMark (reg : nat)
| ExLookup (src dst : nat)               (* in the map [eps] *)
| ExDnat (regAddr regProto : nat)
| ExQueue (num : Z).

Record ipnet := IPNet { n_ip : bytes; n_mask : bytes }.

Definition matchCIDR (cidr : ipnet) : list nft_expr :=
  [ExPayload 1 24 16; ExBitwise 1 1 (n_mask cidr) (replicate 16 0%Z); ExCmp CmpOpEq 1 (n_ip cidr)].

(** The two rules of the output chain, in order. *)
Definition installBase (cidr : ipnet) : list (list nft_expr) :=
  [ matchCIDR cidr ++
      [ExMetaMark 1; ExCmp CmpOpNeq 1 [0; 0; 0; 0]%Z; ExMetaMark 1; ExLookup 1 1; ExDnat 1 2];
    matchCIDR cidr ++
      [ExMetaMark 1; ExCmp CmpOpEq 1 [0; 0; 0; 0]%Z; ExQueue nfQueueNum] ].

(** The map key of a mark, in native (little-endian) order. *)
Definition markKey (id : Z) : bytes := le_bytes 4 id.

(** What a rule decides for a packet. *)
Inductive nft_verdict := VDnat (addr port : bytes) | VQueue (num : Z) | VContinue.

Notation regs := (gmap nat bytes).

(** A value stored in a 16-byte register spills into the next one. *)
Definition store (r : nat) (v : bytes) (rs : regs) : regs :=
  <[r := take 16 v]> (if bool_decide (16 < length v) then <[S r := drop 16 v]> rs else rs).

Definition load (r : nat) (rs : regs) : bytes := default [] (rs !! r).

(** Evaluation of one rule: an expression that does not match ends the rule. *)
Fixpoint eval_rule (eps : gmap bytes bytes) (pkt : bytes) (mark : Z) (es : list nft_expr) (rs : regs)
  : nft_verdict :=
  match es with
  | [] => VContinue
  | ExPayload r off len :: es' => eval_rule eps pkt mark es' (store r (slice off len pkt) rs)
  | ExBitwise s d mask xor :: es' =>
      eval_rule eps pkt mark es'
        (store d (zip_with Z.lxor (zip_with Z.land (load s rs) mask) xor) rs)
  | ExCmp op r data :: es' =>
      let eq := bool_decide (load r rs = data) in
      if match op with CmpOpEq => eq | CmpOpNeq => negb eq end
      then eval_rule eps pkt mark es' rs else VContinue
  | ExMetaMark r :: es' => eval_rule eps pkt mark es' (store r (markKey mark) rs)
  | ExLookup s d :: es' =>
      match eps !! load s rs with
      | Some v => eval_rule eps pkt mark es' (store d v rs)
      | None => VContinue
      end
  | ExDnat ra rp :: _ => VDnat (load ra rs) (take 2 (load rp rs))
  | ExQueue n :: _ => VQueue n
  end.

(** The first rule that decides. *)
Fixpoint eval_chain (eps : gmap bytes bytes) (pkt : bytes) (mark : Z) (rules : list (list nft_expr))
  : nft_verdict :=
  match rules with
  | [] => VContinue
  | r :: rules' => match eval_rule eps pkt mark r ∅ with
                   | VContinue => eval_chain eps pkt mark rules'
                   | v => v
                   end
  end.

(** ** The balancer *)

Record svcCacheEntry := CacheEntry { e_endpoints : list endpoint; e_expiry : Z; e_rr : Z }.

Record svcLB := SvcLB {
  epID : gmap endpoint Z;
  nextID : Z;
  cache : gmap string svcCacheEntry;
  eps : gmap bytes bytes;      (* the kernel's nft map *)
  flushed : list string        (* conntrack flushes, newest first *)
}.

Definition new_lb : svcLB := SvcLB ∅ 1 ∅ ∅ [].

(** What the nftables library reports for one element addition: the element
    is refused, the flush fails (with or without the kernel having applied
    it), or it is applied. *)
Inductive nft_outcome := NftAddErr | NftFlushErr (applied : bool) | NftOk.

Section LB.
Context (parse_ip : string -> option bytes) (ip_string : bytes -> string).

(** addr(16) + port(2, big-endian) + pad(2); [To16] of a nil IP is nil. *)
Definition ep_val (ep : endpoint) : bytes :=
  default [] (parse_ip ep.1) ++ [u8 (Z.shiftr ep.2 8); u8 ep.2; 0; 0]%Z.

Definition idFor (nft : nft_outcome) (ep : endpoint) (lb : svcLB) : svcLB * result string Z :=
  match epID lb !! ep with
  | Some id => (lb, Ok id)
  | None =>
      let id := nextID lb in
      let lb := SvcLB (epID lb) (u32 (id + 1)) (cache lb) (eps lb) (flushed lb) in
      let applied := SvcLB (epID lb) (nextID lb) (cache lb) (<[markKey id := ep_val ep]> (eps lb)) (flushed lb) in
      match nft with
      | NftAddErr => (lb, Err "add element")
      | NftFlushErr false => (lb, Err "flush")
      | NftFlushErr true => (applied, Err "flush")
      | NftOk =>
          (SvcLB (<[ep := id]> (epID applied)) (nextID applied) (cache applied) (eps applied) (flushed applied),
           Ok id)
      end
  end.

(** The endpoints [reconcileEndpoints] flushes: those of the previous entry
    that are not in the new set. *)
Definition gone (old : option svcCacheEntry) (newEps : list endpoint) : list endpoint :=
  match old with
  | None => []
  | Some e => filter (fun ep => ep ∉ newEps) (e_endpoints e)
  end.

Definition reconcileEndpoints (old : option svcCacheEntry) (newEps : list endpoint) (lb : svcLB) : svcLB :=
  SvcLB (epID lb) (nextID lb) (cache lb) (eps lb) (reverse (fst <$> gone old newEps) ++ flushed lb).

Definition cache_key (vip : string) (port : Z) (proto : string) : string :=
  vip +:+ ":" +:+ pretty port +:+ ":" +:+ proto.

(** The lifetime of an answer; a non-positive one means the default. *)
Definition ttl_of (ans : svcAnswer) : Z :=
  let ttl := (TTLSeconds ans * 1000000000)%Z in
  if bool_decide (ttl <= 0)%Z then cacheTTL else ttl.

(** A cache miss in [pick]: ask the source, flush what disappeared, install
    the new entry (the cursor survives). The clock is read again once the
    answer is there, at [after]. *)
Definition ask `{ServiceSource} (after : Z) (vip : string) (port : Z) (proto : string) (lb : svcLB)
  : svcLB * result string svcCacheEntry :=
  let key := cache_key vip port proto in
  let ent := cache lb !! key in
  match answer (SvcQuery vip port proto "" "") with
  | Err e => (lb, Err e)
  | Crash c => (lb, Crash c)
  | Ok ans =>
      if bool_decide (Error ans = "") then
        let newEps := (fun a => (a, TargetPort ans)) <$> Endpoints ans in
        let lb := reconcileEndpoints ent newEps lb in
        let e := CacheEntry newEps (after + ttl_of ans) (from_option e_rr 0%Z ent) in
        (SvcLB (epID lb) (nextID lb) (<[key := e]> (cache lb)) (eps lb) (flushed lb), Ok e)
      else (lb, Err (Error ans))
  end.

(** The cached entry, refreshed when there is none or it has expired. *)
Definition refresh `{ServiceSource} (now after : Z) (vip : string) (port : Z) (proto : string) (lb : svcLB)
  : svcLB * result string svcCacheEntry :=
  match cache lb !! cache_key vip port proto with
  | None => ask after vip port proto lb
  | Some e => if bool_decide (now > e_expiry e)%Z then ask after vip port proto lb else (lb, Ok e)
  end.

(** The endpoint an entry's cursor selects. *)
Definition select (e : svcCacheEntry) : option endpoint :=
  e_endpoints e !! Z.to_nat (Z.rem (e_rr e) (Z.of_nat (length (e_endpoints e)))).

Definition pick `{ServiceSource} (now after : Z) (nft : nft_outcome) (vip : string) (port : Z) (proto : string)
    (lb : svcLB) : svcLB * result string Z :=
  match refresh now after vip port proto lb with
  | (lb, Err e) => (lb, Err e)
  | (lb, Crash c) => (lb, Crash c)
  | (lb, Ok ent) =>
      if bool_decide (e_endpoints ent = []) then (lb, Ok 0%Z)
      else
        match select ent with
        | None => (lb, Crash IndexRange)
        | Some ep =>
            let ent := CacheEntry (e_endpoints ent) (e_expiry ent) (e_rr ent + 1) in
            idFor nft ep
              (SvcLB (epID lb) (nextID lb) (<[cache_key vip port proto := ent]> (cache lb)) (eps lb) (flushed lb))
        end
  end.

(** ** Packets *)

Definition IPPROTO_TCP : Z := 6.
Definition IPPROTO_UDP : Z := 17.

(** [parseFlow]: destination address, port and protocol of an IPv6 packet
    with a TCP or UDP header right after the fixed header. *)
Definition parseFlow (pkt : bytes) : option (string * Z * string) :=
  if bool_decide (length pkt < 44) || negb (bool_decide (Z.shiftr (pkt !!! 0) 4 = 6%Z)) then None
  else
    let nh := pkt !!! 6 in
    let proto := if bool_decide (nh = IPPROTO_TCP) then Some "tcp"
                 else if bool_decide (nh = IPPROTO_UDP) then Some "udp" else None in
    match proto with
    | None => None
    | Some proto => Some (ip_string (slice 24 16 pkt), be_val (slice 42 2 pkt), proto)
    end.

(** The verdict of the queue callback: none (a malformed notification), drop,
    or repeat the packet with a mark set. *)
Inductive nfq_verdict := NoVerdict | NfDrop | NfRepeat (mark : Z).

(** The callback [fn] of [serve]. *)
Definition on_packet `{ServiceSource} (now after : Z) (nft : nft_outcome) (packetID : option Z) (payload : option bytes)
    (lb : svcLB) : svcLB * nfq_verdict :=
  match packetID, payload with
  | Some _, Some pkt =>
      match parseFlow pkt with
      | None => (lb, NfDrop)
      | Some (vip, port, proto) =>
          match pick now after nft vip port proto lb with
          | (lb', Ok mark) => (lb', if bool_decide (mark = 0%Z) then NfDrop else NfRepeat mark)
          | (lb', _) => (lb', NfDrop)
          end
      end
  | _, _ => (lb, NoVerdict)
  end.

(** ** Histories *)

(** One past packet: the agent's state then, the time, and the time when a
    query had been answered, if there was one, the library outcome and the
    notification. *)
Record arrival := Arrival {
  ar_source : ServiceSource; ar_now : Z; ar_after : Z; ar_nft : nft_outcome;
  ar_id : option Z; ar_payload : option bytes
}.

Definition run_arrivals (l : list arrival) (lb : svcLB) : svcLB :=
  foldl (fun lb a => (@on_packet (ar_source a) (ar_now a) (ar_after a) (ar_nft a) (ar_id a) (ar_payload a) lb).1) lb l.

(** ** Invariants *)

(** Ids are allocated from 1, distinct endpoints have distinct ids, and the
    kernel map has the element of every endpoint that has an id. *)
Definition ids_ok (lb : svcLB) : Prop :=
  (1 <= nextID lb)%Z /\
  (forall ep id, epID lb !! ep = Some id ->
     (1 <= id < nextID lb)%Z /\ eps lb !! markKey id = Some (ep_val ep)) /\
  (forall ep1 ep2 id, epID lb !! ep1 = Some id -> epID lb !! ep2 = Some id -> ep1 = ep2).

Definition service_query (vip : string) (port : Z) (proto : string) : svcQuery :=
  SvcQuery vip port proto "" "".

(** Where a cache entry comes from: an answer one of the arrivals got, to the
    query of this key; [lifetime] bounds how old it is. *)
Definition entry_from (l : list arrival) (key : string) (e : svcCacheEntry) : Prop :=
  exists a vip port proto ans, a ∈ l /\ key = cache_key vip port proto /\ no_char ":"%char proto /\
    @answer (ar_source a) (service_query vip port proto) = Ok ans /\ Error ans = "" /\
    e_endpoints e = (fun x => (x, TargetPort ans)) <$> Endpoints ans /\
    e_expiry e = (ar_after a + ttl_of ans)%Z.

Definition cache_ok (l : list arrival) (lb : svcLB) : Prop :=
  forall key e, cache lb !! key = Some e -> (0 <= e_rr e)%Z /\ entry_from l key e.

Lemma new_lb_ids : ids_ok new_lb.
Proof. split; [cbn; lia|]. split; intros *; cbn; by rewrite lookup_empty. Qed.

Lemma markKey_inj a b : (0 <= a < u32max)%Z -> (0 <= b < u32max)%Z -> markKey a = markKey b -> a = b.
Proof.
  intros Ha Hb H. rewrite <-(le_val_small 4 a), <-(le_val_small 4 b) by (cbn; lia).
  by unfold markKey in H; rewrite H.
Qed.

Lemma cache_key_inj v1 p1 t1 v2 p2 t2 :
  no_char ":"%char t1 -> no_char ":"%char t2 -> cache_key v1 p1 t1 = cache_key v2 p2 t2 ->
  v1 = v2 /\ p1 = p2 /\ t1 = t2.
Proof.
  intros H1 H2. unfold cache_key.
  assert (forall v (p : Z) t, v +:+ ":" +:+ pretty p +:+ ":" +:+ t =
            (v +:+ String ":"%char (pretty p)) +:+ String ":"%char t) as Hk.
  { intros. rewrite str_app_assoc. done. }
  rewrite !Hk. intros H. apply last_sep_inj in H as [H ->]; [|done..].
  apply last_sep_inj in H as [-> H]; [|apply pretty_Z_no_colon..].
  by apply (inj pretty) in H as ->.
Qed.

(** [idFor] keeps the ids consistent while ids last, and what it returns is
    the endpoint's id. *)
Lemma idFor_ids nft ep lb lb' r :
  ids_ok lb -> (nextID lb + 1 < u32max)%Z -> idFor nft ep lb = (lb', r) ->
  ids_ok lb' /\ (nextID lb' <= nextID lb + 1)%Z /\ cache lb' = cache lb /\
  (forall id, r = Ok id -> epID lb' !! ep = Some id).
Proof.
  intros (H1 & H2 & H3) Hmax. unfold idFor. destruct (epID lb !! ep) as [id|] eqn:Hid.
  { intros [= <- <-]. split_and!; [done..|lia|done|naive_solver]. }
  rewrite u32_small by lia.
  assert (Hnew : forall e id, epID lb !! e = Some id -> markKey (nextID lb) <> markKey id).
  { intros e id He Hk. destruct (H2 _ _ He) as [Hr _]. apply markKey_inj in Hk; lia. }
  destruct nft as [|[]|]; intros [= <- <-]; cbn.
  - split_and!; [|lia|done|done]. split_and!; cbn; [lia| |done].
    intros e id He. destruct (H2 e id He). split; [lia|done].
  - split_and!; [|lia|done|done]. split_and!; cbn; [lia| |done].
    intros e id He. destruct (H2 e id He). split; [lia|]. rewrite lookup_insert_ne; eauto.
  - split_and!; [|lia|done|done]. split_and!; cbn; [lia| |done].
    intros e id He. destruct (H2 e id He). split; [lia|done].
  - split_and!; [|lia|done|by intros id [= <-]; rewrite lookup_insert_eq]. split_and!; cbn; [lia| |].
    + intros e id He. destruct (decide (e = ep)) as [->|Hne].
      * rewrite lookup_insert_eq in He. injection He as <-. split; [lia|]. by rewrite lookup_insert_eq.
      * rewrite lookup_insert_ne in He by done. destruct (H2 e id He). split; [lia|].
        rewrite lookup_insert_ne; eauto.
    + intros e1 e2 id He1 He2. rewrite lookup_insert in He1, He2.
      repeat case_decide; simplify_eq; eauto;
        match goal with He : epID lb !! _ = Some _ |- _ => destruct (H2 _ _ He); lia end.
Qed.

Definition fresh_entry `{ServiceSource} (after : Z) (vip : string) (port : Z) (proto : string) (rr : Z)
    (e : svcCacheEntry) : Prop :=
  exists ans, answer (service_query vip port proto) = Ok ans /\ Error ans = "" /\
    e_endpoints e = (fun x => (x, TargetPort ans)) <$> Endpoints ans /\
    e_expiry e = (after + ttl_of ans)%Z /\ e_rr e = rr.

Lemma ask_spec `{ServiceSource} after vip port proto lb lb' r :
  ask after vip port proto lb = (lb', r) ->
  epID lb' = epID lb /\ nextID lb' = nextID lb /\ eps lb' = eps lb /\
  match r with
  | Ok e => cache lb' = <[cache_key vip port proto := e]> (cache lb) /\
      fresh_entry after vip port proto (from_option e_rr 0%Z (cache lb !! cache_key vip port proto)) e
  | _ => cache lb' = cache lb
  end.
Proof.
  unfold ask. change (SvcQuery vip port proto "" "") with (service_query vip port proto).
  destruct (answer (service_query vip port proto)) as [ans|e|c] eqn:Hans; [|by intros [= <- <-]..].
  case_bool_decide as He; intros [= <- <-]; [|done]. cbn. split_and!; [done..|].
  exists ans. done.
Qed.

Lemma refresh_spec `{ServiceSource} now after vip port proto lb lb' r :
  refresh now after vip port proto lb = (lb', r) ->
  epID lb' = epID lb /\ nextID lb' = nextID lb /\ eps lb' = eps lb /\
  match r with
  | Ok e => cache lb' = <[cache_key vip port proto := e]> (cache lb) /\
      (cache lb !! cache_key vip port proto = Some e /\ (now <= e_expiry e)%Z \/
       fresh_entry after vip port proto (from_option e_rr 0%Z (cache lb !! cache_key vip port proto)) e)
  | _ => cache lb' = cache lb
  end.
Proof.
  unfold refresh. intros Hr.
  assert (ask after vip port proto lb = (lb', r) \/
    exists e, cache lb !! cache_key vip port proto = Some e /\ (now <= e_expiry e)%Z /\ lb' = lb /\ r = Ok e)
    as [Ha|(e & Hc & Hexp & -> & ->)].
  { destruct (cache lb !! _) as [e|]; [|by left]. case_bool_decide; [by left|right].
    injection Hr as <- <-. exists e. split_and!; [done|lia|done|done]. }
  - apply ask_spec in Ha as (H1 & H2 & H3 & H4). split_and!; [done..|].
    destruct r; [|done..]. destruct H4. split; [done|by right].
  - split_and!; [done..| |by left]. by rewrite insert_id.
Qed.

(** What a successful [pick] returns: 0 when the (possibly refreshed) entry
    has no endpoints, else the id of the endpoint its cursor selects. *)
Lemma pick_ok `{ServiceSource} now after nft vip port proto lb lb' mark :
  pick now after nft vip port proto lb = (lb', Ok mark) ->
  exists lb1 e, refresh now after vip port proto lb = (lb1, Ok e) /\
    ((e_endpoints e = [] /\ mark = 0%Z /\ lb' = lb1) \/
     exists ep, select e = Some ep /\
       idFor nft ep (SvcLB (epID lb1) (nextID lb1)
         (<[cache_key vip port proto := CacheEntry (e_endpoints e) (e_expiry e) (e_rr e + 1)]> (cache lb1))
         (eps lb1) (flushed lb1)) = (lb', Ok mark)).
Proof.
  unfold pick. destruct (refresh now after vip port proto lb) as [lb1 [e|err|c]]; [|done..].
  case_bool_decide as Hn; [intros [= <- <-]; exists lb1, e; by auto|].
  destruct (select e) as [ep|] eqn:Hs; [|done]. intros Hi. exists lb1, e. split; [done|]. right. by exists ep.
Qed.

Lemma select_elem e ep : select e = Some ep -> ep ∈ e_endpoints e.
Proof. unfold select. apply list_elem_of_lookup_2. Qed.

Lemma select_some e : (0 <= e_rr e)%Z -> e_endpoints e <> [] -> is_Some (select e).
Proof.
  intros Hr Hne. unfold select. apply lookup_lt_is_Some_2.
  assert (0 < length (e_endpoints e)) by (destruct (e_endpoints e); cbn; [done|lia]).
  pose proof (Z.rem_bound_pos (e_rr e) (Z.of_nat (length (e_endpoints e)))). lia.
Qed.

Lemma ttl_of_pos ans : (0 < ttl_of ans)%Z.
Proof. unfold ttl_of, cacheTTL. case_bool_decide; lia. Qed.

Lemma entry_from_weaken l a key e : entry_from l key e -> entry_from (l ++ [a]) key e.
Proof. intros (x & v & p & t & ans & Hx & Hr). exists x, v, p, t, ans. split; [set_solver|done]. Qed.

Lemma entry_from_rr l key e rr :
  entry_from l key e -> entry_from l key (CacheEntry (e_endpoints e) (e_expiry e) rr).
Proof. done. Qed.

(** [refresh] by an arrival [a] leaves a cache whose entries come from the
    extended history. *)
Lemma refresh_cache_ok l a vip port proto lb lb' r :
  cache_ok l lb -> no_char ":"%char proto -> (ar_now a <= ar_after a)%Z ->
  @refresh (ar_source a) (ar_now a) (ar_after a) vip port proto lb = (lb', r) ->
  cache_ok (l ++ [a]) lb' /\
  (forall e, r = Ok e -> (0 <= e_rr e)%Z /\ entry_from (l ++ [a]) (cache_key vip port proto) e /\
     (ar_now a <= e_expiry e)%Z).
Proof.
  intros Hc Hp Hclock Hr. destruct (@refresh_spec (ar_source a) _ _ _ _ _ _ _ _ Hr) as (_ & _ & _ & Hsp).
  assert (Hold : forall key e, cache lb !! key = Some e -> (0 <= e_rr e)%Z /\ entry_from (l ++ [a]) key e).
  { intros key e He. destruct (Hc _ _ He). split; [done|by apply entry_from_weaken]. }
  destruct r as [e|err|k]; [|split; [|done]; intros key e He; rewrite Hsp in He; by apply Hold..].
  destruct Hsp as [Hcache Hcase].
  assert ((0 <= e_rr e)%Z /\ entry_from (l ++ [a]) (cache_key vip port proto) e /\
          (ar_now a <= e_expiry e)%Z) as He.
  { destruct Hcase as [[Hl Hexp]|(ans & Ha & Herr & Heps & Hexp & Hrr)].
    { destruct (Hold _ _ Hl). done. }
    split_and!; [| |rewrite Hexp; pose proof (ttl_of_pos ans); lia].
    - rewrite Hrr. destruct (cache lb !! _) as [e0|] eqn:H0; cbn; [by apply (Hc _ _ H0)|lia].
    - exists a, vip, port, proto, ans. split_and!; try done. set_solver. }
  split; [|by intros ? [= <-]]. intros key e' He'. rewrite Hcache in He'.
  destruct (decide (cache_key vip port proto = key)) as [<-|Hne].
  - rewrite lookup_insert_eq in He'. injection He' as <-. naive_solver.
  - rewrite lookup_insert_ne in He' by done. by apply Hold.
Qed.

Lemma cache_ok_bump l lb key e :
  cache_ok l lb -> (0 <= e_rr e)%Z -> entry_from l key e ->
  cache_ok l (SvcLB (epID lb) (nextID lb)
    (<[key := CacheEntry (e_endpoints e) (e_expiry e) (e_rr e + 1)]> (cache lb)) (eps lb) (flushed lb)).
Proof.
  intros Hc Hr He k e' Hk. cbn in Hk. destruct (decide (key = k)) as [<-|Hne].
  - rewrite lookup_insert_eq in Hk. injection Hk as <-. cbn. split; [lia|by apply entry_from_rr].
  - rewrite lookup_insert_ne in Hk by done. by apply Hc.
Qed.

Lemma ids_ok_cache lb c fl : ids_ok lb -> ids_ok (SvcLB (epID lb) (nextID lb) c (eps lb) fl).
Proof. done. Qed.

(** Every [pick] keeps both invariants; a non-zero mark is the id of an
    endpoint of an entry from the history. *)
Lemma pick_inv l a vip port proto lb lb' r :
  ids_ok lb -> cache_ok l lb -> (nextID lb + 1 < u32max)%Z -> no_char ":"%char proto -> (ar_now a <= ar_after a)%Z ->
  @pick (ar_source a) (ar_now a) (ar_after a) (ar_nft a) vip port proto lb = (lb', r) ->
  ids_ok lb' /\ cache_ok (l ++ [a]) lb' /\ (nextID lb' <= nextID lb + 1)%Z /\
  (forall mark, r = Ok mark -> mark <> 0%Z -> exists e ep,
     entry_from (l ++ [a]) (cache_key vip port proto) e /\ ep ∈ e_endpoints e /\
     epID lb' !! ep = Some mark /\ (ar_now a <= e_expiry e)%Z).
Proof.
  intros Hids Hc Hmax Hp Hclock. unfold pick.
  destruct (@refresh (ar_source a) _ _ _ _ _ _) as [lb1 r1] eqn:Hr.
  destruct (refresh_cache_ok _ _ _ _ _ _ _ _ Hc Hp Hclock Hr) as [Hc1 He1].
  destruct (@refresh_spec (ar_source a) _ _ _ _ _ _ _ _ Hr) as (Hid & Hnext & Heps & _).
  assert (ids_ok lb1) as Hids1 by (unfold ids_ok in *; by rewrite Hid, Hnext, Heps).
  destruct r1 as [e|err|k]; [|by intros [= <- <-]; split_and!; [done..|lia|done]..].
  destruct (He1 e eq_refl) as (Hrr & Hfrom & Hexp).
  case_bool_decide as Hn; [intros [= <- <-]; split_and!; [done..|lia|by intros ? [= <-]]|].
  destruct (select e) as [ep|] eqn:Hs; [|by intros [= <- <-]; split_and!; [done..|lia|done]].
  intros Hf. eapply idFor_ids in Hf as (H1 & H2 & H3 & H4); [|by apply ids_ok_cache|cbn; lia].
  cbn in H2, H3. split_and!; [done| |lia|].
  - intros key e' Hk. rewrite H3 in Hk. by eapply (cache_ok_bump (l ++ [a]) lb1).
  - intros mark Hm Hz. exists e, ep. split_and!; [done|by apply select_elem|by apply H4|done].
Qed.

Lemma parseFlow_proto pkt vip port proto :
  parseFlow pkt = Some (vip, port, proto) -> proto = "tcp" \/ proto = "udp".
Proof. unfold parseFlow. repeat case_bool_decide; case_match; naive_solver. Qed.

Lemma parseFlow_no_colon pkt vip port proto :
  parseFlow pkt = Some (vip, port, proto) -> no_char ":"%char proto.
Proof. intros [-> | ->]%parseFlow_proto; done. Qed.

Lemma cache_ok_weaken l a lb : cache_ok l lb -> cache_ok (l ++ [a]) lb.
Proof. intros Hc key e He. destruct (Hc _ _ He). split; [done|by apply entry_from_weaken]. Qed.

Definition arrive (lb : svcLB) (a : arrival) : svcLB * nfq_verdict :=
  @on_packet (ar_source a) (ar_now a) (ar_after a) (ar_nft a) (ar_id a) (ar_payload a) lb.

Lemma arrive_inv l a lb :
  ids_ok lb -> cache_ok l lb -> (nextID lb + 1 < u32max)%Z -> (ar_now a <= ar_after a)%Z ->
  ids_ok (arrive lb a).1 /\ cache_ok (l ++ [a]) (arrive lb a).1 /\ (nextID (arrive lb a).1 <= nextID lb + 1)%Z.
Proof.
  intros Hids Hc Hmax Hclock. unfold arrive, on_packet.
  assert (ids_ok lb /\ cache_ok (l ++ [a]) lb /\ (nextID lb <= nextID lb + 1)%Z) as Hsame.
  { split_and!; [done|by apply cache_ok_weaken|lia]. }
  destruct (ar_id a) as [id|]; [|done]. destruct (ar_payload a) as [pkt|]; [|done].
  destruct (parseFlow pkt) as [[[vip port] proto]|] eqn:Hp; [|done].
  destruct (@pick (ar_source a) _ _ _ _ _ _ _) as [lb' r] eqn:Hpick.
  eapply pick_inv in Hpick as (H1 & H2 & H3 & _); eauto using parseFlow_no_colon.
  destruct r; done.
Qed.

(** The clock does not go back during a query. *)
Definition clock_ok (a : arrival) : Prop := (ar_now a <= ar_after a)%Z.

Lemma run_arrivals_inv l :
  (Z.of_nat (length l) + 2 < u32max)%Z -> Forall clock_ok l ->
  let lb := run_arrivals l new_lb in
  ids_ok lb /\ cache_ok l lb /\ (nextID lb <= 1 + Z.of_nat (length l))%Z.
Proof.
  induction l as [|a l IH] using rev_ind; intros Hlen Hclock.
  { split_and!; [apply new_lb_ids| |cbn; lia]. intros key e. cbn. by rewrite lookup_empty. }
  rewrite length_app in Hlen. cbn in Hlen. apply Forall_app in Hclock as [Hclock [Ha _]%Forall_cons].
  destruct IH as (H1 & H2 & H3); [lia|done|].
  unfold run_arrivals. rewrite foldl_app. cbn [foldl].
  destruct (arrive_inv l a (run_arrivals l new_lb) H1 H2) as (H1' & H2' & H3'); [lia|done|].
  unfold run_arrivals, arrive in *. split_and!; [done..|]. rewrite length_app. cbn [length]. lia.
Qed.

(** *** The chain *)

(** The destination address of the packet is in the service CIDR. *)
Definition in_cidr (cidr : ipnet) (pkt : bytes) : Prop :=
  zip_with Z.land (slice 24 16 pkt) (n_mask cidr) = n_ip cidr.

#[local] Instance in_cidr_dec cidr pkt : Decision (in_cidr cidr pkt).
Proof. unfold in_cidr. apply _. Defined.

Lemma zip_lxor_zero (l : bytes) n : length l = n -> zip_with Z.lxor l (replicate n 0%Z) = l.
Proof.
  revert n. induction l as [|x l IH]; intros [|n] H; try done. cbn. rewrite Z.lxor_0_r.
  f_equal. apply IH. by injection H.
Qed.

Lemma load_store r v rs : length v <= 16 -> load r (store r v rs) = v.
Proof. intros H. unfold load, store. rewrite lookup_insert_eq. cbn. by apply take_ge. Qed.

Lemma store_short r v rs : length v <= 16 -> store r v rs = <[r := v]> rs.
Proof. intros H. unfold store. rewrite bool_decide_false by lia. by rewrite take_ge. Qed.

Lemma load_store_next r v rs :
  load (S r) (store r v rs) = if bool_decide (16 < length v) then drop 16 v else load (S r) rs.
Proof.
  unfold load, store. rewrite lookup_insert_ne by lia. case_bool_decide; [|done].
  by rewrite lookup_insert_eq.
Qed.

Lemma length_markKey id : length (markKey id) = 4.
Proof. apply length_le_bytes. Qed.

Lemma markKey_zero mark : (0 <= mark < u32max)%Z -> markKey mark = [0; 0; 0; 0]%Z <-> mark = 0%Z.
Proof.
  intros Hm. change [0; 0; 0; 0]%Z with (markKey 0). split; [|by intros ->].
  intros H. by apply markKey_inj in H; [|lia..].
Qed.

Lemma eval_matchCIDR kmap pkt mark cidr es :
  40 <= length pkt -> length (n_mask cidr) = 16 ->
  eval_rule kmap pkt mark (matchCIDR cidr ++ es) ∅ =
  if bool_decide (in_cidr cidr pkt)
  then eval_rule kmap pkt mark es (store 1 (n_ip cidr) (store 1 (slice 24 16 pkt) ∅))
  else VContinue.
Proof.
  intros Hl Hm. assert (length (slice 24 16 pkt) = 16) as Hs by (apply length_slice; lia).
  assert (length (zip_with Z.land (slice 24 16 pkt) (n_mask cidr)) = 16) as Hz.
  { rewrite length_zip_with. lia. }
  unfold matchCIDR. cbn [app eval_rule]. rewrite (load_store 1 (slice 24 16 pkt)) by lia.
  rewrite zip_lxor_zero by done. rewrite load_store by lia.
  destruct (decide (in_cidr cidr pkt)) as [Hc|Hc].
  - rewrite !bool_decide_true by done. by rewrite Hc.
  - by rewrite !bool_decide_false by done.
Qed.

(** What the chain decides, as the comment in the source states it. *)
Lemma chain_spec kmap pkt mark cidr :
  40 <= length pkt -> length (n_mask cidr) = 16 -> (0 <= mark < u32max)%Z ->
  eval_chain kmap pkt mark (installBase cidr) =
  if bool_decide (in_cidr cidr pkt) then
    if bool_decide (mark = 0%Z) then VQueue nfQueueNum
    else match kmap !! markKey mark with
         | Some v => VDnat (take 16 v) (take 2 (drop 16 v))
         | None => VContinue
         end
  else VContinue.
Proof.
  intros Hl Hm Hr. unfold installBase. cbn [eval_chain]. rewrite !eval_matchCIDR by done.
  case_bool_decide as Hc; [|done]. cbn [eval_rule].
  rewrite !load_store by (rewrite length_markKey; lia).
  pose proof (markKey_zero mark Hr) as Hz. case_bool_decide as Hmk; cbn [negb].
  - rewrite bool_decide_true by naive_solver. done.
  - rewrite bool_decide_false by naive_solver.
    destruct (kmap !! markKey mark) as [v|] eqn:Hv; [|done].
    unfold load at 1, store at 1. rewrite lookup_insert_eq.
    rewrite load_store_next. case_bool_decide; [done|].
    assert (length (n_ip cidr) = 16) as Hn.
    { unfold in_cidr in Hc. rewrite <-Hc, length_zip_with, length_slice; lia. }
    rewrite !load_store_next, !length_markKey, Hn, length_slice by lia. cbn.
    by rewrite (drop_ge v) by lia.
Qed.

(** *** Ids only grow *)

Lemma idFor_mono nft ep0 lb lb' r ep id :
  idFor nft ep0 lb = (lb', r) -> epID lb !! ep = Some id -> epID lb' !! ep = Some id.
Proof.
  unfold idFor. destruct (epID lb !! ep0) eqn:H0; [by intros [= <- <-]|].
  destruct nft as [|[]|]; intros [= <- <-] H; cbn; try done.
  rewrite lookup_insert_ne; [done|]. intros ->. congruence.
Qed.

Lemma arrive_mono lb a ep id : epID lb !! ep = Some id -> epID (arrive lb a).1 !! ep = Some id.
Proof.
  intros H. unfold arrive, on_packet. destruct (ar_id a); [|done]. destruct (ar_payload a) as [pkt|]; [|done].
  destruct (parseFlow pkt) as [[[vip port] proto]|]; [|done]. unfold pick.
  destruct (@refresh (ar_source a) _ _ _ _ _ _) as [lb1 r1] eqn:Hr.
  apply (@refresh_spec (ar_source a)) in Hr as (Hid & _).
  destruct r1 as [e|err|k]; [|by cbn; rewrite Hid..]. case_bool_decide; [by cbn; rewrite Hid|].
  destruct (select e) as [ep'|]; [|by cbn; rewrite Hid].
  destruct (idFor _ _ _) as [lb2 r2] eqn:Hf. apply (idFor_mono _ _ _ _ _ ep id) in Hf; [|by cbn; rewrite Hid].
  by destruct r2.
Qed.

Lemma run_arrivals_mono l lb ep id :
  epID lb !! ep = Some id -> epID (run_arrivals l lb) !! ep = Some id.
Proof.
  revert lb. induction l as [|a l IH]; intros lb H; [done|]. apply (IH (arrive lb a).1). by apply arrive_mono.
Qed.

(** *** Consecutive picks *)

(** One [pick] per entry of [nows], with a kernel that takes the elements. *)
Fixpoint picks `{ServiceSource} (nows : list (Z * Z)) (vip : string) (port : Z) (proto : string) (lb : svcLB)
  : svcLB * list (result string Z) :=
  match nows with
  | [] => (lb, [])
  | (now, after) :: nows' =>
      let '(lb1, r) := pick now after NftOk vip port proto lb in
      let '(lb2, rs) := picks nows' vip port proto lb1 in (lb2, r :: rs)
  end.

Lemma idFor_ok ep lb : exists lb' id, idFor NftOk ep lb = (lb', Ok id) /\ epID lb' !! ep = Some id /\ cache lb' = cache lb.
Proof.
  unfold idFor. destruct (epID lb !! ep) as [id|] eqn:H; [by exists lb, id|].
  eexists _, _. split_and!; [done| |done]. cbn. by rewrite lookup_insert_eq.
Qed.

(** One pick from a live entry selects at the cursor and advances it. *)
Lemma pick_live `{ServiceSource} now after vip port proto lb e ep :
  cache lb !! cache_key vip port proto = Some e -> (now <= e_expiry e)%Z -> select e = Some ep ->
  exists lb' id, pick now after NftOk vip port proto lb = (lb', Ok id) /\ epID lb' !! ep = Some id /\
    cache lb' !! cache_key vip port proto = Some (CacheEntry (e_endpoints e) (e_expiry e) (e_rr e + 1)) /\
    (forall ep id, epID lb !! ep = Some id -> epID lb' !! ep = Some id).
Proof.
  intros Hc Hexp Hs. unfold pick, refresh. rewrite Hc. rewrite bool_decide_false by lia.
  rewrite bool_decide_false by (apply select_elem in Hs; intros He; rewrite He in Hs; set_solver).
  rewrite Hs. match goal with |- context [idFor NftOk ep ?l] => destruct (idFor_ok ep l) as (lb' & id & Hf & H1 & H2) end.
  exists lb', id. rewrite Hf. split_and!; [done|done|by rewrite H2; cbn; rewrite lookup_insert_eq|].
  intros ep' id' H'. by eapply idFor_mono.
Qed.

Lemma picks_live `{ServiceSource} nows vip port proto lb e :
  cache lb !! cache_key vip port proto = Some e -> (0 <= e_rr e)%Z -> e_endpoints e <> [] ->
  Forall (fun now => now.1 <= e_expiry e)%Z nows ->
  let n := length (e_endpoints e) in
  exists ids, (picks nows vip port proto lb).2 = Ok <$> ids /\ length ids = length nows /\
    (forall ep id, epID lb !! ep = Some id -> epID (picks nows vip port proto lb).1 !! ep = Some id) /\
    forall i id, ids !! i = Some id -> exists ep,
      e_endpoints e !! ((Z.to_nat (e_rr e) + i) `mod` n) = Some ep /\
    epID (picks nows vip port proto lb).1 !! ep = Some id.
Proof.
  revert lb e. induction nows as [|[now after] nows IH]; intros lb e Hc Hr Hne Hn n; [by exists []|].
  apply Forall_cons in Hn as [Hnow Hn]. cbn [picks].
  destruct (select_some e Hr Hne) as [ep Hep].
  destruct (pick_live now after vip port proto lb e ep Hc Hnow Hep) as (lb1 & id & Hp & Hid & Hc1 & Hm). rewrite Hp.
  destruct (IH lb1 _ Hc1) as (ids & H1 & H2 & Hm2 & H3); [cbn; lia|done|done|]. cbn [e_endpoints e_rr] in H3.
  destruct (picks nows vip port proto lb1) as [lb2 rs]. cbn in *. exists (id :: ids). subst rs.
  split_and!; [done|by rewrite <-H2|by eauto|]. intros [|i] id' Hi; cbn in Hi.
  - injection Hi as <-. exists ep. split; [|by apply Hm2]. unfold select in Hep. rewrite <-Hep. f_equal.
    rewrite Z.rem_mod_nonneg by (unfold n; destruct (e_endpoints e); cbn; [done|lia..]).
    unfold n. rewrite Z2Nat.inj_mod, Nat2Z.id by lia. f_equal. lia.
  - destruct (H3 i id' Hi) as (ep' & He & ?). exists ep'. split; [|done].
    rewrite <-He. f_equal. unfold n. f_equal. lia.
Qed.

(** *** The flow of a packet *)

(** A well-formed IPv6 packet without extension headers. *)
Definition ipv6_packet (h : Z) (flow len : bytes) (nh hop : Z) (src dst : bytes) (sport dport : Z) (rest : bytes) : bytes :=
  (h :: flow) ++ len ++ [nh; hop] ++ src ++ dst ++ be_bytes 2 sport ++ be_bytes 2 dport ++ rest.

Lemma parseFlow_packet h flow len nh hop src dst sport dport rest :
  Z.shiftr h 4 = 6%Z -> length flow = 3 -> length len = 2 -> length src = 16 -> length dst = 16 ->
  (0 <= dport < u16max)%Z ->
  parseFlow (ipv6_packet h flow len nh hop src dst sport dport rest) =
  (if bool_decide (nh = IPPROTO_TCP) then Some (ip_string dst, dport, "tcp")
   else if bool_decide (nh = IPPROTO_UDP) then Some (ip_string dst, dport, "udp") else None).
Proof.
  intros Hh Hf Hl Hs Hd Hp.
  destruct flow as [|f1 [|f2 [|f3 [|]]]]; try done. destruct len as [|l1 [|l2 [|]]]; try done.
  set (pkt := ipv6_packet _ _ _ _ _ _ _ _ _ _).
  assert (length pkt = 44 + length rest) as Hlen.
  { unfold pkt, ipv6_packet. rewrite !length_app, !length_be_bytes. cbn. lia. }
  assert (slice 24 16 pkt = dst) as Hdst.
  { unfold pkt, ipv6_packet.
    change ((h :: [f1; f2; f3]) ++ [l1; l2] ++ [nh; hop] ++ src ++ ?r) with
      ([h; f1; f2; f3; l1; l2; nh; hop] ++ src ++ r).
    rewrite app_assoc. apply slice_app_mid; [rewrite length_app; cbn; lia|done]. }
  assert (slice 42 2 pkt = be_bytes 2 dport) as Hport.
  { unfold pkt, ipv6_packet. rewrite !app_assoc. rewrite <-app_assoc.
    apply slice_app_mid; rewrite ?length_app, ?length_be_bytes; cbn; lia. }
  unfold parseFlow. rewrite bool_decide_false by lia. rewrite Hdst, Hport.
  assert (be_val (be_bytes 2 dport) = dport) as ->.
  { rewrite be_val_bytes. apply Z.mod_small. cbn. lia. }
  change (pkt !!! 0) with h. change (pkt !!! 6) with nh.
  rewrite bool_decide_true by done. cbn [negb orb]. by repeat case_bool_decide.
Qed.

(** The value of an endpoint's map element, as the chain's DNAT reads it. *)
Lemma ep_val_parts ep addr :
  parse_ip ep.1 = Some addr -> length addr = 16 -> (0 <= ep.2 < u16max)%Z ->
  take 16 (ep_val ep) = addr /\ take 2 (drop 16 (ep_val ep)) = be_bytes 2 ep.2.
Proof.
  intros Hp Hl Hr. unfold ep_val. rewrite Hp. cbn [default from_option id].
  rewrite take_app_le, take_ge by lia. split; [done|].
  rewrite drop_app_ge, Hl by lia. cbn [drop Nat.sub take]. unfold be_bytes. cbn [le_bytes].
  change (reverse [?a; ?b]) with [b; a]. unfold u8. rewrite Z.shiftr_div_pow2 by lia. done.
Qed.

(** ** Theorems *)

(** A connection's first packet reaches a backend: whatever packets came
    before, when the callback repeats a packet with a mark, that mark is not
    0 and is the id of an endpoint the source returned for the packet's own
    address, port and protocol, within the lifetime of that answer; the chain
    sends the repeated packet, and the flow's later packets however many
    other packets come in between, to exactly that endpoint. *)
Theorem first_packet_reaches_backend cidr l a mark later :
  (Z.of_nat (length l + length later) + 3 < u32max)%Z -> length (n_mask cidr) = 16 -> Forall clock_ok (l ++ a :: later) ->
  (arrive (run_arrivals l new_lb) a).2 = NfRepeat mark ->
  let lb := run_arrivals later (arrive (run_arrivals l new_lb) a).1 in
  exists pkt vip port proto b ans ep,
    ar_payload a = Some pkt /\ parseFlow pkt = Some (vip, port, proto) /\ mark <> 0%Z /\
    b ∈ l ++ [a] /\ @answer (ar_source b) (service_query vip port proto) = Ok ans /\ Error ans = "" /\
    @backend (ar_source b) (service_query vip port proto) ep /\
    (ar_now a <= ar_after b + ttl_of ans)%Z /\
    forall addr, in_cidr cidr pkt -> parse_ip ep.1 = Some addr -> length addr = 16 -> (0 <= ep.2 < u16max)%Z ->
      eval_chain (eps lb) pkt mark (installBase cidr) = VDnat addr (be_bytes 2 ep.2).
Proof.
  intros Hlen Hmask Hclock Hv lb. pose proof Hclock as [Hcl [Hca _]%Forall_cons]%Forall_app.
  destruct (run_arrivals_inv l) as (Hids & Hc & Hn); [lia|done|].
  assert (exists pkt vip port proto ep e, ar_payload a = Some pkt /\ parseFlow pkt = Some (vip, port, proto) /\
    mark <> 0%Z /\ entry_from (l ++ [a]) (cache_key vip port proto) e /\ ep ∈ e_endpoints e /\
    epID (arrive (run_arrivals l new_lb) a).1 !! ep = Some mark /\ (ar_now a <= e_expiry e)%Z)
    as (pkt & vip & port & proto & ep & e & Hpay & Hflow & Hz & Hfrom & Hep & Hmark & Hexp).
  { revert Hv. unfold arrive, on_packet. destruct (ar_id a); [|done]. destruct (ar_payload a) as [pkt|]; [|done].
    destruct (parseFlow pkt) as [[[vip port] proto]|] eqn:Hf; [|done].
    destruct (@pick (ar_source a) _ _ _ _ _ _ _) as [lb' r] eqn:Hp. destruct r as [m|err|k]; [|done..].
    cbn. case_bool_decide; [done|]. intros [= <-].
    eapply pick_inv in Hp as (_ & _ & _ & Hp); [|done..|lia|by eapply parseFlow_no_colon|done].
    destruct (Hp m) as (e & ep & ? & ? & ? & ?); [done..|]. exists pkt, vip, port, proto, ep, e. done. }
  destruct Hfrom as (b & v & p & t & ans & Hb & Hkey & Ht & Ha & Herr & Heps & Hex).
  apply cache_key_inj in Hkey as (<- & <- & <-); [|by eapply parseFlow_no_colon|done].
  exists pkt, vip, port, proto, b, ans, ep. split_and!; try done; [|lia|].
  { rewrite Heps in Hep. apply list_elem_of_fmap in Hep as (x & -> & Hx).
    pose proof (@answer_backend (ar_source b) _ _ Ha Herr) as Hall.
    rewrite Forall_forall in Hall. by apply Hall. }
  intros addr Hcidr Hp Hl Hr.
  assert (lb = run_arrivals (l ++ a :: later) new_lb) as Hlb.
  { unfold lb, run_arrivals. by rewrite foldl_app. }
  destruct (run_arrivals_inv (l ++ a :: later)) as ((_ & Hfin & _) & _ & Hnext);
    [rewrite length_app; cbn [length]; lia|done|]. rewrite <-Hlb in Hfin, Hnext.
  destruct (Hfin ep mark) as [Hrange Hel]; [by apply run_arrivals_mono|].
  rewrite length_app in Hnext. cbn [length] in Hnext.
  assert (40 <= length pkt).
  { revert Hflow. unfold parseFlow. case_bool_decide; [done|]. lia. }
  rewrite chain_spec by (done || lia). rewrite bool_decide_true by done. rewrite bool_decide_false by done.
  rewrite Hel. destruct (ep_val_parts ep addr Hp Hl Hr) as [-> ->]. done.
Qed.

(** Round robin: from a live cache entry, as many consecutive picks as it
    has endpoints all succeed, and return the ids of its endpoints, each
    endpoint exactly once. *)
Theorem round_robin `{ServiceSource} nows vip port proto lb e :
  cache lb !! cache_key vip port proto = Some e -> (0 <= e_rr e)%Z ->
  length nows = length (e_endpoints e) -> Forall (fun now => now.1 <= e_expiry e)%Z nows ->
  exists ids chosen, (picks nows vip port proto lb).2 = Ok <$> ids /\
    Forall2 (fun id ep => epID (picks nows vip port proto lb).1 !! ep = Some id) ids chosen /\
    chosen ≡ₚ e_endpoints e.
Proof.
  intros Hc Hr Hn Hexp. destruct (decide (e_endpoints e = [])) as [He|He].
  { rewrite He in *. destruct nows; [|done]. by exists [], []. }
  destruct (picks_live nows vip port proto lb e Hc Hr He Hexp) as (ids & Hids & Hlen & _ & Hi).
  set (n := length (e_endpoints e)) in *. set (r := Z.to_nat (e_rr e)) in *.
  assert (n <> 0) as Hn0 by (unfold n; by destruct (e_endpoints e)).
  exists ids, (rotate (r `mod` n) (e_endpoints e)). split_and!; [done| |].
  - apply Forall2_same_length_lookup_2; [rewrite length_rotate; lia|]. intros i id ep Hid Hep.
    destruct (Hi i id Hid) as (ep' & Hep' & ?). assert (ep = ep') as ->; [|done].
    apply lookup_lt_Some in Hid. rewrite lookup_rotate_r in Hep by (fold n; lia). fold n in Hep.
    unfold rotate_nat_add in Hep.
    rewrite <-Nat2Z.inj_add, <-Nat2Z.inj_mod, Nat2Z.id in Hep.
    rewrite Nat.Div0.add_mod_idemp_l in Hep. congruence.
  - unfold rotate. rewrite Permutation_app_comm. by rewrite take_drop.
Qed.

End LB.

(** ** Witnesses *)

Module Example.

Definition cidr : ipnet := IPNet (replicate 8 0x11%Z ++ replicate 8 0%Z) (replicate 8 255%Z ++ replicate 8 0%Z).
Definition vip : bytes := replicate 8 0x11%Z ++ replicate 8 1%Z.
Definition pod : bytes := replicate 16 7%Z.
Definition parse (s : string) : option bytes := if bool_decide (s = "pod") then Some pod else None.
Definition show (b : bytes) : string := if bool_decide (b = vip) then "vip" else "other".

#[program] Definition source : ServiceSource := {|
  answer q := Ok (SvcAnswer ["pod"] 8080 [] 30 "");
  backend q ep := ep = ("pod", 8080%Z)
|}.
Next Obligation. intros q a [= <-] _. by constructor. Qed.

Definition pkt : bytes := ipv6_packet 0x60 [0; 0; 0]%Z [0; 20]%Z 6 64 pod vip 40000 80 (replicate 16 0%Z).
Definition first : arrival := Arrival source 0 0 NftOk (Some 1%Z) (Some pkt).

End Example.

Lemma first_packet_reaches_backend_witness :
  (arrive Example.parse Example.show (run_arrivals Example.parse Example.show [Example.first] new_lb) Example.first).2
    = NfRepeat 1 /\
  exists pkt vip port proto b ans ep,
    ar_payload Example.first = Some pkt /\ parseFlow Example.show pkt = Some (vip, port, proto) /\ (1 <> 0)%Z /\
    b ∈ [Example.first] ++ [Example.first] /\
    @answer (ar_source b) (service_query vip port proto) = Ok ans /\ Error ans = "" /\
    @backend (ar_source b) (service_query vip port proto) ep /\
    (ar_now Example.first <= ar_after b + ttl_of ans)%Z /\
    forall addr, in_cidr Example.cidr pkt -> Example.parse ep.1 = Some addr -> length addr = 16 ->
      (0 <= ep.2 < u16max)%Z ->
      eval_chain (eps (run_arrivals Example.parse Example.show [Example.first]
        (arrive Example.parse Example.show (run_arrivals Example.parse Example.show [Example.first] new_lb)
           Example.first).1)) pkt 1 (installBase Example.cidr) = VDnat addr (be_bytes 2 ep.2).
Proof.
  split; [vm_compute; reflexivity|].
  apply (first_packet_reaches_backend Example.parse Example.show Example.cidr [Example.first] Example.first 1
           [Example.first]); [cbn; lia|reflexivity|repeat constructor; done|vm_compute; reflexivity].
Defined.

Module RoundRobinExample.
Definition entry : svcCacheEntry := CacheEntry [("a", 1%Z); ("b", 2%Z); ("c", 3%Z)] 100 7.
Definition lb : svcLB := SvcLB ∅ 5 {[ cache_key "vip" 80 "tcp" := entry ]} ∅ [].
End RoundRobinExample.

Lemma round_robin_witness :
  exists ids chosen,
    (@picks Example.parse Example.source [(1, 1); (2, 2); (3, 3)]%Z "vip" 80 "tcp" RoundRobinExample.lb).2 = Ok <$> ids /\
    Forall2 (fun id ep =>
      epID (@picks Example.parse Example.source [(1, 1); (2, 2); (3, 3)]%Z "vip" 80 "tcp" RoundRobinExample.lb).1 !! ep = Some id)
      ids chosen /\
    chosen ≡ₚ [("a", 1%Z); ("b", 2%Z); ("c", 3%Z)].
Proof.
  apply (@round_robin Example.parse Example.source [(1, 1); (2, 2); (3, 3)]%Z "vip" 80 "tcp"
           RoundRobinExample.lb RoundRobinExample.entry).
  - vm_compute; reflexivity.
  - cbn. lia.
  - reflexivity.
  - repeat constructor; cbn; lia.
Defined.
