(* ===== verification/DataPlane.v ===== *)
(** * The data plane of services in the guest (poc/execd/services.go)

    [ServiceLB] has the rules, the queue's callback and the balancer's state.
    Here they are put under a stream of packets, with the kernel's connection
    tracking: the nat chain is consulted for the first packet of a connection
    only, the connection's later packets are translated as that one was, and
    [flushConntrackTo] takes the connections to a removed backend out. A packet
    is handled to its end before the next. *)
From S2P Require Import Prelude GoStrings SvcProto ServiceLB.

(** What tells connections apart: source and destination, protocol, ports. *)
Notation flow := (bytes * bytes * Z * bytes)%type.
Definition flow_of (pkt : bytes) : flow := (slice 8 16 pkt, slice 24 16 pkt, pkt !!! 6, slice 40 4 pkt).

(** The connections that are tracked: where each is translated to, if at all. *)
Record plane := Plane { pl_lb : svcLB; pl_conns : gmap flow (option (bytes * bytes)) }.

(** Where a packet goes. *)
Inductive sent := SentTo (addr port : bytes) | SentPlain | SentNowhere.

(** A packet leaves the pod; [flush_ok] tells whether the conntrack command
    works, should it be run. Or a connection ends or times out. *)
Inductive plane_event := PPacket (pkt : bytes) (a : arrival) (flush_ok : bool) | PGone (f : flow).

Section Plane.
Context (parse_ip : string -> option bytes) (ip_string : bytes -> string) (cidr : ipnet).
Notation arrive := (arrive parse_ip ip_string).
Notation run_arrivals := (run_arrivals parse_ip ip_string).

(** What the queue hands to the callback for the packet. *)
Definition notified (pkt : bytes) (a : arrival) : arrival :=
  Arrival (ar_source a) (ar_now a) (ar_after a) (ar_nft a) (ar_id a) ((fun _ => pkt) <$> ar_payload a).

(** [conntrack -D --reply-src]: the connections that are translated to one of
    the addresses end. *)
Definition flush_conns (addrs : list string) (conns : gmap flow (option (bytes * bytes))) : gmap flow (option (bytes * bytes)) :=
  filter (fun x => x.2 = None \/ fst <$> x.2 ∉ parse_ip <$> addrs) conns.

Definition translated (f : flow) (v : nft_verdict) (d : plane) : plane * sent :=
  match v with
  | VDnat addr port => (Plane (pl_lb d) (<[f := Some (addr, port)]> (pl_conns d)), SentTo addr port)
  | VContinue => (Plane (pl_lb d) (<[f := None]> (pl_conns d)), SentPlain)
  | VQueue _ => (d, SentNowhere)
  end.

Definition plane_packet (pkt : bytes) (a : arrival) (flush_ok : bool) (d : plane) : plane * sent :=
  match pl_conns d !! flow_of pkt with
  | Some (Some (addr, port)) => (d, SentTo addr port)
  | Some None => (d, SentPlain)
  | None =>
      match eval_chain (eps (pl_lb d)) pkt 0 (installBase cidr) with
      | VQueue _ =>
          let '(lb, v) := arrive (pl_lb d) (notified pkt a) in
          let gone := new_of (flushed (pl_lb d)) (flushed lb) in
          let d := Plane lb (if flush_ok then flush_conns gone (pl_conns d) else pl_conns d) in
          match v with
          | NfRepeat mark => translated (flow_of pkt) (eval_chain (eps lb) pkt mark (installBase cidr)) d
          | NfDrop | NoVerdict => (d, SentNowhere)
          end
      | v => translated (flow_of pkt) v d
      end
  end.

Definition plane_step (d : plane) (e : plane_event) : plane :=
  match e with
  | PPacket pkt a flush_ok => (plane_packet pkt a flush_ok d).1
  | PGone f => Plane (pl_lb d) (delete f (pl_conns d))
  end.
Definition plane_new : plane := Plane new_lb ∅.
Definition plane_run (es : list plane_event) (d : plane) : plane := foldl plane_step d es.

(** ** What was asked *)

(** The notifications the events may have caused. *)
Definition asked_of (es : list plane_event) : list arrival :=
  omap (fun e => match e with PPacket pkt a _ => Some (notified pkt a) | PGone _ => None end) es.

Lemma translated_lb f v d : pl_lb (translated f v d).1 = pl_lb d.
Proof. by destruct v. Qed.

Lemma plane_packet_lb pkt a fl d :
  pl_lb (plane_packet pkt a fl d).1 = pl_lb d \/ pl_lb (plane_packet pkt a fl d).1 = (arrive (pl_lb d) (notified pkt a)).1.
Proof.
  unfold plane_packet. destruct (pl_conns d !! flow_of pkt) as [[[]|]|]; [by left..|].
  destruct (eval_chain _ _ _ _); [by left; rewrite translated_lb| |by left; rewrite translated_lb].
  right. destruct (arrive _ _) as [lb []]; [done|done|by rewrite translated_lb].
Qed.

(** The balancer has seen some of the packets, in their order. *)
Lemma plane_run_lb es : exists l, pl_lb (plane_run es plane_new) = run_arrivals l new_lb /\ l `sublist_of` asked_of es.
Proof.
  induction es as [|e es (l & IH & Hl)] using rev_ind; [by exists []|].
  unfold plane_run, asked_of in *. rewrite foldl_app, omap_app. cbn [foldl].
  assert (forall k, l `sublist_of` omap (fun e => match e with PPacket pkt a _ => Some (notified pkt a) | PGone _ => None end) es ++ k) as Hmore
    by (intros k; by apply sublist_inserts_r).
  destruct e as [pkt a fl|f]; cbn [plane_step].
  - destruct (plane_packet_lb pkt a fl (foldl plane_step plane_new es)) as [-> | ->]; rewrite IH; [by exists l|].
    exists (l ++ [notified pkt a]). split; [unfold ServiceLB.run_arrivals; by rewrite foldl_app|]. cbn. by apply sublist_app.
  - exists l. by split.
Qed.

(** ** A connection stays where it is *)

Lemma arrive_flushed lb a : exists new, flushed (arrive lb a).1 = new ++ flushed lb.
Proof.
  unfold ServiceLB.arrive, on_packet. destruct (ar_id a); [|by exists []]. destruct (ar_payload a) as [pkt|]; [|by exists []].
  destruct (parseFlow ip_string pkt) as [[[vip port] proto]|]; [|by exists []]. unfold pick.
  destruct (@refresh (ar_source a) _ _ _ _ _ _) as [lb1 r1] eqn:Hr.
  assert (exists new, flushed lb1 = new ++ flushed lb) as Hf.
  { assert (forall after, exists new, flushed (@ask (ar_source a) after vip port proto lb).1 = new ++ flushed lb) as Ha.
    { intros after. unfold ask. destruct (answer _) as [ans|e|c]; [|by exists []..]. case_bool_decide; [by eexists|by exists []]. }
    unfold refresh in Hr. destruct (cache lb !! _) as [e|]; [case_bool_decide; [|simplify_eq; by exists []]|];
      specialize (Ha (ar_after a)); rewrite Hr in Ha; exact Ha. }
  assert (forall nft ep lb2, flushed (idFor parse_ip nft ep lb2).1 = flushed lb2) as Hid.
  { intros nft ep lb2. unfold idFor. destruct (epID lb2 !! ep); [done|]. by destruct nft as [|[]|]. }
  destruct r1 as [e|err|k]; [|exact Hf..]. case_bool_decide; [exact Hf|]. destruct (select e) as [ep|]; [|exact Hf].
  specialize (Hid (ar_nft a) ep (SvcLB (epID lb1) (nextID lb1) (<[cache_key vip port proto := CacheEntry (e_endpoints e) (e_expiry e) (e_rr e + 1)]> (cache lb1)) (eps lb1) (flushed lb1))).
  destruct (idFor _ _ _ _) as [lb2 []]; cbn [fst] in *; by rewrite Hid.
Qed.

Definition flushes (d d' : plane) : list string := new_of (flushed (pl_lb d)) (flushed (pl_lb d')).

Lemma step_flushes e d : exists new, flushed (pl_lb (plane_step d e)) = new ++ flushed (pl_lb d).
Proof.
  destruct e as [pkt a fl|f]; [|by exists []]. cbn [plane_step].
  destruct (plane_packet_lb pkt a fl d) as [-> | ->]; [by exists []|apply arrive_flushed].
Qed.

Lemma conn_kept_step e d f addr port :
  pl_conns d !! f = Some (Some (addr, port)) -> e <> PGone f -> Some addr ∉ parse_ip <$> flushes d (plane_step d e) ->
  pl_conns (plane_step d e) !! f = Some (Some (addr, port)).
Proof.
  intros Hf He Hfl. destruct e as [pkt a fl|g]; cbn [plane_step pl_conns] in *; [|by rewrite lookup_delete_ne by congruence].
  assert (forall v d1, flow_of pkt <> f -> pl_conns d1 !! f = Some (Some (addr, port)) ->
    pl_conns (translated (flow_of pkt) v d1).1 !! f = Some (Some (addr, port))) as Htr.
  { intros v d1 Hn H1. destruct v; cbn; [by rewrite lookup_insert_ne|done|by rewrite lookup_insert_ne]. }
  revert Hfl. unfold flushes, plane_packet. destruct (decide (flow_of pkt = f)) as [E|Hn]; [by rewrite E, Hf|].
  destruct (pl_conns d !! flow_of pkt) as [[[]|]|]; [done|done|].
  destruct (eval_chain (eps (pl_lb d)) pkt 0 _); [by intros _; apply Htr| |by intros _; apply Htr].
  destruct (arrive (pl_lb d) (notified pkt a)) as [lb v]. intros Hfl.
  set (d1 := Plane lb _) in *. assert (pl_lb (match v with
    | NfRepeat mark => translated (flow_of pkt) (eval_chain (eps lb) pkt mark (installBase cidr)) d1
    | _ => (d1, SentNowhere) end).1 = lb) as El by (destruct v; [done|done|by rewrite translated_lb]).
  rewrite El in Hfl. assert (pl_conns d1 !! f = Some (Some (addr, port))) as H1.
  { unfold d1. cbn [pl_conns]. destruct fl; [|done]. apply map_lookup_filter_Some. split; [done|by right]. }
  destruct v; [done|done|by apply Htr].
Qed.

Lemma run_flushes es d : exists new, flushed (pl_lb (plane_run es d)) = new ++ flushed (pl_lb d).
Proof.
  revert d. induction es as [|e es IH]; intros d; [by exists []|]. destruct (step_flushes e d) as [n1 H1], (IH (plane_step d e)) as [n2 H2].
  exists (n2 ++ n1). cbn. unfold plane_run in H2. by rewrite H2, H1, app_assoc.
Qed.

(** A connection is translated as its first packet was, until it ends or its
    backend's address is flushed. *)
Lemma conn_kept es d f addr port :
  pl_conns d !! f = Some (Some (addr, port)) -> PGone f ∉ es -> Some addr ∉ parse_ip <$> flushes d (plane_run es d) ->
  pl_conns (plane_run es d) !! f = Some (Some (addr, port)).
Proof.
  revert d. induction es as [|e es IH]; intros d Hf Hg Hfl; [done|]. apply not_elem_of_cons in Hg as [He Hg].
  destruct (step_flushes e d) as [n1 H1], (run_flushes es (plane_step d e)) as [n2 H2].
  change (plane_run (e :: es) d) with (plane_run es (plane_step d e)) in *. unfold flushes in *.
  rewrite H2, H1, app_assoc, new_of_app, fmap_app in Hfl. apply not_elem_of_app in Hfl as [F2 F1]. apply IH; [|done|].
  - apply conn_kept_step; [done|congruence|]. unfold flushes. by rewrite H1, new_of_app.
  - by rewrite H2, new_of_app.
Qed.

(** The first packet of a connection, where it is translated. *)
Lemma first_translated pkt a fl d addr port :
  40 <= length pkt -> length (n_mask cidr) = 16 -> pl_conns d !! flow_of pkt = None ->
  (plane_packet pkt a fl d).2 = SentTo addr port ->
  exists mark, in_cidr cidr pkt /\ (arrive (pl_lb d) (notified pkt a)).2 = NfRepeat mark /\
    eval_chain (eps (arrive (pl_lb d) (notified pkt a)).1) pkt mark (installBase cidr) = VDnat addr port /\
    pl_lb (plane_packet pkt a fl d).1 = (arrive (pl_lb d) (notified pkt a)).1 /\
    pl_conns (plane_packet pkt a fl d).1 !! flow_of pkt = Some (Some (addr, port)).
Proof.
  intros Hl Hm Hf. unfold plane_packet. rewrite Hf. rewrite chain_spec by (done || (cbn; lia)).
  case_bool_decide as Hc; [|done]. rewrite bool_decide_true by done.
  destruct (arrive (pl_lb d) (notified pkt a)) as [lb [| |mark]]; [done|done|]. cbn [fst snd].
  destruct (eval_chain (eps lb) pkt mark (installBase cidr)) as [x y|n|] eqn:E; cbn; [|done|done]. intros [= -> ->].
  exists mark. split_and!; [done|done|done|done|apply lookup_insert_eq].
Qed.
End Plane.
