(* ===== verification/SvcWire.v ===== *)
(** * The service channel, end to end (poc/execd/services.go, poc/agent/services.go)

    The two ends of vsock port 1025: [querySvcOverVsock] in the guest and the
    connection loop of the agent ([serveSvcConn] of [Resolver]) as functions
    on the bytes of the connection, with the line scanner both use
    ([bufio.Scanner], whose token limit the model keeps). The JSON is
    [SvcJson]'s; how a connection fares (dialing, writes, how much of
    the answer arrives) is an argument. With the channel as [ServiceSource],
    the balancer of [ServiceLB DataPlane] and the resolver of [Resolver] compose. *)
From S2P Require Import Prelude SvcProto Json JsonFacts JsonDecode SvcJson Resolver ServiceLB DataPlane.

(** ** Lines *)

Notation newline := 10%Z.

(** The size of the buffer of a [bufio.Scanner]. *)
Definition MaxScanTokenSize : Z := 65536.

(** A line without its trailing carriage return. *)
Definition dropCR (l : bytes) : bytes :=
  match last l with
  | Some b => if bool_decide (b = 13%Z) then take (length l - 1) l else l
  | None => l
  end.

(** The tokens of a [bufio.Scanner] with [ScanLines]: [cur] is the line read
    so far, newest byte first, and [n] its length. A line that fills the
    buffer ends the scan; the last line needs no newline. *)
Fixpoint scan_from (n : Z) (cur l : bytes) : list bytes :=
  if bool_decide (MaxScanTokenSize <= n)%Z then []
  else
    match l with
    | [] => if bool_decide (cur = []) then [] else [dropCR (reverse cur)]
    | b :: l' =>
        if bool_decide (b = newline) then dropCR (reverse cur) :: scan_from 0 [] l'
        else scan_from (n + 1) (b :: cur) l'
    end.
Definition scan_lines (l : bytes) : list bytes := scan_from 0 [] l.

Definition fits_line (l : bytes) : Prop := (Z.of_nat (length l) < MaxScanTokenSize)%Z.
#[export] Instance fits_line_dec l : Decision (fits_line l).
Proof. unfold fits_line. apply _. Defined.

(** ** The two ends *)

Inductive dial_outcome := DialErr (e : string) | DialTimeout | DialOk.

(** How one connection fares: the dial, the two writes, and how many bytes of
    the answer arrive before the deadline or the end ([None]: all). *)
Record channel := Channel {
  ch_dial : dial_outcome; ch_encode : option string; ch_write : option string; ch_arrives : option nat
}.

Definition arrived (ch : channel) (l : bytes) : bytes :=
  match ch_arrives ch with Some n => take n l | None => l end.

(** [json.Unmarshal] with what its error says. *)
Definition dec_query (say : bytes -> string) (line : bytes) : string + svcQuery :=
  match unmarshal_query line with Some q => inr q | None => inl (say line) end.
Definition dec_answer (say : bytes -> string) (line : bytes) : string + svcAnswer :=
  match unmarshal_answer line with Some a => inr a | None => inl (say line) end.

Section Channel.
Context (say : bytes -> string).

(** The agent's end: what it writes for what it reads. [Encode] ends each
    answer with a newline. *)
Definition serve_bytes (v : view) (input : bytes) : bytes :=
  concat ((fun a => answer_text a ++ [newline]) <$> serveSvcConn (dec_query say) v (scan_lines input)).

(** What the guest writes: [Encode] ends the query with a newline, and one
    more is written after it. *)
Definition query_bytes (q : svcQuery) : bytes := (query_text q ++ [newline]) ++ [newline].

(** [querySvcOverVsock], with [host] the bytes the host answers. *)
Definition querySvcOverVsock (ch : channel) (host : bytes -> bytes) (q : svcQuery) : result string svcAnswer :=
  match ch_dial ch with
  | DialErr e => Err ("dial host svc port: " +:+ e)
  | DialTimeout => Err "dial host svc port: timed out after 3s"
  | DialOk =>
      match ch_encode ch, ch_write ch with
      | Some e, _ => Err e
      | None, Some e => Err e
      | None, None =>
          match scan_lines (arrived ch (host (query_bytes q))) with
          | [] => Err "no answer from host"
          | line :: _ => match dec_answer say line with inr ans => Ok ans | inl e => Err e end
          end
      end
  end.
End Channel.

Definition good_channel : channel := Channel DialOk None None None.

(** ** Scanning *)

Lemma dropCR_plain l : Forall (fun b => 32 <= b)%Z l -> dropCR l = l.
Proof.
  intros Hl. unfold dropCR. destruct (last l) as [b|] eqn:E; [|done]. apply last_Some_elem_of in E.
  rewrite Forall_forall in Hl. specialize (Hl b E). case_bool_decide; [lia|done].
Qed.

(** The bytes of a line are moved to [cur] while they fit. *)
Lemma scan_from_app p l : forall n cur,
  Forall (fun b => 32 <= b)%Z p ->
  scan_from n cur (p ++ l) =
  if bool_decide (n < MaxScanTokenSize <= n + Z.of_nat (length p))%Z then []
  else scan_from (n + Z.of_nat (length p)) (reverse p ++ cur) l.
Proof.
  induction p as [|b p IH]; intros n cur Hp.
  { cbn [length app]. rewrite bool_decide_false by lia. by rewrite Z.add_0_r. }
  apply Forall_cons in Hp as [Hb Hp]. cbn [app scan_from length].
  case_bool_decide as Hn.
  { rewrite bool_decide_false by lia. destruct l; cbn [scan_from]; by rewrite bool_decide_true by lia. }
  rewrite bool_decide_false by lia. rewrite IH by done. rewrite reverse_cons, <-app_assoc. cbn [app].
  replace (n + 1 + Z.of_nat (length p))%Z with (n + Z.of_nat (S (length p)))%Z by lia.
  destruct (decide (MaxScanTokenSize <= n + Z.of_nat (S (length p)))%Z) as [Hm|Hm].
  - rewrite (bool_decide_true (n < _ <= _)%Z) by lia. case_bool_decide; [done|].
    destruct l; cbn [scan_from]; by rewrite bool_decide_true by lia.
  - by rewrite !bool_decide_false by lia.
Qed.

(** The first line of a text. *)
Lemma scan_line p l :
  Forall (fun b => 32 <= b)%Z p ->
  scan_lines (p ++ newline :: l) = if decide (fits_line p) then p :: scan_lines l else [].
Proof.
  intros Hp. unfold scan_lines. rewrite scan_from_app by done. unfold fits_line. rewrite Z.add_0_l.
  case_decide as Hf.
  - rewrite bool_decide_false by lia. cbn [scan_from]. rewrite bool_decide_false by lia.
    rewrite bool_decide_true by done. by rewrite app_nil_r, reverse_involutive, dropCR_plain.
  - rewrite bool_decide_true; [done|]. unfold MaxScanTokenSize in *. lia.
Qed.

(** A last line without a newline. *)
Lemma scan_last p :
  Forall (fun b => 32 <= b)%Z p -> p <> [] -> scan_lines p = if decide (fits_line p) then [p] else [].
Proof.
  intros Hp Hne. unfold scan_lines. rewrite <-(app_nil_r p) at 1. rewrite scan_from_app by done.
  unfold fits_line. rewrite Z.add_0_l. case_decide as Hf.
  - rewrite bool_decide_false by lia. cbn [scan_from]. rewrite bool_decide_false by lia. rewrite app_nil_r.
    rewrite bool_decide_false, reverse_involutive, dropCR_plain; [done..|].
    intros E. apply Hne. by rewrite <-(reverse_involutive p), E.
  - rewrite bool_decide_true; [done|]. unfold MaxScanTokenSize in *. lia.
Qed.

(** ** What comes out of a connection *)

Section Exact.
Context (say : bytes -> string).
Notation serve_bytes := (serve_bytes say).
Notation querySvcOverVsock := (querySvcOverVsock say).

Lemma query_roundtrip q : query_valid q -> dec_query say (query_text q) = inr q.
Proof. intros Hq. unfold dec_query. by rewrite query_decoded. Qed.
Lemma answer_roundtrip a : answer_valid a -> dec_answer say (answer_text a) = inr a.
Proof. intros Ha. unfold dec_answer. by rewrite answer_decoded. Qed.
Lemma answer_cut a p : p `prefix_of` answer_text a -> p <> answer_text a -> exists e, dec_answer say p = inl e.
Proof. intros Hp Hne. unfold dec_answer. rewrite (answer_text_cut a) by done. by eexists. Qed.

(** Both lines of a call fit the scanners. *)
Definition call_fits (v : view) (q : svcQuery) : Prop :=
  fits_line (query_text q) /\ fits_line (answer_text (resolveService v q)).
#[export] Instance call_fits_dec v q : Decision (call_fits v q).
Proof. unfold call_fits. apply _. Defined.

(** What the agent answers: the answer, and a second line for the empty line
    that follows the query. *)
Lemma serve_query v q :
  query_valid q ->
  if decide (fits_line (query_text q))
  then exists rest, serve_bytes v (query_bytes q) = answer_text (resolveService v q) ++ newline :: rest
  else serve_bytes v (query_bytes q) = [].
Proof.
  intros Hq. unfold query_bytes, serve_bytes. rewrite <-app_assoc. cbn [app].
  rewrite scan_line by apply query_text_printable. case_decide; [|done].
  unfold serveSvcConn. rewrite fmap_cons, query_roundtrip by done. cbn [fmap list_fmap concat].
  rewrite <-app_assoc. cbn [app]. by eexists.
Qed.

(** The line the guest gets, when it gets one, is the answer or a cut of it. *)
Lemma first_line ch a rest :
  match scan_lines (arrived ch (answer_text a ++ newline :: rest)) with
  | [] => True
  | line :: _ => line `prefix_of` answer_text a /\ fits_line line
  end.
Proof.
  pose proof (answer_text_printable a) as Hp.
  assert (forall n, n <= length (answer_text a) -> match scan_lines (take n (answer_text a)) with
    | [] => True | line :: _ => line `prefix_of` answer_text a /\ fits_line line end) as Hcut.
  { intros n _. destruct (take n (answer_text a)) as [|b t] eqn:E; [done|]. rewrite <-E.
    rewrite scan_last; [|by apply Forall_take|by rewrite E]. case_decide; [|done]. split; [apply prefix_take|done]. }
  unfold arrived. destruct (ch_arrives ch) as [n|].
  - destruct (decide (n <= length (answer_text a))) as [Hn|Hn].
    + rewrite take_app_le by done. by apply Hcut.
    + rewrite take_app_ge by lia. destruct (n - length (answer_text a)) as [|m] eqn:E; [lia|]. cbn [take].
      rewrite scan_line by done. case_decide; [done|done].
  - rewrite scan_line by done. by case_decide.
Qed.

(** The service channel is exact. However a connection fares, an answer that
    the guest gets is the answer of the resolver to its query, never a part
    of it or another; over a connection that works, the guest gets it exactly
    when the query and the answer each fit the 64 KiB line the scanners hold,
    and otherwise the error "no answer from host". *)
Theorem channel_exact v q :
  query_valid q -> answer_valid (resolveService v q) ->
  (forall ch a, querySvcOverVsock ch (serve_bytes v) q = Ok a -> a = resolveService v q /\ call_fits v q) /\
  querySvcOverVsock good_channel (serve_bytes v) q =
    (if decide (call_fits v q) then Ok (resolveService v q) else Err "no answer from host").
Proof.
  intros Hq Ha. pose proof (serve_query v q Hq) as Hs. unfold call_fits. split.
  - intros ch a. unfold querySvcOverVsock. destruct (ch_dial ch), (ch_encode ch), (ch_write ch); try done.
    destruct (decide (fits_line (query_text q))) as [Hf|Hf]; [destruct Hs as [rest ->]|].
    2: { rewrite Hs. unfold arrived. by destruct (ch_arrives ch) as [[]|]. }
    pose proof (first_line ch (resolveService v q) rest) as Hl.
    destruct (scan_lines _) as [|line lines]; [done|]. destruct Hl as [Hl Hfit].
    destruct (decide (line = answer_text (resolveService v q))) as [-> |Hne].
    + rewrite answer_roundtrip by done. by intros [= <-].
    + destruct (answer_cut _ _ Hl Hne) as [e ->]. done.
  - unfold querySvcOverVsock, good_channel, arrived. cbn [ch_dial ch_encode ch_write ch_arrives].
    destruct (decide (fits_line (query_text q))) as [Hf|Hf]; [destruct Hs as [rest ->]|].
    2: { rewrite Hs. rewrite decide_False by naive_solver. done. }
    rewrite scan_line by apply answer_text_printable. destruct (decide (fits_line _)) as [Hfa|Hfa].
    + rewrite answer_roundtrip by done. by rewrite decide_True.
    + by rewrite decide_False by naive_solver.
Qed.

(** ** The channel as the balancer's source *)

(** Views of an API server whose strings are UTF-8 and whose ports are Go
    integers: what a Go program can hold of it. *)
Definition service_texts (svc : Service) : Prop :=
  utf8 (svc_Namespace svc) /\ utf8 (svc_Name svc) /\ utf8 (svc_ClusterIP svc) /\ utf8_all (svc_ClusterIPs svc) /\
  Forall (fun p => utf8 (sp_Name p)) (svc_Ports svc).
Definition slice_texts (sl : EndpointSlice) : Prop :=
  Forall (fun p => is_int64 (default 0%Z (ep_Port p))) (sl_Ports sl) /\ Forall (fun ep => utf8_all (ep_Addresses ep)) (sl_Endpoints sl).
Definition ok_or {A} (P : A -> Prop) (x : string + A) : Prop := match x with inl e => utf8 e | inr a => P a end.
Record view_texts (v : view) : Prop := ViewTexts {
  vt_static : forall vip vm, v_staticVIPs v !! vip = Some vm -> utf8 (bv_ip vm);
  vt_services : ok_or (Forall service_texts) (v_services v);
  vt_get : forall ns n, ok_or service_texts (v_getService v ns n);
  vt_slices : forall ns n, ok_or (Forall slice_texts) (v_slices v ns n)
}.
Definition view_valid (v : view) : Prop := view_ok v /\ view_texts v.

Lemma endpoints_valid eps port ttl : utf8_all eps -> is_int64 port -> is_int64 ttl -> answer_valid (SvcAnswer eps port [] ttl "").
Proof. intros He Hp Ht. split; [done|]. split; [constructor|]. by split. Qed.

Lemma err_valid e ttl : utf8 e -> is_int64 ttl -> answer_valid (errAnswer e ttl).
Proof. intros He Ht. split_and!; [constructor|constructor|done|done|done]. Qed.

Lemma slice_port_int pn proto ports : Forall (fun p => is_int64 (default 0%Z (ep_Port p))) ports -> is_int64 (slice_port pn proto ports).
Proof. induction 1 as [|p ports Hp _ IH]; cbn; [done|]. by case_match. Qed.

Lemma slice_addrs_utf8 sl : slice_texts sl -> utf8_all (slice_addrs sl).
Proof.
  intros [_ Ha]. unfold slice_addrs, utf8_all. induction Ha as [|ep eps Hep _ IH]; cbn; [constructor|].
  case_bool_decide; [done|]. destruct (ep_Addresses ep); cbn; [done|]. apply Forall_cons in Hep as [? _]. by constructor.
Qed.

Lemma endpoints_loop_valid pn proto slices : Forall slice_texts slices -> forall eps port, utf8_all eps -> is_int64 port ->
  utf8_all (endpoints_loop pn proto slices eps port).1 /\ is_int64 (endpoints_loop pn proto slices eps port).2.
Proof.
  induction 1 as [|sl slices Hsl _ IH]; intros eps port He Hp; cbn [endpoints_loop]; [done|].
  case_bool_decide; [by apply IH|]. cbn zeta. case_bool_decide; [by apply IH|]. apply IH.
  - apply Forall_app. split; [done|by apply slice_addrs_utf8].
  - by apply slice_port_int; destruct Hsl.
Qed.

Lemma endpointsFor_valid v svc pn proto : view_texts v -> service_texts svc -> utf8 pn ->
  ok_or (fun r => utf8_all r.1 /\ is_int64 r.2) (endpointsFor v svc pn proto).
Proof.
  intros Hv (H1 & H2 & _) Hpn. unfold endpointsFor. pose proof (vt_slices v Hv (svc_Namespace svc) (svc_Name svc)) as Hs.
  destruct (v_slices _ _ _) as [e|slices]; [done|]. cbn [ok_or] in Hs.
  pose proof (endpoints_loop_valid pn proto slices Hs [] 0 (Forall_nil_2 _) ltac:(done)) as Hl.
  destruct (endpoints_loop _ _ _ _ _) as [eps port]. case_bool_decide; [|done]. cbn [ok_or].
  repeat (apply utf8_valid_app; [done|]). done.
Qed.

(** What the resolver answers, JSON can carry. *)
Lemma resolveService_valid v q : view_texts v -> query_valid q -> answer_valid (resolveService v q).
Proof.
  intros Hv (Hvip & _ & _ & _ & Hport). unfold resolveService. destruct (static_backend v q) as [vm|] eqn:Hst.
  { case_match; [by apply err_valid|]. unfold static_backend in Hst. destruct (bool_decide (q_VIP q <> "")); [|done]. apply (vt_static v Hv) in Hst.
    apply endpoints_valid; [by repeat constructor|done|done]. }
  unfold resolve_cached. repeat (case_match; [by apply err_valid|]). case_bool_decide.
  - unfold resolveServiceName. pose proof (vt_get v Hv (if bool_decide (q_Namespace q = "") then "default" else q_Namespace q) (q_Name q)) as Hg.
    destruct (v_getService _ _ _) as [e|svc]; [by apply err_valid|]. destruct Hg as (_ & _ & Hip & Hips & _).
    split_and!; cbn; [constructor|case_bool_decide; [by repeat constructor|done]|done..].
  - pose proof (vt_services v Hv) as Hs. destruct (v_services v) as [e|svcs]; [by apply err_valid|].
    induction Hs as [|svc svcs Hsvc _ IH]; cbn [service_loop]; [apply err_valid; [by apply utf8_valid_app|done]|].
    case_match; [done|]. destruct (match_port _ _ _) as [pn|] eqn:Hm; [|by apply err_valid].
    assert (utf8 pn) as Hpn.
    { unfold match_port in Hm. apply fmap_Some in Hm as ([i p] & (Hi & _)%list_find_Some & ->). destruct Hsvc as (_ & _ & _ & _ & Hp).
      rewrite Forall_forall in Hp. apply Hp. by eapply list_elem_of_lookup_2. }
    pose proof (endpointsFor_valid v svc pn (query_proto q) Hv Hsvc Hpn) as He. destruct (endpointsFor _ _ _ _) as [e|[eps port]]; cbn [ok_or] in He.
    + by apply err_valid.
    + destruct He as [He Hp]. apply endpoints_valid; [done|done|by case_bool_decide].
Qed.

#[program] Definition wire_source (v : view) (ch : channel) (Hv : view_valid v) : ServiceSource := {|
  answer q := querySvcOverVsock ch (serve_bytes v) q;
  backend q ep := query_valid q -> backend_of v q ep
|}.
Next Obligation.
  intros v ch [Hok Hval] q a Ha He. apply Forall_forall. intros addr Hin Hq.
  destruct (channel_exact v q Hq (resolveService_valid v q Hval Hq)) as [Hex _]. apply Hex in Ha as [-> _].
  pose proof (resolveService_backends v q Hok He) as Hb. rewrite Forall_forall in Hb. by apply Hb.
Qed.
End Exact.

(** A usable answer is good for at most 30 seconds. *)
Lemma resolve_ttl v q :
  view_ok v -> Error (resolveService v q) = "" -> (ttl_of (resolveService v q) <= 30 * 1000000000)%Z.
Proof.
  intros Hv He. assert (TTLSeconds (resolveService v q) = 5 \/ TTLSeconds (resolveService v q) = 30)%Z as Ht.
  { revert He. unfold resolveService. destruct (static_backend v q) as [vm|]; [case_match; [done|by left]|].
    unfold resolve_cached. destruct (v_client v), (v_synced v); cbn [negb]; try done. case_bool_decide.
    { unfold resolveServiceName. destruct (v_getService v _ _); [|by left]. cbn. intros ->. by left. }
    destruct (v_services v) as [e|svcs] eqn:Es; cbn.
    { intros ->. by destruct Hv as [Hne _]. }
    intros He. destruct (service_loop_ok v q svcs Hv He) as (? & ? & ? & ? & eps & ? & _ & _ & _ & _ & _ & ->). cbn.
    case_bool_decide; [by left|by right]. }
  unfold ttl_of. case_bool_decide; [unfold cacheTTL; lia|]. lia.
Qed.

Section EndToEnd.
Context (say : bytes -> string) (parse_ip : string -> option bytes) (ip_string : bytes -> string).

(** An arrival whose queries go over a connection to an agent with view [v]. *)
Definition asks (a : arrival) (v : view) : Prop :=
  exists ch Hv, ar_source a = wire_source say v ch Hv.

Lemma flow_query_valid pkt vip port proto :
  (forall b, utf8_valid (ip_string b) = true) -> Forall is_byte pkt -> parseFlow ip_string pkt = Some (vip, port, proto) ->
  query_valid (service_query vip port proto).
Proof.
  intros Hip Hpkt Hf. assert (proto = "tcp" \/ proto = "udp") as Hproto by (by eapply parseFlow_proto).
    unfold parseFlow in Hf. case_match; [done|]. case_match; [|done]. injection Hf as <- <- <-.
  split_and!; cbn; [apply Hip|by destruct Hproto as [-> | ->]|done|done|].
  pose proof (le_val_range (reverse (slice 42 2 pkt))) as Hr.
  assert (length (reverse (slice 42 2 pkt)) <= 2) as Hl by (rewrite length_reverse; unfold slice; rewrite length_take; lia).
  destruct Hr as [Hr0 Hr1]. { apply Forall_reverse. unfold slice. by apply Forall_take, Forall_drop. }
  unfold is_int64, be_val. split; [lia|]. eapply Z.lt_le_trans; [exact Hr1|].
  transitivity (256 ^ 2)%Z; [|done]. apply Z.pow_le_mono_r; lia.
Qed.

(** C5 A connection to a service, end to end. Whatever packets, endings of
    connections and failures of the channel came before, when the first packet
    of a connection is translated, its target is the address and port of an
    endpoint that was a ready backend of the packet's own address, port and
    protocol in the agent's view when the agent was asked, by a query that
    ended at most 30 seconds before the packet came. And every later packet of
    the connection goes to the same target, whatever else happens, until the
    connection ends or a flush names the target's address. *)
Theorem connection_end_to_end cidr es pkt a fl later addr port :
  (Z.of_nat (length es) + 3 < u32max)%Z -> length (n_mask cidr) = 16 -> (forall b, utf8_valid (ip_string b) = true) ->
  40 <= length pkt -> Forall is_byte pkt ->
  Forall (fun x => clock_ok x /\ exists v, asks x v) (asked_of es ++ [notified pkt a]) ->
  let d := plane_run parse_ip ip_string cidr es plane_new in
  pl_conns d !! flow_of pkt = None -> (plane_packet parse_ip ip_string cidr pkt a fl d).2 = SentTo addr port ->
  let d1 := (plane_packet parse_ip ip_string cidr pkt a fl d).1 in
  let d2 := plane_run parse_ip ip_string cidr later d1 in
  (exists vip p proto b v ep,
     parseFlow ip_string pkt = Some (vip, p, proto) /\ in_cidr cidr pkt /\
     b ∈ asked_of es ++ [notified pkt a] /\ asks b v /\ (ar_now a <= ar_after b + 30 * 1000000000)%Z /\
     backend_of v (service_query vip p proto) ep /\
     forall x, parse_ip ep.1 = Some x -> length x = 16 -> (0 <= ep.2 < u16max)%Z -> addr = x /\ port = be_bytes 2 ep.2) /\
  (PGone (flow_of pkt) ∉ later -> Some addr ∉ parse_ip <$> flushes d1 d2 ->
   forall pkt' a' fl', flow_of pkt' = flow_of pkt -> (plane_packet parse_ip ip_string cidr pkt' a' fl' d2).2 = SentTo addr port).
Proof.
  intros Hlen Hmask Hip Hl Hbytes Hall. cbn zeta. set (d := plane_run parse_ip ip_string cidr es plane_new). intros Hnew Hsent.
  destruct (first_translated parse_ip ip_string cidr pkt a fl d addr port Hl Hmask Hnew Hsent) as (mark & Hc & Hv & Hchain & Hlb & Hconn).
  destruct (plane_run_lb parse_ip ip_string cidr es) as (l & El & Hsub). fold d in El. rewrite El in *. split.
  - assert (length l <= length es) as Hle.
    { etransitivity; [by apply sublist_length|]. unfold asked_of. clear. induction es as [|[] es IH]; cbn; lia. }
    rewrite Forall_forall in Hall. assert (forall x, x ∈ l ++ [notified pkt a] -> x ∈ asked_of es ++ [notified pkt a]) as Hin.
    { intros x [Hx|Hx]%elem_of_app; apply elem_of_app; [left; eapply elem_of_submseteq; [exact Hx|by apply sublist_submseteq]|by right]. }
    destruct (first_packet_reaches_backend parse_ip ip_string cidr l (notified pkt a) mark [])
      as (pkt' & vip & p & proto & b & ans & ep & Hpay & Hflow & Hm & Hb & Hans & Herr & Hback & Hnow & Hto); [cbn; lia|done| |done|].
    { apply Forall_forall. intros x Hx. by apply Hall, Hin. }
    assert (pkt' = pkt) as ->. { cbn in Hpay. destruct (ar_payload a); cbn in Hpay; congruence. }
    pose proof (flow_query_valid _ _ _ _ Hip Hbytes Hflow) as Hq. destruct (Hall b (Hin b Hb)) as (_ & v & ch & Hval & Hsrc).
    exists vip, p, proto, b, v, ep. split_and!; [done|done|by apply Hin|by exists ch, Hval| | |].
    + rewrite Hsrc in Hans. cbn in Hans. destruct Hval as [Hok Hval].
      destruct (channel_exact say v _ Hq (resolveService_valid v _ Hval Hq)) as [Hex _]. apply Hex in Hans as [-> _].
      pose proof (resolve_ttl v _ Hok Herr). cbn [notified ar_now] in Hnow. lia.
    + rewrite Hsrc in Hback. by apply Hback.
    + intros x Hx Hx16 Hr. specialize (Hto x Hc Hx Hx16 Hr). cbn [ServiceLB.run_arrivals foldl] in Hto. rewrite Hchain in Hto. by injection Hto.
  - intros Hg Hfl pkt' a' fl' E. unfold plane_packet at 1. rewrite E.
    by rewrite (conn_kept parse_ip ip_string cidr later _ (flow_of pkt) addr port Hconn Hg Hfl).
Qed.
End EndToEnd.

(** ** A witness *)

Module WireExample.

Definition ex_say (_ : bytes) : string := "unexpected end of JSON input".

Definition view : Resolver.view := ex_view [ex_slice 8080 "pod"].
Lemma valid : view_valid view.
Proof.
  split; [apply ex_view_ok|]. split.
  - done.
  - repeat constructor.
  - intros ns n. cbn. repeat constructor.
  - intros ns n. cbn. repeat constructor; cbn; lia.
Qed.
Lemma shown b : utf8 (ServiceLB.Example.show b).
Proof. unfold ServiceLB.Example.show. by case_bool_decide. Qed.
Definition first : arrival := Arrival (wire_source ex_say view good_channel valid) 0 1 NftOk (Some 1%Z) (Some ServiceLB.Example.pkt).

End WireExample.

(** A connection after another, and its packets after a third one began. *)
Definition ex_flow_packet (sport : Z) : bytes :=
  ipv6_packet 0x60 [0; 0; 0]%Z [0; 20]%Z 6 64 ServiceLB.Example.pod ServiceLB.Example.vip sport 80 (replicate 16 0%Z).
Definition ex_event (sport : Z) : plane_event := PPacket (ex_flow_packet sport) WireExample.first true.
Notation ex_run := (plane_run ServiceLB.Example.parse ServiceLB.Example.show ServiceLB.Example.cidr).
Notation ex_packet := (plane_packet ServiceLB.Example.parse ServiceLB.Example.show ServiceLB.Example.cidr).

Lemma connection_end_to_end_witness :
  let d1 := (ex_packet (ex_flow_packet 40001) WireExample.first true (ex_run [ex_event 40000] plane_new)).1 in
  (exists b v ep, asks WireExample.ex_say b v /\ (0 <= ar_after b + 30 * 1000000000)%Z /\
     backend_of v (service_query "vip" 80 "tcp") ep) /\
  (ex_packet (ex_flow_packet 40001) WireExample.first true (ex_run [ex_event 40002; PGone (flow_of (ex_flow_packet 40000))] d1)).2 =
    SentTo ServiceLB.Example.pod (be_bytes 2 8080).
Proof.
  pose proof (connection_end_to_end WireExample.ex_say ServiceLB.Example.parse ServiceLB.Example.show ServiceLB.Example.cidr
    [ex_event 40000] (ex_flow_packet 40001) WireExample.first true [ex_event 40002; PGone (flow_of (ex_flow_packet 40000))]
    ServiceLB.Example.pod (be_bytes 2 8080)) as H.
  cbv zeta in H |- *. destruct H as [H1 H2].
  - cbn. lia.
  - reflexivity.
  - exact WireExample.shown.
  - apply (bool_decide_unpack _). vm_compute. exact I.
  - apply (bool_decide_unpack _). vm_compute. exact I.
  - repeat constructor; try done; exists WireExample.view, good_channel, WireExample.valid; reflexivity.
  - vm_compute. reflexivity.
  - vm_compute. reflexivity.
  - split.
    + destruct H1 as (vip & p & proto & b & v & ep & Hf & _ & _ & Ha & Ht & Hb & _). vm_compute in Hf. injection Hf as <- <- <-.
      exists b, v, ep. split; [exact Ha|]. split; [exact Ht|exact Hb].
    + apply H2; [|apply (bool_decide_unpack _); vm_compute; exact I|reflexivity]. intros Hin. repeat apply elem_of_cons in Hin as [Hin|Hin]; [..|by apply elem_of_nil in Hin].
      * discriminate Hin.
      * vm_compute in Hin. discriminate Hin.
Defined.
