(* ===== verification/DnsServe.v ===== *)
(** * The DNS proxy at work (poc/execd/dns.go)

    [startDNSProxy], [serve] and [forward]: every datagram is handled in a
    goroutine of its own, which holds the cache's lock only for the look at
    the cache and for the store, so the exchanges of many lookups overlap.
    The server is a step function over what happens: a datagram arrives, an
    exchange with the agent ends, an upstream answer comes. The exchange is
    the service channel of [SvcWire], with the agent's view at that moment. *)
From Stdlib Require Import Ascii.
From S2P Require Import Prelude GoStrings NetIP NetCIDR Json JsonFacts JsonDecode SvcProto SvcJson Resolver SvcWire Dns.

(** ** Sockets *)

(** [startDNSProxy]: which of the two loopback sockets could be bound. *)
Definition startDNSProxy (bind4 bind6 : option string) : result string (list string) :=
  match bind4 with
  | Some e => Err ("binding 127.0.0.1:53: " +:+ e)
  | None => Ok ("udp4" :: if bool_decide (bind6 = None) then ["udp6"] else [])
  end.

(** [forward]: the answer of the upstream, in a buffer of 4096 bytes; what
    dialing, writing and reading give is an argument. *)
Definition max_datagram : nat := 4096.
Record upstream_exchange := Upstream { ue_dial : option string; ue_write : option string; ue_read : option bytes }.
Definition forward (upstream : string) (u : upstream_exchange) : option bytes :=
  if bool_decide (upstream = "") then None
  else match ue_dial u, ue_write u with None, None => take max_datagram <$> ue_read u | _, _ => None end.

(** ** The goroutines *)

(** A goroutine that has left the lock: in its exchange, or upstream. *)
Inductive waiting :=
| WLookup (msg : message) (q : question) (svc ns : string) (start : Z)
| WForward.

(** What was sent back for a datagram, and why. *)
Inductive answer_sent :=
| ALocal (r : reply)
| AService (msg : message) (q : question) (svc ns : string) (at_ : Z) (ent : dnsCacheEntry)
| AUpstream (resp : bytes)
| ADropped.

Record server := Server {
  sv_cache : gmap string dnsCacheEntry; sv_waiting : gmap nat waiting; sv_sent : list (nat * answer_sent)
}.
Definition new_server : server := Server ∅ ∅ [].

Inductive dns_event :=
| EvDatagram (id : nat) (now : Z) (datagram : bytes)
| EvResolved (id : nat) (now' : Z) (ch : channel) (v : view)
| EvUpstream (id : nat) (u : upstream_exchange).

Section Serve.
Context (unpack : bytes -> option message) (say : bytes -> string) (upstream : string).

Definition send (id : nat) (a : answer_sent) (s : server) : server := Server (sv_cache s) (delete id (sv_waiting s)) (sv_sent s ++ [(id, a)]).
Definition wait (id : nat) (w : waiting) (s : server) : server := Server (sv_cache s) (<[id := w]> (sv_waiting s)) (sv_sent s).

(** A datagram's number is its place among those received; [None] when the
    event cannot happen. *)
Definition known (id : nat) (s : server) : Prop := is_Some (sv_waiting s !! id) \/ id ∈ fst <$> sv_sent s.
#[export] Instance known_dec id s : Decision (known id s).
Proof. unfold known. apply _. Defined.

Definition serve_step (e : dns_event) (s : server) : option server :=
  match e with
  | EvDatagram id now datagram =>
      if decide (known id s) then None
      else match classify unpack (take max_datagram datagram) with
           | VForward => Some (wait id WForward s)
           | VReply r => Some (send id (ALocal r) s)
           | VLookup msg q svc ns =>
               match cached now (cache_key svc ns) (sv_cache s) with
               | Some ent => Some (send id (AService msg q svc ns now ent) s)
               | None => Some (wait id (WLookup msg q svc ns now) s)
               end
           end
  | EvResolved id now' ch v =>
      match sv_waiting s !! id with
      | Some (WLookup msg q svc ns now) =>
          let '(cache, ent) := resolved ParseIP now now' (cache_key svc ns)
            (querySvcOverVsock say ch (serve_bytes say v) (SvcQuery "" 0 "" svc ns)) (sv_cache s) in
          Some (send id (AService msg q svc ns now' ent) (Server cache (sv_waiting s) (sv_sent s)))
      | _ => None
      end
  | EvUpstream id u =>
      match sv_waiting s !! id with
      | Some WForward => Some (send id (match forward upstream u with Some b => AUpstream b | None => ADropped end) s)
      | _ => None
      end
  end.

(** The bytes of an answer. *)
Definition sent_bytes (pack : reply -> option bytes) (a : answer_sent) : option bytes :=
  match a with
  | ALocal r => pack r
  | AService msg q _ _ _ ent => pack (reply_of msg q ent)
  | AUpstream b => Some b
  | ADropped => None
  end.

Fixpoint serve_run (l : list dns_event) (s : server) : option server :=
  match l with [] => Some s | e :: l' => s' ← serve_step e s; serve_run l' s' end.

Lemma serve_run_app l k s : serve_run (l ++ k) s = s' ← serve_run l s; serve_run k s'.
Proof. revert s. induction l as [|e l IH]; intros s; [done|]. cbn. destruct (serve_step e s) as [s'|]; [apply IH|done]. Qed.

(** ** What the cache and the answers hold *)

(** The ClusterIPs of a Service. *)
Definition cluster_ips (svc : Service) : list string :=
  if bool_decide (svc_ClusterIPs svc = [] /\ svc_ClusterIP svc <> "" /\ svc_ClusterIP svc <> "None")
  then [svc_ClusterIP svc] else svc_ClusterIPs svc.

Definition default_ns (ns : string) : string := if bool_decide (ns = "") then "default" else ns.

(** Names that JSON carries unchanged. *)
Definition name_ok (svc ns : string) : Prop := utf8 svc /\ utf8 ns /\ svc <> "".

(** An entry is what the agent's view said of the name at an exchange that has
    taken place; [j] and [now'] are its datagram and time. *)
Definition resolved_at (l : list dns_event) (svc ns : string) (ent : dnsCacheEntry) (j : nat) (now' : Z) : Prop :=
  exists ch v service, EvResolved j now' ch v ∈ l /\ v_getService v (default_ns ns) svc = inr service /\
    d_ips ent = omap ParseIP (cluster_ips service) /\ d_expiry ent = (now' + 5 * 1000000000)%Z.

Definition entry_good (l : list dns_event) (svc ns : string) (ent : dnsCacheEntry) : Prop :=
  name_ok svc ns -> d_found ent = true -> exists j now', resolved_at l svc ns ent j now'.

Definition sent_good (l : list dns_event) (id : nat) (a : answer_sent) : Prop :=
  match a with
  | AService msg q svc ns at_ ent => name_ok svc ns -> d_found ent = true ->
      exists j now', resolved_at l svc ns ent j now' /\ (j = id \/ (at_ < now' + 5 * 1000000000)%Z)
  | _ => True
  end.

Record server_inv (l : list dns_event) (s : server) : Prop := ServerInv {
  si_cache : forall svc ns ent, no_char "."%char svc -> no_char "."%char ns -> sv_cache s !! cache_key svc ns = Some ent -> entry_good l svc ns ent;
  si_sent : Forall (fun x => sent_good l x.1 x.2) (sv_sent s);
  si_once : NoDup (fst <$> sv_sent s);
  si_apart : forall id, is_Some (sv_waiting s !! id) -> id ∉ fst <$> sv_sent s
}.

(** ** Lemmas *)

Lemma Split_no_sep c s : Forall (fun x => no_char c x) (Split c s).
Proof.
  induction s as [|a s IH]; cbn [Split]; [by repeat constructor|]. destruct (Ascii.eqb a c) eqn:E; [by constructor|].
  destruct (Split c s) as [|x l]; [repeat constructor; cbn; by rewrite E|]. apply Forall_cons in IH as [Hx Hl]. constructor; [|done]. cbn. by rewrite E, Hx.
Qed.

Lemma classify_lookup query msg q svc ns : classify unpack query = VLookup msg q svc ns -> no_char "."%char svc /\ no_char "."%char ns.
Proof.
  unfold classify. destruct (unpack query) as [[id [|q' [|]]]|]; try done. cbn zeta. case_bool_decide; [by case_match|].
  pose proof (Split_no_sep "."%char (TrimSuffix (ToLower (q_fqdn q')) ".")) as Hs. intros E.
  destruct (Split _ _) as [|a [|b [|c [|d [|e [|]]]]]]; try done. injection E as <- <- <- <-.
  repeat apply Forall_cons in Hs as [? Hs]. done.
Qed.

Lemma name_key_inj svc ns svc' ns' : no_char "."%char svc -> no_char "."%char ns -> no_char "."%char svc' -> no_char "."%char ns' ->
  cache_key svc ns = cache_key svc' ns' -> svc = svc' /\ ns = ns'.
Proof.
  intros H1 H2 H3 H4 E. apply (f_equal (Split "."%char)) in E.
  change (cache_key svc ns) with (svc +:+ String "." ns) in E. change (cache_key svc' ns') with (svc' +:+ String "." ns') in E.
  rewrite (Split_app "."%char svc ns), (Split_app "."%char svc' ns'), !Split_no_char in E by done. by injection E as -> ->.
Qed.

(** What a lookup's exchange gives. *)
Lemma exchange_good now now' ch v svc ns cache ent :
  view_valid v -> name_ok svc ns ->
  (resolved ParseIP now now' (cache_key svc ns) (querySvcOverVsock say ch (serve_bytes say v) (SvcQuery "" 0 "" svc ns)) cache).2 = ent ->
  d_found ent = true ->
  exists service, v_getService v (default_ns ns) svc = inr service /\ d_ips ent = omap ParseIP (cluster_ips service) /\
    d_expiry ent = (now' + 5 * 1000000000)%Z.
Proof.
  intros [Hok Ht] (Hs & Hn & Hne) <-. unfold resolved.
  assert (query_valid (SvcQuery "" 0 "" svc ns)) as Hq by (split_and!; try done; cbn; lia).
  pose proof (channel_exact say v _ Hq (resolveService_valid v _ Ht Hq)) as [Hex _].
  destruct (querySvcOverVsock _ _ _ _) as [a| |] eqn:E; [|done..]. apply Hex in E as [-> _]. clear Hex.
  unfold entry_of. cbn [snd]. case_bool_decide as He; [|done]. intros _. cbn [d_ips d_expiry]. revert He.
  unfold resolveService, static_backend, resolve_cached. cbn [q_VIP q_Name]. rewrite (bool_decide_false ("" <> "")) by naive_solver.
  destruct (v_client v); [|done]. destruct (v_synced v); [|done]. cbn [negb]. rewrite bool_decide_true by done.
  unfold resolveServiceName. cbn [q_Namespace q_Name]. fold (default_ns ns). destruct Hok as (_ & Hg & _).
  destruct (v_getService v (default_ns ns) svc) as [e|service] eqn:Hget; cbn; [intros ->; by apply Hg in Hget|]. intros _. by exists service.
Qed.

Lemma resolved_at_mono l k svc ns ent j now' : resolved_at l svc ns ent j now' -> resolved_at (l ++ k) svc ns ent j now'.
Proof. intros (ch & v & service & Hin & H). exists ch, v, service. split; [set_solver|done]. Qed.

Lemma sent_good_mono l k id a : sent_good l id a -> sent_good (l ++ k) id a.
Proof. destruct a; try done. intros H Hn Hf. destruct (H Hn Hf) as (j & t & Hr & Ho). exists j, t. split; [by apply resolved_at_mono|done]. Qed.

Definition valid_event (e : dns_event) : Prop := match e with EvResolved _ _ _ v => view_valid v | _ => True end.

Lemma inv_wait l e id w s : server_inv l s -> ~ known id s -> server_inv (l ++ [e]) (wait id w s).
Proof.
  intros [I1 I2 I3 I4] Hk. split; cbn.
  - intros svc ns ent H1 H2 H3 Hn Hf. destruct (I1 svc ns ent H1 H2 H3 Hn Hf) as (j & t & Hr). exists j, t. by apply resolved_at_mono.
  - eapply Forall_impl; [exact I2|]. intros x. apply sent_good_mono.
  - done.
  - intros i [Hi|Hi]%lookup_insert_is_Some. 
    + subst i. intros Hin. apply Hk. by right.
    + apply I4, Hi.
Qed.

Lemma inv_send l e id a s s' : server_inv l s -> sv_waiting s' = sv_waiting s -> sv_sent s' = sv_sent s -> id ∉ fst <$> sv_sent s ->
  sent_good (l ++ [e]) id a ->
  (forall svc ns ent, no_char "."%char svc -> no_char "."%char ns -> sv_cache s' !! cache_key svc ns = Some ent -> entry_good (l ++ [e]) svc ns ent) ->
  server_inv (l ++ [e]) (send id a s').
Proof.
  intros [I1 I2 I3 I4] Ew Es Hid Ha Hc. split; cbn; rewrite ?Ew, ?Es; [done|..].
  - apply Forall_app. split; [|by repeat constructor]. eapply Forall_impl; [exact I2|]. intros x. apply sent_good_mono.
  - rewrite fmap_app. apply NoDup_app. split; [done|]. split; [set_solver|apply NoDup_singleton].
  - intros i [Hi Hw]%lookup_delete_is_Some. rewrite fmap_app. cbn. apply I4 in Hw. set_solver.
Qed.

Lemma cache_mono l e (cache : gmap string dnsCacheEntry) svc ns ent : no_char "."%char svc -> no_char "."%char ns ->
  (forall svc ns ent, no_char "."%char svc -> no_char "."%char ns -> cache !! cache_key svc ns = Some ent -> entry_good l svc ns ent) ->
  cache !! cache_key svc ns = Some ent -> entry_good (l ++ [e]) svc ns ent.
Proof. intros H1 H2 Hc H Hn Hf. destruct (Hc svc ns ent H1 H2 H Hn Hf) as (j & t & Hr). exists j, t. by apply resolved_at_mono. Qed.

(** Waiting lookups are for names without dots. *)
Definition waits_ok (s : server) : Prop :=
  forall id msg q svc ns t, sv_waiting s !! id = Some (WLookup msg q svc ns t) -> no_char "."%char svc /\ no_char "."%char ns.

Lemma waits_step e s s' : waits_ok s -> serve_step e s = Some s' -> waits_ok s'.
Proof.
  intros Hw H. destruct e as [id now d|id now' ch v|id u]; cbn [serve_step] in H.
  - case_decide; [done|]. destruct (classify _ _) as [|r|msg q svc ns] eqn:E.
    + injection H as <-. intros i m q' a b t. cbn. rewrite lookup_insert_Some. intros [[_ [=]]|[_ Hi]]. by eapply Hw.
    + injection H as <-. intros i m q' a b t. cbn. rewrite lookup_delete_Some. intros [_ Hi]. by eapply Hw.
    + destruct (cached _ _ _) as [ent|]; injection H as <-; intros i m q' a b t; cbn.
      * rewrite lookup_delete_Some. intros [_ Hi]. by eapply Hw.
      * rewrite lookup_insert_Some. intros [[_ [= <- <- <- <- <-]]|[_ Hi]]; [by eapply classify_lookup|by eapply Hw].
  - destruct (sv_waiting s !! id) as [[]|]; [|done..]. destruct (resolved _ _ _ _ _ _). injection H as <-.
    intros i m q' a b t'. cbn. rewrite lookup_delete_Some. intros [_ Hi]. by eapply Hw.
  - destruct (sv_waiting s !! id) as [[]|]; [done| |done]. injection H as <-.
    intros i m q' a b t'. cbn. rewrite lookup_delete_Some. intros [_ Hi]. by eapply Hw.
Qed.

Lemma inv_step l e s s' : server_inv l s -> waits_ok s -> valid_event e -> serve_step e s = Some s' -> server_inv (l ++ [e]) s'.
Proof.
  intros I Hw Hv H. pose proof (fun svc ns ent H1 H2 => cache_mono l e (sv_cache s) svc ns ent H1 H2 (si_cache _ _ I)) as Hc.
  destruct e as [id now d|id now' ch v|id u]; cbn [serve_step] in H.
  - case_decide as Hk; [done|]. assert (id ∉ fst <$> sv_sent s) as Hid by (intros ?; apply Hk; by right).
    destruct (classify _ _) as [|r|msg q svc ns] eqn:E; [injection H as <-; by apply inv_wait|injection H as <-; by apply (inv_send _ _ _ _ s)|].
    destruct (cached now (cache_key svc ns) (sv_cache s)) as [ent|] eqn:Hent; injection H as <-; [|by apply inv_wait].
    apply (inv_send _ _ _ _ s); [done..| |done]. intros Hn Hf.
    apply classify_lookup in E as [D1 D2]. unfold cached in Hent. destruct (_ !! _) as [ent'|] eqn:El; [|done]. cbn [mbind option_bind] in Hent.
    case_bool_decide as Hlt; [|done]. injection Hent as ->. destruct (Hc svc ns ent D1 D2 El Hn Hf) as (j & t & Hr).
    exists j, t. split; [done|]. right. by destruct Hr as (? & ? & ? & _ & _ & _ & Hx); rewrite Hx in Hlt.
  - destruct (sv_waiting s !! id) as [[msg q svc ns now|]|] eqn:Hwt; [|done..].
    destruct (resolved _ _ _ _ _ _) as [cache ent] eqn:Hr. injection H as <-. destruct (Hw _ _ _ _ _ _ Hwt) as [D1 D2].
    assert (name_ok svc ns -> d_found ent = true -> resolved_at (l ++ [EvResolved id now' ch v]) svc ns ent id now') as Hgood.
    { intros Hn Hf. destruct (exchange_good now now' ch v svc ns (sv_cache s) ent Hv Hn) as (service & H1 & H2 & H3); [by rewrite Hr|done|].
      exists ch, v, service. split; [set_solver|done]. }
    apply (inv_send _ _ _ _ s); [done..| |intros Hn Hf; exists id, now'; split; [by apply Hgood|by left]|].
    { apply (si_apart _ _ I). by rewrite Hwt. }
    intros svc' ns' ent' D1' D2' Hl. assert (cache = sv_cache s \/ cache = <[cache_key svc ns := ent]> (sv_cache s)) as [-> | ->].
    { unfold resolved in Hr. destruct (querySvcOverVsock _ _ _ _); injection Hr as <- <-; auto. }
    + by apply Hc.
    + cbn [sv_cache] in Hl. apply lookup_insert_Some in Hl as [[Hk <-]|[_ Hl]]; [|by apply Hc]. apply name_key_inj in Hk as [<- <-]; [|done..].
      intros Hn Hf. exists id, now'. by apply Hgood.
  - destruct (sv_waiting s !! id) as [[|]|] eqn:Hwt; [done| |done]. injection H as <-.
    apply (inv_send _ _ _ _ s); [done..|apply (si_apart _ _ I); by rewrite Hwt|by destruct (forward _ _)|done].
Qed.

Lemma new_server_inv : server_inv [] new_server.
Proof. split; cbn; [intros ? ? ? _ _; by rewrite lookup_empty|constructor|constructor|]. intros id [x Hx]. by rewrite lookup_empty in Hx. Qed.

(** C22 DNS answers are fresh: however the lookups of the pod's processes
    interleave, and whatever the channel does to their exchanges, every
    datagram is answered at most once, and a name is answered as found only
    with the ClusterIPs of the Service of that name in the agent's view at an
    exchange of the proxy that was the datagram's own or less than 5 seconds
    old. *)
Theorem dns_answers_fresh l s : Forall valid_event l -> serve_run l new_server = Some s ->
  NoDup (fst <$> sv_sent s) /\
  forall id msg q svc ns now ent, (id, AService msg q svc ns now ent) ∈ sv_sent s -> name_ok svc ns -> d_found ent = true ->
    exists j now' ch v service, EvResolved j now' ch v ∈ l /\ (j = id \/ (now < now' + 5 * 1000000000)%Z) /\
      v_getService v (default_ns ns) svc = inr service /\
      re_Answers (reply_of msg q ent) = omap (answer_of q) (filter (fun ip => bool_decide (q_type q = TypeAAAA) = bool_decide (To4 ip = None))
        (omap ParseIP (cluster_ips service))).
Proof.
  intros Hl Hrun. assert (server_inv l s /\ waits_ok s) as [[_ I2 I3 _] _].
  { revert s Hrun. induction l as [|e l IH] using rev_ind; intros s Hrun.
    - injection Hrun as <-. split; [apply new_server_inv|]. intros id msg q svc ns t Hx. cbn in Hx. by rewrite lookup_empty in Hx.
    - apply Forall_app in Hl as [Hl [He _]%Forall_cons]. rewrite serve_run_app in Hrun. destruct (serve_run l new_server) as [s1|]; [|done].
      destruct (IH Hl s1 eq_refl) as [I1 W1]. cbn [mbind option_bind serve_run] in Hrun.
      destruct (serve_step e s1) as [s2|] eqn:E; [|done]. injection Hrun as <-. split; [by eapply inv_step|by eapply waits_step]. }
  split; [done|]. intros id msg q svc ns now ent Hin Hn Hf. rewrite Forall_forall in I2. specialize (I2 _ Hin Hn Hf).
  destruct I2 as (j & now' & (ch & v & service & Hev & Hget & Hips & _) & Ho). exists j, now', ch, v, service. split_and!; [done|done|done|].
  unfold reply_of. rewrite Hf. cbn [dnsReply re_Answers]. by rewrite Hips.
Qed.
End Serve.

(** *** Two queries for one name: the first asks the agent, the second, three
    seconds later, is served from the cache *)

Definition ex_dns_service : Service := Svc "ns" "web" "fd00:10:96::5" [] [].
Definition ex_dns_view : view := View ∅ true true (inr []) (fun _ _ => inr ex_dns_service) (fun _ _ => inr []).
Definition ex_dns_events : list dns_event :=
  [EvDatagram 0 0 [0]%Z; EvResolved 0 1000000000 good_channel ex_dns_view; EvDatagram 1 3000000000 [0]%Z].
Definition ex_dns_say (_ : bytes) : string := "invalid character".
Definition ex_dns_server : server := default new_server (serve_run ex_unpack ex_dns_say "" ex_dns_events new_server).

Lemma ex_dns_view_valid : view_valid ex_dns_view.
Proof. split; [by split_and!|]. split; [done|constructor|intros ns n; cbn; repeat constructor|intros ns n; cbn; constructor]. Qed.

Lemma dns_answers_fresh_witness :
  NoDup (fst <$> sv_sent ex_dns_server) /\
  exists msg q ent, (1, AService msg q "web" "ns" 3000000000 ent) ∈ sv_sent ex_dns_server /\
    exists j now' ch v service, EvResolved j now' ch v ∈ ex_dns_events /\ (j = 1 \/ (3000000000 < now' + 5 * 1000000000)%Z) /\
      v_getService v (default_ns "ns") "web" = inr service /\
      re_Answers (reply_of msg q ent) = omap (answer_of q) (filter (fun ip => bool_decide (q_type q = TypeAAAA) = bool_decide (To4 ip = None))
        (omap ParseIP (cluster_ips service))).
Proof.
  destruct (dns_answers_fresh ex_unpack ex_dns_say "" ex_dns_events ex_dns_server) as [H1 H2].
  - repeat (constructor; try exact ex_dns_view_valid).
  - vm_compute. reflexivity.
  - split; [exact H1|].
    assert (exists msg q ent, (1, AService msg q "web" "ns" 3000000000 ent) ∈ sv_sent ex_dns_server /\ d_found ent = true) as (msg & q & ent & Hin & Hf).
    { eexists _, _, _. split; [apply (list_elem_of_lookup_2 _ 1); vm_compute; reflexivity|reflexivity]. }
    exists msg, q, ent. split; [exact Hin|]. apply (H2 1 msg q "web" "ns" 3000000000%Z ent Hin); [|exact Hf].
    split; [reflexivity|]. split; [reflexivity|discriminate].
Defined.
