(* ===== verification/Pod.v ===== *)
(** * Pods and the agent's per-pod state (poc/agent/main.go)

    The fields of an API pod the agent reads, and [podVM], the agent's record
    of one pod's VM, with the operations on it that only lock and update.
    Fields of Kubernetes objects the agent never reads are left out; optional
    fields are options; a nil and an empty slice or map are the same value. *)
From S2P Require Import Prelude.

Inductive probe_handler :=
| ProbeExec (command : list string)
| ProbeHTTPGet (port : Z) (path scheme : string)
| ProbeTCPSocket (port : Z)
| ProbeNone.

Record Probe := MkProbe {
  pr_Handler : probe_handler;
  pr_InitialDelaySeconds : Z; pr_TimeoutSeconds : Z; pr_PeriodSeconds : Z;
  pr_SuccessThreshold : Z; pr_FailureThreshold : Z
}.

Record EnvVar := MkEnv { ev_Name : string; ev_Value : string; ev_ValueFrom : bool }.

Record VolumeMount := MkMount {
  m_Name : string; m_MountPath : string; m_ReadOnly : bool; m_SubPath : string; m_SubPathExpr : string
}.

Record ContainerPort := MkPort {
  cp_Name : string; cp_ContainerPort : Z; cp_HostPort : Z; cp_HostIP : string; cp_Protocol : string
}.

Record Container := MkContainer {
  ct_Name : string; ct_Image : string;
  ct_Command : list string; ct_Args : list string; ct_TTY : bool;
  ct_Env : list EnvVar; ct_WorkingDir : string;
  ct_VolumeMounts : list VolumeMount; ct_Ports : list ContainerPort;
  ct_MemoryLimit : option Z;   (* bytes *)
  ct_CPULimit : option Z;      (* what [Value] rounds the quantity to *)
  ct_StartupProbe : option Probe; ct_ReadinessProbe : option Probe; ct_LivenessProbe : option Probe
}.

(** Where a volume's content comes from; items are (key, path, mode). *)
Record KeyToPath := MkItem { it_Key : string; it_Path : string; it_Mode : option Z }.
Inductive volume_source :=
| HostPath (path : string) (type : option string)
| EmptyDir
| ConfigMap (name : string) (items : list KeyToPath) (mode : option Z) (optional : bool)
| Secret (name : string) (items : list KeyToPath) (mode : option Z) (optional : bool)
| Projected
| OtherSource.
Record Volume := MkVolume { v_Name : string; v_Source : volume_source }.

Inductive phase := PodPending | PodRunning | PodSucceeded | PodFailed.

#[export] Instance phase_eq_dec : EqDecision phase.
Proof. solve_decision. Defined.

Record Pod := MkPod {
  p_UID : string; p_Name : string; p_Namespace : string;
  p_Annotations : gmap string string;
  p_InitContainers : list Container; p_Containers : list Container;
  p_RestartPolicy : string; p_Volumes : list Volume;
  p_TerminationGrace : option Z;      (* [Spec.TerminationGracePeriodSeconds] *)
  p_DeletionGrace : option Z;         (* [DeletionGracePeriodSeconds] *)
  p_Deleting : bool;                  (* [DeletionTimestamp != nil] *)
  p_Phase : option phase              (* [Status.Phase] *)
}.

(** Init containers followed by main containers. *)
Definition allContainers (pod : Pod) : list Container := p_InitContainers pod ++ p_Containers pod.

(** An annotation; absent ones read as "". *)
Definition annotation (pod : Pod) (k : string) : string := default "" (p_Annotations pod !! k).

Definition podGracePeriod (pod : Pod) : Z :=
  match p_DeletionGrace pod, p_TerminationGrace pod with
  | Some g, _ => g
  | None, Some g => g
  | None, None => 30
  end.

(** The restart policy with its default. *)
Definition effective_policy (pod : Pod) : string :=
  if bool_decide (p_RestartPolicy pod = "") then "Always" else p_RestartPolicy pod.

(** ** Container statuses of the API *)

(** [corev1.ContainerState]: the agent always sets exactly one member. *)
Inductive container_state :=
| CsWaiting (reason message : string)
| CsRunning (startedAt : Z)
| CsTerminated (exitCode : Z) (reason message : string) (startedAt finishedAt : Z).

Record ContainerStatus := MkStatus {
  cs_Name : string; cs_Image : string; cs_State : container_state; cs_Ready : bool; cs_RestartCount : Z
}.

#[export] Instance container_state_eq_dec : EqDecision container_state.
Proof. solve_decision. Defined.
#[export] Instance ContainerStatus_eq_dec : EqDecision ContainerStatus.
Proof. solve_decision. Defined.

(** ** podVM *)

(** The payload [pushStatus] digests; the digest is its JSON encoding. *)
Notation push := (phase * list ContainerStatus * list ContainerStatus)%type.

Record podVM := MkVM {
  vm_podUID : string; vm_name : string; vm_ns : string;
  vm_static : bool; vm_mirrorName : string;
  vm_ready : gmap string bool;
  vm_stopping : bool;
  vm_restarts : Z;
  vm_ip6 : string;
  vm_stopped : bool;              (* [stopOnce] has run *)
  vm_lastPush : option push;
  vm_last : option (phase * string * string * list ContainerStatus * list ContainerStatus)
}.

Definition new_vm (uid name ns : string) (static : bool) (mirror : string) : podVM :=
  MkVM uid name ns static mirror ∅ false 0 "" false None None.

Definition set_ready (r : gmap string bool) (vm : podVM) : podVM :=
  MkVM (vm_podUID vm) (vm_name vm) (vm_ns vm) (vm_static vm) (vm_mirrorName vm) r (vm_stopping vm)
    (vm_restarts vm) (vm_ip6 vm) (vm_stopped vm) (vm_lastPush vm) (vm_last vm).
Definition setStopping (vm : podVM) : podVM :=
  MkVM (vm_podUID vm) (vm_name vm) (vm_ns vm) (vm_static vm) (vm_mirrorName vm) (vm_ready vm) true
    (vm_restarts vm) (vm_ip6 vm) (vm_stopped vm) (vm_lastPush vm) (vm_last vm).
Definition set_stopped (vm : podVM) : podVM :=
  MkVM (vm_podUID vm) (vm_name vm) (vm_ns vm) (vm_static vm) (vm_mirrorName vm) (vm_ready vm) (vm_stopping vm)
    (vm_restarts vm) (vm_ip6 vm) true (vm_lastPush vm) (vm_last vm).
Definition bump_restarts (vm : podVM) : podVM :=
  MkVM (vm_podUID vm) (vm_name vm) (vm_ns vm) (vm_static vm) (vm_mirrorName vm) (vm_ready vm) (vm_stopping vm)
    (vm_restarts vm + 1) (vm_ip6 vm) (vm_stopped vm) (vm_lastPush vm) (vm_last vm).
Definition setIP (ip : string) (vm : podVM) : podVM :=
  MkVM (vm_podUID vm) (vm_name vm) (vm_ns vm) (vm_static vm) (vm_mirrorName vm) (vm_ready vm) (vm_stopping vm)
    (vm_restarts vm) ip (vm_stopped vm) (vm_lastPush vm) (vm_last vm).
Definition set_lastPush (p : push) (vm : podVM) : podVM :=
  MkVM (vm_podUID vm) (vm_name vm) (vm_ns vm) (vm_static vm) (vm_mirrorName vm) (vm_ready vm) (vm_stopping vm)
    (vm_restarts vm) (vm_ip6 vm) (vm_stopped vm) (Some p) (vm_last vm).
Definition set_last (l : phase * string * string * list ContainerStatus * list ContainerStatus) (vm : podVM) : podVM :=
  MkVM (vm_podUID vm) (vm_name vm) (vm_ns vm) (vm_static vm) (vm_mirrorName vm) (vm_ready vm) (vm_stopping vm)
    (vm_restarts vm) (vm_ip6 vm) (vm_stopped vm) (vm_lastPush vm) (Some l).

(** Containers without readiness or startup probes are ready at once. *)
Definition initReady (pod : Pod) (vm : podVM) : podVM :=
  set_ready (foldl (fun m c =>
    <[ct_Name c := bool_decide (ct_ReadinessProbe c = None) && bool_decide (ct_StartupProbe c = None)]> m)
    ∅ (p_Containers pod)) vm.

Definition containerReady (name : string) (vm : podVM) : bool := default false (vm_ready vm !! name).

(** [setContainerReady]: also reports whether the flag changed. *)
Definition setContainerReady (name : string) (r : bool) (vm : podVM) : podVM * bool :=
  (set_ready (<[name := r]> (vm_ready vm)) vm, negb (Bool.eqb (containerReady name vm) r)).

Lemma containerReady_set name r name' vm :
  containerReady name' (setContainerReady name r vm).1 =
  if bool_decide (name' = name) then r else containerReady name' vm.
Proof.
  unfold containerReady, setContainerReady; cbn. case_bool_decide as H.
  - subst. by rewrite lookup_insert_eq.
  - by rewrite lookup_insert_ne.
Qed.
