(* ===== verification/Status.v ===== *)
(** * Pod status (poc/agent/status.go, setPhase of poc/agent/main.go)

    From the guest's container statuses to the API: [translateStatuses],
    [finalPhase], [waitingStatuses], [pushStatus] with its deduplication and
    [setPhase]. The API server's pods are a map from (namespace, name) to
    status; whether a Get or an UpdateStatus succeeds is an argument. The
    guest's records are those [Supervisor] reports. *)
From S2P Require Import Prelude GoStrings Pod Supervisor.

(** The JSON record of one guest container; states travel as strings. *)
Record guestContainerStatus := MkGuest {
  g_Name : string; g_State : string; g_ExitCode : Z; g_Restarts : Z;
  g_StartedAt : Z; g_FinishedAt : Z; g_Reason : string
}.

Definition state_string (st : cstate) : string :=
  match st with Waiting => "Waiting" | Running => "Running" | Terminated => "Terminated" end.

(** What the agent decodes of a status the supervisor encoded. *)
Definition of_guest (s : containerStatus) : guestContainerStatus :=
  MkGuest (s_Name s) (state_string (s_State s)) (s_ExitCode s) (s_Restarts s)
    (s_StartedAt s) (s_FinishedAt s) (s_Reason s).

(** ** Operations *)

(** [byName]: the last status of a name wins. *)
Definition byName (sts : list guestContainerStatus) : gmap string guestContainerStatus :=
  build_map ((fun st => (g_Name st, st)) <$> sts).

(** [conv] of [translateStatuses]. *)
Definition conv (vm : podVM) (sts : list guestContainerStatus) (init : bool) (c : Container) : ContainerStatus :=
  match byName sts !! ct_Name c with
  | None => MkStatus (ct_Name c) (ct_Image c) (CsWaiting "ContainerCreating" "") false 0
  | Some st =>
      if bool_decide (g_State st = "Running") then
        MkStatus (ct_Name c) (ct_Image c) (CsRunning (g_StartedAt st))
          (negb init && containerReady (ct_Name c) vm) (g_Restarts st)
      else if bool_decide (g_State st = "Terminated") then
        MkStatus (ct_Name c) (ct_Image c)
          (CsTerminated (g_ExitCode st) (if bool_decide (g_ExitCode st = 0%Z) then "Completed" else "Error")
             (g_Reason st) (g_StartedAt st) (g_FinishedAt st))
          (init && bool_decide (g_ExitCode st = 0%Z)) (g_Restarts st)
      else
        MkStatus (ct_Name c) (ct_Image c)
          (CsWaiting (if HasPrefix (g_Reason st) "CrashLoopBackOff" then "CrashLoopBackOff" else "ContainerCreating")
             (g_Reason st))
          false (g_Restarts st)
  end.

Definition exited_zero (cs : ContainerStatus) : bool :=
  match cs_State cs with CsTerminated code _ _ _ _ => bool_decide (code = 0%Z) | _ => false end.

Definition translateStatuses (pod : Pod) (sts : list guestContainerStatus) (vm : podVM)
  : list ContainerStatus * list ContainerStatus * phase :=
  let ics := conv vm sts true <$> p_InitContainers pod in
  let css := conv vm sts false <$> p_Containers pod in
  (ics, css, if forallb exited_zero ics then PodRunning else PodPending).

Definition finalPhase (ics css : list ContainerStatus) : phase :=
  if forallb exited_zero (ics ++ css) then PodSucceeded else PodFailed.

Definition waitingStatuses (cs : list Container) (reason message : string) : list ContainerStatus :=
  (fun c => MkStatus (ct_Name c) (ct_Image c) (CsWaiting reason message) false 0) <$> cs.

(** The status of an API pod, as far as [setPhase] writes it. *)
Record podStatus := MkPodStatus {
  ps_Phase : option phase; ps_Reason : string; ps_Message : string;
  ps_StartTime : option Z; ps_PodIP : string;
  ps_Scheduled : bool; ps_Ready : bool; ps_ContainersReady : bool;
  ps_CS : list ContainerStatus; ps_ICS : list ContainerStatus
}.

Notation api := (gmap (string * string) podStatus).

(** Whether the requests of one [setPhase] succeed. *)
Record api_outcome := ApiOutcome { ao_get : bool; ao_update : bool }.

(** PodReady: running, with at least one container, all of them ready. *)
Definition pod_ready (ph : phase) (css : list ContainerStatus) : bool :=
  bool_decide (ph = PodRunning) && bool_decide (css <> []) && forallb cs_Ready css.

(** [setPhase]; [client]: the API client exists; [vm] is [a.vms[pod.UID]]. *)
Definition setPhase (client : bool) (o : api_outcome) (now : Z) (pod : Pod) (ph : phase) (reason message : string)
    (ics css : list ContainerStatus) (vm : option podVM) (store : api) : option podVM * api :=
  let static := match vm with Some v => vm_static v | None => false end in
  let name := match vm with Some v => if vm_static v then vm_mirrorName v else p_Name pod | None => p_Name pod end in
  let vm' := (fun v => if static then set_last (ph, reason, message, ics, css) v else v) <$> vm in
  if negb client || negb (ao_get o) then (vm', store)
  else
    match store !! (p_Namespace pod, name) with
    | None => (vm', store)
    | Some latest =>
        let ip := match vm with Some v => vm_ip6 v | None => "" end in
        let ready := pod_ready ph css in
        let latest' := MkPodStatus (Some ph) reason message
          (Some (default now (ps_StartTime latest)))
          (if bool_decide (ip = "") then ps_PodIP latest else ip)
          true ready ready
          (if bool_decide (css = []) then ps_CS latest else css)
          (if bool_decide (ics = []) then ps_ICS latest else ics) in
        (vm', if ao_update o then <[(p_Namespace pod, name) := latest']> store else store)
    end.

(** [pushStatus]: [polled] is what [execdStatus] returned. The digest is
    recorded before the update is sent. *)
Definition pushStatus (client : bool) (o : api_outcome) (now : Z) (pod : Pod)
    (polled : option (list guestContainerStatus)) (vm : podVM) (store : api) : podVM * api :=
  match polled with
  | None => (vm, store)
  | Some sts =>
      let '(ics, css, ph) := translateStatuses pod sts vm in
      let same := bool_decide (vm_lastPush vm = Some (ph, ics, css)) in
      let vm := set_lastPush (ph, ics, css) vm in
      if same then (vm, store)
      else
        let '(vm', store) := setPhase client o now pod ph "" "" ics css (Some vm) store in
        (default vm vm', store)
  end.

(** ** Lemmas *)

Lemma byName_lookup sts st :
  NoDup (g_Name <$> sts) -> st ∈ sts -> byName sts !! g_Name st = Some st.
Proof.
  intros Hnd Hin. unfold byName. apply build_map_lookup.
  - rewrite <-list_fmap_compose. done.
  - apply list_elem_of_fmap. by exists st.
Qed.

Lemma forallb_Forall {A} (f : A -> bool) l : forallb f l = true <-> Forall (fun x => f x = true) l.
Proof. rewrite forallb_forall, Forall_forall. by setoid_rewrite list_elem_of_In. Qed.

Lemma conv_exited vm sts init c :
  exited_zero (conv vm sts init c) = true <->
  exists st, byName sts !! ct_Name c = Some st /\ g_State st = "Terminated" /\ g_ExitCode st = 0%Z.
Proof.
  unfold conv. destruct (byName sts !! ct_Name c) as [st|]; [|naive_solver].
  case_bool_decide as Hr; cbn; [naive_solver congruence|].
  case_bool_decide as Ht; cbn; [|naive_solver]. rewrite bool_decide_eq_true. naive_solver.
Qed.

Lemma conv_ready vm sts c :
  cs_Ready (conv vm sts false c) = true <->
  exists st, byName sts !! ct_Name c = Some st /\ g_State st = "Running" /\ containerReady (ct_Name c) vm = true.
Proof.
  unfold conv. destruct (byName sts !! ct_Name c) as [st|]; [|naive_solver].
  case_bool_decide as Hr; cbn; [naive_solver|]. case_bool_decide as Ht; cbn; naive_solver.
Qed.

(** The statuses the supervisor reports, by container. *)
Lemma supervisor_status (s : sup) p init :
  NoDup (names_of (inits s ++ mains s)) -> p ∈ procs init s ->
  byName (of_guest <$> statuses s) !! c_name p.1 = Some (of_guest (container_status p.1 init)).
Proof.
  intros Hnd Hin.
  assert (g_Name <$> (of_guest <$> statuses s) = names_of (inits s ++ mains s)) as Hn.
  { unfold statuses. rewrite !fmap_app, <-!list_fmap_compose. done. }
  change (c_name p.1) with (g_Name (of_guest (container_status p.1 init))).
  apply byName_lookup; [by rewrite Hn|]. apply list_elem_of_fmap. eexists. split; [done|].
  unfold statuses. apply elem_of_app. destruct init; [left|right]; apply list_elem_of_fmap; by exists p.
Qed.

Lemma exited_zero_supervised (s : sup) vm init c p :
  NoDup (names_of (inits s ++ mains s)) -> p ∈ procs init s -> ct_Name c = c_name p.1 ->
  exited_zero (conv vm (of_guest <$> statuses s) init c) = true <->
  c_state p.1 = Terminated /\ c_exitCode p.1 = 0%Z.
Proof.
  intros Hnd Hin Hc. rewrite conv_exited, Hc, (supervisor_status s p init) by done.
  destruct p as [[]]; cbn. destruct c_state; cbn; naive_solver.
Qed.

(** Pairwise, along the containers of the spec and their processes. *)
Lemma conv_list (s : sup) vm init cs (f : ContainerStatus -> bool) (P : proc -> Prop) :
  (forall c p, p ∈ procs init s -> ct_Name c = c_name p.1 -> f (conv vm (of_guest <$> statuses s) init c) = true <-> P p) ->
  ct_Name <$> cs = names_of (procs init s) ->
  forallb f (conv vm (of_guest <$> statuses s) init <$> cs) = true <-> Forall P (procs init s).
Proof.
  intros Hf Hn. rewrite forallb_Forall, Forall_fmap.
  apply Forall2_fmap_eq in Hn. pose proof (Forall2_length _ _ _ Hn) as Hlen. unfold compose. split; intros H.
  - apply Forall_lookup. intros i p Hp. destruct (lookup_lt_is_Some_2 cs i) as [c Hc].
    { rewrite Hlen. by eapply lookup_lt_Some. }
    apply (Hf c p); [by eapply list_elem_of_lookup_2|exact (Forall2_lookup_lr _ _ _ _ _ _ Hn Hc Hp)|].
    exact (Forall_lookup_1 _ _ _ _ H Hc).
  - apply Forall_lookup. intros i c Hc. destruct (lookup_lt_is_Some_2 (procs init s) i) as [p Hp].
    { rewrite <-Hlen. by eapply lookup_lt_Some. }
    apply (Hf c p); [by eapply list_elem_of_lookup_2|exact (Forall2_lookup_lr _ _ _ _ _ _ Hn Hc Hp)|].
    exact (Forall_lookup_1 _ _ _ _ H Hp).
Qed.

Lemma exited_zero_list (s : sup) vm init cs :
  NoDup (names_of (inits s ++ mains s)) -> ct_Name <$> cs = names_of (procs init s) ->
  forallb exited_zero (conv vm (of_guest <$> statuses s) init <$> cs) = true <->
  Forall (fun q : proc => c_state q.1 = Terminated /\ c_exitCode q.1 = 0%Z) (procs init s).
Proof. intros Hnd. apply conv_list. intros c p. by apply exited_zero_supervised. Qed.

Lemma ready_list (s : sup) vm cs :
  NoDup (names_of (inits s ++ mains s)) -> ct_Name <$> cs = names_of (mains s) ->
  forallb cs_Ready (conv vm (of_guest <$> statuses s) false <$> cs) = true <->
  Forall (fun q : proc => c_state q.1 = Running /\ containerReady (c_name q.1) vm = true) (mains s).
Proof.
  intros Hnd. apply (conv_list s vm false). intros c p Hin Hc.
  rewrite conv_ready, Hc, (supervisor_status s p false) by done.
  destruct p as [[]]; cbn. destruct c_state; cbn; naive_solver.
Qed.

(** ** Theorems *)

(** The phase the agent reports at the end agrees with the supervisor:
    when [run] has returned, the final statuses of a pod whose containers have
    distinct names translate to Succeeded exactly when [run] returned 0 (every
    container terminated with exit code 0), and to Failed otherwise. *)
Lemma final_phase pol pod s code vm :
  reachable pol (ct_Name <$> p_InitContainers pod) (ct_Name <$> p_Containers pod) s -> run_at s = Returned code ->
  NoDup (ct_Name <$> allContainers pod) ->
  let '(ics, css, _) := translateStatuses pod (of_guest <$> statuses s) vm in
  finalPhase ics css = if bool_decide (code = 0%Z) then PodSucceeded else PodFailed.
Proof.
  intros Hr Hp Hnd. destruct (reachable_names _ _ _ _ Hr) as [Hi Hm].
  assert (NoDup (names_of (inits s ++ mains s))) as Hnd'.
  { rewrite fmap_app, Hi, Hm, <-fmap_app. done. }
  cbn. unfold finalPhase. rewrite forallb_app.
  pose proof (run_code_zero _ _ _ _ _ Hr Hp) as Hz. rewrite Forall_app in Hz.
  pose proof (exited_zero_list s vm true _ Hnd' (eq_sym Hi)) as H1.
  pose proof (exited_zero_list s vm false _ Hnd' (eq_sym Hm)) as H2.
  cbn [procs] in H1, H2.
  destruct (forallb _ _), (forallb _ _); cbn [andb]; case_bool_decide; try done; naive_solver.
Qed.

Definition ex_container (name : string) : Container :=
  MkContainer name "img" [] [] false [] "" [] [] None None None None None.
Definition ex_pod (inits mains : list string) : Pod :=
  MkPod "uid" "web" "ns" ∅ (ex_container <$> inits) (ex_container <$> mains) "Never" [] None None false None.

(** Readiness is honest: the pod is reported Ready exactly when every
    init container has terminated with exit code 0, the pod has a main
    container, and every main container is running in the guest with its
    readiness flag up. *)
Theorem pod_ready_exact pod sts vm :
  let '(ics, css, ph) := translateStatuses pod sts vm in
  pod_ready ph css = true <->
  p_Containers pod <> [] /\
  (forall c, c ∈ p_InitContainers pod -> exists st, byName sts !! ct_Name c = Some st /\
     g_State st = "Terminated" /\ g_ExitCode st = 0%Z) /\
  (forall c, c ∈ p_Containers pod -> exists st, byName sts !! ct_Name c = Some st /\
     g_State st = "Running" /\ containerReady (ct_Name c) vm = true).
Proof.
  cbn. unfold pod_ready. rewrite !andb_true_iff, !bool_decide_eq_true, forallb_Forall, Forall_fmap, Forall_forall.
  setoid_rewrite conv_ready.
  assert (forallb exited_zero (conv vm sts true <$> p_InitContainers pod) = true <->
    forall c, c ∈ p_InitContainers pod -> exists st, byName sts !! ct_Name c = Some st /\
     g_State st = "Terminated" /\ g_ExitCode st = 0%Z) as <-.
  { rewrite forallb_Forall, Forall_fmap, Forall_forall. by setoid_rewrite conv_exited. }
  assert (conv vm sts false <$> p_Containers pod <> [] <-> p_Containers pod <> []) as ->.
  { by destruct (p_Containers pod). }
  destruct (forallb exited_zero _); naive_solver.
Qed.

(** The API key [setPhase] writes for a pod and its VM. *)
Definition api_key (pod : Pod) (vm : podVM) : string * string :=
  (p_Namespace pod, if vm_static vm then vm_mirrorName vm else p_Name pod).

(** A poll whose payload is the last one pushed changes nothing. *)
Lemma push_same client o now pod sts vm store ics css ph :
  translateStatuses pod sts vm = (ics, css, ph) -> vm_lastPush vm = Some (ph, ics, css) ->
  pushStatus client o now pod (Some sts) vm store = (set_lastPush (ph, ics, css) vm, store).
Proof. intros Ht Hl. unfold pushStatus. rewrite Ht. by rewrite bool_decide_true. Qed.

(** [pushStatus] records the payload and touches nothing the translation reads. *)
Lemma push_records client o now pod sts vm store ics css ph vm' store' :
  translateStatuses pod sts vm = (ics, css, ph) ->
  pushStatus client o now pod (Some sts) vm store = (vm', store') ->
  vm_lastPush vm' = Some (ph, ics, css) /\ vm_ready vm' = vm_ready vm.
Proof.
  intros Ht. unfold pushStatus. rewrite Ht. case_bool_decide; [by intros [= <- <-]|].
  unfold setPhase. repeat case_match; intros; simplify_eq/=; done.
Qed.

Lemma translate_ready pod sts vm vm' :
  vm_ready vm' = vm_ready vm -> translateStatuses pod sts vm' = translateStatuses pod sts vm.
Proof. intros H. unfold translateStatuses, conv, containerReady. by rewrite H. Qed.

(** Polls that return the same statuses. *)
Definition repeat_push (pod : Pod) (sts : list guestContainerStatus) (l : list (api_outcome * Z)) (client : bool)
    (vs : podVM * api) : podVM * api :=
  foldl (fun vs x => pushStatus client x.1 x.2 pod (Some sts) vs.1 vs.2) vs l.

Lemma repeat_push_same client pod sts l vm store ics css ph :
  translateStatuses pod sts vm = (ics, css, ph) -> vm_lastPush vm = Some (ph, ics, css) ->
  (repeat_push pod sts l client (vm, store)).2 = store.
Proof.
  revert vm. induction l as [|[o t] l IH]; intros vm Ht Hl; [done|].
  unfold repeat_push. cbn [foldl fst snd]. rewrite (push_same _ _ _ _ _ _ _ _ _ _ Ht Hl).
  by apply IH.
Qed.

(** A change is published once: when the payload differs from the last one
    pushed and the requests succeed, the API pod gets the translated phase,
    container statuses and readiness, every other pod's status is unchanged,
    and later polls that return the same statuses change nothing, whatever
    their requests' outcomes. *)
Theorem push_publishes now pod sts vm store ics css ph latest l :
  translateStatuses pod sts vm = (ics, css, ph) -> vm_lastPush vm <> Some (ph, ics, css) ->
  store !! api_key pod vm = Some latest ->
  let r := pushStatus true (ApiOutcome true true) now pod (Some sts) vm store in
  (exists st, r.2 = <[api_key pod vm := st]> store /\ ps_Phase st = Some ph /\ ps_Ready st = pod_ready ph css /\
     (css <> [] -> ps_CS st = css) /\ (ics <> [] -> ps_ICS st = ics) /\
     ps_StartTime st = Some (default now (ps_StartTime latest))) /\
  (repeat_push pod sts l true r).2 = r.2.
Proof.
  intros Ht Hl Hs r. split.
  - unfold r, pushStatus. rewrite Ht. rewrite bool_decide_false by done. unfold setPhase. cbn [negb orb ao_get ao_update].
    cbn [vm_static set_lastPush vm_mirrorName]. unfold api_key in *.
    rewrite Hs. eexists. split; [reflexivity|]. cbn. split_and!; try done; intros ?; by rewrite bool_decide_false.
  - destruct r as [vm' store'] eqn:Hr. destruct (push_records _ _ _ _ _ _ _ _ _ _ _ _ Ht Hr) as [H1 H2].
    eapply repeat_push_same; [|done]. by rewrite (translate_ready pod sts vm vm' H2).
Qed.

Definition ex_store : api := {[ ("ns", "web") := MkPodStatus None "" "" None "" false false false [] [] ]}.
Definition ex_running : list guestContainerStatus := [MkGuest "a" "Running" 0 0 7 0 ""].
Definition ex_vm : podVM := initReady (ex_pod [] ["a"]) (new_vm "uid" "web" "ns" false "").

Lemma push_publishes_witness :
  let r := pushStatus true (ApiOutcome true true) 9 (ex_pod [] ["a"]) (Some ex_running) ex_vm ex_store in
  (exists st, r.2 = <[("ns", "web") := st]> ex_store /\ ps_Phase st = Some PodRunning /\ ps_Ready st = true) /\
  (repeat_push (ex_pod [] ["a"]) ex_running [(ApiOutcome true true, 10%Z)] true r).2 = r.2.
Proof.
  destruct (push_publishes 9 (ex_pod [] ["a"]) ex_running ex_vm ex_store []
    [MkStatus "a" "img" (CsRunning 7) true 0] PodRunning (MkPodStatus None "" "" None "" false false false [] [])
    [(ApiOutcome true true, 10%Z)]) as [(st & H1 & H2 & H3 & _) H4];
    [vm_compute; reflexivity|discriminate|reflexivity|].
  split; [exists st; split; [exact H1|split; [exact H2|rewrite H3; reflexivity]]|exact H4].
Defined.

(** Finding: a failed push is lost. The digest is recorded before the
    update is sent, so when the Get or the UpdateStatus of a changed status
    fails, every later poll that returns the same statuses is dropped as a
    duplicate, although the API never got them. *)
Theorem failed_push_is_lost o now pod sts vm store l :
  ao_get o && ao_update o = false ->
  let r := pushStatus true o now pod (Some sts) vm store in
  r.2 = store /\ (repeat_push pod sts l true r).2 = store.
Proof.
  intros Ho r. destruct (translateStatuses pod sts vm) as [[ics css] ph] eqn:Ht.
  assert (r.2 = store) as Hr.
  { unfold r, pushStatus. rewrite Ht. case_bool_decide; [done|]. unfold setPhase.
    destruct o as [[] []]; try discriminate Ho; cbn; try done. by destruct (store !! _). }
  split; [done|]. destruct r as [vm' store'] eqn:Hrr. cbn in Hr. subst store'.
  destruct (push_records _ _ _ _ _ _ _ _ _ _ _ _ Ht Hrr) as [H1 H2].
  eapply repeat_push_same; [|done]. by rewrite (translate_ready pod sts vm vm' H2).
Qed.

Lemma failed_push_is_lost_witness :
  let r := pushStatus true (ApiOutcome true false) 9 (ex_pod [] ["a"]) (Some ex_running) ex_vm ex_store in
  r.2 = ex_store /\
  (repeat_push (ex_pod [] ["a"]) ex_running [(ApiOutcome true true, 10%Z); (ApiOutcome true true, 15%Z)] true r).2
    = ex_store.
Proof.
  apply (failed_push_is_lost (ApiOutcome true false) 9 (ex_pod [] ["a"]) ex_running ex_vm ex_store
    [(ApiOutcome true true, 10%Z); (ApiOutcome true true, 15%Z)]). reflexivity.
Defined.
