(* ===== verification/Probes.v ===== *)
(** * Probes (poc/agent/probes.go)

    [probeLoop] as a fold over probe results with its thresholds, the three
    probe loops of a container with the startup gate and their effects, and
    [doProbe] on top of the execd client of [Frames]. A delay, a period and
    the stop channel only decide which results arrive; what follows is for
    every sequence of them. *)
From S2P Require Import Prelude GoStrings Frames Pod.

Inductive probe_kind := Startup | Readiness | Liveness.

#[export] Instance probe_kind_eq_dec : EqDecision probe_kind.
Proof. solve_decision. Defined.

(** ** probeLoop *)

Definition failureThreshold (p : Probe) : Z := if bool_decide (pr_FailureThreshold p <= 0)%Z then 3 else pr_FailureThreshold p.
Definition successThreshold (p : Probe) : Z := if bool_decide (pr_SuccessThreshold p <= 0)%Z then 1 else pr_SuccessThreshold p.
Definition probe_period (p : Probe) : Z := if bool_decide (pr_PeriodSeconds p <= 0)%Z then 10 else pr_PeriodSeconds p.
Definition probe_timeout (p : Probe) : Z := if bool_decide (pr_TimeoutSeconds p <= 0)%Z then 1 else pr_TimeoutSeconds p.

(** The loop's counters: consecutive successes and failures. *)
Notation counters := (Z * Z)%type.

(** One iteration: the new counters and what is reported, if anything. *)
Definition probe_step (kind : probe_kind) (p : Probe) (healthy : bool) (st : counters) : counters * option bool :=
  let '(successes, failures) := st in
  if healthy then
    let successes := (successes + 1)%Z in
    ((successes, 0%Z), if bool_decide (successes = successThreshold p) then Some true else None)
  else
    let failures := (failures + 1)%Z in
    if bool_decide (failures = failureThreshold p)
    then (if bool_decide (kind = Readiness) then (0%Z, failures) else (0%Z, 0%Z), Some false)
    else ((0%Z, failures), None).

(** The reports of a sequence of results. *)
Fixpoint probe_run (kind : probe_kind) (p : Probe) (results : list bool) (st : counters) : counters * list bool :=
  match results with
  | [] => (st, [])
  | r :: results' =>
      let '(st1, rep) := probe_step kind p r st in
      let '(st2, reps) := probe_run kind p results' st1 in
      (st2, match rep with Some b => b :: reps | None => reps end)
  end.

(** ** The loops of one container *)

Record cprobes := CProbes {
  cp_done : bool;                (* [startupDone] is closed *)
  cp_startup : counters; cp_readiness : counters; cp_liveness : counters;
  cp_vm : podVM
}.

(** [killContainer] and [pushStatus] calls. *)
Inductive effect := EffKill (reason : string) | EffPush.

Definition probe_of (c : Container) (k : probe_kind) : option Probe :=
  match k with Startup => ct_StartupProbe c | Readiness => ct_ReadinessProbe c | Liveness => ct_LivenessProbe c end.

(** The state [runContainerProbes] starts in. *)
Definition runContainerProbes (c : Container) (vm : podVM) : cprobes :=
  CProbes (bool_decide (ct_StartupProbe c = None)) (0, 0)%Z (0, 0)%Z (0, 0)%Z vm.

Definition set_container_ready (c : Container) (r : bool) (s : cprobes) : cprobes * list effect :=
  let '(vm, changed) := setContainerReady (ct_Name c) r (cp_vm s) in
  (CProbes (cp_done s) (cp_startup s) (cp_readiness s) (cp_liveness s) vm, if changed then [EffPush] else []).

(** The report callbacks. *)
Definition on_report (c : Container) (k : probe_kind) (healthy : bool) (s : cprobes) : cprobes * list effect :=
  match k with
  | Startup =>
      if healthy then
        if cp_done s then (s, [])
        else
          let s := CProbes true (cp_startup s) (cp_readiness s) (cp_liveness s) (cp_vm s) in
          if bool_decide (ct_ReadinessProbe c = None) then set_container_ready c true s else (s, [])
      else (s, [EffKill "startup probe failed"])
  | Readiness => set_container_ready c healthy s
  | Liveness => (s, if healthy then [] else [EffKill "liveness probe failed"])
  end.

Definition counters_of (k : probe_kind) (s : cprobes) : counters :=
  match k with Startup => cp_startup s | Readiness => cp_readiness s | Liveness => cp_liveness s end.
Definition set_counters (k : probe_kind) (st : counters) (s : cprobes) : cprobes :=
  match k with
  | Startup => CProbes (cp_done s) st (cp_readiness s) (cp_liveness s) (cp_vm s)
  | Readiness => CProbes (cp_done s) (cp_startup s) st (cp_liveness s) (cp_vm s)
  | Liveness => CProbes (cp_done s) (cp_startup s) (cp_readiness s) st (cp_vm s)
  end.

(** One iteration of one loop; a gated loop is still waiting. *)
Definition container_step (c : Container) (k : probe_kind) (healthy : bool) (s : cprobes)
  : option (cprobes * list effect) :=
  match probe_of c k with
  | None => None
  | Some p =>
      if negb (cp_done s) && negb (bool_decide (k = Startup)) then None
      else
        let '(st, rep) := probe_step k p healthy (counters_of k s) in
        let s := set_counters k st s in
        Some (match rep with Some b => on_report c k b s | None => (s, []) end)
  end.

(** Any interleaving of the three loops; a result of a loop that is not
    running is skipped. *)
Fixpoint container_run (c : Container) (rs : list (probe_kind * bool)) (s : cprobes) : cprobes * list effect :=
  match rs with
  | [] => (s, [])
  | (k, r) :: rs' =>
      match container_step c k r s with
      | None => container_run c rs' s
      | Some (s1, es) => let '(s2, es') := container_run c rs' s1 in (s2, es ++ es')
      end
  end.

(** ** doProbe *)

Inductive probe_request :=
| ReqExec (container : string) (argv : list string)
| ReqHTTP (port : Z) (path scheme : string) (timeout : Z)
| ReqTCP (port : Z) (timeout : Z).

Section DoProbe.
Import Wire Client.
Context (unmarshal_exit : bytes -> exit_info) (marshal : probe_request -> bytes).

(** Whether the returned error is nil. [dial] opens the connection; the
    context's deadline closes it, so what is read may be cut anywhere. *)
Definition doProbe (dial : nat -> result string conn) (container : string) (p : Probe) : bool :=
  match pr_Handler p with
  | ProbeExec command =>
      match session unmarshal_exit dial (marshal (ReqExec container command)) (Some []) (Some []) with
      | Ok so => bool_decide (so_ret so = None)
      | _ => false
      end
  | ProbeHTTPGet port path scheme =>
      if bool_decide (port = 0%Z) then false
      else is_ok (execdRequest unmarshal_exit dial (marshal (ReqHTTP port path (ToLower scheme) (probe_timeout p))))
  | ProbeTCPSocket port =>
      if bool_decide (port = 0%Z) then false
      else is_ok (execdRequest unmarshal_exit dial (marshal (ReqTCP port (probe_timeout p))))
  | ProbeNone => false
  end.

(** Finding: an exec probe whose connection ends without an exit frame (the
    probe's timeout closes it, or the guest dies) counts as a success,
    because a dropped session returns a nil error. *)
Theorem timed_out_exec_probe_is_healthy dial c fs n container p command :
  pr_Handler p = ProbeExec command -> dial 0 = Ok c -> c_room c = None ->
  Forall frame_fits fs -> Forall (fun f => f.1 <> frameExit) fs -> c_in c = take n (encode_all fs) ->
  doProbe dial container p = true.
Proof.
  intros Hp Hd Hr Hf Hx Hin. unfold doProbe. rewrite Hp. unfold session, dialExecd. cbn [dial_loop]. rewrite Hd.
  cbn [mbind result_bind]. rewrite writeFrame_out by done. rewrite Hin. unfold read_fuel. cbn [c_in].
  set (m := length (take n (encode_all fs))).
  assert (take n (encode_all fs) = take m (encode_all fs)) as Hm.
  { unfold m. rewrite length_take. destruct (decide (n <= length (encode_all fs))).
    - by rewrite Nat.min_l by done.
    - rewrite Nat.min_r by lia. by rewrite !take_ge by lia. }
  rewrite Hm. destruct (session_loop_cut unmarshal_exit fs m (S m) (Some []) (Some [])
    (c_out c ++ encode (frameRequest, marshal (ReqExec container command))) None Hf Hx) as (so & -> & Hso); [lia|].
  by rewrite bool_decide_true.
Qed.

End DoProbe.

Definition ex_probe (h : probe_handler) (succ fail : Z) : Probe := MkProbe h 0 1 1 succ fail.

Lemma timed_out_exec_probe_is_healthy_witness :
  doProbe Client.ex_exit (fun _ => []) (fun _ => Ok (Wire.Conn [1; 0; 0]%Z [] None)) "c"
    (ex_probe (ProbeExec ["/ready"]) 1 3) = true.
Proof.
  apply (timed_out_exec_probe_is_healthy Client.ex_exit (fun _ => []) (fun _ => Ok (Wire.Conn [1; 0; 0]%Z [] None))
    (Wire.Conn [1; 0; 0]%Z [] None) [(1, [])]%Z 3 "c" (ex_probe (ProbeExec ["/ready"]) 1 3) ["/ready"]);
    try reflexivity; repeat constructor; discriminate.
Defined.

(** ** Runs of equal results *)

Fixpoint lead (b : bool) (l : list bool) : nat :=
  match l with x :: l' => if bool_decide (x = b) then S (lead b l') else 0 | [] => 0 end.

(** The length of the run of [b] the list ends with. *)
Definition trail (b : bool) (l : list bool) : nat := lead b (reverse l).

(** The list contains [n] consecutive [b]. *)
Definition has_run (b : bool) (n : nat) (l : list bool) : Prop := exists a c, l = a ++ replicate n b ++ c.

Lemma trail_nil b : trail b [] = 0.
Proof. done. Qed.

Lemma trail_snoc b l x : trail b (l ++ [x]) = if bool_decide (x = b) then S (trail b l) else 0.
Proof. unfold trail. by rewrite reverse_snoc. Qed.

Lemma trail_ge b n l : n <= trail b l <-> exists a, l = a ++ replicate n b.
Proof.
  revert n. induction l as [|x l IH] using rev_ind; intros n.
  { rewrite trail_nil. split; [intros ?; assert (n = 0) as -> by lia; by exists []|].
    intros [a Ha]. apply (f_equal length) in Ha. rewrite length_app, length_replicate in Ha. cbn in Ha. lia. }
  rewrite trail_snoc. destruct n as [|n].
  { split; [intros _; exists (l ++ [x]); by rewrite app_nil_r|lia]. }
  change (replicate (S n) b) with (b :: replicate n b). rewrite replicate_cons_app.
  case_bool_decide as Hx.
  - subst x. rewrite <-Nat.succ_le_mono, IH. split.
    + intros [a ->]. exists a. by rewrite app_assoc.
    + intros [a Ha]. rewrite app_assoc in Ha. apply app_inj_tail in Ha as [-> _]. by exists a.
  - split; [lia|]. intros [a Ha]. rewrite app_assoc in Ha. by apply app_inj_tail in Ha as [_ ->].
Qed.

Lemma has_run_snoc b n l x : 0 < n -> has_run b n (l ++ [x]) <-> has_run b n l \/ n <= trail b (l ++ [x]).
Proof.
  intros Hn. rewrite trail_ge. split.
  - intros (a & c & H). destruct c as [|y c _] using rev_ind.
    + right. exists a. by rewrite app_nil_r in H.
    + left. exists a, c. rewrite !app_assoc in H. rewrite !app_assoc. by apply app_inj_tail in H as [-> _].
  - intros [(a & c & ->)|[a H]].
    + exists a, (c ++ [x]). by rewrite !app_assoc.
    + exists a, []. by rewrite app_nil_r.
Qed.

Lemma has_run_nil b n : 0 < n -> ~ has_run b n [].
Proof. intros Hn (a & c & H). apply (f_equal length) in H. rewrite !length_app, length_replicate in H. cbn in H. lia. Qed.

(** Ready: some [st] consecutive successes, and no [ft] consecutive failures
    since. *)
Definition ready_spec (st ft : nat) (l : list bool) : Prop :=
  exists pre post, l = pre ++ replicate st true ++ post /\ ~ has_run false ft post.

Lemma ready_spec_nil st ft : 0 < st -> ~ ready_spec st ft [].
Proof.
  intros Hs (a & c & H & _). apply (f_equal length) in H.
  rewrite !length_app, length_replicate in H. cbn in H. lia.
Qed.

Lemma ready_spec_true st ft l :
  0 < st -> 0 < ft -> ready_spec st ft (l ++ [true]) <-> ready_spec st ft l \/ st <= trail true (l ++ [true]).
Proof.
  intros Hs Hf. split.
  - intros (pre & post & H & Hn). destruct post as [|y post _] using rev_ind.
    + right. apply trail_ge. exists pre. by rewrite app_nil_r in H.
    + left. exists pre, post. rewrite !app_assoc in H. rewrite app_assoc.
      apply app_inj_tail in H as [-> _]. split; [done|]. intros Hr. apply Hn. apply has_run_snoc; by auto.
  - intros [(pre & post & -> & Hn)|Ht].
    + exists pre, (post ++ [true]). rewrite <-!app_assoc. split; [done|].
      rewrite has_run_snoc by done. rewrite trail_snoc, bool_decide_false by done. intros [?|Hx]; [done|lia].
    + apply trail_ge in Ht as [a ->]. exists a, []. rewrite app_nil_r. split; [done|by apply has_run_nil].
Qed.

Lemma ready_spec_false st ft l :
  0 < st -> 0 < ft -> ready_spec st ft (l ++ [false]) <-> ready_spec st ft l /\ trail false (l ++ [false]) < ft.
Proof.
  intros Hs Hf. split.
  - intros (pre & post & H & Hn). destruct post as [|y post _] using rev_ind.
    { exfalso. rewrite app_nil_r in H. destruct st as [|st]; [lia|].
      change (replicate (S st) true) with (true :: replicate st true) in H.
      rewrite replicate_cons_app, app_assoc in H. by apply app_inj_tail in H as [_ ?]. }
    assert (l = pre ++ replicate st true ++ post) as Hl.
    { rewrite !app_assoc in H. rewrite app_assoc. by apply app_inj_tail in H as [-> _]. }
    assert (y = false) as ->. { rewrite !app_assoc in H. by apply app_inj_tail in H as [_ <-]. }
    split; [exists pre, post; split; [done|]; intros Hr; apply Hn; apply has_run_snoc; by auto|].
    destruct (decide (ft <= trail false (l ++ [false]))) as [Ht|]; [|lia]. exfalso.
    apply trail_ge in Ht as [a Ha]. set (q := post ++ [false]) in *.
    assert (length a + ft = length pre + st + length q) as Hlen.
    { apply (f_equal length) in Ha, H. rewrite !length_app, !length_replicate in *. lia. }
    destruct (decide (ft <= length q)) as [Hle|Hgt].
    + apply Hn. exists (drop (length pre + st) a), []. rewrite app_nil_r.
      assert (q = drop (length pre + st) (l ++ [false])) as ->.
      { rewrite H, app_assoc. rewrite drop_app_ge by (rewrite length_app, length_replicate; lia).
        rewrite length_app, length_replicate. by rewrite Nat.sub_diag. }
      rewrite Ha. by rewrite drop_app_le by lia.
    + assert ((l ++ [false]) !! (length pre + st - 1) = Some true) as H1.
      { rewrite H. rewrite lookup_app_r by lia. rewrite lookup_app_l by (rewrite length_replicate; lia).
        apply lookup_replicate. lia. }
      rewrite Ha, lookup_app_r in H1 by lia. by apply lookup_replicate in H1 as [? _].
  - intros [(pre & post & -> & Hn) Ht]. exists pre, (post ++ [false]). rewrite <-!app_assoc. split; [done|].
    rewrite has_run_snoc by done. intros [?|Hx]; [done|]. apply trail_ge in Hx as [a Ha].
    assert (ft <= trail false ((pre ++ replicate st true ++ post) ++ [false])); [|lia].
    apply trail_ge. exists (pre ++ replicate st true ++ a). rewrite <-!app_assoc. by rewrite Ha.
Qed.

(** ** Lemmas on the loops *)

Definition results_of (k : probe_kind) (rs : list (probe_kind * bool)) : list bool :=
  snd <$> filter (fun x : probe_kind * bool => x.1 = k) rs.

Lemma results_of_snoc k rs k' r :
  results_of k (rs ++ [(k', r)]) = results_of k rs ++ (if bool_decide (k' = k) then [r] else []).
Proof.
  unfold results_of. rewrite filter_app, fmap_app. f_equal. rewrite filter_cons.
  cbn [fst]. by case_decide; case_bool_decide.
Qed.

Lemma container_run_snoc c rs k r s :
  container_run c (rs ++ [(k, r)]) s =
  let '(s1, es) := container_run c rs s in
  match container_step c k r s1 with None => (s1, es) | Some (s2, es') => (s2, es ++ es') end.
Proof.
  revert s. induction rs as [|[k' r'] rs IH]; intros s; cbn [app container_run].
  - destruct (container_step c k r s) as [[s2 es']|]; [|done]. by rewrite app_nil_r.
  - destruct (container_step c k' r' s) as [[s1 es]|]; [|apply IH]. rewrite IH.
    destruct (container_run c rs s1) as [s2 es']. destruct (container_step c k r s2) as [[s3 es'']|]; [|done].
    by rewrite app_assoc.
Qed.

Definition succ_n (p : Probe) : nat := Z.to_nat (successThreshold p).
Definition fail_n (p : Probe) : nat := Z.to_nat (failureThreshold p).

Lemma thresholds_pos p : (0 < successThreshold p)%Z /\ (0 < failureThreshold p)%Z.
Proof. unfold successThreshold, failureThreshold. repeat case_bool_decide; lia. Qed.

(** What a readiness iteration reports, by the runs so far. *)
Lemma readiness_step p l r :
  probe_step Readiness p r (Z.of_nat (trail true l), Z.of_nat (trail false l)) =
  ((Z.of_nat (trail true (l ++ [r])), Z.of_nat (trail false (l ++ [r]))),
   if r then (if bool_decide (trail true (l ++ [true]) = succ_n p) then Some true else None)
   else (if bool_decide (trail false (l ++ [false]) = fail_n p) then Some false else None)).
Proof.
  destruct (thresholds_pos p). unfold succ_n, fail_n. rewrite !trail_snoc. destruct r; cbn [probe_step].
  - rewrite (bool_decide_true (true = true)), (bool_decide_false (true = false)) by done. f_equal; [f_equal; lia|].
    rewrite (bool_decide_ext _ (S (trail true l) = Z.to_nat (successThreshold p))) by lia. done.
  - rewrite (bool_decide_false (false = true)), !(bool_decide_true (false = false)) by done.
    rewrite (bool_decide_ext _ (S (trail false l) = Z.to_nat (failureThreshold p))) by lia.
    case_bool_decide; repeat f_equal; lia.
Qed.

(** The flag after a report, or without one. *)
Lemma ready_spec_step p l r (flag : bool) :
  (flag = true <-> ready_spec (succ_n p) (fail_n p) l) ->
  (match (if r : bool then (if bool_decide (trail true (l ++ [true]) = succ_n p) then Some true else None)
          else (if bool_decide (trail false (l ++ [false]) = fail_n p) then Some false else None)) with
   | Some b => b | None => flag end) = true <-> ready_spec (succ_n p) (fail_n p) (l ++ [r]).
Proof.
  intros Hf. destruct (thresholds_pos p).
  assert (0 < succ_n p) by (unfold succ_n; lia). assert (0 < fail_n p) by (unfold fail_n; lia).
  assert (Hlong : forall b, ready_spec (succ_n p) (fail_n p) l -> b = false -> trail b l < fail_n p).
  { intros b (pre & post & -> & Hn) ->. destruct (decide (trail false (pre ++ replicate (succ_n p) true ++ post) < fail_n p)); [done|].
    exfalso. assert (fail_n p <= trail false (pre ++ replicate (succ_n p) true ++ post)) as Ht by lia.
    assert (ready_spec (succ_n p) (fail_n p) ((pre ++ replicate (succ_n p) true ++ post))) as Hr by (by exists pre, post).
    destruct (pre ++ replicate (succ_n p) true ++ post) as [|x l' _] using rev_ind; [cbn in Ht; lia|].
    destruct x; [rewrite trail_snoc, bool_decide_false in Ht by done; lia|].
    apply ready_spec_false in Hr; [|done..]. lia. }
  destruct r.
  - rewrite ready_spec_true by done. rewrite <-Hf. case_bool_decide as Ht; [rewrite Ht; naive_solver lia|].
    split; [by auto|]. intros [?|Hge]; [done|]. apply Hf.
    rewrite trail_snoc, bool_decide_true in Ht, Hge by done.
    assert (succ_n p <= trail true l) as Hl by lia. apply trail_ge in Hl as [a ->].
    exists a, []. rewrite app_nil_r. split; [done|by apply has_run_nil].
  - rewrite ready_spec_false by done. rewrite <-Hf. case_bool_decide as Ht; [rewrite Ht; naive_solver lia|].
    split; [|naive_solver]. intros ->. split; [done|]. rewrite trail_snoc, bool_decide_true in Ht |- * by done.
    assert (trail false l < fail_n p) by (apply Hlong; naive_solver). lia.
Qed.

(** ** Theorems *)

(** C34 Readiness follows its thresholds exactly: in every interleaving of a
    container's probe loops (after startup), the container is ready if and
    only if its readiness results contain [successThreshold] consecutive
    successes with no [failureThreshold] consecutive failures after them. *)
Theorem readiness_exact c p rs s :
  ct_ReadinessProbe c = Some p -> cp_done s = true -> cp_readiness s = (0, 0)%Z ->
  containerReady (ct_Name c) (cp_vm s) = false ->
  containerReady (ct_Name c) (cp_vm (container_run c rs s).1) = true <->
  ready_spec (succ_n p) (fail_n p) (results_of Readiness rs).
Proof.
  intros Hp Hd Hc Hr.
  enough (cp_done (container_run c rs s).1 = true /\
    cp_readiness (container_run c rs s).1 =
      (Z.of_nat (trail true (results_of Readiness rs)), Z.of_nat (trail false (results_of Readiness rs))) /\
    (containerReady (ct_Name c) (cp_vm (container_run c rs s).1) = true <->
     ready_spec (succ_n p) (fail_n p) (results_of Readiness rs))) by naive_solver.
  induction rs as [|[k r] rs (IH1 & IH2 & IH3)] using rev_ind.
  { split_and!; [done|done|]. cbn [container_run fst]. rewrite Hr. split; [done|].
    intros H. exfalso. destruct (thresholds_pos p). eapply (ready_spec_nil (succ_n p)); [|exact H]. unfold succ_n. lia. }
  rewrite container_run_snoc, results_of_snoc. destruct (container_run c rs s) as [s1 es]. cbn [fst] in IH1, IH2, IH3.
  unfold container_step. rewrite IH1. cbn [negb andb]. destruct k; cbn [probe_of counters_of].
  - rewrite bool_decide_false, app_nil_r by done. destruct (ct_StartupProbe c) as [q|]; [|done].
    destruct (probe_step Startup q r (cp_startup s1)) as [st rep]. destruct rep as [[]|]; cbn; rewrite ?IH1; done.
  - rewrite bool_decide_true by done. rewrite Hp, IH2, readiness_step.
    pose proof (ready_spec_step p (results_of Readiness rs) r _ IH3) as Hs. cbn [set_counters].
    destruct (if r then _ else _) as [b|]; cbn [fst]; [|done].
    unfold on_report, set_container_ready. cbn [cp_vm].
    destruct (setContainerReady (ct_Name c) b (cp_vm s1)) as [vm ch] eqn:Hset. cbn. split_and!; [done|done|].
    rewrite <-Hs. replace vm with (setContainerReady (ct_Name c) b (cp_vm s1)).1 by (by rewrite Hset).
    rewrite containerReady_set, bool_decide_true by done. done.
  - rewrite bool_decide_false, app_nil_r by done. destruct (ct_LivenessProbe c) as [q|]; [|done].
    destruct (probe_step Liveness q r (cp_liveness s1)) as [st rep]. destruct rep as [[]|]; cbn; done.
Qed.

Lemma readiness_exact_witness :
  let c := MkContainer "c" "img" [] [] false [] "" [] [] None None None (Some (ex_probe (ProbeTCPSocket 80) 2 2)) None in
  let s := CProbes true (0, 0)%Z (0, 0)%Z (0, 0)%Z (new_vm "u" "n" "ns" false "") in
  let rs := [(Readiness, true); (Liveness, false); (Readiness, true); (Readiness, false)] in
  containerReady "c" (cp_vm (container_run c rs s).1) = true /\
  ready_spec 2 2 (results_of Readiness rs).
Proof.
  cbv zeta. split; [vm_compute; reflexivity|].
  apply (readiness_exact
    (MkContainer "c" "img" [] [] false [] "" [] [] None None None (Some (ex_probe (ProbeTCPSocket 80) 2 2)) None)
    (ex_probe (ProbeTCPSocket 80) 2 2) [(Readiness, true); (Liveness, false); (Readiness, true); (Readiness, false)]
    (CProbes true (0, 0)%Z (0, 0)%Z (0, 0)%Z (new_vm "u" "n" "ns" false ""))); vm_compute; reflexivity.
Defined.

Definition liveness_kill : effect := EffKill "liveness probe failed".

#[export] Instance effect_eq_dec : EqDecision effect.
Proof. solve_decision. Defined.

(** One liveness iteration: it kills when the failures reach the threshold. *)
Lemma liveness_step p succ fail r :
  exists succ', probe_step Liveness p r (succ, fail) =
  ((succ', if r then 0%Z else if bool_decide (fail + 1 = failureThreshold p)%Z then 0%Z else (fail + 1)%Z),
   if r then (if bool_decide (succ + 1 = successThreshold p)%Z then Some true else None)
   else if bool_decide (fail + 1 = failureThreshold p)%Z then Some false else None).
Proof.
  destruct r; cbn [probe_step]; [by eexists|]. case_bool_decide; [|by eexists].
  rewrite (bool_decide_false (Liveness = Readiness)) by done. by eexists.
Qed.

(** Liveness kills exactly when it should: in every interleaving of a
    container's probe loops (after startup), the container is killed for its
    liveness if and only if its liveness results contain [failureThreshold]
    consecutive failures. *)
Theorem liveness_exact c p rs s :
  ct_LivenessProbe c = Some p -> cp_done s = true -> cp_liveness s = (0, 0)%Z ->
  liveness_kill ∈ (container_run c rs s).2 <-> has_run false (fail_n p) (results_of Liveness rs).
Proof.
  intros Hp Hd Hc. destruct (thresholds_pos p) as [_ Hpos]. assert (0 < fail_n p) by (unfold fail_n; lia).
  enough (cp_done (container_run c rs s).1 = true /\
    (liveness_kill ∈ (container_run c rs s).2 <-> has_run false (fail_n p) (results_of Liveness rs)) /\
    (liveness_kill ∉ (container_run c rs s).2 ->
     (cp_liveness (container_run c rs s).1).2 = Z.of_nat (trail false (results_of Liveness rs)))) by naive_solver.
  induction rs as [|[k r] rs (IH1 & IH2 & IH3)] using rev_ind.
  { split_and!; [done| |intros _; cbn; by rewrite Hc]. split; [set_solver|]. intros Hr. by apply has_run_nil in Hr. }
  rewrite container_run_snoc, results_of_snoc. destruct (container_run c rs s) as [s1 es]. cbn [fst snd] in IH1, IH2, IH3.
  unfold container_step. rewrite IH1. cbn [negb andb]. destruct k; cbn [probe_of counters_of].
  - rewrite bool_decide_false, app_nil_r by done. destruct (ct_StartupProbe c) as [q|]; [|done].
    destruct (probe_step Startup q r (cp_startup s1)) as [st rep].
    destruct rep as [[]|]; cbn; rewrite ?IH1; cbn; unfold liveness_kill in *; rewrite ?app_nil_r; try done.
    rewrite elem_of_app, list_elem_of_singleton. split_and!; [done| |naive_solver]. rewrite <-IH2. naive_solver.
  - rewrite bool_decide_false, app_nil_r by done. destruct (ct_ReadinessProbe c) as [q|]; [|done].
    destruct (probe_step Readiness q r (cp_readiness s1)) as [st rep]. cbn [set_counters].
    destruct rep as [b|]; [|cbn; by rewrite app_nil_r]. cbn [on_report]. unfold set_container_ready.
    destruct (setContainerReady _ _ _) as [vm ch]. cbn. destruct ch; rewrite ?app_nil_r; try done.
    rewrite elem_of_app, list_elem_of_singleton. unfold liveness_kill in *.
    split_and!; [done| |naive_solver]. rewrite <-IH2. naive_solver.
  - rewrite bool_decide_true by done. rewrite Hp, has_run_snoc by done. destruct (cp_liveness s1) as [succ fail] eqn:Hl.
    destruct (liveness_step p succ fail r) as [succ' ->]. cbn [set_counters]. rewrite <-IH2. cbn [snd] in IH3.
    rewrite trail_snoc. destruct (decide (liveness_kill ∈ es)) as [Hin|Hin].
    + destruct r; repeat case_bool_decide; cbn; (split_and!; [done| |]); rewrite ?elem_of_app; naive_solver.
    + specialize (IH3 Hin). subst fail. assert (trail false (results_of Liveness rs) < fail_n p) as Hlt.
      { destruct (decide (fail_n p <= trail false (results_of Liveness rs))) as [Ht|]; [|lia].
        exfalso. apply Hin, IH2. apply trail_ge in Ht as [a Ha]. exists a, []. by rewrite app_nil_r. }
      unfold fail_n in *. destruct r; cbn [fst snd].
      * rewrite !(bool_decide_false (true = false)) by done.
        case_bool_decide; cbn; rewrite app_nil_r; (split_and!; [done| |done]); naive_solver lia.
      * rewrite !(bool_decide_true (false = false)) by done.
        case_bool_decide as Hf; cbn.
        -- split_and!; [done| |set_solver]. split; [intros _; right; lia|set_solver].
        -- rewrite app_nil_r. split_and!; [done| |intros _; lia]. split; [by left|]. intros [?|?]; [done|lia].
Qed.

Definition ex_live : Container :=
  MkContainer "c" "img" [] [] false [] "" [] [] None None
    (Some (ex_probe (ProbeTCPSocket 80) 1 2)) None (Some (ex_probe (ProbeTCPSocket 80) 1 2)).

Lemma liveness_exact_witness :
  let s := CProbes true (0, 0)%Z (0, 0)%Z (0, 0)%Z (new_vm "u" "n" "ns" false "") in
  liveness_kill ∈ (container_run ex_live [(Liveness, false); (Startup, true); (Liveness, false)] s).2.
Proof.
  apply (liveness_exact ex_live (ex_probe (ProbeTCPSocket 80) 1 2)
    [(Liveness, false); (Startup, true); (Liveness, false)]
    (CProbes true (0, 0)%Z (0, 0)%Z (0, 0)%Z (new_vm "u" "n" "ns" false ""))); [reflexivity..|].
  exists [], []. reflexivity.
Defined.

(** The startup gate: until the startup probe has succeeded, no readiness
    or liveness result is acted on (the VM's readiness flags are unchanged,
    the only effects are startup kills); it opens exactly when the startup
    results contain [successThreshold] consecutive successes. *)
Theorem startup_gate c p rs vm :
  ct_StartupProbe c = Some p ->
  let r := container_run c rs (runContainerProbes c vm) in
  (cp_done r.1 = true <-> has_run true (succ_n p) (results_of Startup rs)) /\
  (cp_done r.1 = false ->
     cp_vm r.1 = vm /\ cp_readiness r.1 = (0, 0)%Z /\ cp_liveness r.1 = (0, 0)%Z /\
     forall e, e ∈ r.2 -> e = EffKill "startup probe failed").
Proof.
  intros Hp. destruct (thresholds_pos p) as [Hpos _]. assert (0 < succ_n p) by (unfold succ_n; lia).
  cbv zeta. set (s := runContainerProbes c vm).
  enough ((cp_done (container_run c rs s).1 = true <-> has_run true (succ_n p) (results_of Startup rs)) /\
    (cp_done (container_run c rs s).1 = false ->
     (cp_vm (container_run c rs s).1 = vm /\ cp_readiness (container_run c rs s).1 = (0, 0)%Z /\
      cp_liveness (container_run c rs s).1 = (0, 0)%Z /\
      forall e, e ∈ (container_run c rs s).2 -> e = EffKill "startup probe failed") /\
     (cp_startup (container_run c rs s).1).1 = Z.of_nat (trail true (results_of Startup rs)))) by naive_solver.
  induction rs as [|[k r] rs (IH1 & IH2)] using rev_ind.
  { cbn. rewrite Hp. rewrite bool_decide_false by done. split; [|split; [set_solver|done]].
    split; [done|]. intros Hr. by apply has_run_nil in Hr. }
  rewrite container_run_snoc, results_of_snoc. destruct (container_run c rs s) as [s1 es]. cbn [fst snd] in IH1, IH2.
  unfold container_step. destruct (cp_done s1) eqn:Hd; cbn [negb andb].
  - (* already open *)
    assert (has_run true (succ_n p) (results_of Startup rs ++ (if bool_decide (k = Startup) then [r] else []))) as Hrun.
    { case_bool_decide; [apply has_run_snoc; [done|left]|rewrite app_nil_r]; by apply IH1. }
    assert (Hopen : forall x : cprobes * list effect, cp_done x.1 = true ->
      (cp_done x.1 = true <-> has_run true (succ_n p) (results_of Startup rs ++ (if bool_decide (k = Startup) then [r] else []))) /\
      (cp_done x.1 = false -> (cp_vm x.1 = vm /\ cp_readiness x.1 = (0, 0)%Z /\ cp_liveness x.1 = (0, 0)%Z /\
        (forall e, e ∈ x.2 -> e = EffKill "startup probe failed")) /\
        (cp_startup x.1).1 = Z.of_nat (trail true (results_of Startup rs ++ (if bool_decide (k = Startup) then [r] else []))))).
    { intros x Hx. rewrite Hx. split; [done|discriminate]. }
    destruct (probe_of c k) as [q|]; [|by apply (Hopen (s1, es))].
    destruct (probe_step k q r (counters_of k s1)) as [st rep].
    assert (cp_done (set_counters k st s1) = true) as Hsc by (by destruct k).
    destruct (match rep with Some b => on_report c k b (set_counters k st s1) | None => (set_counters k st s1, []) end)
      as [s2 es2] eqn:He.
    apply (Hopen (s2, es ++ es2)). cbn. revert He. destruct rep as [b|]; [|by intros [= <- _]].
    unfold on_report, set_container_ready. rewrite Hsc.
    destruct k, b; cbn; repeat case_match; intros; simplify_eq/=; done.
  - (* still closed *)
    destruct (IH2 eq_refl) as ((Hv & Hr1 & Hl1 & He1) & Ht).
    destruct (decide (k = Startup)) as [->|Hk].
    + cbn [probe_of counters_of]. rewrite Hp, !(bool_decide_true (Startup = Startup)) by done. cbn [negb].
      destruct (cp_startup s1) as [succ fail] eqn:Hc. cbn [fst] in Ht. subst succ.
      rewrite trail_snoc, has_run_snoc, <-IH1, trail_snoc by done. destruct r; cbn [probe_step].
      * rewrite !(bool_decide_true (true = true)) by done. case_bool_decide as Hs; cbn [set_counters on_report cp_done].
        -- rewrite Hd. unfold set_container_ready. unfold succ_n in *. repeat case_match; simplify_eq/=;
             (split; [split; [intros _; right; lia|done]|done]).
        -- rewrite app_nil_r. cbn. rewrite Hd. unfold succ_n in *.
           split; [|by rewrite Nat2Z.inj_succ]. split; [done|]. intros [?|?]; [done|].
           exfalso. assert (has_run true (Z.to_nat (successThreshold p)) (results_of Startup rs)); [|naive_solver].
           assert (Z.to_nat (successThreshold p) <= trail true (results_of Startup rs)) as Hge by lia.
           apply trail_ge in Hge as [a Ha]. exists a, []. by rewrite app_nil_r.
      * rewrite !(bool_decide_false (false = true)) by done.
        case_bool_decide; cbn; rewrite Hd; (split; [split; [done|intros [?|?]; [done|lia]]|]); intros _;
          (split; [split_and!; [done..|]|done]); intros e; rewrite ?app_nil_r, ?elem_of_app; set_solver.
    + rewrite !(bool_decide_false (k = Startup)) by done. rewrite app_nil_r. cbn [negb].
      destruct (probe_of c k); cbn; rewrite Hd; done.
Qed.

Lemma startup_gate_witness :
  let r := container_run ex_live [(Liveness, false); (Liveness, false); (Startup, false)]
             (runContainerProbes ex_live (new_vm "u" "n" "ns" false "")) in
  cp_done r.1 = false /\ cp_vm r.1 = new_vm "u" "n" "ns" false "".
Proof.
  cbv zeta. split; [vm_compute; reflexivity|].
  apply (startup_gate ex_live (ex_probe (ProbeTCPSocket 80) 1 2) [(Liveness, false); (Liveness, false); (Startup, false)]
    (new_vm "u" "n" "ns" false "") eq_refl). vm_compute; reflexivity.
Defined.

(** Finding: the startup probe is not retired when it has succeeded: its
    loop keeps running, and [failureThreshold] later consecutive failures kill
    the container. *)
Theorem startup_probe_kills_after_success c p s :
  ct_StartupProbe c = Some p -> cp_done s = true -> (cp_startup s).2 = 0%Z ->
  EffKill "startup probe failed" ∈ (container_run c (replicate (fail_n p) (Startup, false)) s).2.
Proof.
  intros Hp Hd Hf. destruct (thresholds_pos p) as [_ Hpos].
  assert (forall n s, cp_done s = true -> (cp_startup s).2 = (failureThreshold p - Z.of_nat n)%Z -> 0 < n ->
    EffKill "startup probe failed" ∈ (container_run c (replicate n (Startup, false)) s).2) as Hgen.
  { clear s Hd Hf. induction n as [|n IH]; intros s Hd Hf Hn; [lia|].
    cbn [replicate container_run]. unfold container_step. cbn [probe_of]. rewrite Hp, Hd. cbn [negb andb counters_of].
    destruct (cp_startup s) as [a f]. cbn in Hf. subst f. cbn [probe_step].
    case_bool_decide as Hb.
    - destruct (bool_decide _); cbn; destruct (container_run _ _ _); cbn; set_solver.
    - cbn [set_counters]. destruct (container_run _ _ _) as [s2 es2] eqn:Hr. cbn.
      assert (es2 = (container_run c (replicate n (Startup, false))
        (CProbes (cp_done s) (0%Z, (failureThreshold p - Z.of_nat (S n) + 1)%Z) (cp_readiness s) (cp_liveness s) (cp_vm s))).2)
        as -> by (by rewrite Hr).
      apply IH; cbn; [done|lia|lia]. }
  apply Hgen; [done|unfold fail_n; lia|unfold fail_n; lia].
Qed.

Lemma startup_probe_kills_after_success_witness :
  let s := (container_run ex_live [(Startup, true)] (runContainerProbes ex_live (new_vm "u" "n" "ns" false ""))).1 in
  cp_done s = true /\
  EffKill "startup probe failed" ∈ (container_run ex_live [(Startup, false); (Startup, false)] s).2.
Proof.
  cbv zeta. split; [vm_compute; reflexivity|].
  apply (startup_probe_kills_after_success ex_live (ex_probe (ProbeTCPSocket 80) 1 2)
    (container_run ex_live [(Startup, true)] (runContainerProbes ex_live (new_vm "u" "n" "ns" false ""))).1);
    reflexivity.
Defined.
