(* ===== verification/PodLifecycle.v ===== *)
(** * The life of a pod on the agent (poc/agent/main.go)

    The agent's table of pods, the handlers of the pod watch
    ([reconcilePod], [podDeleted]), and [runPod], the goroutine that owns a
    pod from image pull to finalization, as a state machine: a goroutine's
    program point is a [run_pc], one [action] is one handler call or one step
    of one goroutine. [podVM] objects have an identity (their index in
    [objs]), because the table and the goroutines share them. Requests to the
    API server and to processes are recorded, newest first, in [calls].
    Times are in nanoseconds. *)
From S2P Require Import Prelude GoStrings Pod Supervisor Status.

Definition mirrorAnnotation : string := "kubernetes.io/config.mirror".
Definition hashAnnotation : string := "kubernetes.io/config.hash".
Definition sourceAnnotation : string := "kubernetes.io/config.source".

(** The UID that keys a pod's VM state: a mirror pod's is its static pod's. *)
Definition podStateUID (pod : Pod) : string :=
  if bool_decide (annotation pod mirrorAnnotation <> "" /\ annotation pod hashAnnotation <> "")
  then annotation pod hashAnnotation else p_UID pod.

(** ** VM sizing *)

Definition MiB : Z := 1048576.

(** [memMB] and [cpus] of [runPod]. *)
Definition vm_size (pod : Pod) : Z * Z :=
  let '(memMB, cpus) := foldl (fun (mc : Z * Z) c =>
    (mc.1 + match ct_MemoryLimit c with Some m => m `quot` MiB | None => 256 end,
     mc.2 + default 0 (ct_CPULimit c)))%Z (0, 0)%Z (p_Containers pod) in
  let memMB := foldl (fun mem c =>
    match ct_MemoryLimit c with
    | Some m => if bool_decide (m `quot` MiB > mem)%Z then (m `quot` MiB)%Z else mem
    | None => mem
    end) memMB (p_InitContainers pod) in
  (if bool_decide (memMB < 256)%Z then 256%Z else memMB, if bool_decide (cpus < 1)%Z then 1%Z else cpus).

(** ** State *)

Inductive run_pc :=
| RBegin
| RPrepare (attempt : nat)                 (* pulling images, resolving volumes *)
| RPrepareBackoff (attempt : nat)
| RStart (attempt : nat)                   (* boot filesystem, helpers, the VM *)
| RStartBackoff (attempt : nat)
| RRunning (attempt : nat) (started : Z)   (* in [cmd.Wait] *)
| RCrashBackoff (attempt : nat)
| RDone.

#[export] Instance run_pc_eq_dec : EqDecision run_pc.
Proof. solve_decision. Defined.

(** One [runPod] goroutine: its pod, its [podVM] object, where it stands. *)
Record run := Run { r_pod : Pod; r_vm : nat; r_pc : run_pc }.

(** Why a VM is told to go: its pod is being stopped, or a probe found a
    container beyond help and execd did not restart it. *)
Inductive kill_reason := ByStop | ByProbe (reason : string).
#[export] Instance kill_reason_eq_dec : EqDecision kill_reason.
Proof. solve_decision. Defined.

(** Requests the agent makes. [CallDelete u ns name]: delete the API object
    [ns]/[name] of the pod whose VM state is keyed by [u], with grace 0. *)
Inductive call :=
| CallSetPhase (uid : string) (ph : phase) (reason message : string) (ics css : list ContainerStatus)
| CallDelete (uid ns name : string)
| CallStartVM (vm : nat) (cmd : nat)
| CallShutdown (vm : nat) (why : kill_reason) (grace : Z) (ok : bool)
| CallProcessKill (vm : nat) (cmd : nat).

Record agent := Agent {
  ag_client : bool;                  (* [a.cs() != nil] *)
  ag_imageBlock : bool;
  vms : gmap string nat;
  objs : list podVM;
  cmds : gmap nat nat;               (* the [cmd] of each object *)
  runs : list run;
  kills : list (nat * Z);            (* [killVM] goroutines not yet run *)
  timers : list nat;                 (* backstop timers of [killVM] *)
  calls : list call;
  nextCommand : nat
}.

Definition set_runs (rs : list run) (a : agent) : agent :=
  Agent (ag_client a) (ag_imageBlock a) (vms a) (objs a) (cmds a) rs (kills a) (timers a) (calls a) (nextCommand a).
Definition set_vms (m : gmap string nat) (a : agent) : agent :=
  Agent (ag_client a) (ag_imageBlock a) m (objs a) (cmds a) (runs a) (kills a) (timers a) (calls a) (nextCommand a).
Definition set_obj (v : nat) (f : podVM -> podVM) (a : agent) : agent :=
  Agent (ag_client a) (ag_imageBlock a) (vms a) (alter f v (objs a)) (cmds a) (runs a) (kills a) (timers a) (calls a) (nextCommand a).
Definition add_calls (cs : list call) (a : agent) : agent :=
  Agent (ag_client a) (ag_imageBlock a) (vms a) (objs a) (cmds a) (runs a) (kills a) (timers a) (cs ++ calls a) (nextCommand a).

Definition stopping_obj (v : nat) (a : agent) : bool := from_option vm_stopping false (objs a !! v).

(** ** Stopping *)

(** [vm.stopOnce.Do(setStopping; go killVM)] *)
Definition stop_once (v : nat) (grace : Z) (a : agent) : agent :=
  match objs a !! v with
  | Some o =>
      if vm_stopped o then a
      else
        let a := set_obj v (fun o => setStopping (set_stopped o)) a in
        Agent (ag_client a) (ag_imageBlock a) (vms a) (objs a) (cmds a) (runs a) ((v, grace) :: kills a) (timers a)
          (calls a) (nextCommand a)
  | None => a
  end.

(** The process of the object, if it ever had one, gets a SIGKILL. *)
Definition kill_process (v : nat) (a : agent) : agent :=
  match cmds a !! v with Some c => add_calls [CallProcessKill v c] a | None => a end.

(** [killVM]: ask execd; when that fails kill the process, else arm the timer. *)
Definition killVM (v : nat) (why : kill_reason) (grace : Z) (ok : bool) (a : agent) : agent :=
  let a := add_calls [CallShutdown v why grace ok] a in
  if ok then
    Agent (ag_client a) (ag_imageBlock a) (vms a) (objs a) (cmds a) (runs a) (kills a) (v :: timers a) (calls a) (nextCommand a)
  else kill_process v a.

(** [finalizePod] *)
Definition finalize_call (pod : Pod) (vm : podVM) : call :=
  CallDelete (p_UID pod) (p_Namespace pod) (if vm_static vm then vm_mirrorName vm else p_Name pod).
Definition finalizePod (pod : Pod) (v : nat) (a : agent) : agent :=
  if ag_client a then
    match objs a !! v with Some o => add_calls [finalize_call pod o] a | None => a end
  else a.

(** ** The watch handlers *)

(** A new object in the table and a goroutine for it. *)
Definition launch (pod : Pod) (o : podVM) (a : agent) : agent :=
  let v := length (objs a) in
  Agent (ag_client a) (ag_imageBlock a) (<[p_UID pod := v]> (vms a)) (objs a ++ [o]) (cmds a)
    (runs a ++ [Run pod v RBegin]) (kills a) (timers a) (calls a) (nextCommand a).

Definition is_mirror (pod : Pod) : bool := bool_decide (annotation pod mirrorAnnotation <> "").

Definition reconcilePod (pod : Pod) (a : agent) : agent :=
  if is_mirror pod then
    if p_Deleting pod && bool_decide (vms a !! podStateUID pod = None)
    then add_calls [CallDelete (podStateUID pod) (p_Namespace pod) (p_Name pod)] a else a
  else
    match vms a !! p_UID pod with
    | None =>
        if p_Deleting pod then add_calls [CallDelete (p_UID pod) (p_Namespace pod) (p_Name pod)] a
        else if bool_decide (p_Phase pod = Some PodSucceeded \/ p_Phase pod = Some PodFailed) then a
        else launch pod (new_vm (p_UID pod) (p_Name pod) (p_Namespace pod) false "") a
    | Some v => if p_Deleting pod then stop_once v (podGracePeriod pod) a else a
    end.

Definition podDeleted (pod : Pod) (a : agent) : agent :=
  if is_mirror pod then a
  else match vms a !! p_UID pod with
       | None => a
       | Some v => stop_once v (podGracePeriod pod) a
       end.

(** ** runPod *)

(** What happens to a [runPod] goroutine from outside. *)
Inductive run_event :=
| EvBegin
| EvPrepared (err : option (string * string))      (* reason and message of a failure *)
| EvWoken                                          (* a backoff ended, or was cut short *)
| EvCtxDone
| EvStarted (now : Z) (ip : option string) (err : option string)
| EvExited (now : Z) (final : option (list guestContainerStatus)).

Definition attempt_backoff (base : Z) (attempt : nat) : Z := (base * 2 ^ Z.of_nat (Nat.min attempt 5) * second)%Z.

Definition set_phase_call (pod : Pod) (ph : phase) (reason message : string) (ics css : list ContainerStatus)
  : list call := [CallSetPhase (p_UID pod) ph reason message ics css].

Definition waiting_call (pod : Pod) (ph : phase) (reason message : string) : list call :=
  set_phase_call pod ph "" "" (waitingStatuses (p_InitContainers pod) reason message)
    (waitingStatuses (p_Containers pod) reason message).

(** [fail] *)
Definition fail_call (pod : Pod) (reason message : string) : list call :=
  set_phase_call pod PodFailed reason message [] [].

(** Goroutine [i] moves to [pc]; when it returns, its deferred function
    removes the pod's UID from the table. *)
Definition goto (i : nat) (r : run) (pc : run_pc) (a : agent) : agent :=
  let a := set_runs (<[i := Run (r_pod r) (r_vm r) pc]> (runs a)) a in
  if bool_decide (pc = RDone) then set_vms (delete (p_UID (r_pod r)) (vms a)) a else a.

(** [if vm.isStopping() { finalizePod; return }], else continue at [pc]. *)
Definition unless_stopping (i : nat) (r : run) (pc : run_pc) (a : agent) : agent :=
  if stopping_obj (r_vm r) a then goto i r RDone (finalizePod (r_pod r) (r_vm r) a) else goto i r pc a.

Definition single_container (pod : Pod) : bool :=
  bool_decide (length (p_Containers pod) <= 1) && bool_decide (p_InitContainers pod = []).

(** The branch after [cmd.Wait]. *)
Definition after_vm_exit (i : nat) (r : run) (attempt : nat) (started now : Z)
    (final : option (list guestContainerStatus)) (a : agent) : agent :=
  let pod := r_pod r in
  let stopping := stopping_obj (r_vm r) a in
  match final with
  | Some sts =>
      let '(ics, css, _) := translateStatuses pod sts (default (new_vm "" "" "" false "") (objs a !! r_vm r)) in
      let a := add_calls (set_phase_call pod (finalPhase ics css) "" "" ics css) a in
      goto i r RDone (if stopping then finalizePod pod (r_vm r) a else a)
  | None =>
      if stopping then
        goto i r RDone (finalizePod pod (r_vm r)
          (add_calls (set_phase_call pod PodFailed "VMCrashed" "microVM exited without a final status" [] []) a))
      else if bool_decide (effective_policy pod = "Never") then
        goto i r RDone (add_calls (fail_call pod "VMCrashed" "microVM exited without a final status") a)
      else
        let attempt := if bool_decide (now - started > 5 * minute)%Z then 0 else attempt in
        let msg := "VM restarting in " +:+ pretty (attempt_backoff 1 attempt `div` second)%Z +:+ "s" in
        goto i r (RCrashBackoff attempt)
          (add_calls (waiting_call pod PodRunning "CrashLoopBackOff" msg) (set_obj (r_vm r) bump_restarts a))
  end.

Definition run_step (i : nat) (ev : run_event) (a : agent) : option agent :=
  r ← runs a !! i;
  let pod := r_pod r in
  match r_pc r, ev with
  | RBegin, EvBegin =>
      if negb (ag_imageBlock a) && negb (single_container pod)
      then Some (goto i r RDone (add_calls (fail_call pod "StartError" "multi-container pods require --image-block") a))
      else Some (goto i r (RPrepare 0) (set_obj (r_vm r) (initReady pod) a))
  | RPrepare k, EvPrepared None => Some (goto i r (RStart 0) a)
  | RPrepare k, EvPrepared (Some (reason, msg)) =>
      if bool_decide (p_Containers pod = [])
      then Some (goto i r RDone (add_calls (fail_call pod "StartError" msg) a))
      else Some (goto i r (RPrepareBackoff k) (add_calls (waiting_call pod PodPending reason msg) a))
  | RPrepareBackoff k, EvWoken => Some (unless_stopping i r (RPrepare (S k)) a)
  | RStart k, EvStarted now ip None =>
      let a := set_obj (r_vm r) (match ip with Some ip => setIP ip | None => id end) a in
      let a := add_calls [CallStartVM (r_vm r) (nextCommand a)] a in
      let a := Agent (ag_client a) (ag_imageBlock a) (vms a) (objs a) (<[r_vm r := nextCommand a]> (cmds a)) (runs a)
                 (kills a) (timers a) (calls a) (S (nextCommand a)) in
      Some (goto i r (RRunning k now) a)
  | RStart k, EvStarted _ _ (Some msg) =>
      if bool_decide (effective_policy pod = "Never")
      then Some (goto i r RDone (add_calls (fail_call pod "StartError" msg) a))
      else Some (goto i r (RStartBackoff k) (add_calls (waiting_call pod PodPending "StartError" msg) a))
  | RStartBackoff k, EvWoken => Some (unless_stopping i r (RStart (S k)) a)
  | RRunning k started, EvExited now final => Some (after_vm_exit i r k started now final a)
  | RCrashBackoff k, EvWoken => Some (unless_stopping i r (RStart (S k)) a)
  | (RPrepareBackoff _ | RStartBackoff _ | RCrashBackoff _), EvCtxDone => Some (goto i r RDone a)
  | _, _ => None
  end.

(** ** The whole agent *)

Inductive action :=
| AReconcile (pod : Pod)
| ADeleted (pod : Pod)
| AStartStatic (pod : Pod) (mirror : string)   (* [scanManifests] starts a manifest *)
| AStopStatic (v : nat) (grace : Z)         (* [stopStaticPod]'s stop *)
| AFinalizeStatic (pod : Pod) (v : nat)     (* [stopStaticPod]'s last lines *)
| ARun (i : nat) (ev : run_event)
| AKill (k : nat) (ok : bool)               (* a pending [killVM] runs *)
| AProbeKill (v : nat) (reason : string) (grace : Z) (ok : bool)   (* [killContainer]'s last resort *)
| ATimer (v : nat)
| AClient.                                  (* the apiserver came up *)

Definition exec (act : action) (a : agent) : option agent :=
  match act with
  | AReconcile pod => Some (reconcilePod pod a)
  | ADeleted pod => Some (podDeleted pod a)
  | AStartStatic pod mirror => Some (launch pod (new_vm (p_UID pod) (p_Name pod) (p_Namespace pod) true mirror) a)
  | AStopStatic v grace => Some (stop_once v grace a)
  | AFinalizeStatic pod v => Some (if bool_decide (vms a !! p_UID pod = None) then finalizePod pod v a else a)
  | ARun i ev => run_step i ev a
  | AKill k ok =>
      match kills a !! k with
      | Some (v, grace) =>
          let a' := killVM v ByStop grace ok a in
          Some (Agent (ag_client a') (ag_imageBlock a') (vms a') (objs a') (cmds a') (runs a')
                  (delete k (kills a')) (timers a') (calls a') (nextCommand a'))
      | None => None
      end
  | AProbeKill v reason grace ok => if bool_decide (is_Some (objs a !! v)) then Some (killVM v (ByProbe reason) grace ok a) else None
  | ATimer v => if bool_decide (v ∈ timers a) then Some (kill_process v a) else None
  | AClient =>
      Some (Agent true (ag_imageBlock a) (vms a) (objs a) (cmds a) (runs a) (kills a) (timers a) (calls a) (nextCommand a))
  end.

Fixpoint exec_all (l : list action) (a : agent) : option agent :=
  match l with [] => Some a | x :: l' => exec x a ≫= exec_all l' end.

Lemma exec_all_app l1 l2 a : exec_all (l1 ++ l2) a = exec_all l1 a ≫= exec_all l2.
Proof. revert a. induction l1 as [|x l IH]; intros a; cbn; [done|]. destruct (exec x a); cbn; [apply IH|done]. Qed.

Definition init_agent (imageBlock : bool) : agent := Agent false imageBlock ∅ [] ∅ [] [] [] [] 0.

(** What the agent can do: any sequence of these. *)
Definition step (a a' : agent) : Prop := exists act, exec act a = Some a'.
Definition reachable (imageBlock : bool) : agent -> Prop := rtc step (init_agent imageBlock).

(** The manager of static pods does not look whether the UID of a manifest is
    still in use. *)
Definition reuses (u : string) (act : action) (a : agent) : bool :=
  match act with AStartStatic pod _ => bool_decide (p_UID pod = u) && bool_decide (is_Some (vms a !! u)) | _ => false end.

(** In a run of the agent a manifest was started under [u] while the table
    had an entry for it (see [renamed_manifest_runs_twice] in [StaticPods]). *)
Fixpoint reused (u : string) (l : list action) (a : agent) : bool :=
  match l with
  | [] => false
  | x :: l' => reuses u x a || match exec x a with Some a1 => reused u l' a1 | None => false end
  end.

Definition live (r : run) : Prop := r_pc r <> RDone.
Definition uid_of (r : run) : string := p_UID (r_pod r).

(** ** Invariant: the table is exactly the live goroutines *)

(** Every entry is a live goroutine's own, whatever was started. *)
Definition entries_ok (a : agent) : Prop :=
  (forall u v, vms a !! u = Some v -> exists i r, runs a !! i = Some r /\ live r /\ uid_of r = u /\ r_vm r = v) /\
  (forall i r, runs a !! i = Some r -> r_vm r < length (objs a)).

(** One goroutine runs under [u], and the table has it. *)
Definition single (u : string) (a : agent) : Prop :=
  (forall i j ri rj, runs a !! i = Some ri -> runs a !! j = Some rj -> live ri -> live rj ->
     uid_of ri = u -> uid_of rj = u -> i = j) /\
  (forall i r, runs a !! i = Some r -> live r -> uid_of r = u -> vms a !! u = Some (r_vm r)).

(** Steps that change neither the table nor the goroutines. *)
Definition same_table (a a' : agent) : Prop := vms a' = vms a /\ runs a' = runs a /\ length (objs a') = length (objs a).
Lemma entries_ok_same a a' : same_table a a' -> entries_ok a -> entries_ok a'.
Proof. intros (Hv & Hr & Ho) H. unfold entries_ok in *. by rewrite Hv, Hr, Ho. Qed.
Lemma single_same u a a' : same_table a a' -> single u a -> single u a'.
Proof. intros (Hv & Hr & _) H. unfold single in *. by rewrite Hv, Hr. Qed.

Lemma stop_once_same v g a :
  vms (stop_once v g a) = vms a /\ runs (stop_once v g a) = runs a /\
  length (objs (stop_once v g a)) = length (objs a) /\ calls (stop_once v g a) = calls a.
Proof.
  unfold stop_once. destruct (objs a !! v) as [o|]; [|done]. destruct (vm_stopped o); [done|]. cbn.
  by rewrite length_alter.
Qed.

Lemma finalizePod_same pod v a :
  vms (finalizePod pod v a) = vms a /\ runs (finalizePod pod v a) = runs a /\
  objs (finalizePod pod v a) = objs a.
Proof. unfold finalizePod. destruct (ag_client a); [|done]. by destruct (objs a !! v). Qed.

Lemma kill_process_same v a :
  vms (kill_process v a) = vms a /\ runs (kill_process v a) = runs a /\ objs (kill_process v a) = objs a.
Proof. unfold kill_process. by destruct (cmds a !! v). Qed.

Lemma killVM_same v why g ok a :
  vms (killVM v why g ok a) = vms a /\ runs (killVM v why g ok a) = runs a /\ objs (killVM v why g ok a) = objs a /\
  kills (killVM v why g ok a) = kills a.
Proof. unfold killVM, kill_process. destruct ok; [done|]. cbn. by destruct (cmds a !! v). Qed.

(** The goroutines after a launch, and after one of them moved. *)
Lemma launch_lookup pod o a i r :
  runs (launch pod o a) !! i = Some r -> runs a !! i = Some r \/ i = length (runs a) /\ r = Run pod (length (objs a)) RBegin.
Proof.
  cbn. intros Hi. apply lookup_app_Some in Hi as [Hi|[Hge Hi]]; [by left|right].
  destruct (i - length (runs a)) as [|k] eqn:E; cbn in Hi; [|by destruct k]. split; [lia|by injection Hi].
Qed.
Lemma goto_lookup i r pc a j x :
  runs (goto i r pc a) !! j = Some x -> j = i /\ x = Run (r_pod r) (r_vm r) pc \/ j <> i /\ runs a !! j = Some x.
Proof.
  assert (runs (goto i r pc a) = <[i := Run (r_pod r) (r_vm r) pc]> (runs a)) as -> by (unfold goto; by case_bool_decide).
  rewrite list_lookup_insert. case_decide as Hd.
  - intros [= <-]. left. by destruct Hd as [-> _].
  - intros Hj. right. split; [|done]. intros ->. apply Hd. split; [done|by eapply lookup_lt_Some].
Qed.

Lemma launch_entries pod o a : entries_ok a -> entries_ok (launch pod o a).
Proof.
  intros (H3 & H4). split.
  - intros u v Hv. cbn in Hv. apply lookup_insert_Some in Hv as [[<- <-]|[Hne Hv]].
    + exists (length (runs a)), (Run pod (length (objs a)) RBegin). split; [|done]. cbn. rewrite lookup_app_r by done. by rewrite Nat.sub_diag.
    + destruct (H3 u v Hv) as (i & r & Hi & Hr). exists i, r. split; [by apply lookup_app_l_Some|done].
  - intros i r Hi. cbn [objs launch]. rewrite length_app. cbn. apply launch_lookup in Hi as [Hi|[-> ->]]; cbn; [apply H4 in Hi; lia|lia].
Qed.
Lemma launch_single u pod o a : (p_UID pod = u -> vms a !! u = None) -> single u a -> single u (launch pod o a).
Proof.
  intros Hu (H1 & H2).
  assert (Hother : forall i r, runs a !! i = Some r -> live r -> uid_of r = u -> p_UID pod <> u).
  { intros i r Hi Hl He Hp. specialize (Hu Hp). rewrite (H2 i r Hi Hl He) in Hu. done. }
  split.
  - intros i j ri rj Hi Hj Hli Hlj Ei Ej. apply launch_lookup in Hi as [Hi|[-> ->]], Hj as [Hj|[-> ->]]; [by eapply H1| | |done].
    + by destruct (Hother _ _ Hi Hli).
    + by destruct (Hother _ _ Hj Hlj).
  - intros i r Hi Hl He. cbn. apply launch_lookup in Hi as [Hi|[-> ->]]; [|rewrite <-He; apply lookup_insert_eq].
    rewrite lookup_insert_ne; [by eapply H2|]. by eapply Hother.
Qed.

(** A goroutine moves: the table follows. *)
Lemma goto_entries i r pc a : runs a !! i = Some r -> live r -> entries_ok a -> entries_ok (goto i r pc a).
Proof.
  intros Hr Hl (H3 & H4). pose proof (lookup_lt_Some _ _ _ Hr) as Hlt. split.
  - assert (forall u v, vms (goto i r pc a) !! u = Some v -> vms a !! u = Some v /\ (pc = RDone -> uid_of r <> u)) as Hv.
    { intros u v. unfold goto. case_bool_decide; cbn; [|done]. intros [Hne Hv]%lookup_delete_Some. done. }
    assert (runs (goto i r pc a) = <[i := Run (r_pod r) (r_vm r) pc]> (runs a)) as Er by (unfold goto; by case_bool_decide).
    intros u v (Hu & Hp)%Hv. destruct (H3 u v Hu) as (j & x & Hj & Hx & Hux & Hxv). rewrite Er. destruct (decide (j = i)) as [->|Hne].
    + simplify_eq. exists i, (Run (r_pod r) (r_vm r) pc). split; [by apply list_lookup_insert_eq|]. split; [|done]. intros E. by apply Hp.
    + exists j, x. by rewrite list_lookup_insert_ne.
  - intros j x Hj. assert (objs (goto i r pc a) = objs a) as -> by (unfold goto; by case_bool_decide).
    apply goto_lookup in Hj as [[-> ->]|[_ Hj]]; [exact (H4 i r Hr)|exact (H4 j x Hj)].
Qed.
Lemma goto_single u i r pc a : runs a !! i = Some r -> live r -> single u a -> single u (goto i r pc a).
Proof.
  intros Hr Hl (H1 & H2). split.
  - intros j k rj rk Hj Hk Hlj Hlk Ej Ek. apply goto_lookup in Hj as [[-> ->]|[Hj' Hj]], Hk as [[-> ->]|[Hk' Hk]]; [done| | |by eapply H1].
    + exact (H1 i k r rk Hr Hk Hl Hlk Ej Ek).
    + exact (H1 j i rj r Hj Hr Hlj Hl Ej Ek).
  - intros j x Hj Hlx Ex. assert (vms (goto i r pc a) = if bool_decide (pc = RDone) then delete (uid_of r) (vms a) else vms a) as ->
      by (unfold goto; by case_bool_decide).
    apply goto_lookup in Hj as [[-> ->]|[Hne Hj]].
    + rewrite bool_decide_false by exact Hlx. exact (H2 i r Hr Hl Ex).
    + case_bool_decide; [|by eapply H2]. rewrite lookup_delete_ne; [by eapply H2|]. intros He. apply Hne. by eapply H1.
Qed.

(** *** What one step of a goroutine does *)

(** Everything a goroutine step leaves alone, and the calls it may make. *)
Record quiet (r : run) (pc : run_pc) (a a1 : agent) : Prop := Quiet {
  q_vms : vms a1 = vms a;
  q_runs : runs a1 = runs a;
  q_kills : kills a1 = kills a;
  q_stop : (fun o => (vm_stopped o, vm_stopping o)) <$> objs a1 = (fun o => (vm_stopped o, vm_stopping o)) <$> objs a;
  q_calls : exists cs, calls a1 = cs ++ calls a /\
    (forall u ns n, CallDelete u ns n ∈ cs -> u = uid_of r /\ pc = RDone) /\
    (forall v g ok, CallShutdown v ByStop g ok ∉ cs) /\
    (forall v c, CallStartVM v c ∈ cs -> exists k now, pc = RRunning k now)
}.

Lemma quiet_objs r pc a a1 : quiet r pc a a1 -> length (objs a1) = length (objs a).
Proof. intros [_ _ _ H _]. apply (f_equal length) in H. by rewrite !length_fmap in H. Qed.

Lemma quiet_refl r pc a : quiet r pc a a.
Proof. split; [done..|]. exists []. set_solver. Qed.

Lemma quiet_set_obj r pc a a1 v f :
  (forall o, vm_stopped (f o) = vm_stopped o /\ vm_stopping (f o) = vm_stopping o) ->
  quiet r pc a a1 -> quiet r pc a (set_obj v f a1).
Proof.
  intros Hf [H1 H2 H3 H4 H5]. split; [done..| |done]. cbn. rewrite <-H4. apply list_eq. intros i.
  rewrite !list_lookup_fmap. destruct (decide (i = v)) as [->|Hne].
  - rewrite list_lookup_alter_eq. destruct (objs a1 !! v) as [o|]; [|done]. cbn. destruct (Hf o) as [-> ->]. done.
  - by rewrite list_lookup_alter_ne.
Qed.

Definition is_set_phase (c : call) : Prop := match c with CallSetPhase _ _ _ _ _ _ => True | _ => False end.

Lemma quiet_add_calls r pc a a1 cs :
  Forall is_set_phase cs -> quiet r pc a a1 -> quiet r pc a (add_calls cs a1).
Proof.
  intros Hc [H1 H2 H3 H4 (cs1 & H5 & H6 & H7 & H8)]. split; [done..|]. exists (cs ++ cs1).
  rewrite Forall_forall in Hc. cbn. rewrite H5, app_assoc. setoid_rewrite elem_of_app.
  split_and!; [done|intros u ns n [?|?]; [by apply Hc in H|eauto]|intros v g ok [?|?]; [by apply Hc in H|by eapply H7]|].
  intros v c [?|?]; [by apply Hc in H|eauto].
Qed.

Lemma quiet_finalize r a a1 v :
  quiet r RDone a a1 -> quiet r RDone a (finalizePod (r_pod r) v a1).
Proof.
  intros Hq. unfold finalizePod. destruct (ag_client a1); [|done]. destruct (objs a1 !! v) as [o|]; [|done].
  destruct Hq as [H1 H2 H3 H4 (cs1 & H5 & H6 & H7 & H8)]. split; [done..|]. exists ([finalize_call (r_pod r) o] ++ cs1).
  cbn [calls add_calls]. rewrite H5, app_assoc. setoid_rewrite elem_of_app. setoid_rewrite list_elem_of_singleton.
  unfold finalize_call. split_and!; [done| | |].
  - intros u ns n [[= -> _ _]|?]; [done|by eapply H6].
  - intros v' g ok [?|?]; [done|by eapply H7].
  - intros v' c [?|?]; [done|by eapply H8].
Qed.

Lemma set_phase_calls pod ph reason msg ics css : Forall is_set_phase (set_phase_call pod ph reason msg ics css).
Proof. by repeat constructor. Qed.

(** Every step of a goroutine is quiet bookkeeping and then a move. *)
Lemma run_step_goto i ev a a' :
  run_step i ev a = Some a' ->
  exists r pc a1, runs a !! i = Some r /\ live r /\ quiet r pc a a1 /\ a' = goto i r pc a1.
Proof.
  unfold run_step. destruct (runs a !! i) as [r|] eqn:Hr; [|done]. cbn [mbind option_bind]. unfold live.
  assert (Hw : forall pc, exists pc' a1, quiet r pc' a a1 /\ unless_stopping i r pc a = goto i r pc' a1).
  { intros pc. unfold unless_stopping. destruct (stopping_obj _ _); [|by exists pc, a; split; [apply quiet_refl|]].
    exists RDone, (finalizePod (r_pod r) (r_vm r) a). split; [apply quiet_finalize, quiet_refl|done]. }
  destruct (r_pc r) eqn:Hpc, ev; try discriminate;
    try match goal with
        | err : option (string * string) |- _ => destruct err as [[??]|]
        | err : option string |- _ => destruct err
        end;
    try case_bool_decide;
    try match goal with |- context [if negb ?x && negb ?y then _ else _] => destruct (negb x && negb y) end;
    intros [= <-];
    lazymatch goal with
    | |- context [after_vm_exit] => idtac
    | |- context [CallStartVM] => idtac
    | |- context [unless_stopping i r ?pc a] =>
        destruct (Hw pc) as (pc' & a1 & Hq & ->); exists r, pc', a1; split_and!; [done|by rewrite Hpc|done|done]
    | |- context [goto i r ?pc ?a1] =>
        exists r, pc, a1; split_and!; [done|by rewrite Hpc| |done];
        repeat (apply quiet_add_calls; [apply set_phase_calls|]);
        try (apply quiet_set_obj; [by intros|]); apply quiet_refl
    end.
  - (* the VM starts *)
    match goal with |- context [goto i r ?pc ?a1] => exists r, pc, a1 end.
    split_and!; [done|by rewrite Hpc| |done].
    assert (quiet r (RRunning attempt now) a
      (set_obj (r_vm r) (match ip with Some ip => setIP ip | None => id end) a)) as [H1 H2 H3 H4 (cs & H5 & H6 & H7 & H8)].
    { apply quiet_set_obj; [by destruct ip|apply quiet_refl]. }
    split; cbn; [done|done|done|exact H4|]. eexists [_]. split; [done|]. setoid_rewrite list_elem_of_singleton.
    split_and!; [done|done|]. intros v c _. by eexists _, _.
  - (* the VM exited *)
    unfold after_vm_exit. destruct final as [sts|].
    + destruct (translateStatuses _ _ _) as [[ics css] ph].
      match goal with |- context [goto i r ?pc ?a1] => exists r, pc, a1 end.
      split_and!; [done|by rewrite Hpc| |done].
      destruct (stopping_obj _ _); [apply quiet_finalize|]; apply quiet_add_calls; auto using set_phase_calls, quiet_refl.
    + destruct (stopping_obj _ _).
      { match goal with |- context [goto i r ?pc ?a1] => exists r, pc, a1 end.
        split_and!; [done|by rewrite Hpc| |done]. apply quiet_finalize, quiet_add_calls; auto using set_phase_calls, quiet_refl. }
      case_bool_decide; match goal with |- context [goto i r ?pc ?a1] => exists r, pc, a1 end;
        (split_and!; [done|by rewrite Hpc| |done]); apply quiet_add_calls; try apply set_phase_calls;
        try (apply quiet_set_obj; [by intros|]); apply quiet_refl.
Qed.

(** Every action launches a goroutine, moves one, or leaves the table and
    the goroutines alone; only the manager of static pods launches under a UID
    that is in the table. *)
Lemma stop_once_table v g a : same_table a (stop_once v g a).
Proof. destruct (stop_once_same v g a) as (?&?&?&_). done. Qed.

Lemma exec_shape act a a' : exec act a = Some a' ->
  (exists pod o, vm_stopped o = false /\ match act with AStartStatic q _ => q = pod | _ => vms a !! p_UID pod = None end /\ a' = launch pod o a) \/
  (exists i r pc a1, runs a !! i = Some r /\ live r /\ same_table a a1 /\ a' = goto i r pc a1) \/
  same_table a a'.
Proof.
  destruct act as [pod|pod|pod o|v g|pod v|i ev|k ok|v why g ok|v|]; cbn.
  - intros [= <-]. unfold reconcilePod. destruct (is_mirror pod); [right; right; by case_match|].
    destruct (vms a !! p_UID pod) as [v|] eqn:Hv; destruct (p_Deleting pod); [right; right; apply stop_once_table|by right; right|by right; right|].
    case_bool_decide; [by right; right|]. left. by exists pod, (new_vm (p_UID pod) (p_Name pod) (p_Namespace pod) false "").
  - intros [= <-]. right; right. unfold podDeleted. destruct (is_mirror pod); [done|]. destruct (vms a !! p_UID pod); [apply stop_once_table|done].
  - intros [= <-]. left. by exists pod, (new_vm (p_UID pod) (p_Name pod) (p_Namespace pod) true o).
  - intros [= <-]. right; right. apply stop_once_table.
  - intros [= <-]. right; right. case_bool_decide; [|done]. destruct (finalizePod_same pod v a) as (H1 & H2 & H3). unfold same_table. by rewrite H1, H2, H3.
  - intros (r & pc & a1 & Hr & Hl & Hq & ->)%run_step_goto. right; left. exists i, r, pc, a1. split_and!; [done|done| |done].
    split_and!; [apply Hq|apply Hq|by eapply quiet_objs].
  - destruct (kills a !! k) as [[v g]|]; [|done]. intros [= <-]. right; right. destruct (killVM_same v ByStop g ok a) as (H1 & H2 & H3 & _).
    unfold same_table. cbn. by rewrite H1, H2, H3.
  - case_bool_decide; [|done]. intros [= <-]. right; right. destruct (killVM_same v (ByProbe why) g ok a) as (H1 & H2 & H3 & _).
    unfold same_table. by rewrite H1, H2, H3.
  - case_bool_decide; [|done]. intros [= <-]. right; right. destruct (kill_process_same v a) as (H1 & H2 & H3).
    unfold same_table. by rewrite H1, H2, H3.
  - intros [= <-]. by right; right.
Qed.

Lemma exec_entries act a a' : entries_ok a -> exec act a = Some a' -> entries_ok a'.
Proof.
  intros Ha [(pod & o & _ & _ & ->)|[(i & r & pc & a1 & Hr & Hl & Hs & ->)|Hs]]%exec_shape; [by apply launch_entries| |by eapply entries_ok_same].
  apply goto_entries; [by rewrite (proj1 (proj2 Hs))|done|by eapply entries_ok_same].
Qed.

Lemma exec_single u act a a' : reuses u act a = false -> single u a -> exec act a = Some a' -> single u a'.
Proof.
  intros Hu Ha [(pod & o & _ & Hp & ->)|[(i & r & pc & a1 & Hr & Hl & Hs & ->)|Hs]]%exec_shape; [| |by eapply single_same].
  - apply launch_single; [|done]. intros <-. destruct act; try done. subst. cbn in Hu. rewrite bool_decide_true in Hu by done. cbn in Hu.
    apply bool_decide_eq_false in Hu. by apply eq_None_not_Some.
  - apply goto_single; [by rewrite (proj1 (proj2 Hs))|done|by eapply single_same].
Qed.

Lemma init_entries b : entries_ok (init_agent b).
Proof. split; intros *; cbn; rewrite ?lookup_nil, ?lookup_empty; done. Qed.

Lemma reachable_entries b a : reachable b a -> entries_ok a.
Proof.
  intros Hr. apply (rtc_invariant step entries_ok (init_agent b)); [|apply init_entries|done].
  intros x y Hx (act & Ha). by eapply exec_entries.
Qed.

Lemma exec_all_single u l a a' : reused u l a = false -> single u a -> exec_all l a = Some a' -> single u a'.
Proof.
  revert a. induction l as [|x l IH]; intros a Hu Ha H; [by injection H as <-|]. cbn in *. apply orb_false_iff in Hu as [Hx Hu].
  destruct (exec x a) as [a1|] eqn:E; [|done]. apply (IH a1); [done|by eapply exec_single|done].
Qed.

Lemma init_single b u : single u (init_agent b).
Proof. split; intros *; cbn; rewrite ?lookup_nil; done. Qed.

Lemma step_exec_all l a a' : exec_all l a = Some a' -> rtc step a a'.
Proof.
  revert a. induction l as [|x l IH]; intros a H; cbn in H; [by injection H as <-|].
  destruct (exec x a) as [a1|] eqn:He; [|done]. eapply rtc_l; [by exists x|by apply IH].
Qed.

(** *** Stopping is requested once *)

#[local] Instance shutdown_dec v c : Decision (match c with CallShutdown w ByStop _ _ => w = v | _ => False end).
Proof. destruct c as [| | |w [] g ok|]; apply _. Defined.

(** Requests made to object [v] to stop, and those still to be made. *)
Definition shutdowns (v : nat) (cs : list call) : nat :=
  length (filter (fun c => match c with CallShutdown w ByStop _ _ => w = v | _ => False end) cs).
Definition pending (v : nat) (ks : list (nat * Z)) : nat := length (filter (fun k : nat * Z => k.1 = v) ks).

Definition stopped_obj (v : nat) (a : agent) : bool := from_option vm_stopped false (objs a !! v).

#[global] Arguments pending : simpl never.
#[global] Arguments shutdowns : simpl never.

Definition once_ok (a : agent) : Prop :=
  forall v, shutdowns v (calls a) + pending v (kills a) = (if stopped_obj v a then 1 else 0).

Lemma shutdowns_app v c1 c2 : shutdowns v (c1 ++ c2) = shutdowns v c1 + shutdowns v c2.
Proof. unfold shutdowns. by rewrite filter_app, length_app. Qed.

Lemma shutdowns_none v cs : (forall w g ok, CallShutdown w ByStop g ok ∉ cs) -> shutdowns v cs = 0.
Proof.
  unfold shutdowns. induction cs as [|c cs IH]; intros H; [done|]. rewrite filter_cons.
  rewrite decide_False; [apply IH; set_solver|]. intros Hc. destruct c as [| | |w [] g ok|]; try done. eapply H. left.
Qed.

Lemma pending_cons v w g ks : pending v ((w, g) :: ks) = (if bool_decide (w = v) then 1 else 0) + pending v ks.
Proof. unfold pending. rewrite filter_cons. cbn [fst]. case_decide; case_bool_decide; done. Qed.

Lemma pending_delete v k ks w g :
  ks !! k = Some (w, g) -> pending v (delete k ks) + (if bool_decide (w = v) then 1 else 0) = pending v ks.
Proof.
  intros Hk. pose proof (delete_Permutation ks k (w, g) Hk) as Hp.
  trans (pending v ((w, g) :: delete k ks)); [rewrite pending_cons; lia|].
  unfold pending. by rewrite <-Hp.
Qed.

Lemma stopped_fmap v a a' :
  (fun o => (vm_stopped o, vm_stopping o)) <$> objs a' = (fun o => (vm_stopped o, vm_stopping o)) <$> objs a ->
  stopped_obj v a' = stopped_obj v a /\ stopping_obj v a' = stopping_obj v a.
Proof.
  intros H. apply (f_equal (.!! v)) in H. rewrite !list_lookup_fmap in H. unfold stopped_obj, stopping_obj.
  destruct (objs a' !! v), (objs a !! v); cbn in *; try done. by injection H as -> ->.
Qed.

(** The part of the state [once_ok] reads. *)
Lemma once_ok_same a a' :
  (forall v, shutdowns v (calls a') = shutdowns v (calls a)) -> kills a' = kills a ->
  (forall v, stopped_obj v a' = stopped_obj v a) -> once_ok a -> once_ok a'.
Proof. intros Hc Hk Hs Ha v. by rewrite Hc, Hk, Hs. Qed.

Lemma stop_once_once v g a : once_ok a -> once_ok (stop_once v g a).
Proof.
  intros Ha. unfold stop_once. destruct (objs a !! v) as [o|] eqn:Ho; [|done].
  destruct (vm_stopped o) eqn:Hs; [done|]. intros w. specialize (Ha w). cbn. rewrite pending_cons.
  unfold stopped_obj in *. cbn. case_bool_decide as Hw.
  - subst w. rewrite Ho in Ha. cbn in Ha. rewrite Hs in Ha. rewrite list_lookup_alter_eq, Ho. cbn. lia.
  - rewrite list_lookup_alter_ne by done. done.
Qed.

Lemma calls_no_shutdown_once c a :
  (forall w g ok, c <> CallShutdown w ByStop g ok) -> once_ok a -> once_ok (add_calls [c] a).
Proof.
  intros Hc. apply once_ok_same; [|done|done]. intros v. cbn [calls add_calls].
  rewrite shutdowns_app, (shutdowns_none v [c]); [done|]. intros w g ok Hin. apply list_elem_of_singleton in Hin. by eapply Hc.
Qed.

Lemma kill_process_once v a : once_ok a -> once_ok (kill_process v a).
Proof. intros Ha. unfold kill_process. destruct (cmds a !! v); [by apply calls_no_shutdown_once|done]. Qed.

Lemma kill_process_calls w v a :
  shutdowns w (calls (kill_process v a)) = shutdowns w (calls a) /\ kills (kill_process v a) = kills a.
Proof.
  unfold kill_process. destruct (cmds a !! v) as [c|]; [|done]. split; [|done]. cbn [calls add_calls].
  rewrite shutdowns_app, (shutdowns_none w [CallProcessKill v c]); [done|]. set_solver.
Qed.

Lemma launch_once pod o a : vm_stopped o = false -> once_ok a -> once_ok (launch pod o a).
Proof.
  intros Ho. apply once_ok_same; [done|done|]. intros v. unfold stopped_obj. cbn.
  destruct (objs a !! v) as [x|] eqn:Hx; [by rewrite (lookup_app_l_Some _ _ _ _ Hx)|].
  apply lookup_ge_None in Hx. rewrite lookup_app_r by done. destruct (v - length (objs a)) as [|k]; [done|by destruct k].
Qed.

Lemma exec_once act a a' : once_ok a -> exec act a = Some a' -> once_ok a'.
Proof.
  intros Ha. destruct act as [pod|pod|pod o|v g|pod v|i ev|k ok|v why g ok|v|]; cbn.
  - intros [= <-]. unfold reconcilePod. destruct (is_mirror pod); [case_match; [by apply calls_no_shutdown_once|done]|].
    destruct (vms a !! p_UID pod) as [v|]; destruct (p_Deleting pod).
    + by apply stop_once_once.
    + done.
    + by apply calls_no_shutdown_once.
    + case_bool_decide; [done|by apply launch_once].
  - intros [= <-]. unfold podDeleted. destruct (is_mirror pod); [done|].
    destruct (vms a !! p_UID pod); [by apply stop_once_once|done].
  - intros [= <-]. by apply launch_once.
  - intros [= <-]. by apply stop_once_once.
  - intros [= <-]. unfold finalizePod. case_bool_decide; [|done]. destruct (ag_client a); [|done].
    destruct (objs a !! v); [by apply calls_no_shutdown_once|done].
  - intros Hs. apply run_step_goto in Hs as (r & pc & a1 & Hr & Hl & [Hv Hru Hk Hst (cs & Hcs & _ & Hns & _)] & ->).
    eapply (once_ok_same a); [| | |done]; unfold goto; case_bool_decide; cbn; try done.
    1, 2: intros v; rewrite Hcs, shutdowns_app, (shutdowns_none v cs); done.
    1, 2: intros v; unfold stopped_obj; cbn; destruct (stopped_fmap v a a1 Hst) as [He _]; unfold stopped_obj in He; by rewrite He.
  - destruct (kills a !! k) as [[v g]|] eqn:Hk; [|done]. intros [= <-]. intros w. specialize (Ha w).
    pose proof (pending_delete w k (kills a) v g Hk) as Hp.
    assert (shutdowns w (CallShutdown v ByStop g ok :: calls a) = (if bool_decide (v = w) then 1 else 0) + shutdowns w (calls a)) as Hs.
    { unfold shutdowns. rewrite filter_cons. destruct (decide (v = w)).
      - by rewrite bool_decide_true.
      - by rewrite bool_decide_false. }
    unfold killVM. destruct ok; cbn.
    + rewrite Hs. unfold stopped_obj in *. cbn. lia.
    + destruct (kill_process_calls w v (add_calls [CallShutdown v ByStop g false] a)) as [-> ->].
      destruct (kill_process_same v (add_calls [CallShutdown v ByStop g false] a)) as (_ & _ & Ho).
      unfold stopped_obj in *. cbn [objs calls kills add_calls app] in *. rewrite Ho, Hs. lia.
  - case_bool_decide; [|done]. intros [= <-]. destruct (killVM_same v (ByProbe why) g ok a) as (_ & _ & Ho & Hk).
    revert Ha. apply once_ok_same; [|done|unfold stopped_obj; by rewrite Ho]. intros w. unfold killVM, kill_process.
    destruct ok; [done|]. cbn. by destruct (cmds a !! v).
  - case_bool_decide; [|done]. intros [= <-]. by apply kill_process_once.
  - by intros [= <-].
Qed.

Lemma reachable_once b a : reachable b a -> once_ok a.
Proof.
  intros Hr. apply (rtc_invariant step once_ok (init_agent b)); [| |done].
  - intros x y Hx (act & Ha). by eapply exec_once.
  - intros v. done.
Qed.

(** ** Theorems *)

(** C1 One VM per pod, in every run of the agent. Whatever happens, an entry of
    the agent's table is that of a running goroutine, with its own object.
    For every UID under which the manager of static pods has not started a
    manifest while the table had it (it does not look; a renamed manifest makes
    it do so, [StaticPods.renamed_manifest_runs_twice]), at most one goroutine
    runs, and it is the table's. *)
Theorem one_vm_per_pod b l a u :
  exec_all l (init_agent b) = Some a ->
  (forall v, vms a !! u = Some v -> exists i r, runs a !! i = Some r /\ live r /\ uid_of r = u /\ r_vm r = v) /\
  (reused u l (init_agent b) = false ->
     (forall i j ri rj, runs a !! i = Some ri -> runs a !! j = Some rj -> live ri -> live rj ->
        uid_of ri = u -> uid_of rj = u -> i = j) /\
     (forall v, vms a !! u = Some v <-> exists i r, runs a !! i = Some r /\ live r /\ uid_of r = u /\ r_vm r = v)).
Proof.
  intros Hl. destruct (reachable_entries b a (step_exec_all _ _ _ Hl)) as [H3 _]. split; [apply H3|].
  intros Hu. destruct (exec_all_single u l _ a Hu (init_single b u) Hl) as [H1 H2]. split; [done|].
  intros v. split; [apply H3|]. intros (i & r & Hi & Hr & Eu & <-). by eapply H2.
Qed.

Definition ex_c : Container := ex_container "c".
Definition ex_api_pod (deleting : bool) : Pod :=
  MkPod "u1" "web" "ns" ∅ [] [ex_c] "" [] None None deleting None.

(** Two pods of one UID from the API, and a manifest under another. *)
Definition ex_static_pod : Pod := MkPod "s1" "dns" "kube-system" ∅ [] [ex_c] "" [] None None false None.
Lemma one_vm_per_pod_witness :
  exists a, exec_all [AReconcile (ex_api_pod false); AStartStatic ex_static_pod "dns-mac"; ARun 0 EvBegin; AReconcile (ex_api_pod false)]
      (init_agent true) = Some a /\ vms a !! "u1" = Some 0 /\
    (exists i r, runs a !! i = Some r /\ live r /\ uid_of r = "s1" /\ r_vm r = 1) /\
    forall i r, runs a !! i = Some r -> live r -> uid_of r = "u1" -> i = 0.
Proof.
  eexists. split; [vm_compute; reflexivity|]. split; [reflexivity|].
  match goal with |- (exists i r, runs ?a !! i = _ /\ _) /\ _ => set (a' := a) end.
  pose proof (one_vm_per_pod true
    [AReconcile (ex_api_pod false); AStartStatic ex_static_pod "dns-mac"; ARun 0 EvBegin; AReconcile (ex_api_pod false)] a') as H.
  split; [apply (H "s1" eq_refl); reflexivity|]. intros i r Hi Hl Hu.
  destruct (H "u1" eq_refl) as [_ [H1 _]]; [reflexivity|].
  refine (H1 i 0 r (Run (ex_api_pod false) 0 (RPrepare 0)) Hi eq_refl Hl _ Hu eq_refl). discriminate.
Defined.

(** The calls a step adds, and what a deletion among them says. *)
Lemma exec_calls act a a' :
  exec act a = Some a' ->
  exists cs, calls a' = cs ++ calls a /\ forall u ns n, CallDelete u ns n ∈ cs -> vms a' !! u = None.
Proof.
  intros He. destruct act as [pod|pod|pod o|v g|pod v|j ev|k ok|v why g ok|v|]; cbn in He.
  - injection He as <-. unfold reconcilePod. destruct (is_mirror pod).
    + destruct (p_Deleting pod && bool_decide (vms a !! podStateUID pod = None)) eqn:Hd; [|exists []; set_solver].
      apply andb_true_iff in Hd as [_ Hd%bool_decide_eq_true]. eexists [_]. split; [done|].
      intros u ns n [= -> _ _]%list_elem_of_singleton. done.
    + destruct (vms a !! p_UID pod) as [v|] eqn:Hv; destruct (p_Deleting pod).
      * destruct (stop_once_same v (podGracePeriod pod) a) as (_ & _ & _ & ->). exists []. set_solver.
      * exists []. set_solver.
      * eexists [_]. split; [done|]. intros u ns n [= -> _ _]%list_elem_of_singleton. done.
      * exists []. case_bool_decide; set_solver.
  - injection He as <-. exists []. unfold podDeleted. destruct (is_mirror pod); [set_solver|].
    destruct (vms a !! p_UID pod) as [v|]; [|set_solver].
    destruct (stop_once_same v (podGracePeriod pod) a) as (_ & _ & _ & ->). set_solver.
  - injection He as <-. exists []. set_solver.
  - injection He as <-. destruct (stop_once_same v g a) as (_ & _ & _ & ->). exists []. set_solver.
  - injection He as <-. case_bool_decide as Hv; [|exists []; set_solver]. unfold finalizePod.
    destruct (ag_client a); [|exists []; set_solver]. destruct (objs a !! v) as [o|]; [|exists []; set_solver].
    eexists [_]. split; [done|]. unfold finalize_call. intros u ns n [= -> _ _]%list_elem_of_singleton. done.
  - apply run_step_goto in He as (r' & pc & a1 & Hr' & Hl' & [Hvm Hru Hk Hst (cs1 & Hcs1 & Hdel & _)] & ->).
    exists cs1. split; [rewrite <-Hcs1; unfold goto; by case_bool_decide|]. intros u ns n Hin.
    destruct (Hdel _ _ _ Hin) as [-> ->]. unfold goto. rewrite bool_decide_true by done. cbn. apply lookup_delete_eq.
  - destruct (kills a !! k) as [[v g]|]; [|done]. injection He as <-. unfold killVM, kill_process.
    destruct ok; [eexists [_]|cbn; destruct (cmds a !! v); [eexists [_; _]|eexists [_]]]; (split; [done|set_solver]).
  - case_bool_decide; [|done]. injection He as <-. unfold killVM, kill_process.
    destruct ok; [eexists [_]|cbn; destruct (cmds a !! v); [eexists [_; _]|eexists [_]]]; (split; [done|set_solver]).
  - case_bool_decide; [|done]. injection He as <-. unfold kill_process.
    destruct (cmds a !! v); [eexists [_]|exists []]; (split; [done|set_solver]).
  - injection He as <-. exists []. set_solver.
Qed.

(** A pod's API object is deleted only when nothing runs for it: whenever a
    step requests the deletion of the object of a pod (or of an orphaned
    mirror), no goroutine is left for the UID that keys its VM, unless a
    manifest was started under that UID while it was in use. *)
Theorem delete_only_when_gone b l act a a' cs u ns n :
  exec_all l (init_agent b) = Some a -> exec act a = Some a' -> reused u (l ++ [act]) (init_agent b) = false ->
  calls a' = cs ++ calls a -> CallDelete u ns n ∈ cs ->
  forall i r, runs a' !! i = Some r -> live r -> uid_of r <> u.
Proof.
  intros Hl He Hu Hcs Hin i r Hi Hr Hx.
  assert (exec_all (l ++ [act]) (init_agent b) = Some a') as Hl' by (rewrite exec_all_app, Hl; cbn; by rewrite He).
  destruct (exec_all_single u _ _ a' Hu (init_single b u) Hl') as [_ H2].
  destruct (exec_calls _ _ _ He) as (cs' & Hcs' & Hdel). rewrite Hcs' in Hcs. apply app_inv_tail in Hcs as ->.
  specialize (Hdel _ _ _ Hin). specialize (H2 i r Hi Hr Hx). congruence.
Qed.

Lemma delete_only_when_gone_witness :
  exists a a', exec (ARun 0 (EvExited 9 None)) a = Some a' /\
    calls a' = [CallDelete "u1" "ns" "web"; CallSetPhase "u1" PodFailed "VMCrashed" "microVM exited without a final status" [] []]
      ++ calls a /\
    forall i r, runs a' !! i = Some r -> live r -> uid_of r <> "u1".
Proof.
  set (l := [AClient; AReconcile (ex_api_pod false); ARun 0 EvBegin; ARun 0 (EvPrepared None);
      ARun 0 (EvStarted 1 None None); AReconcile (ex_api_pod true)]).
  destruct (exec_all l (init_agent true)) as [a|] eqn:Ha; [|discriminate Ha].
  destruct (exec (ARun 0 (EvExited 9 None)) a) as [a'|] eqn:He; [|vm_compute in Ha; injection Ha as <-; discriminate He].
  exists a, a'. split; [exact He|]. vm_compute in Ha. injection Ha as <-. vm_compute in He. injection He as <-. split; [reflexivity|].
  refine (delete_only_when_gone true l (ARun 0 (EvExited 9 None)) _ _ [_; _] "u1" "ns" "web" _ _ _ _ _);
    [vm_compute; reflexivity|vm_compute; reflexivity|vm_compute; reflexivity|reflexivity|left].
Defined.

(** Stopping is requested once: however often a pod's deletion is
    observed, a graceful shutdown is sent to stop its VM, or about to be,
    exactly once if the stop flag went up, and never if it did not (the kills
    of failing probes aside). *)
Theorem stop_requested_once b a v :
  reachable b a -> shutdowns v (calls a) + pending v (kills a) = (if stopped_obj v a then 1 else 0).
Proof. intros Hr. apply (reachable_once b a Hr v). Qed.

Lemma stop_requested_once_witness :
  exists a, reachable true a /\ pending 0 (kills a) = 1 /\
    shutdowns 0 (calls a) + pending 0 (kills a) = (if stopped_obj 0 a then 1 else 0).
Proof.
  destruct (exec_all [AReconcile (ex_api_pod false); AReconcile (ex_api_pod true); ADeleted (ex_api_pod true)]
    (init_agent true)) as [a|] eqn:Ha; [|discriminate Ha].
  assert (reachable true a) as Hr.
  { by eapply step_exec_all. }
  vm_compute in Ha. injection Ha as <-. eexists. split; [exact Hr|]. split; [reflexivity|].
  exact (stop_requested_once true _ 0 Hr).
Defined.

(** The program points at which a stop request takes effect. *)
Definition stop_point (pc : run_pc) : Prop :=
  match pc with RPrepareBackoff _ | RStartBackoff _ | RRunning _ _ | RCrashBackoff _ => True | _ => False end.

(** A stopped pod is not restarted: once the stop flag is up, the next
    step of a goroutine that waits for its VM or in any backoff ends it; no VM
    is started, the pod leaves the table, and with an apiserver its API
    object is finalized unless the agent itself is shutting down. *)
Theorem stopped_pod_ends i ev a a' r :
  runs a !! i = Some r -> stop_point (r_pc r) -> stopping_obj (r_vm r) a = true -> run_step i ev a = Some a' ->
  runs a' !! i = Some (Run (r_pod r) (r_vm r) RDone) /\ vms a' !! uid_of r = None /\
  exists cs, calls a' = cs ++ calls a /\ (forall v c, CallStartVM v c ∉ cs) /\
    (ag_client a = true -> ev <> EvCtxDone -> exists ns n, CallDelete (uid_of r) ns n ∈ cs).
Proof.
  intros Hr Hp Hst Hs. pose proof (lookup_lt_Some _ _ _ Hr) as Hlt.
  assert (exists o, objs a !! r_vm r = Some o) as [o Ho].
  { unfold stopping_obj in Hst. destruct (objs a !! r_vm r); [by eexists|done]. }
  assert (Hdone : forall a1, runs a1 = runs a ->
    runs (goto i r RDone a1) !! i = Some (Run (r_pod r) (r_vm r) RDone) /\
    vms (goto i r RDone a1) !! uid_of r = None /\ calls (goto i r RDone a1) = calls a1).
  { intros a1 H1. unfold goto. rewrite bool_decide_true by done. cbn. rewrite H1.
    split_and!; [by apply list_lookup_insert_eq|apply lookup_delete_eq|done]. }
  assert (Hfin : forall a1, runs a1 = runs a -> objs a1 = objs a -> ag_client a1 = ag_client a ->
    forall cs, calls a1 = cs ++ calls a -> Forall is_set_phase cs ->
    let a2 := goto i r RDone (finalizePod (r_pod r) (r_vm r) a1) in
    runs a2 !! i = Some (Run (r_pod r) (r_vm r) RDone) /\ vms a2 !! uid_of r = None /\
    exists cs, calls a2 = cs ++ calls a /\ (forall v c, CallStartVM v c ∉ cs) /\
      (ag_client a = true -> ev <> EvCtxDone -> exists ns n, CallDelete (uid_of r) ns n ∈ cs)).
  { intros a1 H1 H2 H3 cs Hcs Hph a2. destruct (finalizePod_same (r_pod r) (r_vm r) a1) as (_ & Hfr & _).
    destruct (Hdone (finalizePod (r_pod r) (r_vm r) a1)) as (Hd1 & Hd2 & Hd3); [by rewrite Hfr|].
    split_and!; [done|done|]. unfold a2. rewrite Hd3. unfold finalizePod. rewrite H2, H3, Ho.
    assert (forall v c, CallStartVM v c ∉ cs) as Hns.
    { intros v c Hin. rewrite Forall_forall in Hph. by apply Hph in Hin. }
    destruct (ag_client a); [|by exists cs].
    exists ([finalize_call (r_pod r) o] ++ cs). cbn [calls add_calls]. rewrite Hcs, app_assoc. split; [done|]. split.
    - intros v c [Hin|Hin]%elem_of_app; [|by apply Hns in Hin]. by apply list_elem_of_singleton in Hin.
    - intros _ _. eexists _, _. left. }
  unfold run_step in Hs. rewrite Hr in Hs. cbn [mbind option_bind] in Hs. unfold unless_stopping in Hs. rewrite Hst in Hs.
  assert (Hctx : a' = goto i r RDone a -> ev = EvCtxDone -> runs a' !! i = Some (Run (r_pod r) (r_vm r) RDone) /\
    vms a' !! uid_of r = None /\ exists cs, calls a' = cs ++ calls a /\ (forall v c, CallStartVM v c ∉ cs) /\
    (ag_client a = true -> ev <> EvCtxDone -> exists ns n, CallDelete (uid_of r) ns n ∈ cs)).
  { intros -> ->. destruct (Hdone a eq_refl) as (Hd1 & Hd2 & Hd3). split_and!; [done..|]. exists []. set_solver. }
  destruct (r_pc r), ev; try done; injection Hs as <-;
    try (by apply Hctx); try (by apply (Hfin a eq_refl eq_refl eq_refl [])).
  unfold after_vm_exit. rewrite Hst. destruct final as [sts|].
  - destruct (translateStatuses _ _ _) as [[ics css] ph].
    by eapply (Hfin (add_calls _ a) eq_refl eq_refl eq_refl); [|apply set_phase_calls].
  - by eapply (Hfin (add_calls _ a) eq_refl eq_refl eq_refl); [|apply set_phase_calls].
Qed.

Lemma stopped_pod_ends_witness :
  exists a a', exec_all [AClient; AReconcile (ex_api_pod false); ARun 0 EvBegin; ARun 0 (EvPrepared None);
      ARun 0 (EvStarted 1 None None); ARun 0 (EvExited 9 None); AReconcile (ex_api_pod true)] (init_agent true) = Some a /\
    run_step 0 EvWoken a = Some a' /\ vms a' !! "u1" = None.
Proof.
  destruct (exec_all [AClient; AReconcile (ex_api_pod false); ARun 0 EvBegin; ARun 0 (EvPrepared None);
      ARun 0 (EvStarted 1 None None); ARun 0 (EvExited 9 None); AReconcile (ex_api_pod true)] (init_agent true))
    as [a|] eqn:Ha; [|discriminate Ha].
  assert (exists r, runs a !! 0 = Some r /\ uid_of r = "u1" /\ stop_point (r_pc r) /\ stopping_obj (r_vm r) a = true)
    as (r & Hr & Hu & Hp & Hs).
  { vm_compute in Ha. injection Ha as <-. eexists. split_and!; reflexivity || exact I. }
  destruct (run_step 0 EvWoken a) as [a'|] eqn:He; [|vm_compute in Ha; injection Ha as <-; discriminate He].
  exists a, a'. split; [reflexivity|]. split; [exact He|]. rewrite <-Hu.
  apply (stopped_pod_ends 0 EvWoken a a' r Hr Hp Hs He).
Defined.

(** Finding: a deletion that arrives while the pod is being prepared is
    lost. The stop flag goes up and the one graceful shutdown is spent on a
    VM that does not exist yet; when the image pull then succeeds, the flag is
    not consulted, the VM starts, and no later event of the deleted pod asks
    it to stop. *)
Theorem deletion_during_pull_is_lost :
  exists a, exec_all [AClient; AReconcile (ex_api_pod false); ARun 0 EvBegin; AReconcile (ex_api_pod true);
      AKill 0 false; ARun 0 (EvPrepared None); ARun 0 (EvStarted 1 None None)] (init_agent true) = Some a /\
    r_pc <$> runs a = [RRunning 0 1] /\ stopping_obj 0 a = true /\ kills a = [] /\ timers a = [] /\
    calls a = [CallStartVM 0 0; CallShutdown 0 ByStop 30 false] /\
    reconcilePod (ex_api_pod true) a = a /\ podDeleted (ex_api_pod true) a = a.
Proof. eexists. split; [vm_compute; reflexivity|]. split_and!; vm_compute; reflexivity. Qed.

(** VM sizing: a pod's VM has at least 256 MiB and one CPU, at least the
    sum of its main containers' memory limits (256 MiB for one without) and
    of their CPU limits, and at least each init container's memory limit. *)
Theorem vm_size_bounds pod :
  let '(mem, cpus) := vm_size pod in
  (256 <= mem)%Z /\ (1 <= cpus)%Z /\
  (foldr (fun c acc => match ct_MemoryLimit c with Some m => m `quot` MiB | None => 256 end + acc)
     0 (p_Containers pod) <= mem)%Z /\
  (foldr (fun c acc => default 0 (ct_CPULimit c) + acc) 0 (p_Containers pod) <= cpus)%Z /\
  Forall (fun c => forall m, ct_MemoryLimit c = Some m -> (m `quot` MiB <= mem)%Z) (p_InitContainers pod).
Proof.
  unfold vm_size.
  assert (forall l mc, foldl (fun (mc : Z * Z) c =>
      (mc.1 + match ct_MemoryLimit c with Some m => m `quot` MiB | None => 256 end,
       mc.2 + default 0 (ct_CPULimit c)))%Z mc l =
    (mc.1 + foldr (fun c acc => match ct_MemoryLimit c with Some m => m `quot` MiB | None => 256 end + acc) 0 l,
     mc.2 + foldr (fun c acc => default 0 (ct_CPULimit c) + acc) 0 l))%Z as ->.
  { intros l. induction l as [|c l IH]; intros [m k]; cbn; [by rewrite !Z.add_0_r|]. rewrite IH. cbn. f_equal; lia. }
  cbn [fst snd]. rewrite !Z.add_0_l.
  set (mains := foldr _ 0%Z (p_Containers pod)). set (cpus := foldr (fun c acc => (default _ _ + _)%Z) _ _).
  assert (forall l m0, let m1 := foldl (fun mem c => match ct_MemoryLimit c with
      | Some m => if bool_decide (m `quot` MiB > mem)%Z then (m `quot` MiB)%Z else mem | None => mem end) m0 l in
    (m0 <= m1)%Z /\ Forall (fun c => forall m, ct_MemoryLimit c = Some m -> (m `quot` MiB <= m1)%Z) l) as Hinit.
  { intros l. induction l as [|c l IH]; intros m0; cbn; [split; [lia|constructor]|].
    match goal with |- context [foldl ?f ?m1 l] => destruct (IH m1) as [H1 H2] end. cbv zeta in H1, H2.
    destruct (ct_MemoryLimit c) as [m|] eqn:Hm; [case_bool_decide|];
      (split; [lia|constructor; [|exact H2]]); intros x Hx; simplify_eq; lia. }
  destruct (Hinit (p_InitContainers pod) mains) as [H1 H2]. cbv zeta in H1, H2.
  set (mem := foldl _ mains _) in *. repeat case_bool_decide; split_and!; try lia;
    (eapply Forall_impl; [exact H2|]); intros c Hc m Hm; specialize (Hc m Hm); lia.
Qed.

(** Finding: a container without a CPU limit counts for nothing, not for
    one CPU as the comment says: a pod of two such containers gets a single
    CPU, and 512 MiB. *)
Theorem default_cpu_is_per_pod :
  vm_size (MkPod "u" "web" "ns" ∅ [] [ex_container "a"; ex_container "b"] "" [] None None false None) = (512, 1)%Z.
Proof. vm_compute. reflexivity. Qed.
