(* ===== verification/StaticPods.v ===== *)
(** * Static pods (poc/agent/staticpods.go)

    The manager of the manifest directory: one scan of the directory
    ([scanManifests]) starts, restarts and stops pods, using the agent's table
    of [PodLifecycle]; [Mirror] reflects them into the API. The YAML decoder
    and SHA-256 are parameters. The order in which Go visits the map of
    running pods is an argument. *)
From Stdlib Require Import Ascii.
From S2P Require Import Prelude GoStrings NetIP Pod Supervisor Status PodLifecycle.

Definition clusterIPAnnotation : string := "kube-on-macos.io/cluster-ip".

Record staticPod := SP { sp_file : string; sp_hash : string; sp_vip : string; sp_pod : Pod; sp_vm : nat }.

(** A directory entry; [e_data] is [None] when the file cannot be read. *)
Record entry := Entry { e_Name : string; e_IsDir : bool; e_data : option string }.

(** The manager's state; [st_gone] are the services it asked to delete. *)
Record state := St {
  st_agent : agent; st_vips : gmap string nat; st_running : gmap string staticPod; st_gone : list (string * string)
}.

(** ** The internal UID *)

Definition hex_char (d : Z) : ascii := ascii_of_byte (if bool_decide (d < 10)%Z then d + 48 else d + 87).

Fixpoint EncodeToString (l : bytes) : string :=
  match l with [] => "" | b :: l' => String (hex_char (b / 16)) (String (hex_char (b mod 16)) (EncodeToString l')) end%Z.

Definition substr (i j : nat) (s : string) : string := take_string (j - i) (drop_string i s).

Definition uid_bytes (sum : bytes) : bytes :=
  alter (fun b => Z.lor (Z.land b 0x3f) 0x80) 8 (alter (fun b => Z.lor (Z.land b 0x0f) 0x40) 6 (take 16 sum)).

Definition uidFromHash (sum : bytes) : string :=
  let h := EncodeToString (uid_bytes sum) in
  substr 0 8 h +:+ "-" +:+ substr 8 12 h +:+ "-" +:+ substr 12 16 h +:+ "-" +:+ substr 16 20 h +:+ "-" +:+ substr 20 32 h.

(** ** Manifests *)

Definition visible (e : entry) : bool :=
  negb (e_IsDir e) && negb (HasPrefix (e_Name e) ".") &&
  (HasSuffix (e_Name e) ".yaml" || HasSuffix (e_Name e) ".yml" || HasSuffix (e_Name e) ".json").

Section Manager.
Context (nodeName svcCIDR6 : string).
Context (Sum256 : string -> bytes).
(** [yaml.UnmarshalStrict]: the manifest's kind and pod. *)
Context (UnmarshalStrict : string -> option (string * Pod)).

Definition parseStaticPod (data : string) : option Pod :=
  '(kind, pod) ← UnmarshalStrict data;
  if negb (bool_decide (kind = "Pod")) then None
  else if bool_decide (p_Name pod = "" \/ p_Containers pod = []) then None
  else Some (if bool_decide (p_Namespace pod = "")
             then MkPod (p_UID pod) (p_Name pod) "default" (p_Annotations pod) (p_InitContainers pod) (p_Containers pod)
                    (p_RestartPolicy pod) (p_Volumes pod) (p_TerminationGrace pod) (p_DeletionGrace pod) (p_Deleting pod) (p_Phase pod)
             else pod).

(** The pod as it is run: its UID and the annotations that mark it. *)
Definition prepare (pod : Pod) (uid : string) : Pod :=
  MkPod uid (p_Name pod) (p_Namespace pod)
    (<[sourceAnnotation := "file"]> (<[hashAnnotation := uid]> (p_Annotations pod)))
    (p_InitContainers pod) (p_Containers pod) (p_RestartPolicy pod) (p_Volumes pod)
    (p_TerminationGrace pod) (p_DeletionGrace pod) (p_Deleting pod) (p_Phase pod).

Definition manifest_hash (data : string) : string := EncodeToString (Sum256 data).
Definition manifest_uid (data : string) : string := uidFromHash (Sum256 data).

Definition validateBootstrapVIP (vip : string) : bool :=
  match ParseAddr vip, ParsePrefix svcCIDR6 with
  | Some addr, Some prefix => Is6 addr && Contains prefix addr
  | _, _ => false
  end.

(** The VIP a new VM [v] gets, and the table of VIPs after. *)
Definition claim (vip : string) (v : nat) (uid : string) (a : agent) (vips : gmap string nat) : string * gmap string nat :=
  if bool_decide (vip = "") then ("", vips)
  else if negb (validateBootstrapVIP vip) then ("", vips)
  else match vips !! vip with
       | Some other =>
           if bool_decide (vm_podUID <$> objs a !! other = Some uid) then (vip, <[vip := v]> vips) else ("", vips)
       | None => (vip, <[vip := v]> vips)
       end.

(** ** Stopping and starting *)

Definition stopStaticPod (sp : staticPod) (s : state) : state :=
  let a := st_agent s in
  let claimed := negb (bool_decide (sp_vip sp = "")) in
  let vips := if claimed && bool_decide (st_vips s !! sp_vip sp = Some (sp_vm sp))
              then delete (sp_vip sp) (st_vips s) else st_vips s in
  let gone := if claimed && ag_client a then (p_Namespace (sp_pod sp), p_Name (sp_pod sp)) :: st_gone s else st_gone s in
  let a := stop_once (sp_vm sp) (podGracePeriod (sp_pod sp)) a in
  let a := if bool_decide (vms a !! p_UID (sp_pod sp) = None) then finalizePod (sp_pod sp) (sp_vm sp) a else a in
  St a vips (st_running s) gone.

Definition start_manifest (name data : string) (pod0 : Pod) (s : state) : state :=
  let uid := manifest_uid data in
  let pod := prepare pod0 uid in
  let a := st_agent s in
  let v := length (objs a) in
  let '(vip, vips) := claim (annotation pod clusterIPAnnotation) v uid a (st_vips s) in
  St (launch pod (new_vm uid (p_Name pod) (p_Namespace pod) true (p_Name pod +:+ "-" +:+ nodeName)) a)
    vips (<[name := SP name (manifest_hash data) vip pod v]> (st_running s)) (st_gone s).

Definition set_running (m : gmap string staticPod) (s : state) : state := St (st_agent s) (st_vips s) m (st_gone s).

(** One file of the directory. *)
Definition scan_file (name data : string) (s : state) : state :=
  let cur := st_running s !! name in
  if bool_decide (sp_hash <$> cur = Some (manifest_hash data)) then s
  else
    let s := match cur with
             | Some sp => let s := stopStaticPod sp s in set_running (delete name (st_running s)) s
             | None => s
             end in
    match parseStaticPod data with
    | None => s
    | Some pod => start_manifest name data pod s
    end.

Definition scan_entry (e : entry) (s : state) : state :=
  if negb (visible e) then s
  else match e_data e with None => s | Some data => scan_file (e_Name e) data s end.

Definition seen (entries : list entry) : list string :=
  omap (fun e => if visible e && negb (bool_decide (e_data e = None)) then Some (e_Name e) else None) entries.

(** The pods whose manifest is gone, in the order the map is visited. *)
Definition remove_one (entries : list entry) (s : state) (name : string) : state :=
  match st_running s !! name with
  | None => s
  | Some sp =>
      if bool_decide (name ∈ seen entries) then s
      else let s := stopStaticPod sp s in set_running (delete name (st_running s)) s
  end.

(** [entries] is [None] when the directory cannot be read. *)
Definition scanManifests (entries : option (list entry)) (order : list string) (s : state) : state :=
  match entries with
  | None => s
  | Some entries => foldl (remove_one entries) (foldl (fun s e => scan_entry e s) s entries) order
  end.
End Manager.

(** ** What one scan does *)

(** The manifests of a directory: names and contents. *)
Definition files (entries : list entry) : list (string * string) :=
  omap (fun e => if visible e then (e_Name e,.) <$> e_data e else None) entries.

Lemma seen_files entries : seen entries = (files entries).*1.
Proof.
  induction entries as [|e l IH]; [done|]. unfold seen, files in *. cbn [omap list_omap].
  destruct (visible e), (e_data e); cbn; by rewrite IH.
Qed.

Lemma files_names entries : sublist (files entries).*1 (e_Name <$> entries).
Proof.
  induction entries as [|e l IH]; [constructor|]. unfold files in *. cbn [omap list_omap fmap list_fmap].
  destruct (visible e), (e_data e); cbn; by constructor.
Qed.

(** What a scan never undoes: goroutines are added, stop requests stay. *)
Record grows (a a' : agent) : Prop := Grows {
  g_runs : exists l, runs a' = runs a ++ l;
  g_objs : length (objs a) <= length (objs a');
  g_stop : forall v, stopped_obj v a = true -> stopped_obj v a' = true
}.

#[export] Instance grows_preorder : PreOrder grows.
Proof.
  split.
  - intros a. split; [exists []; by rewrite app_nil_r|done|done].
  - intros a b c [[l1 H1] H2 H3] [[l2 H4] H5 H6]. split; [exists (l1 ++ l2); by rewrite H4, H1, app_assoc|lia|auto].
Qed.

Lemma stop_once_grows v g a : grows a (stop_once v g a).
Proof.
  destruct (stop_once_same v g a) as (_ & Hr & Ho & _). split; [exists []; by rewrite Hr, app_nil_r|lia|].
  intros w. unfold stop_once, stopped_obj. destruct (objs a !! v) as [o|] eqn:E; [|done]. destruct (vm_stopped o) eqn:Es; [done|].
  cbn. destruct (decide (w = v)) as [->|Hne]; [|by rewrite list_lookup_alter_ne].
  by rewrite list_lookup_alter_eq, E.
Qed.

Lemma stop_once_stops v g a : v < length (objs a) -> stopped_obj v (stop_once v g a) = true.
Proof.
  intros Hv. unfold stop_once, stopped_obj. destruct (lookup_lt_is_Some_2 _ _ Hv) as [o Ho]. rewrite Ho.
  destruct (vm_stopped o) eqn:Es; cbn; [by rewrite Ho|]. by rewrite list_lookup_alter_eq, Ho.
Qed.

Lemma finalizePod_grows pod v a : grows a (finalizePod pod v a).
Proof.
  destruct (finalizePod_same pod v a) as (_ & Hr & Ho). split; [exists []; by rewrite Hr, app_nil_r|by rewrite Ho|].
  intros w. unfold stopped_obj. by rewrite Ho.
Qed.

Lemma launch_grows pod o a : grows a (launch pod o a).
Proof.
  split; [by eexists|cbn; rewrite length_app; lia|]. intros v. unfold stopped_obj. cbn.
  destruct (objs a !! v) as [x|] eqn:Hx; [|done]. by rewrite (lookup_app_l_Some _ _ _ _ Hx).
Qed.

Lemma stopStaticPod_spec sp s :
  st_running (stopStaticPod sp s) = st_running s /\
  grows (st_agent s) (st_agent (stopStaticPod sp s)) /\
  (sp_vm sp < length (objs (st_agent s)) -> stopped_obj (sp_vm sp) (st_agent (stopStaticPod sp s)) = true).
Proof.
  split; [done|]. unfold stopStaticPod. cbn [st_agent]. set (a1 := stop_once _ _ _).
  assert (grows a1 (if bool_decide (vms a1 !! p_UID (sp_pod sp) = None) then finalizePod (sp_pod sp) (sp_vm sp) a1 else a1)) as Hg.
  { case_bool_decide; [apply finalizePod_grows|reflexivity]. }
  split; [by transitivity a1; [apply stop_once_grows|]|]. intros Hv. apply Hg. by apply stop_once_stops.
Qed.

Section ManagerProofs.
Context (nodeName svcCIDR6 : string) (Sum256 : string -> bytes) (UnmarshalStrict : string -> option (string * Pod)).
Notation scan_file := (scan_file nodeName svcCIDR6 Sum256 UnmarshalStrict).
Notation scan_entry := (scan_entry nodeName svcCIDR6 Sum256 UnmarshalStrict).
Notation scanManifests := (scanManifests nodeName svcCIDR6 Sum256 UnmarshalStrict).
Notation parseStaticPod := (parseStaticPod UnmarshalStrict).
Notation manifest_hash := (manifest_hash Sum256).
Notation manifest_uid := (manifest_uid Sum256).
Notation validateBootstrapVIP := (validateBootstrapVIP svcCIDR6).
Notation start_manifest := (start_manifest nodeName svcCIDR6 Sum256).

(** What a scan leaves running for a manifest, given what ran before: the
    same, if the contents are unchanged; else the pod of the new contents,
    in a new goroutine; nothing, if they are no pod. *)
Definition runs_now (name data : string) (old new : option staticPod) (a : agent) : Prop :=
  if bool_decide (sp_hash <$> old = Some (manifest_hash data)) then new = old
  else match parseStaticPod data with
       | None => new = None
       | Some pod => exists vip v,
           let pod' := prepare pod (manifest_uid data) in
           new = Some (SP name (manifest_hash data) vip pod' v) /\
           Run pod' v RBegin ∈ runs a /\
           (vip <> "" -> vip = annotation pod' clusterIPAnnotation /\ validateBootstrapVIP vip = true)
       end.

(** A pod that is not kept was told to stop. *)
Definition replaced_stops (old new : option staticPod) (a a' : agent) : Prop :=
  forall sp, old = Some sp -> new <> Some sp -> sp_vm sp < length (objs a) -> stopped_obj (sp_vm sp) a' = true.

Lemma runs_now_grows name data old new a a' : grows a a' -> runs_now name data old new a -> runs_now name data old new a'.
Proof.
  intros [[l Hl] _ _]. unfold runs_now. case_bool_decide; [done|]. destruct (parseStaticPod data) as [pod|]; [|done].
  intros (vip & v & ? & Hr & ?). exists vip, v. split_and!; [done| |done]. rewrite Hl. apply elem_of_app. by left.
Qed.

Lemma start_manifest_spec name data pod s :
  parseStaticPod data = Some pod -> sp_hash <$> st_running s !! name <> Some (manifest_hash data) ->
  let s' := start_manifest name data pod s in
  (forall n, n <> name -> st_running s' !! n = st_running s !! n) /\
  (forall old, sp_hash <$> old <> Some (manifest_hash data) -> runs_now name data old (st_running s' !! name) (st_agent s')) /\
  grows (st_agent s) (st_agent s').
Proof.
  intros Hp Hh. unfold start_manifest. set (pod' := prepare pod (manifest_uid data)).
  destruct (claim svcCIDR6 (annotation pod' clusterIPAnnotation) (length (objs (st_agent s))) (manifest_uid data) (st_agent s) (st_vips s))
    as [vip vips] eqn:Hc.
  assert (vip <> "" -> vip = annotation pod' clusterIPAnnotation /\ validateBootstrapVIP vip = true) as Hvip.
  { unfold claim in Hc. case_bool_decide; [naive_solver|]. destruct (validateBootstrapVIP _) eqn:Hval; cbn in Hc; [|naive_solver].
    destruct (st_vips s !! _); [case_bool_decide|]; naive_solver. }
  cbn. split_and!.
  - intros n Hn. by rewrite lookup_insert_ne.
  - intros old Ho. rewrite lookup_insert_eq. unfold runs_now. rewrite bool_decide_false, Hp by done. exists vip, (length (objs (st_agent s))).
    split_and!; [done| |done]. cbn. apply elem_of_app. right. by apply list_elem_of_singleton.
  - apply launch_grows.
Qed.

Lemma scan_file_spec name data s :
  let s' := scan_file name data s in
  (forall n, n <> name -> st_running s' !! n = st_running s !! n) /\
  runs_now name data (st_running s !! name) (st_running s' !! name) (st_agent s') /\
  replaced_stops (st_running s !! name) (st_running s' !! name) (st_agent s) (st_agent s') /\
  grows (st_agent s) (st_agent s').
Proof.
  cbn zeta. unfold StaticPods.scan_file. case_bool_decide as Hh.
  { split_and!; [done| |by intros ? -> ?|reflexivity]. unfold runs_now. by rewrite bool_decide_true. }
  set (s1 := match st_running s !! name with Some sp => _ | None => s end).
  assert ((forall n, n <> name -> st_running s1 !! n = st_running s !! n) /\ st_running s1 !! name = None /\
    grows (st_agent s) (st_agent s1) /\
    forall sp, st_running s !! name = Some sp -> sp_vm sp < length (objs (st_agent s)) -> stopped_obj (sp_vm sp) (st_agent s1) = true)
    as (H1 & H2 & H3 & H4).
  { subst s1. destruct (st_running s !! name) as [sp|] eqn:E; [|split_and!; [done|done|reflexivity|done]].
    destruct (stopStaticPod_spec sp s) as (_ & Hg & Hs). cbn. split_and!.
    - intros n Hn. by rewrite lookup_delete_ne.
    - apply lookup_delete_eq.
    - exact Hg.
    - intros ? [= <-]. exact Hs. }
  destruct (parseStaticPod data) as [pod|] eqn:Hp.
  - destruct (start_manifest_spec name data pod s1 Hp) as (H5 & H6 & H7); [by rewrite H2|]. split_and!.
    + intros n Hn. by rewrite H5, H1.
    + by apply H6.
    + intros sp Hsp _ Hv. apply H7. by apply H4.
    + by transitivity (st_agent s1).
  - split_and!; [done| |intros sp Hsp _; by apply H4|done]. unfold runs_now. by rewrite bool_decide_false, Hp, H2.
Qed.

(** The files of one scan, one after the other. *)
Lemma scan_files_spec l : forall s, NoDup l.*1 ->
  let s' := foldl (fun s f => scan_file f.1 f.2 s) s l in
  (forall n, n ∉ l.*1 -> st_running s' !! n = st_running s !! n) /\
  (forall n d, (n, d) ∈ l -> runs_now n d (st_running s !! n) (st_running s' !! n) (st_agent s') /\
    replaced_stops (st_running s !! n) (st_running s' !! n) (st_agent s) (st_agent s')) /\
  grows (st_agent s) (st_agent s').
Proof.
  induction l as [|[n d] l IH]; intros s Hnd; cbn [foldl]; [split_and!; [done|intros n d Hin; by apply elem_of_nil in Hin|reflexivity]|].
  cbn in Hnd. apply NoDup_cons in Hnd as [Hn Hnd]. destruct (scan_file_spec n d s) as (H1 & H2 & H3 & H4). cbn [fst snd].
  set (s1 := scan_file n d s) in *. destruct (IH s1 Hnd) as (H5 & H6 & H7). set (s' := foldl _ s1 l) in *. split_and!.
  - intros m Hm. cbn in Hm. apply not_elem_of_cons in Hm as [Hm Hm']. by rewrite H5, H1.
  - intros m e [[= -> ->]|Hin]%elem_of_cons.
    + rewrite (H5 n Hn). split; [by eapply runs_now_grows|]. intros sp Ho Hne Hv. apply H7. by apply (H3 sp).
    + assert (m <> n) as Hmn by (intros ->; apply Hn; by apply (list_elem_of_fmap_2 fst l (n, e))).
      destruct (H6 m e Hin) as [Ha Hb]. rewrite (H1 m Hmn) in Ha, Hb. split; [done|]. intros sp Ho Hne Hv.
      apply (Hb sp Ho Hne). destruct H4. lia.
  - by transitivity (st_agent s1).
Qed.

Lemma remove_spec entries order : forall s,
  let s' := foldl (remove_one entries) s order in
  (forall n, n ∈ seen entries -> st_running s' !! n = st_running s !! n) /\
  (forall n, n ∉ seen entries -> (st_running s' !! n = st_running s !! n /\ n ∉ order \/ st_running s' !! n = None) /\
    replaced_stops (st_running s !! n) (st_running s' !! n) (st_agent s) (st_agent s')) /\
  grows (st_agent s) (st_agent s').
Proof.
  induction order as [|m order IH]; intros s; cbn [foldl].
  { split_and!; [done| |reflexivity]. intros n _. split; [left; split; [done|apply not_elem_of_nil]|]. intros sp Ho Hne. by destruct Hne. }
  set (s1 := remove_one entries s m). assert (grows (st_agent s) (st_agent s1) /\
    (forall n, n <> m \/ n ∈ seen entries -> st_running s1 !! n = st_running s !! n) /\
    (m ∉ seen entries -> st_running s1 !! m = None /\ replaced_stops (st_running s !! m) None (st_agent s) (st_agent s1)))
    as (Hg & H1 & H2).
  { subst s1. unfold remove_one. destruct (st_running s !! m) as [sp|] eqn:E; [|split_and!; [reflexivity|done|done]].
    case_bool_decide as Hm; [split_and!; [reflexivity|done|done]|].
    destruct (stopStaticPod_spec sp s) as (_ & Hg & Hs). cbn. split_and!; [exact Hg| |].
    - intros n [Hn|Hn]; rewrite lookup_delete_ne; [done..|]. by intros ->.
    - intros _. split; [apply lookup_delete_eq|]. intros ? [= <-] _. exact Hs. }
  destruct (IH s1) as (H3 & H4 & H5). set (s' := foldl _ s1 order) in *. split_and!; [|intros n Hn; split|].
  - intros n Hn. rewrite H3 by done. apply H1. by right.
  - destruct (H4 n Hn) as [[[Hl Ho]|Hl] _]; [|by right]. destruct (decide (n = m)) as [->|Hne].
    + right. rewrite Hl. by apply H2.
    + left. rewrite Hl, H1 by (by left). split; [done|]. by apply not_elem_of_cons.
  - destruct (H4 n Hn) as [_ Hr]. destruct (decide (n = m)) as [->|Hne].
    + destruct (H2 Hn) as [Hnone Hrep]. intros sp Ho Hx Hv. apply H5. by apply (Hrep sp).
    + rewrite H1 in Hr by (by left). intros sp Ho Hx Hv. apply (Hr sp Ho Hx). destruct Hg. lia.
  - by transitivity (st_agent s1).
Qed.

Lemma scan_entries_files entries s :
  foldl (fun s e => scan_entry e s) s entries = foldl (fun s f => scan_file f.1 f.2 s) s (files entries).
Proof.
  revert s. induction entries as [|e l IH]; intros s; [done|]. unfold files in *. cbn [foldl omap list_omap].
  unfold StaticPods.scan_entry at 2. destruct (visible e), (e_data e); cbn; apply IH.
Qed.

(** One scan, in terms of the directory. *)
Lemma scan_spec entries order s :
  NoDup (e_Name <$> entries) ->
  (forall name, is_Some (st_running s !! name) -> name ∉ (files entries).*1 -> name ∈ order) ->
  let s' := scanManifests (Some entries) order s in
  (forall name data, (name, data) ∈ files entries ->
    runs_now name data (st_running s !! name) (st_running s' !! name) (st_agent s')) /\
  (forall name, name ∉ (files entries).*1 -> st_running s' !! name = None) /\
  (forall name, replaced_stops (st_running s !! name) (st_running s' !! name) (st_agent s) (st_agent s')) /\
  grows (st_agent s) (st_agent s').
Proof.
  intros Hnd Hord. cbn zeta. unfold StaticPods.scanManifests. rewrite scan_entries_files.
  assert (NoDup (files entries).*1) as Hnf by (eapply sublist_NoDup; [exact Hnd|apply files_names]).
  destruct (scan_files_spec (files entries) s Hnf) as (H1 & H2 & H3). set (s1 := foldl _ s (files entries)) in *.
  destruct (remove_spec entries order s1) as (H4 & H5 & H6). rewrite seen_files in H4, H5. set (s' := foldl _ s1 order) in *.
  split_and!; [| | |by transitivity (st_agent s1)].
  - intros name data Hin. rewrite H4 by (by apply (list_elem_of_fmap_2 fst (files entries) (name, data))).
    eapply runs_now_grows; [exact H6|]. by apply H2.
  - intros name Hn. destruct (H5 name Hn) as [[[Hl Ho]|Hl] _]; [|done]. rewrite Hl, (H1 name Hn).
    destruct (st_running s !! name) as [sp|] eqn:E; [|done]. destruct Ho. apply Hord; [by rewrite E|done].
  - intros name. destruct (decide (name ∈ (files entries).*1)) as [Hin|Hn].
    + rewrite H4 by done. apply list_elem_of_fmap in Hin as ([n d] & -> & Hin). destruct (H2 _ _ Hin) as [_ Hr].
      intros sp Ho Hne Hv. apply H6. by apply (Hr sp).
    + destruct (H5 name Hn) as [_ Hr]. rewrite (H1 name Hn) in Hr. intros sp Ho Hne Hv. apply (Hr sp Ho Hne). destruct H3. lia.
Qed.

Lemma scan_file_settled name data old s a :
  runs_now name data old (st_running s !! name) a -> scan_file name data s = s.
Proof.
  unfold runs_now, StaticPods.scan_file. intros H. case_bool_decide as Hold; [by rewrite H, bool_decide_true|].
  destruct (parseStaticPod data) as [pod|].
  - destruct H as (vip & v & -> & _). by rewrite bool_decide_true.
  - rewrite H. by rewrite bool_decide_false.
Qed.
End ManagerProofs.

(** ** What the scans achieve *)

Section Scans.
Context (nodeName svcCIDR6 : string) (Sum256 : string -> bytes) (UnmarshalStrict : string -> option (string * Pod)).
Notation scanManifests := (scanManifests nodeName svcCIDR6 Sum256 UnmarshalStrict).
Notation runs_now := (runs_now svcCIDR6 Sum256 UnmarshalStrict).

(** C12 After a scan the running static pods are those of the directory:
    unchanged manifests keep their pod, new and changed ones run the pod of
    their contents in a new goroutine, unreadable, invalid and removed ones
    run nothing; and every pod that is not kept was told to stop. *)
Theorem scan_reflects_directory entries order s :
  NoDup (e_Name <$> entries) ->
  (forall name, is_Some (st_running s !! name) -> name ∉ (files entries).*1 -> name ∈ order) ->
  let s' := scanManifests (Some entries) order s in
  (forall name data, (name, data) ∈ files entries ->
    runs_now name data (st_running s !! name) (st_running s' !! name) (st_agent s')) /\
  (forall name, name ∉ (files entries).*1 -> st_running s' !! name = None) /\
  (forall name sp, st_running s !! name = Some sp -> st_running s' !! name <> Some sp ->
    sp_vm sp < length (objs (st_agent s)) -> stopped_obj (sp_vm sp) (st_agent s') = true).
Proof.
  intros Hnd Hord. destruct (scan_spec nodeName svcCIDR6 Sum256 UnmarshalStrict entries order s Hnd Hord) as (H1 & H2 & H3 & _).
  split_and!; [done|done|]. intros name sp. apply H3.
Qed.

(** What is running after a scan is not changed by another scan of the same
    directory, whatever the agent did in between. *)
Lemma scan_settled entries order order' s s' :
  NoDup (e_Name <$> entries) ->
  (forall name, is_Some (st_running s !! name) -> name ∉ (files entries).*1 -> name ∈ order) ->
  st_running s' = st_running (scanManifests (Some entries) order s) ->
  scanManifests (Some entries) order' s' = s'.
Proof.
  intros Hnd Hord E. destruct (scan_spec nodeName svcCIDR6 Sum256 UnmarshalStrict entries order s Hnd Hord) as (H1 & H2 & _).
  rewrite <-E in H1, H2. unfold StaticPods.scanManifests. rewrite scan_entries_files.
  assert (foldl (fun s f => scan_file nodeName svcCIDR6 Sum256 UnmarshalStrict f.1 f.2 s) s' (files entries) = s') as ->.
  { assert (forall f, f ∈ files entries -> scan_file nodeName svcCIDR6 Sum256 UnmarshalStrict f.1 f.2 s' = s') as Hf.
    { intros [n d] Hin. by eapply scan_file_settled, H1. }
    clear -Hf. induction (files entries) as [|f l IH]; [done|]. cbn. rewrite Hf by left. apply IH. intros g Hg. apply Hf. by right. }
  assert (forall name, remove_one entries s' name = s') as Hr.
  { intros name. unfold remove_one. destruct (st_running s' !! name) as [sp|] eqn:E'; [|done].
    rewrite bool_decide_true; [done|]. rewrite seen_files. destruct (decide (name ∈ (files entries).*1)) as [|Hn]; [done|].
    rewrite H2 in E'; done. }
  clear -Hr. induction order' as [|n l IH]; [done|]. cbn. by rewrite Hr.
Qed.

(** Scanning an unchanged directory again does nothing: no pod is started,
    restarted or stopped, whatever was wrong with some of the manifests. *)
Theorem scan_idempotent entries order order' s :
  NoDup (e_Name <$> entries) ->
  (forall name, is_Some (st_running s !! name) -> name ∉ (files entries).*1 -> name ∈ order) ->
  scanManifests (Some entries) order' (scanManifests (Some entries) order s) = scanManifests (Some entries) order s.
Proof. intros Hnd Hord. by apply (scan_settled entries order order' s). Qed.
End Scans.

(** *** The scan as steps of the agent *)

(** The manager's own actions, and the UIDs they start. *)
Definition manager_action (act : action) : Prop :=
  match act with AStartStatic _ _ | AStopStatic _ _ | AFinalizeStatic _ _ => True | _ => False end.
Definition starts (l : list action) : list string :=
  omap (fun act => match act with AStartStatic pod _ => Some (p_UID pod) | _ => None end) l.

Lemma starts_app l1 l2 : starts (l1 ++ l2) = starts l1 ++ starts l2.
Proof. apply omap_app. Qed.

(** A run of the manager's actions, with what it starts. *)
Definition manages (us : list string) (a a' : agent) : Prop :=
  exists l, exec_all l a = Some a' /\ Forall manager_action l /\ starts l = us.

Lemma manages_refl a : manages [] a a.
Proof. by exists []. Qed.
Lemma manages_trans us1 us2 a1 a2 a3 : manages us1 a1 a2 -> manages us2 a2 a3 -> manages (us1 ++ us2) a1 a3.
Proof.
  intros (l1 & H1 & F1 & S1) (l2 & H2 & F2 & S2). exists (l1 ++ l2). rewrite exec_all_app, H1, starts_app, S1, S2.
  split_and!; [done|by apply Forall_app|done].
Qed.

Lemma manager_vms act a a' u : manager_action act -> exec act a = Some a' -> starts [act] <> [u] -> vms a' !! u = vms a !! u.
Proof.
  destruct act as [| |pod m|v g|pod v| | | | |]; cbn; try done; intros _ [= <-] Hs.
  - cbn. rewrite lookup_insert_ne; [done|]. intros E. by rewrite <-E in Hs.
  - destruct (stop_once_same v g a) as (-> & _). done.
  - case_bool_decide; [|done]. destruct (finalizePod_same pod v a) as (-> & _). done.
Qed.

(** A UID that is started once at most, and not while it is in use. *)
Lemma once_not_reused u l : forall a a', Forall manager_action l -> exec_all l a = Some a' ->
  (forall i j, starts l !! i = Some u -> starts l !! j = Some u -> i = j) -> (u ∈ starts l -> vms a !! u = None) ->
  reused u l a = false.
Proof.
  induction l as [|x l IH]; intros a a' Hl He Hone Hu; [done|]. apply Forall_cons in Hl as [Hx Hl]. cbn in He |- *.
  destruct (exec x a) as [a1|] eqn:Ex; [|done]. cbn in He. change (starts (x :: l)) with (starts ([x] ++ l)) in *. rewrite starts_app in *.
  apply orb_false_iff. split.
  - destruct x as [| |pod m| | | | | | |]; try done. cbn [reuses]. case_bool_decide as E; [|done]. cbn [andb].
    rewrite Hu by (cbn; rewrite E; left). by rewrite bool_decide_false by (by intros []).
  - apply (IH a1 a'); [done|done| |].
    + intros i j Hi Hj. assert (length (starts [x]) + i = length (starts [x]) + j); [|lia].
      apply Hone; rewrite lookup_app_r by lia; [by replace (_ + i - _) with i by lia|by replace (_ + j - _) with j by lia].
    + intros Hin. rewrite (manager_vms x a a1 u Hx Ex); [apply Hu; apply elem_of_app; by right|]. intros E. rewrite E in Hone.
      apply list_elem_of_lookup in Hin as [k Hk]. discriminate (Hone 0 (S k) eq_refl Hk).
Qed.

Lemma stop_steps sp s : manages [] (st_agent s) (st_agent (stopStaticPod sp s)).
Proof.
  exists [AStopStatic (sp_vm sp) (podGracePeriod (sp_pod sp)); AFinalizeStatic (sp_pod sp) (sp_vm sp)].
  split_and!; [reflexivity|by repeat constructor|reflexivity].
Qed.

Section Refinement.
Context (nodeName svcCIDR6 : string) (Sum256 : string -> bytes) (UnmarshalStrict : string -> option (string * Pod)).
Notation scanManifests := (scanManifests nodeName svcCIDR6 Sum256 UnmarshalStrict).
Notation scan_file := (scan_file nodeName svcCIDR6 Sum256 UnmarshalStrict).
Notation manifest_uid := (manifest_uid Sum256).

(** The pods a scan starts: those of the valid manifests that do not run
    unchanged, in the order of the directory. *)
Definition fresh_uid (s : state) (f : string * string) : option string :=
  if bool_decide (sp_hash <$> st_running s !! f.1 = Some (manifest_hash Sum256 f.2)) then None
  else (fun _ => manifest_uid f.2) <$> parseStaticPod UnmarshalStrict f.2.
Definition fresh_uids (l : list (string * string)) (s : state) : list string := omap (fresh_uid s) l.

Lemma scan_file_steps name data s :
  manages (option_list (fresh_uid s (name, data))) (st_agent s) (st_agent (scan_file name data s)).
Proof.
  unfold StaticPods.scan_file, fresh_uid. cbn [fst snd]. case_bool_decide as Hh; [apply manages_refl|].
  set (s1 := match st_running s !! name with Some sp => _ | None => s end).
  assert (manages [] (st_agent s) (st_agent s1)) as Hs1.
  { subst s1. destruct (st_running s !! name) as [sp|]; [apply (stop_steps sp s)|apply manages_refl]. }
  destruct (parseStaticPod UnmarshalStrict data) as [pod|]; [|done]. apply (manages_trans [] _ _ _ _ Hs1).
  unfold start_manifest. destruct (claim _ _ _ _ _ _) as [vip vips]. exists [AStartStatic (prepare pod (manifest_uid data)) (p_Name pod +:+ "-" +:+ nodeName)].
  split_and!; [done|by repeat constructor|done].
Qed.

Lemma scan_files_steps l : forall s, NoDup l.*1 ->
  manages (fresh_uids l s) (st_agent s) (st_agent (foldl (fun s f => scan_file f.1 f.2 s) s l)).
Proof.
  induction l as [|[n d] l IH]; intros s Hnd; [apply manages_refl|]. cbn [foldl fst snd]. cbn in Hnd. apply NoDup_cons in Hnd as [Hn Hnd].
  destruct (scan_file_spec nodeName svcCIDR6 Sum256 UnmarshalStrict n d s) as (Hrun & _).
  assert (fresh_uids ((n, d) :: l) s = option_list (fresh_uid s (n, d)) ++ fresh_uids l (scan_file n d s)) as ->.
  { change (fresh_uids ((n, d) :: l) s) with (omap (fresh_uid s) ([(n, d)] ++ l)). rewrite omap_app. f_equal.
    apply list_omap_ext. clear -Hrun Hn. induction l as [|[m e] l IH]; constructor.
    - unfold fresh_uid. cbn [fst snd]. rewrite Hrun; [done|]. intros ->. apply Hn. cbn. left.
    - apply IH. intros Hin. apply Hn. cbn. by right. }
  eapply manages_trans; [apply scan_file_steps|by apply IH].
Qed.

Lemma remove_steps entries order : forall s, manages [] (st_agent s) (st_agent (foldl (remove_one entries) s order)).
Proof.
  induction order as [|n order IH]; intros s; [apply manages_refl|]. cbn [foldl]. apply (manages_trans [] [] _ (st_agent (remove_one entries s n))); [|apply IH].
  unfold remove_one. destruct (st_running s !! n) as [sp|]; [|apply manages_refl]. case_bool_decide; [apply manages_refl|apply (stop_steps sp s)].
Qed.

(** C19 The manager of static pods uses the agent as the pod watch does: a
    scan is a sequence of the agent's own actions, stops and starts only, and
    it starts exactly the pods of the valid manifests that do not run
    unchanged. So every run of the agent with scans is one of the runs its
    invariants are about; and the scan reuses no UID ([reused]) but one that
    was in use before it, or that two manifests of the scan have. *)
Theorem scan_refines_agent entries order s :
  NoDup (e_Name <$> entries) ->
  exists l, exec_all l (st_agent s) = Some (st_agent (scanManifests (Some entries) order s)) /\
    Forall manager_action l /\ starts l = fresh_uids (files entries) s /\
    forall u, (forall i j, starts l !! i = Some u -> starts l !! j = Some u -> i = j) ->
      (u ∈ starts l -> vms (st_agent s) !! u = None) -> reused u l (st_agent s) = false.
Proof.
  intros Hnd. assert (manages (fresh_uids (files entries) s ++ []) (st_agent s) (st_agent (scanManifests (Some entries) order s))) as (l & He & Hl & Hs).
  { unfold StaticPods.scanManifests. rewrite scan_entries_files. eapply manages_trans; [|apply remove_steps]. apply scan_files_steps.
    eapply sublist_NoDup; [exact Hnd|apply files_names]. }
  rewrite app_nil_r in Hs. exists l. split_and!; [done|done|done|]. intros u. by apply (once_not_reused u l _ _ Hl He).
Qed.
End Refinement.

(** ** The life of the manager *)

Section Life.
Context (nodeName svcCIDR6 : string) (Sum256 : string -> bytes) (UnmarshalStrict : string -> option (string * Pod)).
Notation scanManifests := (scanManifests nodeName svcCIDR6 Sum256 UnmarshalStrict).
Notation validateBootstrapVIP := (validateBootstrapVIP svcCIDR6).

(** A goroutine was started for the pod with the object. *)
Definition has_run (pod : Pod) (v : nat) (a : agent) : Prop := (pod, v) ∈ (fun r => (r_pod r, r_vm r)) <$> runs a.

Lemma has_run_same pod v a a' : runs a' = runs a -> has_run pod v a -> has_run pod v a'.
Proof. unfold has_run. by intros ->. Qed.
Lemma has_run_grows pod v a a' : grows a a' -> has_run pod v a -> has_run pod v a'.
Proof. unfold has_run. intros [[l ->] _ _]. rewrite fmap_app. set_solver. Qed.
Lemma has_run_goto pod v i r pc a : runs a !! i = Some r -> has_run pod v a -> has_run pod v (goto i r pc a).
Proof.
  unfold has_run. assert (runs (goto i r pc a) = <[i := Run (r_pod r) (r_vm r) pc]> (runs a)) as -> by (unfold goto; by case_bool_decide).
  intros Hr. rewrite list_fmap_insert. cbn [r_pod r_vm]. by rewrite list_insert_id by (by rewrite list_lookup_fmap, Hr).
Qed.
Lemma exec_has_run pod v act a a' : exec act a = Some a' -> has_run pod v a -> has_run pod v a'.
Proof.
  intros [(q & o & _ & _ & ->)|[(i & r & pc & a1 & Hr & _ & (_ & Hs & _) & ->)|(_ & Hs & _)]]%exec_shape Ha.
  - by apply (has_run_grows _ _ a); [apply launch_grows|].
  - apply has_run_goto; [by rewrite Hs|]. by apply (has_run_same _ _ a).
  - by apply (has_run_same _ _ a).
Qed.

(** Scans, and the agent's own steps in between. *)
Inductive manager_step (s : state) : state -> Prop :=
| ms_scan entries order : manager_step s (scanManifests entries order s)
| ms_agent act a : exec act (st_agent s) = Some a -> manager_step s (St a (st_vips s) (st_running s) (st_gone s)).

Definition init_state (imageBlock : bool) : state := St (init_agent imageBlock) ∅ ∅ [].

(** Every VIP belongs to a running manifest that declares it, and every
    running manifest to a goroutine. *)
Record manager_ok (s : state) : Prop := {
  mo_vips : forall vip v, st_vips s !! vip = Some v -> vip <> "" /\
    exists name sp, st_running s !! name = Some sp /\ sp_vip sp = vip /\ sp_vm sp = v;
  mo_declared : forall name sp, st_running s !! name = Some sp -> sp_vip sp <> "" ->
    sp_vip sp = annotation (sp_pod sp) clusterIPAnnotation /\ validateBootstrapVIP (sp_vip sp) = true;
  mo_objs : forall name sp, st_running s !! name = Some sp -> sp_vm sp < length (objs (st_agent s));
  mo_runs : forall name sp, st_running s !! name = Some sp -> has_run (sp_pod sp) (sp_vm sp) (st_agent s)
}.

Lemma drop_ok name sp s :
  st_running s !! name = Some sp -> manager_ok s ->
  manager_ok (set_running (delete name (st_running s)) (stopStaticPod sp s)).
Proof.
  intros Hsp [H1 H2 H3 H4]. destruct (stopStaticPod_spec sp s) as (_ & Hg & _). split.
  - intros vip v Hv. assert (st_vips s !! vip = Some v /\ ~ (sp_vip sp = vip /\ sp_vm sp = v)) as [Hv' Hne].
    { cbn in Hv. destruct (bool_decide (sp_vip sp = "")) eqn:E; cbn in Hv.
      - split; [done|]. apply bool_decide_eq_true in E. intros [E' _]. destruct (H1 vip v Hv) as [Hn _]. congruence.
      - case_bool_decide as Hc; [apply lookup_delete_Some in Hv as [Hn Hv]; naive_solver|].
        split; [done|]. intros [<- <-]. done. }
    destruct (H1 vip v Hv') as (Hn & n & sp' & Hr & <- & <-). split; [done|]. exists n, sp'. split; [|done]. cbn.
    rewrite lookup_delete_ne; [done|]. intros <-. apply Hne. by simplify_eq.
  - intros n sp' Hr. cbn in Hr. apply lookup_delete_Some in Hr as [_ Hr]. by apply (H2 n).
  - intros n sp' Hr. cbn in Hr. apply lookup_delete_Some in Hr as [_ Hr]. specialize (H3 n sp' Hr). destruct Hg. cbn in *. lia.
  - intros n sp' Hr. cbn in Hr. apply lookup_delete_Some in Hr as [_ Hr]. eapply has_run_grows; [exact Hg|by eapply H4].
Qed.

Lemma record_start_ok name data pod s :
  st_running s !! name = None -> manager_ok s -> manager_ok (start_manifest nodeName svcCIDR6 Sum256 name data pod s).
Proof.
  intros Hname [H1 H2 H3 H4]. unfold start_manifest. set (pod' := prepare pod _). set (v := length (objs (st_agent s))).
  destruct (claim svcCIDR6 (annotation pod' clusterIPAnnotation) v _ _ _) as [vip vips] eqn:Hc.
  assert ((vip = "" /\ vips = st_vips s) \/
    (vip <> "" /\ vip = annotation pod' clusterIPAnnotation /\ validateBootstrapVIP vip = true /\ vips = <[vip := v]> (st_vips s))) as Hvip.
  { unfold claim in Hc. case_bool_decide; [naive_solver|]. destruct (validateBootstrapVIP _) eqn:Hval; cbn in Hc; [|naive_solver].
    destruct (st_vips s !! _); [case_bool_decide|]; naive_solver. }
  assert (forall x w, st_vips s !! x = Some w -> x <> "" /\ exists n sp,
    <[name := SP name (manifest_hash Sum256 data) vip pod' v]> (st_running s) !! n = Some sp /\ sp_vip sp = x /\ sp_vm sp = w) as Hold.
  { intros x w (Hn & n & sp & Hr & Hx)%H1. split; [done|]. exists n, sp. split; [|done]. rewrite lookup_insert_ne; [done|]. congruence. }
  split; cbn.
  - intros x w Hx. destruct Hvip as [[-> ->]|(Hn & _ & _ & ->)]; [by apply Hold|]. destruct (decide (x = vip)) as [->|Hne].
    + rewrite lookup_insert_eq in Hx. injection Hx as <-. split; [done|]. exists name, (SP name (manifest_hash Sum256 data) vip pod' v).
      by rewrite lookup_insert_eq.
    + rewrite lookup_insert_ne in Hx by done. by apply Hold.
  - intros n sp Hr Hn. apply lookup_insert_Some in Hr as [[<- <-]|[_ Hr]]; [cbn in *; naive_solver|by apply (H2 n)].
  - intros n sp Hr. rewrite length_app. cbn. apply lookup_insert_Some in Hr as [[<- <-]|[_ Hr]]; [cbn; lia|].
    specialize (H3 n sp Hr). lia.
  - intros n sp Hr. apply lookup_insert_Some in Hr as [[<- <-]|[_ Hr]]; [|eapply has_run_grows; [apply launch_grows|by eapply H4]].
    unfold has_run. cbn. rewrite fmap_app. apply elem_of_app. right. by apply list_elem_of_singleton.
Qed.

Lemma scan_file_ok name data s : manager_ok s -> manager_ok (scan_file nodeName svcCIDR6 Sum256 UnmarshalStrict name data s).
Proof.
  intros Hs. unfold scan_file. case_bool_decide; [done|].
  set (s1 := match st_running s !! name with Some sp => _ | None => s end).
  assert (manager_ok s1 /\ st_running s1 !! name = None) as [Hs1 Hn1].
  { subst s1. destruct (st_running s !! name) as [sp|] eqn:E; [|done]. split; [exact (drop_ok name sp s E Hs)|apply lookup_delete_eq]. }
  destruct (parseStaticPod UnmarshalStrict data) as [pod|]; [by apply record_start_ok|done].
Qed.

Lemma scan_ok entries order s : manager_ok s -> manager_ok (scanManifests entries order s).
Proof.
  intros Hs. destruct entries as [entries|]; [|done]. unfold StaticPods.scanManifests. rewrite scan_entries_files.
  assert (manager_ok (foldl (fun s f => scan_file nodeName svcCIDR6 Sum256 UnmarshalStrict f.1 f.2 s) s (files entries))) as H1.
  { revert s Hs. induction (files entries) as [|f l IH]; intros s Hs; [done|]. by apply IH, scan_file_ok. }
  revert H1. generalize (foldl (fun s f => scan_file nodeName svcCIDR6 Sum256 UnmarshalStrict f.1 f.2 s) s (files entries)).
  induction order as [|n order IH]; intros s1 H1; [done|]. apply IH. unfold remove_one.
  destruct (st_running s1 !! n) as [sp|] eqn:E; [|done]. case_bool_decide; [done|exact (drop_ok n sp s1 E H1)].
Qed.

Lemma exec_objs act a a' : exec act a = Some a' -> length (objs a) <= length (objs a').
Proof.
  intros [(q & o & _ & _ & ->)|[(i & r & pc & a1 & _ & _ & (_ & _ & Ho) & ->)|(_ & _ & ->)]]%exec_shape; [apply launch_grows| |done].
  rewrite <-Ho. unfold goto. by case_bool_decide.
Qed.

Lemma manager_reachable_ok b s : rtc manager_step (init_state b) s -> manager_ok s.
Proof.
  intros Hs. apply (rtc_invariant manager_step manager_ok (init_state b)); [|split; cbn; intros *; by rewrite lookup_empty|done].
  intros x y Hx [entries order|act a Ha]; [by apply scan_ok|]. destruct Hx as [H1 H2 H3 H4]. split; [done|done| |].
  - intros name sp Hr. apply H3 in Hr. apply exec_objs in Ha. cbn in *. lia.
  - intros name sp Hr. eapply exec_has_run; [exact Ha|by eapply H4].
Qed.

(** A bootstrap VIP resolves only to the VM of a static pod that is running
    now, whose manifest declares that VIP, inside the service CIDR: through
    any scans of any directory contents and any steps of the agent, no VIP
    outlives its manifest. *)
Theorem static_vips_declared b s vip v :
  rtc manager_step (init_state b) s -> st_vips s !! vip = Some v ->
  exists name sp, st_running s !! name = Some sp /\ sp_vm sp = v /\ v < length (objs (st_agent s)) /\
    annotation (sp_pod sp) clusterIPAnnotation = vip /\ validateBootstrapVIP vip = true.
Proof.
  intros Hs Hv. apply manager_reachable_ok in Hs as [H1 H2 H3 _].
  destruct (H1 vip v Hv) as (Hn & name & sp & Hr & <- & <-). destruct (H2 name sp Hr Hn) as [Hd Hval].
  exists name, sp. split_and!; [done|done|by eapply H3|by symmetry|done].
Qed.
End Life.

(** *** The UID *)

Definition is_hex (a : ascii) : bool := match hex_digit a with Some _ => true | None => false end.

Lemma byte_cases (P : Z -> bool) : forallb P (seqZ 0 256) = true -> forall b, is_byte b -> P b = true.
Proof. intros H b Hb. rewrite forallb_forall in H. apply H, list_elem_of_In, elem_of_seqZ. unfold is_byte in Hb. lia. Qed.

Lemma hex_chars b : is_byte b -> is_hex (hex_char (b / 16)) && is_hex (hex_char (b mod 16)) = true.
Proof. apply (byte_cases (fun b => is_hex (hex_char (b / 16)) && is_hex (hex_char (b mod 16)))). vm_compute. reflexivity. Qed.

Lemma version_char b : is_byte b -> hex_char (Z.lor (Z.land b 0x0f) 0x40 / 16) = "4"%char.
Proof.
  intros Hb. apply Ascii.eqb_eq.
  apply (byte_cases (fun b => Ascii.eqb (hex_char (Z.lor (Z.land b 0x0f) 0x40 / 16)) "4")); [vm_compute; reflexivity|done].
Qed.

Lemma variant_char b : is_byte b ->
  hex_char (Z.lor (Z.land b 0x3f) 0x80 / 16) ∈ ["8"; "9"; "a"; "b"]%char.
Proof.
  intros Hb. pose proof (byte_cases (fun b => bool_decide (hex_char (Z.lor (Z.land b 0x3f) 0x80 / 16) ∈ ["8"; "9"; "a"; "b"]%char))) as H.
  specialize (H ltac:(vm_compute; reflexivity) b Hb). cbv beta in H. by apply bool_decide_eq_true in H.
Qed.

Lemma masked_byte b c m : is_byte b -> is_byte c -> is_byte m -> is_byte (Z.lor (Z.land b m) c).
Proof.
  unfold is_byte. intros [Hb _] Hc [Hm Hm']. split; [apply Z.lor_nonneg; split; [apply Z.land_nonneg; lia|lia]|].
  destruct (decide (Z.lor (Z.land b m) c = 0))%Z as [->|Hne]; [lia|]. change 256%Z with (2 ^ 8)%Z.
  assert (0 <= Z.land b m)%Z by (apply Z.land_nonneg; lia). assert (0 <= Z.lor (Z.land b m) c)%Z by (apply Z.lor_nonneg; lia).
  apply Z.log2_lt_pow2; [lia|]. rewrite Z.log2_lor by lia.
  assert (forall x, 0 <= x < 256 -> Z.log2 x < 8)%Z as Hlog.
  { intros x Hx. destruct (decide (x = 0))%Z as [->|]; [done|]. apply Z.log2_lt_pow2; lia. }
  apply Z.max_lub_lt; [|by apply Hlog]. pose proof (Z.log2_land b m Hb Hm). specialize (Hlog m). lia.
Qed.

Definition dash_at (n : nat) : bool := bool_decide (n ∈ [8; 13; 18; 23]).

(** C39 The UID made of a manifest's hash is a well-formed version 4 UUID
    whatever the hash is: 36 characters, dashes in the four places, the
    version and variant digits, and hex digits everywhere else. *)
Theorem uid_is_uuid_v4 sum :
  length sum = 32 -> Forall is_byte sum ->
  String.length (uidFromHash sum) = 36 /\
  String.get 14 (uidFromHash sum) = Some "4"%char /\
  (exists c, String.get 19 (uidFromHash sum) = Some c /\ c ∈ ["8"; "9"; "a"; "b"]%char) /\
  forall n, n < 36 -> exists c, String.get n (uidFromHash sum) = Some c /\
    (if dash_at n then c = "-"%char else is_hex c = true).
Proof.
  intros Hl Hb. assert (Forall is_byte (uid_bytes sum) /\ exists pre b6 b7 b8 post,
    uid_bytes sum = pre ++ Z.lor (Z.land b6 0x0f) 0x40 :: b7 :: Z.lor (Z.land b8 0x3f) 0x80 :: post /\
    length pre = 6 /\ length post = 7 /\ is_byte b6 /\ is_byte b8) as [Hall (pre & b6 & b7 & b8 & post & E & Hpre & Hpost & H6 & H8)].
  { do 17 (destruct sum as [|? sum]; [discriminate Hl|]). repeat (apply Forall_cons in Hb as [? Hb]).
    change (uid_bytes _) with [z; z0; z1; z2; z3; z4; Z.lor (Z.land z5 0x0f) 0x40; z6; Z.lor (Z.land z7 0x3f) 0x80; z8; z9; z10; z11; z12; z13; z14].
    split; [repeat (apply Forall_cons_2; [done || by apply masked_byte|]); apply Forall_nil_2|]. by exists [z; z0; z1; z2; z3; z4], z5, z6, z7, [z8; z9; z10; z11; z12; z13; z14]. }
  unfold uidFromHash. rewrite E in *. clear E Hl Hb sum.
  do 7 (destruct pre as [|? pre]; try discriminate Hpre). do 8 (destruct post as [|? post]; try discriminate Hpost).
  clear Hpre Hpost. cbn [app] in *. pose proof (version_char b6 H6) as Hv. pose proof (variant_char b8 H8) as Hw.
  remember (Z.lor (Z.land b6 15) 64) as v6. remember (Z.lor (Z.land b8 63) 128) as v8.
  split; [reflexivity|]. split; [cbn; by rewrite Hv|]. split; [eexists; split; [reflexivity|exact Hw]|].
  intros n Hn. repeat (apply Forall_cons in Hall as [?%hex_chars%andb_true_iff Hall]).
  do 36 (destruct n as [|n]; [eexists; split; [reflexivity|];
    first [change (dash_at _) with true; reflexivity|change (dash_at _) with false; cbv iota; tauto]|]). lia.
Qed.

(** *** Concrete scans *)

(** A hash and a decoder to try the manager on: the contents are the pod's
    name, ["api"] declares a VIP. *)
Definition ex_sum (data : string) : bytes := take 32 (bytes_of_string data ++ replicate 32 0%Z).
Definition ex_unmarshal (data : string) : option (string * Pod) :=
  if bool_decide (data = "{") then None
  else Some ("Pod", MkPod "" data "" (if bool_decide (data = "api") then {[clusterIPAnnotation := "fd00:10:96::a"]} else ∅)
                      [] [ex_container "c"] "" [] None None false None).
Notation ex_scan := (scanManifests "mac" "fd00:10:96::/112" ex_sum ex_unmarshal).
Definition ex_file (name data : string) : entry := Entry name false (Some data).
Definition ex_dir : list entry := [ex_file "a.yaml" "api"; ex_file "b.yaml" "{"; ex_file "c.txt" "dns"; Entry "d.json" true None].

Lemma ex_dir_names : NoDup (e_Name <$> ex_dir).
Proof. apply (bool_decide_unpack _). vm_compute. exact I. Qed.

Lemma init_covers b (order : list string) name :
  is_Some (st_running (init_state b) !! name) -> name ∉ (files ex_dir).*1 -> name ∈ order.
Proof. cbn. rewrite lookup_empty. by intros [? ?]. Qed.

Lemma scan_reflects_directory_witness :
  let s' := ex_scan (Some ex_dir) [] (init_state true) in
  runs_now "fd00:10:96::/112" ex_sum ex_unmarshal "a.yaml" "api" None (st_running s' !! "a.yaml") (st_agent s') /\
  st_running s' !! "c.txt" = None.
Proof.
  destruct (scan_reflects_directory "mac" "fd00:10:96::/112" ex_sum ex_unmarshal ex_dir [] (init_state true) ex_dir_names
    (init_covers true [])) as (H1 & H2 & _).
  split; [exact (H1 "a.yaml" "api" ltac:(left))|]. apply H2. apply (bool_decide_unpack _). vm_compute. exact I.
Defined.

Lemma scan_idempotent_witness :
  ex_scan (Some ex_dir) ["a.yaml"] (ex_scan (Some ex_dir) [] (init_state true)) = ex_scan (Some ex_dir) [] (init_state true).
Proof.
  exact (scan_idempotent "mac" "fd00:10:96::/112" ex_sum ex_unmarshal ex_dir [] ["a.yaml"] (init_state true) ex_dir_names
    (init_covers true [])).
Defined.

Lemma scan_refines_agent_witness :
  exists l, exec_all l (init_agent true) = Some (st_agent (ex_scan (Some ex_dir) [] (init_state true))) /\
    starts l = [manifest_uid ex_sum "api"] /\ reused (manifest_uid ex_sum "api") l (init_agent true) = false.
Proof.
  destruct (scan_refines_agent "mac" "fd00:10:96::/112" ex_sum ex_unmarshal ex_dir [] (init_state true) ex_dir_names) as (l & H1 & _ & H2 & H3).
  assert (starts l = [manifest_uid ex_sum "api"]) as E by (rewrite H2; vm_compute; reflexivity).
  exists l. split; [exact H1|]. split; [exact E|]. apply H3; [|intros _; apply lookup_empty].
  intros [|i] [|j]; rewrite E; cbn; done.
Defined.

Lemma static_vips_declared_witness :
  exists s name sp, st_vips s !! "fd00:10:96::a" = Some 0 /\ st_running s !! name = Some sp /\ sp_vm sp = 0 /\
    0 < length (objs (st_agent s)) /\ annotation (sp_pod sp) clusterIPAnnotation = "fd00:10:96::a" /\
    validateBootstrapVIP "fd00:10:96::/112" "fd00:10:96::a" = true.
Proof.
  set (s := ex_scan (Some ex_dir) [] (init_state true)).
  assert (st_vips s !! "fd00:10:96::a" = Some 0) as Hv by (vm_compute; reflexivity).
  assert (rtc (manager_step "mac" "fd00:10:96::/112" ex_sum ex_unmarshal) (init_state true) s) as Hs by (apply rtc_once, ms_scan).
  destruct (static_vips_declared "mac" "fd00:10:96::/112" ex_sum ex_unmarshal true s _ _ Hs Hv) as (name & sp & H).
  exists s, name, sp. split; [exact Hv|exact H].
Defined.

Lemma uid_is_uuid_v4_witness :
  String.length (uidFromHash (ex_sum "api")) = 36 /\ uidFromHash (ex_sum "api") = "61706900-0000-4000-8000-000000000000".
Proof.
  split; [|vm_compute; reflexivity]. apply uid_is_uuid_v4; [vm_compute; reflexivity|].
  apply (bool_decide_unpack _). vm_compute. exact I.
Defined.

(** Finding: the internal UID is the manifest's hash, so a manifest that is
    renamed (or copied, or edited and reverted while the old VM is still
    shutting down) is started a second time under the UID of a VM that still
    runs: two goroutines share one UID, its state directory and its sockets,
    and when the first one ends it takes the second one's entry out of the
    agent's table, so the agent no longer knows the pod that runs. *)
Theorem renamed_manifest_runs_twice :
  let s1 := ex_scan (Some [ex_file "a.yaml" "api"]) [] (init_state true) in
  let s2 := ex_scan (Some [ex_file "b.yaml" "api"]) ["a.yaml"] s1 in
  exists a3, exec_all [ARun 0 EvBegin; ARun 0 (EvPrepared (Some ("ErrImagePull", "x"))); ARun 0 EvWoken] (st_agent s2) = Some a3 /\
    uid_of <$> runs (st_agent s2) = replicate 2 (manifest_uid ex_sum "api") /\
    r_pc <$> runs (st_agent s2) = [RBegin; RBegin] /\
    r_pc <$> runs a3 = [RDone; RBegin] /\ vms a3 !! manifest_uid ex_sum "api" = None /\
    st_running s2 !! "b.yaml" <> None.
Proof. eexists. split; [vm_compute; reflexivity|]. split_and!; vm_compute; done. Qed.
