(* ===== verification/Mirror.v ===== *)
(** * Mirror pods (poc/agent/staticpods.go)

    [syncMirrorPods] reflects the running static pods into the API server: a
    mirror pod each, and a Service for a bootstrap VIP. The API server is an
    interface, [MirrorAPI]; what the manager relies on are the laws of
    [MirrorLaws]; [toy_api] is a server that satisfies them. *)
From S2P Require Import Prelude GoStrings NetIP Pod Supervisor Status PodLifecycle StaticPods.

(** ** The API server *)

(** What [Create] of a pod is asked. *)
Record mirror_request := MirrorReq {
  mq_Namespace : string; mq_Name : string; mq_Annotations : gmap string string;
  mq_Owner : string * string;   (* the Node's name and UID *)
  mq_Pod : Pod                  (* labels and spec are the static pod's *)
}.

(** What [Get] of a pod tells: [DeletionTimestamp != nil] and the hash. *)
Record mirror_object := MirrorObj { mi_deleting : bool; mi_hash : string }.

Record service_request := SvcReq {
  sq_Namespace : string; sq_Name : string; sq_ClusterIP : string; sq_Ports : list (string * Z)
}.

Inductive get_result (A : Type) := Found (x : A) | NotFound | GetError.
Arguments Found {A} x.
Arguments NotFound {A}.
Arguments GetError {A}.

Class MirrorAPI (W : Type) := {
  GetPod : W -> string -> string -> get_result mirror_object;
  DeletePod : W -> string -> string -> option Z -> W;          (* the grace period, if given *)
  CreatePod : W -> mirror_request -> W * bool;
  SetPhase : W -> Pod -> phase * string * string * list ContainerStatus * list ContainerStatus -> W;
  GetNode : W -> option (string * string);                     (* this node's name and UID *)
  GetService : W -> string -> string -> get_result unit;
  CreateService : W -> service_request -> W;
  DeleteService : W -> string -> string -> W
}.

(** ** The code *)

Section Sync.
Context {W : Type} `{MirrorAPI W}.
(** The [podVM] objects; the manager reads their names and last status. *)
Context (objects : list podVM).

Definition mirror_name (sp : staticPod) : string := from_option vm_mirrorName "" (objects !! sp_vm sp).
Definition mirror_key (sp : staticPod) : string * string := (p_Namespace (sp_pod sp), mirror_name sp).

Definition mirror_of (sp : staticPod) (node : string * string) : mirror_request :=
  let uid := p_UID (sp_pod sp) in
  MirrorReq (p_Namespace (sp_pod sp)) (mirror_name sp)
    (<[mirrorAnnotation := uid]> (<[hashAnnotation := uid]> {[sourceAnnotation := "file"]})) node (sp_pod sp).

Definition createMirrorPod (sp : staticPod) (w : W) : W :=
  match GetNode w with
  | None => w
  | Some node =>
      let '(w, ok) := CreatePod w (mirror_of sp node) in
      if negb ok then w
      else match objects !! sp_vm sp ≫= vm_last with
           | Some last => SetPhase w (sp_pod sp) last
           | None => w
           end
  end.

Definition syncMirrorService (sp : staticPod) (w : W) : W :=
  match GetService w (p_Namespace (sp_pod sp)) (p_Name (sp_pod sp)) with
  | NotFound =>
      let ports := omap (fun p => if bool_decide (cp_ContainerPort p <> 0%Z) then Some (cp_Name p, cp_ContainerPort p) else None)
                     (from_option ct_Ports [] (head (p_Containers (sp_pod sp)))) in
      if bool_decide (ports = []) then w
      else CreateService w (SvcReq (p_Namespace (sp_pod sp)) (p_Name (sp_pod sp)) (sp_vip sp) ports)
  | _ => w
  end.

(** One static pod. *)
Definition syncMirror (sp : staticPod) (w : W) : W :=
  let w := if bool_decide (sp_vip sp = "") then w else syncMirrorService sp w in
  let '(ns, name) := mirror_key sp in
  match GetPod w ns name with
  | NotFound => createMirrorPod sp w
  | GetError => w
  | Found m =>
      if mi_deleting m then DeletePod w ns name (Some 0%Z)
      else if bool_decide (mi_hash m <> p_UID (sp_pod sp)) then DeletePod w ns name None
      else w
  end.

(** All of them, in the order the map is visited. *)
Definition syncMirrorPods (sps : list staticPod) (w : W) : W := foldl (fun w sp => syncMirror sp w) w sps.
End Sync.

(** ** What the manager relies on *)

Class MirrorLaws (W : Type) `{MirrorAPI W} := {
  (** reads succeed *)
  ml_get : forall w ns n, GetPod w ns n <> GetError;
  (** grace 0 removes the object; without a grace period a pod that is bound
      to a node is marked for deletion, or gone at once *)
  ml_delete0 : forall w ns n, GetPod (DeletePod w ns n (Some 0%Z)) ns n = NotFound;
  ml_delete : forall w ns n,
    GetPod (DeletePod w ns n None) ns n = NotFound \/
    exists m, GetPod (DeletePod w ns n None) ns n = Found m /\ mi_deleting m = true;
  (** a new name can be created, with the annotations asked for *)
  ml_create : forall w q, GetPod w (mq_Namespace q) (mq_Name q) = NotFound ->
    snd (CreatePod w q) = true /\
    GetPod (fst (CreatePod w q)) (mq_Namespace q) (mq_Name q) =
      Found (MirrorObj false (default "" (mq_Annotations q !! hashAnnotation)));
  (** each request is about its own object *)
  ml_delete_frame : forall w ns n g ns' n', (ns', n') <> (ns, n) -> GetPod (DeletePod w ns n g) ns' n' = GetPod w ns' n';
  ml_create_frame : forall w q ns n, (ns, n) <> (mq_Namespace q, mq_Name q) -> GetPod (fst (CreatePod w q)) ns n = GetPod w ns n;
  ml_phase_frame : forall w p l ns n, GetPod (SetPhase w p l) ns n = GetPod w ns n;
  ml_service_frame : forall w q ns n, GetPod (CreateService w q) ns n = GetPod w ns n;
  ml_gone_frame : forall w ns' n' ns n, GetPod (DeleteService w ns' n') ns n = GetPod w ns n;
  ml_node_delete : forall w ns n g, GetNode (DeletePod w ns n g) = GetNode w;
  ml_node_create : forall w q, GetNode (fst (CreatePod w q)) = GetNode w;
  ml_node_phase : forall w p l, GetNode (SetPhase w p l) = GetNode w;
  ml_node_service : forall w q, GetNode (CreateService w q) = GetNode w;
  ml_node_gone : forall w ns n, GetNode (DeleteService w ns n) = GetNode w
}.

(** ** Convergence *)

Section Convergence.
Context {W : Type} `{MirrorLaws W} (objects : list podVM).
Notation syncMirror := (syncMirror objects).
Notation mirror_key := (mirror_key objects).

Definition get (w : W) (k : string * string) : get_result mirror_object := GetPod w k.1 k.2.

(** How many syncs a static pod's mirror is away from being up to date. *)
Definition distance (sp : staticPod) (w : W) : nat :=
  match get w (mirror_key sp) with
  | Found m => if mi_deleting m then 2 else if bool_decide (mi_hash m = p_UID (sp_pod sp)) then 0 else 3
  | NotFound => 1
  | GetError => 0
  end.

Lemma service_get sp w k : get (syncMirrorService sp w) k = get w k /\ GetNode (syncMirrorService sp w) = GetNode w.
Proof.
  unfold syncMirrorService, get. destruct (GetService w _ _); [done| |done]. case_bool_decide; [done|].
  split; [apply ml_service_frame|apply ml_node_service].
Qed.

Lemma create_get sp w :
  GetNode w <> None -> get w (mirror_key sp) = NotFound ->
  get (createMirrorPod objects sp w) (mirror_key sp) = Found (MirrorObj false (p_UID (sp_pod sp))) /\
  GetNode (createMirrorPod objects sp w) = GetNode w /\
  forall k, k <> mirror_key sp -> get (createMirrorPod objects sp w) k = get w k.
Proof.
  unfold createMirrorPod, get. destruct (GetNode w) as [node|] eqn:Hnode; [|done]. intros _ Hnone.
  pose proof (ml_create w (mirror_of objects sp node) Hnone) as [Hok Hget].
  pose proof (ml_create_frame w (mirror_of objects sp node)) as Hframe. pose proof (ml_node_create w (mirror_of objects sp node)) as Hn.
  destruct (CreatePod w (mirror_of objects sp node)) as [w' ok]. cbn [fst snd] in *. subst ok. cbn [negb].
  assert (default "" (mq_Annotations (mirror_of objects sp node) !! hashAnnotation) = p_UID (sp_pod sp)) as Hh.
  { unfold mirror_of. cbn [mq_Annotations]. rewrite lookup_insert_ne by done. by rewrite lookup_insert_eq. }
  rewrite Hh in Hget.
  assert (forall k, k <> mirror_key sp -> GetPod w' k.1 k.2 = GetPod w k.1 k.2) as Hk.
  { intros [ns n] Hne. apply Hframe. exact Hne. }
  destruct (objects !! sp_vm sp ≫= vm_last) as [last|].
  - split_and!; [by rewrite ml_phase_frame|by rewrite ml_node_phase, Hn|]. intros k Hne. by rewrite ml_phase_frame, Hk.
  - split_and!; [exact Hget|by rewrite Hn|exact Hk].
Qed.

(** A sync brings the pod's own mirror one step nearer and leaves the others. *)
Lemma sync_get sp w :
  GetNode w <> None ->
  distance sp (syncMirror sp w) <= pred (distance sp w) /\ GetNode (syncMirror sp w) <> None /\
  forall k, k <> mirror_key sp -> get (syncMirror sp w) k = get w k.
Proof.
  intros Hnode. unfold Mirror.syncMirror. set (w1 := if bool_decide (sp_vip sp = "") then w else syncMirrorService sp w).
  assert ((forall k, get w1 k = get w k) /\ GetNode w1 = GetNode w) as [Hw1 Hn1].
  { subst w1. case_bool_decide; [done|]. split; [intros k; apply (service_get sp w k)|apply (service_get sp w ("", ""))]. }
  unfold distance. rewrite <-(Hw1 (mirror_key sp)). rewrite <-Hn1 in Hnode.
  assert (forall k, get w k = get w1 k) as Hw by done. setoid_rewrite Hw. clear Hw Hw1 Hn1. clearbody w1.
  unfold Mirror.mirror_key in *. set (ns := p_Namespace (sp_pod sp)). set (name := mirror_name objects sp).
  change (get w1 (ns, name)) with (GetPod w1 ns name).
  destruct (GetPod w1 ns name) as [m| |] eqn:E; [|destruct (create_get sp w1 Hnode E) as (H1 & H2 & H3)|by apply ml_get in E].
  - assert (forall g k, k <> (ns, name) -> get (DeletePod w1 ns name g) k = get w1 k) as Hframe.
    { intros g [ns' n'] Hne. by apply ml_delete_frame. }
    destruct (mi_deleting m) eqn:Hd; [|case_bool_decide as Hh].
    + change (get ?x (ns, name)) with (GetPod x ns name). rewrite ml_delete0, ml_node_delete.
      split_and!; [lia|done|intros k Hk; by apply Hframe].
    + change (get ?x (ns, name)) with (GetPod x ns name). rewrite ml_node_delete. rewrite bool_decide_false by done.
      destruct (ml_delete w1 ns name) as [->|(m' & -> & ->)]; (split_and!; [lia|done|intros k Hk; by apply Hframe]).
    + change (get ?x (ns, name)) with (GetPod x ns name). rewrite E, Hd. rewrite bool_decide_true by (by destruct (decide (mi_hash m = p_UID (sp_pod sp)))).
      split_and!; [lia|done|done].
  - change (ns, name) with (Mirror.mirror_key objects sp). rewrite H1. cbn. rewrite bool_decide_true by done.
    split_and!; [lia|by rewrite H2|done].
Qed.

Lemma syncs_get sps : forall w,
  NoDup (mirror_key <$> sps) -> GetNode w <> None ->
  let w' := syncMirrorPods objects sps w in
  GetNode w' <> None /\
  (forall k, k ∉ mirror_key <$> sps -> get w' k = get w k) /\
  (forall sp, sp ∈ sps -> distance sp w' <= pred (distance sp w)).
Proof.
  induction sps as [|sp sps IH]; intros w Hnd Hnode; cbv zeta; [split_and!; [done|done|intros sp Hsp; by apply elem_of_nil in Hsp]|].
  cbn in Hnd. apply NoDup_cons in Hnd as [Hsp Hnd]. destruct (sync_get sp w Hnode) as (H1 & H2 & H3).
  destruct (IH (syncMirror sp w) Hnd H2) as (H4 & H5 & H6).
  change (syncMirrorPods objects (sp :: sps) w) with (syncMirrorPods objects sps (syncMirror sp w)). split_and!; [done| |].
  - intros k Hk. apply not_elem_of_cons in Hk as [Hk Hk']. by rewrite H5, H3.
  - intros sp' [->|Hin]%elem_of_cons.
    + unfold distance in *. rewrite (H5 (mirror_key sp)) by done. exact H1.
    + specialize (H6 sp' Hin). assert (mirror_key sp' <> mirror_key sp) as Hne.
      { intros He. apply Hsp. rewrite <-He. by apply list_elem_of_fmap_2. }
      unfold distance in *. rewrite (H3 _ Hne) in H6. exact H6.
Qed.

(** Three rounds suffice: against an API server that keeps its promises,
    with the node registered and the static pods' mirror names distinct,
    three rounds of [syncMirrorPods] leave every static pod with a mirror
    that is not being deleted and carries its UID, from any state of the
    mirrors before (missing, stale, or deleted by a user), and a further
    round changes no mirror. Objects of other names are not touched. *)
Theorem mirrors_converge sps w :
  NoDup (mirror_key <$> sps) -> GetNode w <> None ->
  let round := syncMirrorPods objects sps in
  (forall sp, sp ∈ sps -> get (round (round (round w))) (mirror_key sp) = Found (MirrorObj false (p_UID (sp_pod sp)))) /\
  (forall sp, sp ∈ sps -> get (round (round (round (round w)))) (mirror_key sp) = Found (MirrorObj false (p_UID (sp_pod sp)))) /\
  (forall k, k ∉ mirror_key <$> sps -> get (round (round (round w))) k = get w k).
Proof.
  intros Hnd Hnode. destruct (syncs_get sps w Hnd Hnode) as (N1 & F1 & D1).
  destruct (syncs_get sps _ Hnd N1) as (N2 & F2 & D2). destruct (syncs_get sps _ Hnd N2) as (N3 & F3 & D3).
  destruct (syncs_get sps _ Hnd N3) as (_ & _ & D4).
  assert (forall sp x, distance sp x <= 0 -> get x (mirror_key sp) = Found (MirrorObj false (p_UID (sp_pod sp)))) as Hz.
  { intros sp x. unfold distance. destruct (get x (mirror_key sp)) as [[d h]| |] eqn:E; cbn; [|lia|by apply ml_get in E].
    destruct d; [lia|]. case_bool_decide as Hh; [by rewrite Hh|lia]. }
  assert (forall sp x, distance sp x <= 3) as Hmax.
  { intros sp x. unfold distance. destruct (get x _) as [m| |]; [|lia..]. destruct (mi_deleting m); [lia|]. case_bool_decide; lia. }
  cbn zeta. split_and!.
  - intros sp Hsp. apply Hz. specialize (D1 sp Hsp). specialize (D2 sp Hsp). specialize (D3 sp Hsp). pose proof (Hmax sp w). lia.
  - intros sp Hsp. apply Hz. specialize (D1 sp Hsp). specialize (D2 sp Hsp). specialize (D3 sp Hsp). specialize (D4 sp Hsp).
    pose proof (Hmax sp w). lia.
  - intros k Hk. by rewrite F3, F2, F1.
Qed.
End Convergence.

(** ** A server that keeps these promises *)

Record toy := Toy { toy_pods : gmap (string * string) mirror_object; toy_services : gset (string * string) }.

#[export] Instance toy_api : MirrorAPI toy := {
  GetPod w ns n := match toy_pods w !! (ns, n) with Some m => Found m | None => NotFound end;
  DeletePod w ns n g :=
    Toy (match g with
         | Some _ => delete (ns, n) (toy_pods w)
         | None => alter (fun m => MirrorObj true (mi_hash m)) (ns, n) (toy_pods w)
         end) (toy_services w);
  CreatePod w q :=
    match toy_pods w !! (mq_Namespace q, mq_Name q) with
    | Some _ => (w, false)
    | None => (Toy (<[(mq_Namespace q, mq_Name q) := MirrorObj false (default "" (mq_Annotations q !! hashAnnotation))]> (toy_pods w))
                 (toy_services w), true)
    end;
  SetPhase w _ _ := w;
  GetNode w := Some ("mac", "node-uid");
  GetService w ns n := if bool_decide ((ns, n) ∈ toy_services w) then Found tt else NotFound;
  CreateService w q := Toy (toy_pods w) ({[(sq_Namespace q, sq_Name q)]} ∪ toy_services w);
  DeleteService w ns n := Toy (toy_pods w) (toy_services w ∖ {[(ns, n)]})
}.

#[export] Instance toy_laws : MirrorLaws toy.
Proof.
  split; cbn; try done.
  - intros w ns n. by destruct (toy_pods w !! (ns, n)).
  - intros w ns n. by rewrite lookup_delete_eq.
  - intros w ns n. rewrite lookup_alter_eq. destruct (toy_pods w !! (ns, n)); cbn; [right; eauto|by left].
  - intros w q. destruct (toy_pods w !! (mq_Namespace q, mq_Name q)); [done|]. intros _. cbn. by rewrite lookup_insert_eq.
  - intros w ns n [g|] ns' n' Hne; cbn; [by rewrite lookup_delete_ne by congruence|by rewrite lookup_alter_ne by congruence].
  - intros w q ns n Hne. destruct (toy_pods w !! (mq_Namespace q, mq_Name q)); [done|]. cbn. by rewrite lookup_insert_ne by congruence.
Qed.

(** A static pod whose mirror is another manifest's, and one without mirror. *)
Definition ex_sp (name uid : string) (v : nat) : staticPod :=
  SP name "" "" (MkPod uid name "kube-system" ∅ [] [ex_container "c"] "" [] None None false None) v.
Definition ex_objects : list podVM := [new_vm "u1" "etcd" "kube-system" true "etcd-mac"; new_vm "u2" "api" "kube-system" true "api-mac"].
Definition ex_api : toy := Toy {[("kube-system", "etcd-mac") := MirrorObj false "old"]} ∅.

Lemma mirrors_converge_witness :
  exists w, get w (mirror_key ex_objects (ex_sp "etcd" "u1" 0)) = Found (MirrorObj false "u1") /\
    get w (mirror_key ex_objects (ex_sp "api" "u2" 1)) = Found (MirrorObj false "u2").
Proof.
  set (sps := [ex_sp "etcd" "u1" 0; ex_sp "api" "u2" 1]).
  assert (NoDup (mirror_key ex_objects <$> sps)) as Hnd by (apply (bool_decide_unpack _); vm_compute; exact I).
  assert (GetNode ex_api <> None) as Hn by done.
  destruct (mirrors_converge ex_objects sps ex_api Hnd Hn) as (H & _).
  eexists. split; [apply H; left|apply H; right; left].
Defined.

(** Three rounds are needed: the stale mirror is marked, removed, created. *)
Example three_rounds :
  let sps := [ex_sp "etcd" "u1" 0] in
  get (syncMirrorPods ex_objects sps ex_api) ("kube-system", "etcd-mac") = Found (MirrorObj true "old") /\
  get (syncMirrorPods ex_objects sps (syncMirrorPods ex_objects sps ex_api)) ("kube-system", "etcd-mac") = NotFound.
Proof. vm_compute. done. Qed.
