(* ===== verification/AgentLoops.v ===== *)
(** * The loops of the agent (poc/agent/main.go, staticpods.go)

    [reconcileLoop]: what the informer delivers, and what its resync repairs.
    [staticPodLoop]: scans and mirror syncs, with the agent's own steps in
    between. [waitForSocket]: a bounded wait. *)
From S2P Require Import Prelude GoStrings Pod PodLifecycle StaticPods Mirror.

(** ** [reconcileLoop] *)

(** What an informer hands to a handler: a pod, the tombstone of an object
    whose deletion it missed, or something else. *)
Inductive api_object := OPod (pod : Pod) | OTombstone (last : option Pod) | OOther.
Inductive notification := NAdd (obj : api_object) | NUpdate (obj : api_object) | NDelete (obj : api_object).

Definition as_pod (obj : api_object) : option Pod := match obj with OPod pod => Some pod | _ => None end.

(** The handlers: [AddFunc] and [UpdateFunc], and [podDeleted]'s look at its
    argument. *)
Definition handler (n : notification) : option action :=
  match n with
  | NAdd obj | NUpdate obj => AReconcile <$> as_pod obj
  | NDelete (OPod pod) | NDelete (OTombstone (Some pod)) => Some (ADeleted pod)
  | NDelete _ => None
  end.
Definition notify (a : agent) (n : notification) : agent :=
  match handler n with Some (AReconcile pod) => reconcilePod pod a | Some (ADeleted pod) => podDeleted pod a | _ => a end.

Lemma notify_exec n a : match handler n with Some act => exec act a = Some (notify a n) | None => notify a n = a end.
Proof. unfold notify. destruct n as [[]|[]|[| [] |]]; done. Qed.

(** [reconcileLoop]: the handlers run one after the other. Every 30 seconds
    the informer resyncs: an update for every pod of its store. *)
Definition reconcileLoop (ns : list notification) (a : agent) : agent := foldl notify a ns.
Definition resync (pods : list Pod) : agent -> agent := reconcileLoop ((fun pod => NUpdate (OPod pod)) <$> pods).

Lemma reconcileLoop_reachable b ns a : reachable b a -> reachable b (reconcileLoop ns a).
Proof.
  revert a. induction ns as [|n ns IH]; intros a Ha; [done|]. apply IH. pose proof (notify_exec n a) as H.
  destruct (handler n) as [act|]; [|by rewrite H]. eapply rtc_r; [exact Ha|]. by exists act.
Qed.

Lemma resync_cons pod pods a : resync (pod :: pods) a = resync pods (reconcilePod pod a).
Proof. done. Qed.

(** What stays when pods are reconciled. *)
Record kept (a a' : agent) : Prop := Kept {
  kp_vms : forall u v, vms a !! u = Some v -> vms a' !! u = Some v;
  kp_stopped : forall v, stopped_obj v a = true -> stopped_obj v a' = true;
  kp_calls : forall c, c ∈ calls a -> c ∈ calls a'
}.
#[export] Instance kept_preorder : PreOrder kept.
Proof. split; [by split|]. intros a b c [] []. split; auto. Qed.

Lemma stop_once_kept v g a : kept a (stop_once v g a).
Proof. destruct (stop_once_same v g a) as (Hv & _ & _ & Hc). split; [by rewrite Hv|apply stop_once_grows|by rewrite Hc]. Qed.

Lemma reconcile_kept pod a : kept a (reconcilePod pod a).
Proof.
  unfold reconcilePod. destruct (is_mirror pod); [case_match; [|done]|destruct (vms a !! p_UID pod) as [v|] eqn:Ev; destruct (p_Deleting pod)].
  - split; [done|done|]. intros c Hc. cbn. by right.
  - apply stop_once_kept.
  - done.
  - split; [done|done|]. intros c Hc. cbn. by right.
  - case_bool_decide; [done|]. split; [|intros v; unfold stopped_obj; cbn|done].
    + intros u v Hu. cbn. rewrite lookup_insert_ne; [done|]. intros <-. by rewrite Ev in Hu.
    + destruct (objs a !! v) as [o|] eqn:Eo; [|done]. by rewrite (lookup_app_l_Some _ _ _ _ Eo).
Qed.

Lemma resync_kept pods a : kept a (resync pods a).
Proof. revert a. induction pods as [|pod pods IH]; intros a; [done|]. rewrite resync_cons. transitivity (reconcilePod pod a); [apply reconcile_kept|apply IH]. Qed.

(** Reconciling sends no shutdown itself: it leaves that to [killVM]. *)
Lemma reconcile_shutdowns v pod a : shutdowns v (calls (reconcilePod pod a)) = shutdowns v (calls a).
Proof.
  unfold reconcilePod. destruct (is_mirror pod); [case_match; [|done]|destruct (vms a !! p_UID pod) as [w|]; destruct (p_Deleting pod)].
  - cbn [calls add_calls]. rewrite shutdowns_app, (shutdowns_none v [CallDelete _ _ _]); [done|]. set_solver.
  - destruct (stop_once_same w (podGracePeriod pod) a) as (_ & _ & _ & ->). done.
  - done.
  - cbn [calls add_calls]. rewrite shutdowns_app, (shutdowns_none v [CallDelete _ _ _]); [done|]. set_solver.
  - by case_bool_decide.
Qed.
Lemma resync_shutdowns v pods a : shutdowns v (calls (resync pods a)) = shutdowns v (calls a).
Proof. revert a. induction pods as [|pod pods IH]; intros a; [done|]. rewrite resync_cons, IH. apply reconcile_shutdowns. Qed.

(** What the agent owes a pod of its node. One that is being deleted and has
    a goroutine is told to stop, once: the graceful shutdown is about to be
    sent, or it was sent before the resync. *)
Definition attended (pod : Pod) (before after : agent) : Prop :=
  if p_Deleting pod then
    match vms before !! p_UID pod with
    | Some v => stopped_obj v after = true /\ shutdowns v (calls before) + pending v (kills after) = 1
    | None => CallDelete (p_UID pod) (p_Namespace pod) (p_Name pod) ∈ calls after
    end
  else p_Phase pod <> Some PodSucceeded -> p_Phase pod <> Some PodFailed -> is_Some (vms after !! p_UID pod).

Lemma reconcile_stops pod a v : entries_ok a -> is_mirror pod = false -> p_Deleting pod = true -> vms a !! p_UID pod = Some v ->
  stopped_obj v (reconcilePod pod a) = true.
Proof.
  intros (H3 & H4) Hm Hd Ev. unfold reconcilePod. rewrite Hm, Ev, Hd. apply stop_once_stops.
  destruct (H3 _ _ Ev) as (i & r & Hi & _ & _ & <-). by apply (H4 i).
Qed.

Lemma reconcile_other pod a u : u <> p_UID pod -> vms (reconcilePod pod a) !! u = vms a !! u.
Proof.
  intros Hn. unfold reconcilePod. destruct (is_mirror pod); [by case_match|].
  destruct (vms a !! p_UID pod) as [v|], (p_Deleting pod); [|done|done|].
  - by destruct (stop_once_same v (podGracePeriod pod) a) as (-> & _).
  - case_bool_decide; [done|]. cbn. by rewrite lookup_insert_ne.
Qed.
Lemma resync_other pods u a : u ∉ p_UID <$> pods -> vms (resync pods a) !! u = vms a !! u.
Proof.
  revert a. induction pods as [|pod pods IH]; intros a Hu; [done|]. apply not_elem_of_cons in Hu as [Hn Hu].
  rewrite resync_cons, IH by done. by apply reconcile_other.
Qed.

(** C36 A resync makes up for what the watch has lost: whatever
    notifications were dropped before it, once every pod of the node has been
    delivered again a pod that is to run has its goroutine, a pod being
    deleted that has one has been told to stop, by exactly one graceful
    shutdown, sent before or about to be, and one without a goroutine is
    removed from the API; the agent's own invariants are untouched. (What a
    shutdown sent before the VM is up achieves is another matter:
    [deletion_during_pull_is_lost].) *)
Theorem resync_attends b pods a pod : reachable b a -> NoDup (p_UID <$> pods) -> pod ∈ pods -> is_mirror pod = false ->
  reachable b (resync pods a) /\ attended pod a (resync pods a).
Proof.
  intros Hr Hn Hin Hm. pose proof (reconcileLoop_reachable b ((fun pod => NUpdate (OPod pod)) <$> pods) a Hr) as Hr'. split; [done|].
  pose proof (fun v => reachable_once b _ Hr' v) as Honce. fold (resync pods) in Honce. setoid_rewrite resync_shutdowns in Honce.
  unfold attended. apply list_elem_of_split in Hin as (l1 & l2 & ->).
  rewrite fmap_app, fmap_cons in Hn. apply NoDup_app in Hn as (_ & Hn & _). assert (p_UID pod ∉ p_UID <$> l1) as Hout by (intros Hx; apply (Hn _ Hx); by left).
  assert (resync (l1 ++ pod :: l2) a = resync l2 (reconcilePod pod (resync l1 a))) as E by (unfold resync, reconcileLoop; by rewrite fmap_app, foldl_app).
  rewrite E in *. pose proof (resync_kept l2 (reconcilePod pod (resync l1 a))) as [K1 K2 K3].
  pose proof (resync_other (l1) (p_UID pod) a Hout) as Hv. destruct (p_Deleting pod) eqn:Hd.
  - destruct (vms a !! p_UID pod) as [v|] eqn:Ev.
    + assert (stopped_obj v (resync l2 (reconcilePod pod (resync l1 a))) = true) as Hs.
      { apply K2, reconcile_stops; [by eapply reachable_entries, reconcileLoop_reachable|done|done|done]. }
      split; [done|]. by rewrite Honce, Hs.
    + apply K3. unfold reconcilePod. rewrite Hm, Hv, Hd. cbn. by left.
  - intros Hs Hf. destruct (vms (reconcilePod pod (resync l1 a)) !! p_UID pod) as [v|] eqn:Ev; [by exists v; apply K1|].
    unfold reconcilePod in Ev. rewrite Hm, Hd in Ev. destruct (vms (resync l1 a) !! p_UID pod) eqn:Ew; [by rewrite Ew in Ev|].
    rewrite bool_decide_false in Ev by (by intros [?|?]). cbn in Ev. by rewrite lookup_insert_eq in Ev.
Qed.

Definition ex_other_pod : Pod := MkPod "u2" "db" "ns" ∅ [] [ex_c] "" [] None None false None.

(** The deletion of a running pod and the arrival of another were missed. *)
Lemma resync_attends_witness :
  exists a, reachable true a /\ vms a !! "u1" = Some 0 /\ stopped_obj 0 a = false /\
    let a' := resync [ex_api_pod true; ex_other_pod] a in
    (stopped_obj 0 a' = true /\ shutdowns 0 (calls a) + pending 0 (kills a') = 1) /\ is_Some (vms a' !! "u2").
Proof.
  destruct (exec_all [AReconcile (ex_api_pod false); ARun 0 EvBegin] (init_agent true)) as [a|] eqn:Ha; [|discriminate Ha].
  assert (reachable true a) as Hr by (by eapply step_exec_all).
  vm_compute in Ha. injection Ha as <-. eexists. split; [exact Hr|]. split; [reflexivity|]. split; [reflexivity|].
  assert (NoDup (p_UID <$> [ex_api_pod true; ex_other_pod])) as Hn by (apply (bool_decide_unpack _); vm_compute; exact I).
  destruct (resync_attends true _ _ (ex_api_pod true) Hr Hn ltac:(by left) eq_refl) as [_ H1].
  destruct (resync_attends true _ _ ex_other_pod Hr Hn ltac:(right; by left) eq_refl) as [_ H2].
  split; [exact H1|]. apply H2; discriminate.
Defined.

(** ** [staticPodLoop] *)

(** What the agent's steps leave alone: the client, once it is there, and the
    names of mirrors. *)
Record tame (a a' : agent) : Prop := Tame {
  tm_client : ag_client a = true -> ag_client a' = true;
  tm_names : forall v o, objs a !! v = Some o -> exists o', objs a' !! v = Some o' /\ vm_mirrorName o' = vm_mirrorName o
}.
Create HintDb tame.
#[export] Instance tame_preorder : PreOrder tame.
Proof.
  split; [split; eauto|]. intros a b c [H1 H2] [H3 H4]. split; [auto|]. intros v o Ho. destruct (H2 v o Ho) as (o' & Ho' & <-). by apply H4.
Qed.
Lemma tame_refl a : tame a a.
Proof. reflexivity. Qed.
Lemma tame_same a a1 a2 : tame a a1 -> ag_client a2 = ag_client a1 -> objs a2 = objs a1 -> tame a a2.
Proof. intros [H1 H2] Hc Ho. split; [by rewrite Hc|by rewrite Ho]. Qed.
Lemma tame_set_obj a a1 v f : (forall o, vm_mirrorName (f o) = vm_mirrorName o) -> tame a a1 -> tame a (set_obj v f a1).
Proof.
  intros Hf Ha. transitivity a1; [done|]. split; [done|]. intros w o Ho. cbn. destruct (decide (v = w)) as [->|Hn].
  - rewrite list_lookup_alter_eq, Ho. eexists. by split.
  - rewrite list_lookup_alter_ne by done. by exists o.
Qed.
Lemma tame_add_calls a a1 cs : tame a a1 -> tame a (add_calls cs a1).
Proof. intros H. by eapply tame_same. Qed.
Lemma tame_finalize a a1 pod v : tame a a1 -> tame a (finalizePod pod v a1).
Proof. intros H. unfold finalizePod. destruct (ag_client a1); [|done]. destruct (objs a1 !! v); [by apply tame_add_calls|done]. Qed.
Lemma tame_goto a a1 i r pc : tame a a1 -> tame a (goto i r pc a1).
Proof. intros H. unfold goto. case_bool_decide; by eapply tame_same. Qed.
Lemma tame_kill a a1 v : tame a a1 -> tame a (kill_process v a1).
Proof. intros H. unfold kill_process. destruct (cmds a1 !! v); [by apply tame_add_calls|done]. Qed.
Lemma tame_killVM a a1 v why g ok : tame a a1 -> tame a (killVM v why g ok a1).
Proof. intros H. unfold killVM. destruct ok; [by eapply tame_same|by apply tame_kill, tame_add_calls]. Qed.
Lemma tame_launch a a1 pod o : tame a a1 -> tame a (launch pod o a1).
Proof.
  intros H. transitivity a1; [done|]. split; [done|]. intros v x Hx. exists x. split; [|done]. by apply lookup_app_l_Some.
Qed.
Lemma tame_stop_once a a1 v g : tame a a1 -> tame a (stop_once v g a1).
Proof.
  intros H. unfold stop_once. destruct (objs a1 !! v) as [o|]; [|done]. destruct (vm_stopped o); [done|].
  eapply tame_same; [by apply (tame_set_obj a a1 v (fun o => setStopping (set_stopped o)))|done|done].
Qed.
#[export] Hint Resolve tame_refl tame_add_calls tame_finalize tame_goto tame_kill tame_killVM tame_launch tame_stop_once : tame.
#[export] Hint Extern 2 (tame _ (set_obj _ _ _)) => apply tame_set_obj; [by intros|] : tame.

Lemma tame_started a a2 v ip : ag_client a2 = ag_client a -> objs a2 = objs (set_obj v (match ip with Some ip => setIP ip | None => id end) a) -> tame a a2.
Proof. intros Hc Ho. eapply tame_same; [apply (tame_set_obj a a v (match ip with Some ip => setIP ip | None => id end)); [by destruct ip|done]|done|done]. Qed.
Lemma after_vm_exit_tame i r k st now final a : tame a (after_vm_exit i r k st now final a).
Proof. unfold after_vm_exit. repeat case_match; eauto 10 with tame. Qed.

Lemma run_step_tame i ev a a' : run_step i ev a = Some a' -> tame a a'.
Proof.
  unfold run_step. destruct (runs a !! i) as [r|]; [|done]. cbn [mbind option_bind].
  assert (forall pc, tame a (unless_stopping i r pc a)) as Hu by (intros pc; unfold unless_stopping; case_match; eauto with tame).
  destruct (r_pc r), ev as [|[[]|]| | |now ip [msg|]|now final]; intros H; try done; try (injection H as <-);
    repeat case_match; simplify_eq; eauto using after_vm_exit_tame with tame.
  - apply tame_goto. by eapply (tame_started _ _ (r_vm r) (Some _)).
  - apply tame_goto. by eapply (tame_started _ _ (r_vm r) None).
Qed.

Lemma exec_tame act a a' : exec act a = Some a' -> tame a a'.
Proof.
  destruct act as [pod|pod|pod o|v g|pod v|i ev|k ok|v why g ok|v|]; cbn; [intros [= <-]..|apply run_step_tame| | | |].
  - unfold reconcilePod. repeat case_match; eauto with tame.
  - unfold podDeleted. repeat case_match; eauto with tame.
  - eauto with tame.
  - eauto with tame.
  - case_match; eauto with tame.
  - destruct (kills a !! k) as [[v g]|]; [|done]. intros [= <-]. apply (tame_same a (killVM v ByStop g ok a)); eauto with tame.
  - case_bool_decide; [|done]. intros [= <-]. eauto with tame.
  - case_bool_decide; [|done]. intros [= <-]. eauto with tame.
  - intros [= <-]. by split; [|eauto].
Qed.
Lemma exec_all_tame l a a' : exec_all l a = Some a' -> tame a a'.
Proof.
  revert a. induction l as [|x l IH]; intros a H; [by injection H as <-|]. cbn in H. destruct (exec x a) as [a1|] eqn:E; [|done].
  transitivity a1; [by eapply exec_tame|by apply IH].
Qed.

Section StaticLoop.
Context (nodeName svcCIDR6 : string) (Sum256 : string -> bytes) (UnmarshalStrict : string -> option (string * Pod)).
Context {W : Type} `{MirrorLaws W}.
Notation scanManifests := (scanManifests nodeName svcCIDR6 Sum256 UnmarshalStrict).
Notation manager_step := (manager_step nodeName svcCIDR6 Sum256 UnmarshalStrict).

(** What the agent asks of the API server: to remove an object, at once, or to
    push the status of a goroutine's pod. *)
Definition pod_of (u : string) (a : agent) : option Pod := r_pod <$> head (filter (fun r => uid_of r = u) (runs a)).
Definition api_call (a : agent) (c : call) (w : W) : W :=
  match c with
  | CallDelete _ ns n => DeletePod w ns n (Some 0%Z)
  | CallSetPhase u ph reason message ics css =>
      match pod_of u a with Some pod => SetPhase w pod (ph, reason, message, ics, css) | None => w end
  | CallStartVM _ _ | CallShutdown _ _ _ _ | CallProcessKill _ _ => w
  end.

(** The requests made between two states, the oldest first. *)
Definition api_since (a a' : agent) (w : W) : W := foldr (api_call a') w (new_of (calls a) (calls a')).
Definition services_since (s s' : state) (w : W) : W :=
  foldr (fun x w => DeleteService w x.1 x.2) w (new_of (st_gone s) (st_gone s')).

(** One tick: a scan, and a sync once there is a client. The order in which
    the map of the running pods is visited is chosen anew each time. *)
Definition static_tick (entries : option (list entry)) (order : list string) (visit : list staticPod) (sw : state * W) : state * W :=
  let s := scanManifests entries order sw.1 in
  let w := services_since sw.1 s (api_since (st_agent sw.1) (st_agent s) sw.2) in
  (s, if ag_client (st_agent s) then syncMirrorPods (objs (st_agent s)) visit w else w).

(** The agent's own steps until the next tick, with what they ask of the API:
    the end of a static pod removes its mirror, for one. *)
Fixpoint meanwhile (l : list action) (sw : state * W) : option (state * W) :=
  match l with
  | [] => Some sw
  | act :: l =>
      a ← exec act (st_agent sw.1);
      meanwhile l (St a (st_vips sw.1) (st_running sw.1) (st_gone sw.1), api_since (st_agent sw.1) a sw.2)
  end.

(** A tick, and each of the others after what happens in between. *)
Fixpoint staticPodLoop (entries : option (list entry)) (order : list string) (visit : list staticPod)
    (rest : list (list action * list string * list staticPod)) (sw : state * W) : option (state * W) :=
  let sw := static_tick entries order visit sw in
  match rest with
  | [] => Some sw
  | (l, order, visit) :: rest => meanwhile l sw ≫= staticPodLoop entries order visit rest
  end.

(** The pods a tick visits. *)
Definition visits (visit : list staticPod) (m : gmap string staticPod) : Prop := visit ≡ₚ (map_to_list m).*2.

Lemma key_tame a a' sp : tame a a' -> is_Some (objs a !! sp_vm sp) -> mirror_key (objs a') sp = mirror_key (objs a) sp.
Proof.
  intros Ha [o Ho]. destruct (tm_names _ _ Ha _ _ Ho) as (o' & Ho' & E). unfold mirror_key, mirror_name. rewrite Ho, Ho'. cbn. by rewrite E.
Qed.
Lemma distance_key o o' sp w : mirror_key o' sp = mirror_key o sp -> distance o' sp w = distance o sp w.
Proof. intros E. unfold distance. by rewrite E. Qed.

(** A request of the agent's takes a mirror away at worst. *)
Lemma api_call_distance o a c sp w :
  distance o sp (api_call a c w) <= Nat.max 1 (distance o sp w) /\ (GetNode w <> None -> GetNode (api_call a c w) <> None).
Proof.
  destruct c as [u ph re me ics css|u ns n| | |]; cbn [api_call]; try (split; [lia|done]).
  - destruct (pod_of u a); [|split; [lia|done]]. unfold distance, get. rewrite ml_phase_frame, ml_node_phase. split; [lia|done].
  - rewrite ml_node_delete. split; [|done]. unfold distance. destruct (decide (mirror_key o sp = (ns, n))) as [->|Hne].
    + unfold get. cbn [fst snd]. rewrite ml_delete0. lia.
    + destruct (mirror_key o sp) as [ns' n']. unfold get. cbn [fst snd]. rewrite ml_delete_frame by done. lia.
Qed.
Lemma api_since_distance o a a' sp w :
  distance o sp (api_since a a' w) <= Nat.max 1 (distance o sp w) /\ (GetNode w <> None -> GetNode (api_since a a' w) <> None).
Proof.
  unfold api_since. induction (new_of _ _) as [|c l [IH1 IH2]]; [split; [cbn; lia|done]|]. cbn [foldr].
  destruct (api_call_distance o a' c sp (foldr (api_call a') w l)) as [H1 H2]. split; [lia|auto].
Qed.
Lemma services_since_node s s' w : GetNode w <> None -> GetNode (services_since s s' w) <> None.
Proof. unfold services_since. induction (new_of _ _) as [|x l IH]; [done|]. intros Hw. cbn. rewrite ml_node_gone. by apply IH. Qed.

Lemma meanwhile_spec l : forall s w s' w', meanwhile l (s, w) = Some (s', w') ->
  st_running s' = st_running s /\ tame (st_agent s) (st_agent s') /\ (GetNode w <> None -> GetNode w' <> None) /\
  rtc manager_step s s' /\ forall o sp, distance o sp w' <= Nat.max 1 (distance o sp w).
Proof.
  induction l as [|act l IH]; intros s w s' w' Hl.
  { injection Hl as <- <-. split_and!; [done|reflexivity|done|done|intros; lia]. }
  cbn [meanwhile fst snd] in Hl. destruct (exec act (st_agent s)) as [a|] eqn:E; [|done]. cbn [mbind option_bind] in Hl.
  destruct (IH _ _ _ _ Hl) as (H1 & H2 & H3 & H4 & H5). cbn [st_running st_agent] in *. split_and!.
  - done.
  - transitivity a; [by eapply exec_tame|done].
  - intros Hw. apply H3. by apply (api_since_distance [] (st_agent s) a (SP "" "" "" ex_other_pod 0) w).
  - eapply rtc_l; [by apply (ms_agent _ _ _ _ s act a)|done].
  - intros o sp. specialize (H5 o sp). destruct (api_since_distance o (st_agent s) a sp w) as [H6 _]. lia.
Qed.

(** A tick over a directory that was scanned before. *)
Lemma settled_tick entries order0 s0 a0 s w order visit :
  NoDup (e_Name <$> entries) ->
  (forall name, is_Some (st_running s0 !! name) -> name ∉ (files entries).*1 -> name ∈ order0) ->
  st_running s = st_running (scanManifests (Some entries) order0 s0) ->
  (forall name sp, st_running s !! name = Some sp -> is_Some (objs a0 !! sp_vm sp)) ->
  NoDup (mirror_key (objs a0) <$> (map_to_list (st_running s)).*2) ->
  tame a0 (st_agent s) -> ag_client a0 = true -> GetNode w <> None -> visits visit (st_running s) ->
  exists w', static_tick (Some entries) order visit (s, w) = (s, w') /\ GetNode w' <> None /\
  forall name sp, st_running s !! name = Some sp -> distance (objs a0) sp w' <= pred (distance (objs a0) sp w).
Proof.
  intros Hn Ho Er Hobj Hnd Ht Hc Hw Hv. unfold static_tick. cbn [fst snd].
  rewrite (scan_settled _ _ _ _ entries order0 order s0 s Hn Ho Er), (tm_client _ _ Ht Hc).
  unfold services_since, api_since. rewrite !new_of_same. cbn [foldr]. eexists. split; [done|].
  assert (forall sp, sp ∈ visit <-> exists name, st_running s !! name = Some sp) as Hin.
  { intros sp. rewrite Hv, list_elem_of_fmap. split.
    - intros ([name x] & -> & Hx). exists name. by apply elem_of_map_to_list.
    - intros [name Hx]. exists (name, sp). split; [done|by apply elem_of_map_to_list]. }
  assert (forall sp, sp ∈ visit -> mirror_key (objs (st_agent s)) sp = mirror_key (objs a0) sp) as Hk.
  { intros sp [name Hx]%Hin. apply key_tame; [done|by eapply Hobj]. }
  assert (mirror_key (objs (st_agent s)) <$> visit = mirror_key (objs a0) <$> visit) as Ek by (by apply list_fmap_ext; intros i x Hx; apply Hk; eapply list_elem_of_lookup_2).
  destruct (syncs_get (objs (st_agent s)) visit w) as (H1 & _ & H3); [|done|].
  { rewrite Ek, Hv. exact Hnd. }
  split; [done|]. intros name sp Hsp.
  assert (sp ∈ visit) as Hvis by (apply Hin; by exists name). specialize (H3 sp Hvis).
  by rewrite !(distance_key (objs a0) (objs (st_agent s))) in H3 by (by apply Hk).
Qed.

(** The first tick, over any directory. *)
Lemma first_tick entries order visit s w :
  let s1 := scanManifests (Some entries) order s in
  ag_client (st_agent s1) = true -> NoDup (mirror_key (objs (st_agent s1)) <$> (map_to_list (st_running s1)).*2) ->
  GetNode w <> None -> visits visit (st_running s1) ->
  exists w', static_tick (Some entries) order visit (s, w) = (s1, w') /\ GetNode w' <> None /\
  forall name sp, st_running s1 !! name = Some sp -> distance (objs (st_agent s1)) sp w' <= 2.
Proof.
  cbn zeta. intros Hc Hnd Hw Hv. unfold static_tick. cbn [fst snd]. set (s1 := scanManifests (Some entries) order s) in *. rewrite Hc.
  set (w1 := services_since s s1 (api_since (st_agent s) (st_agent s1) w)). eexists. split; [done|].
  destruct (syncs_get (objs (st_agent s1)) visit w1) as (H1 & _ & H3).
  - by rewrite Hv.
  - apply services_since_node. by apply (api_since_distance [] (st_agent s) (st_agent s1) (SP "" "" "" ex_other_pod 0) w).
  - split; [done|]. intros name sp Hsp. assert (sp ∈ visit) as Hin.
    { rewrite Hv, list_elem_of_fmap. exists (name, sp). split; [done|by apply elem_of_map_to_list]. }
    specialize (H3 sp Hin). assert (forall x, distance (objs (st_agent s1)) sp x <= 3) as Hmax; [|specialize (Hmax w1); lia].
    intros x. unfold distance. destruct (get x _) as [m| |]; [|lia..]. destruct (mi_deleting m); [lia|]. case_bool_decide; lia.
Qed.

Lemma distance_zero o sp (w : W) : distance o sp w = 0 -> get w (mirror_key o sp) = Found (MirrorObj false (p_UID (sp_pod sp))).
Proof.
  unfold distance. destruct (get w _) as [[d h]| |] eqn:E; cbn; [|lia|by apply ml_get in E]. destruct d; [lia|]. case_bool_decide as Hh; [by rewrite Hh|lia].
Qed.

End StaticLoop.

(** *** A directory with two manifests, one of which is no pod, and a stale
    mirror *)

Definition ex_tick_state : state := St (Agent true true ∅ [] ∅ [] [] [] [] 0) ∅ ∅ [].
Notation ex_first := (scanManifests "mac" "fd00:10:96::/112" ex_sum ex_unmarshal (Some ex_dir) [] ex_tick_state).
Definition ex_visit : list staticPod := (map_to_list (st_running ex_first)).*2.
(** A mirror of a pod that is gone, deleted by its name by a user. *)
Definition ex_deleted_mirror : Pod :=
  MkPod "m" "api-mac" "default" {[mirrorAnnotation := "old"; hashAnnotation := "old"]} [] [ex_c] "" [] None None true None.
Definition ex_stale : toy := Toy {[("default", "api-mac") := MirrorObj false "old"]} ∅.
Notation ex_loop_run := (staticPodLoop "mac" "fd00:10:96::/112" ex_sum ex_unmarshal (Some ex_dir) [] ex_visit
  [([ARun 0 EvBegin], [], ex_visit); ([AReconcile ex_deleted_mirror], [], ex_visit)] (ex_tick_state, ex_stale)).


(** ** [waitForSocket] *)

Definition pollInterval : Z := 50000000.

(** [now i] is the clock at the [i]-th look, [there i] whether the file is
    there then. *)
Fixpoint wait_loop (fuel : nat) (deadline : Z) (now : nat -> Z) (there : nat -> bool) (i : nat) : result string () :=
  match fuel with
  | O => Crash Hang
  | S fuel =>
      if bool_decide (now i < deadline)%Z then
        if there i then Ok () else wait_loop fuel deadline now there (S i)
      else Err "socket did not appear"
  end.
(** At most one look per interval, and one more. *)
Definition looks (timeout : Z) : nat := Z.to_nat (timeout / pollInterval) + 2.
Definition waitForSocket (start timeout : Z) (now : nat -> Z) (there : nat -> bool) : result string () :=
  wait_loop (looks timeout) (start + timeout) now there 0.

(** The first look that finds the file, in time. *)
Definition appears (deadline : Z) (now : nat -> Z) (there : nat -> bool) (k : nat) : Prop :=
  there k = true /\ (forall j, j < k -> there j = false) /\ (now k < deadline)%Z.

(** The wait ends, after at most [timeout] in steps of 50 milliseconds: it
    succeeds exactly when a look before the deadline finds the socket, and
    fails otherwise. *)
Theorem wait_is_bounded (start timeout : Z) (now : nat -> Z) (there : nat -> bool) :
  (start <= now 0%nat)%Z -> (forall i : nat, now i + pollInterval <= now (S i))%Z ->
  match waitForSocket start timeout now there with
  | Ok _ => exists k, k < looks timeout /\ appears (start + timeout) now there k
  | Err _ => forall k, ~ appears (start + timeout) now there k
  | Crash _ => False
  end.
Proof.
  intros Hs Hstep. assert (forall i : nat, now 0%nat + pollInterval * Z.of_nat i <= now i)%Z as Hnow.
  { induction i as [|i IH]; [lia|]. specialize (Hstep i). lia. }
  assert (forall i j : nat, i <= j -> (now i <= now j)%Z) as Hmono.
  { intros i j Hij. induction Hij as [|j _ IH]; [done|]. specialize (Hstep j). unfold pollInterval in Hstep. lia. }
  assert (start + timeout <= now (Nat.pred (looks timeout)))%Z as Hend.
  { specialize (Hnow (Nat.pred (looks timeout))). unfold looks, pollInterval in *. pose proof (Z.mul_succ_div_gt timeout 50000000 ltac:(lia)). lia. }
  assert (forall fuel i, fuel + i = looks timeout -> 0 < fuel -> (forall j, j < i -> there j = false) ->
    match wait_loop fuel (start + timeout) now there i with
    | Ok _ => exists k, k < looks timeout /\ appears (start + timeout) now there k
    | Err _ => forall k, ~ appears (start + timeout) now there k
    | Crash _ => False
    end) as Hgen.
  { induction fuel as [|fuel IH]; intros i Hf Hpos Hj; [lia|]. cbn [wait_loop]. case_bool_decide as Ht.
    - destruct (there i) eqn:Ei; [exists i; split; [lia|done]|]. apply IH; [lia| |].
      + destruct fuel; [|lia]. exfalso. replace i with (Nat.pred (looks timeout)) in Ht by lia. lia.
      + intros j Hlt. destruct (decide (j = i)) as [->|]; [done|apply Hj; lia].
    - intros k (H1 & _ & H3). destruct (decide (k < i)) as [Hk|Hk]; [rewrite Hj in H1 by done; done|]. specialize (Hmono i k ltac:(lia)). lia. }
  apply (Hgen (looks timeout) 0); unfold looks; [lia|lia|intros j; lia].
Qed.

Lemma wait_is_bounded_witness :
  waitForSocket 7 200000000 (fun i => 7 + 60000000 * Z.of_nat i)%Z (fun i => bool_decide (i = 2)) = Ok () /\
  exists k, k < looks 200000000 /\ appears (7 + 200000000) (fun i => 7 + 60000000 * Z.of_nat i)%Z (fun i => bool_decide (i = 2)) k.
Proof.
  pose proof (wait_is_bounded 7 200000000 (fun i => 7 + 60000000 * Z.of_nat i)%Z (fun i => bool_decide (i = 2)) ltac:(cbn; lia)
    ltac:(intros i; unfold pollInterval; lia)) as H.
  assert (waitForSocket 7 200000000 (fun i => 7 + 60000000 * Z.of_nat i)%Z (fun i => bool_decide (i = 2)) = Ok ()) as E by (vm_compute; reflexivity).
  rewrite E in H. split; [exact E|exact H].
Defined.
