(* ===== verification/NodeAgent.v ===== *)
(** * The node (poc/agent/main.go)

    How the agent joins the cluster and stays in it: [registerNode],
    [nodeStatus], [heartbeatLoop] with [renewNodeLease], and [main]'s order of
    start-up. The API server is the class [NodeAPI]; what the agent relies on
    are its laws [NodeLaws], which allow any request to fail, with or without
    having been applied; [toy_nodes] is a server that satisfies them. Times
    are in microseconds, the precision of a Lease. *)
From S2P Require Import Prelude GoStrings NetIP.

Notation sec := 1000000%Z.

(** ** The API objects *)

Record NodeCondition := Condition {
  nc_Type : string; nc_Status : string; nc_Reason : string; nc_Message : string;
  nc_LastHeartbeat : Z; nc_LastTransition : Z
}.

(** Resource lists, addresses and the node info as lists of pairs. *)
Record NodeStatus := MkNodeStatus {
  ns_Capacity : list (string * string); ns_Allocatable : list (string * string);
  ns_Conditions : list NodeCondition; ns_Addresses : list (string * string);
  ns_KubeletPort : Z; ns_Info : list (string * string)
}.

(** [n_Rest] is what the server and others keep in the object beside. *)
Record Node := MkNode { n_Name : string; n_Labels : gmap string string; n_Status : option NodeStatus; n_Rest : gmap string string }.

Record Lease := MkLease {
  le_Namespace : string; le_Name : string;
  le_Holder : option string; le_Duration : option Z; le_Renew : option Z
}.

Definition lease_key (l : Lease) : string * string := (le_Namespace l, le_Name l).

(** ** The API server *)

Inductive api_error := ErrNotFound | ErrOther.

Class NodeAPI (W : Type) := {
  GetNode : string -> stM W api_error Node;
  CreateNode : Node -> stM W api_error Node;
  UpdateNodeStatus : Node -> stM W api_error Node;
  GetLease : string * string -> stM W api_error Lease;
  CreateLease : Lease -> stM W api_error Lease;
  UpdateLease : Lease -> stM W api_error Lease;
  (** what is stored *)
  node_of : W -> string -> option Node;
  lease_of : W -> string * string -> option Lease
}.

(** ** Registration and heartbeat *)

Record node_config := NodeConfig { c_nodeName : string; c_nodeIP : string; c_kubeletPort : Z }.

Definition node_labels (c : node_config) : gmap string string :=
  list_to_map [("kubernetes.io/os", "linux"); ("kubernetes.io/arch", "arm64"); ("kubernetes.io/hostname", c_nodeName c);
    ("kube-on-macos.io/runtime", "vm"); ("kube-on-macos.io/os-host", "darwin")].

Definition nodeStatus (c : node_config) (now : Z) : NodeStatus :=
  MkNodeStatus
    [("cpu", "8"); ("memory", "16Gi"); ("pods", "250")]
    [("cpu", "8"); ("memory", "12Gi"); ("pods", "250")]
    [Condition "Ready" "True" "AgentReady" "kube-on-macos PoC agent is running" now now]
    [("InternalIP", c_nodeIP c); ("Hostname", c_nodeName c)]
    (i32 (c_kubeletPort c))
    [("OperatingSystem", "linux"); ("Architecture", "arm64"); ("KubeletVersion", "kube-on-macos-poc-v0.1");
     ("OSImage", "Linux microVM (libkrun/HVF) on macOS host"); ("ContainerRuntimeVersion", "podvm://0.1");
     ("KernelVersion", "6.12.28-kata")].

Definition with_status (n : Node) (s : NodeStatus) : Node := MkNode (n_Name n) (n_Labels n) (Some s) (n_Rest n).
Definition with_renew (l : Lease) (now : Z) : Lease :=
  MkLease (le_Namespace l) (le_Name l) (le_Holder l) (le_Duration l) (Some now).

Definition NamespaceNodeLease : string := "kube-node-lease".
Definition node_lease (c : node_config) : string * string := (NamespaceNodeLease, c_nodeName c).

Section Agent.
Context {W : Type} `{NodeAPI W} (c : node_config).

(** A request whose [IsNotFound] is looked at before its other errors. *)
Definition or_create {A} (get create : stM W api_error A) : stM W api_error A := fun w =>
  match get w with
  | (w, Err ErrNotFound) => create w
  | r => r
  end.

Definition registerNode (now : Z) : stM W api_error () :=
  or_create (GetNode (c_nodeName c)) (CreateNode (MkNode (c_nodeName c) (node_labels c) None ∅)) ≫= fun existing =>
  UpdateNodeStatus (with_status existing (nodeStatus c now)) ≫= fun _ => mret ().

(** Its error is only logged. *)
Definition renewNodeLease (now : Z) : stM W api_error () := fun w =>
  match GetLease (node_lease c) w with
  | (w, Err ErrNotFound) =>
      (CreateLease (MkLease NamespaceNodeLease (c_nodeName c) (Some (c_nodeName c)) (Some 40%Z) (Some now)) ≫= fun _ => mret ()) w
  | (w, Ok lease) => (UpdateLease (with_renew lease now) ≫= fun _ => mret ()) w
  | (w, Err e) => (w, Err e)
  | (w, Crash k) => (w, Crash k)
  end.

(** A tick of [heartbeatLoop], and whether it renewed the lease: without the
    node it does neither; an error of the status update is not looked at. *)
Definition heartbeat (now : Z) (w : W) : W * bool :=
  match GetNode (c_nodeName c) w with
  | (w, Ok node) =>
      let '(w, _) := UpdateNodeStatus (with_status node (nodeStatus c now)) w in
      let '(w, r) := renewNodeLease now w in (w, is_ok r)
  | (w, _) => (w, false)
  end.

(** [heartbeatLoop]: each tick comes with its time and what others did to the
    cluster before it; the trace tells which ticks renewed the lease. *)
Fixpoint heartbeats (l : list (Z * (W -> W))) (w : W) : W * list (Z * bool) :=
  match l with
  | [] => (w, [])
  | (now, others) :: l' =>
      let '(w, ok) := heartbeat now (others w) in
      let '(w, tr) := heartbeats l' w in (w, (now, ok) :: tr)
  end.
End Agent.

(** ** What the agent relies on *)

(** A request leaves alone what it is not about. *)
Definition same_nodes `{NodeAPI W} (except : option string) (w w' : W) : Prop :=
  forall n, except <> Some n -> node_of w' n = node_of w n.
Definition same_leases `{NodeAPI W} (except : option (string * string)) (w w' : W) : Prop :=
  forall k, except <> Some k -> lease_of w' k = lease_of w k.

(** A read tells what is stored. *)
Definition read_of {A} (stored : option A) (r : result api_error A) : Prop :=
  match r with
  | Ok x => stored = Some x
  | Err ErrNotFound => stored = None
  | Err ErrOther => True
  | Crash _ => False
  end.

(** A write has been applied when it succeeded; when it failed, it may have
    been. *)
Definition wrote {A} (before after : option A) (written : option A) (r : result api_error A) : Prop :=
  match r with
  | Ok y => after = written /\ written = Some y
  | Err _ => after = before \/ after = written
  | Crash _ => False
  end.

(** A name is created once; only the status of an update is looked at. *)
Definition created {A} (before : option A) (x : A) : option A := match before with None => Some x | Some y => Some y end.
Definition updated (before : option Node) (x : Node) : option Node :=
  match before with Some old => Some (MkNode (n_Name old) (n_Labels old) (n_Status x) (n_Rest old)) | None => None end.

Class NodeLaws (W : Type) `{NodeAPI W} := {
  nl_get_node n w : let '(w', r) := GetNode n w in
    same_nodes None w w' /\ same_leases None w w' /\ read_of (node_of w n) r;
  (** the server may add to a new object, not change its name or labels *)
  nl_create_node x w : let '(w', r) := CreateNode x w in
    same_nodes (Some (n_Name x)) w w' /\ same_leases None w w' /\
    exists x', n_Name x' = n_Name x /\ n_Labels x' = n_Labels x /\
      wrote (node_of w (n_Name x)) (node_of w' (n_Name x)) (created (node_of w (n_Name x)) x') r;
  nl_update_node x w : let '(w', r) := UpdateNodeStatus x w in
    same_nodes (Some (n_Name x)) w w' /\ same_leases None w w' /\
    wrote (node_of w (n_Name x)) (node_of w' (n_Name x)) (updated (node_of w (n_Name x)) x) r;
  nl_get_lease k w : let '(w', r) := GetLease k w in
    same_nodes None w w' /\ same_leases None w w' /\ read_of (lease_of w k) r;
  nl_create_lease x w : let '(w', r) := CreateLease x w in
    same_nodes None w w' /\ same_leases (Some (lease_key x)) w w' /\
    wrote (lease_of w (lease_key x)) (lease_of w' (lease_key x)) (created (lease_of w (lease_key x)) x) r;
  nl_update_lease x w : let '(w', r) := UpdateLease x w in
    same_nodes None w w' /\ same_leases (Some (lease_key x)) w w' /\
    wrote (lease_of w (lease_key x)) (lease_of w' (lease_key x))
      (match lease_of w (lease_key x) with Some _ => Some x | None => None end) r;
  (** objects are stored under their names *)
  nl_node_name w n x : node_of w n = Some x -> n_Name x = n;
  nl_lease_name w k x : lease_of w k = Some x -> lease_key x = k
}.

(** ** Registration *)

Section Registration.
Context {W : Type} `{NodeLaws W} (c : node_config).
Notation name := (c_nodeName c).

Lemma same_nodes_trans e (w1 w2 w3 : W) : same_nodes e w1 w2 -> same_nodes e w2 w3 -> same_nodes e w1 w3.
Proof. intros H1' H2 n Hn. by rewrite H2, H1'. Qed.
Lemma same_nodes_none e (w1 w2 : W) : same_nodes None w1 w2 -> same_nodes e w1 w2.
Proof. intros H' n _. by apply H'. Qed.
Lemma same_leases_trans e (w1 w2 w3 : W) : same_leases e w1 w2 -> same_leases e w2 w3 -> same_leases e w1 w3.
Proof. intros H1' H2 n Hn. by rewrite H2, H1'. Qed.

(** The node object of the registration: the stored one, or a new one. *)
Lemma get_or_create w w' r :
  or_create (GetNode name) (CreateNode (MkNode name (node_labels c) None ∅)) w = (w', r) ->
  same_nodes (Some name) w w' /\ same_leases None w w' /\ (forall k, r <> Crash k) /\
  (forall x, r = Ok x -> node_of w' name = Some x) /\
  (node_of w name <> None -> node_of w' name = node_of w name) /\
  (node_of w name = None -> forall x, node_of w' name = Some x -> n_Labels x = node_labels c).
Proof.
  unfold or_create. pose proof (nl_get_node name w) as Hg. destruct (GetNode name w) as [w1 r1].
  destruct Hg as (Hn1 & Hl1 & Hr1). assert (node_of w1 name = node_of w name) as E by by apply Hn1.
  destruct r1 as [x|[]|]; cbn in Hr1; [| | |done].
  - intros [= <- <-]. split_and!; [by apply same_nodes_none|done|done|by intros y [= <-]; rewrite E|done|congruence].
  - pose proof (nl_create_node (MkNode name (node_labels c) None ∅) w1) as Hc. destruct (CreateNode _ w1) as [w2 r2].
    destruct Hc as (Hn2 & Hl2 & x' & Hname & Hlab & Hw). cbn [n_Name n_Labels] in *. rewrite E, Hr1 in Hw. cbn [created] in Hw.
    intros [= <- <-]. split_and!.
    + eapply same_nodes_trans; [by apply same_nodes_none|done].
    + by eapply same_leases_trans.
    + intros k ->. done.
    + intros x ->. destruct Hw as [-> [= ->]]. done.
    + done.
    + intros _ x Hx. destruct r2; cbn in Hw; [destruct Hw|destruct Hw|done]; congruence.
  - intros [= <- <-]. split_and!; [by apply same_nodes_none|done|done|done|done|congruence].
Qed.

(** Registration: when [registerNode] returns no error, the API has the
    agent's node, Ready, with the address and port of the kubelet server, and
    with the agent's labels if the node is new. Whether it returns an error or
    not, and whichever requests failed, it has changed no other node and no
    lease, has not crashed, and has left the labels and the rest of a node
    that was there before as they were. *)
Theorem node_registers now w :
  let '(w', r) := registerNode c now w in
  same_nodes (Some name) w w' /\ same_leases None w w' /\ (forall k, r <> Crash k) /\
  (r = Ok () -> exists x, node_of w' name = Some x /\ n_Status x = Some (nodeStatus c now)) /\
  (forall old, node_of w name = Some old -> exists x, node_of w' name = Some x /\
     n_Labels x = n_Labels old /\ n_Rest x = n_Rest old) /\
  (node_of w name = None -> forall x, node_of w' name = Some x -> n_Labels x = node_labels c).
Proof.
  unfold registerNode, mbind, stM_bind.
  destruct (or_create _ _ w) as [w1 r1] eqn:E. apply get_or_create in E as (Hn1 & Hl1 & Hk1 & Hx1 & Hold1 & Hnew1).
  assert (forall old, node_of w name = Some old -> node_of w1 name = Some old) as Hold by (intros; rewrite Hold1; congruence).
  destruct r1 as [x|e|k]; [|split_and!; [done..|naive_solver|done]|by destruct (Hk1 k)].
  pose proof (Hx1 x eq_refl) as Hx. pose proof (nl_node_name w1 name x Hx) as Hname.
  pose proof (nl_update_node (with_status x (nodeStatus c now)) w1) as Hu. destruct (UpdateNodeStatus _ w1) as [w2 r2].
  cbn [n_Name with_status] in Hu. rewrite Hname, Hx in Hu. destruct Hu as (Hn2 & Hl2 & Hw). cbn [updated with_status n_Status] in Hw.
  assert (node_of w2 name = Some x \/ node_of w2 name = Some (with_status x (nodeStatus c now))) as Hstored.
  { destruct r2; cbn in Hw; [right; by destruct Hw|destruct Hw; [by left|by right]|done]. }
  assert (same_nodes (Some name) w w2 /\ same_leases None w w2) as [Hn Hl] by (split; [by eapply same_nodes_trans|by eapply same_leases_trans]).
  assert (exists y, node_of w2 name = Some y /\ n_Labels y = n_Labels x /\ n_Rest y = n_Rest x) as (y & Hy & Hlab & Hrest).
  { destruct Hstored as [-> | ->]; by eexists. }
  assert (forall old, node_of w name = Some old -> exists x, node_of w2 name = Some x /\ n_Labels x = n_Labels old /\ n_Rest x = n_Rest old) as H1'.
  { intros old Ho. pose proof (Hold old Ho). exists y. naive_solver congruence. }
  assert (node_of w name = None -> forall x, node_of w2 name = Some x -> n_Labels x = node_labels c) as H2'.
  { intros Ho z Hz. pose proof (Hnew1 Ho x Hx). naive_solver congruence. }
  destruct r2 as [z|e|k]; [|split_and!; done|done]. split_and!; try done.
  intros _. destruct Hw as [-> _]. by eexists.
Qed.
End Registration.

(** ** The lease *)

Section LeaseProofs.
Context {W : Type} `{NodeLaws W} (c : node_config).
Notation name := (c_nodeName c).
Notation key := (node_lease c).

(** The node's lease, once it is there, lasts 40 seconds after a renewal that
    is not before [t]. *)
Definition renewed_since (t : Z) (w : W) : Prop :=
  exists l r d, lease_of w key = Some l /\ le_Renew l = Some r /\ le_Duration l = Some d /\ (t <= r)%Z /\ (40 <= d)%Z.

(** Nobody else wrote the lease, and one found there is long enough. *)
Definition lease_fit (w : W) : Prop :=
  forall l, lease_of w key = Some l -> exists d, le_Duration l = Some d /\ (40 <= d)%Z.

(** Writing a renewed lease. *)
Lemma write_renews now l w w' (r : result api_error Lease) :
  le_Renew l = Some now -> (exists d, le_Duration l = Some d /\ (40 <= d)%Z) -> lease_fit w ->
  wrote (lease_of w key) (lease_of w' key) (Some l) r ->
  lease_fit w' /\ (lease_of w' key = lease_of w key \/ renewed_since now w') /\ (is_ok r = true -> renewed_since now w').
Proof.
  intros Hre (d & Hd & Hge) Hfit Hw.
  assert (lease_of w' key = Some l -> renewed_since now w' /\ lease_fit w') as Hdone.
  { intros Hl. split; [exists l, now, d; split_and!; done || lia|]. intros l' Hl'. exists d. naive_solver. }
  destruct r as [y|e|k]; cbn in Hw; [|destruct Hw as [Hw|Hw]|done].
  - destruct Hw as [Hw _]. destruct (Hdone Hw). split_and!; [done|by right|done].
  - split_and!; [unfold lease_fit; by rewrite Hw|by left|done].
  - destruct (Hdone Hw). split_and!; [done|by right|done].
Qed.

Lemma renew_lease now w :
  lease_fit w ->
  let '(w', r) := renewNodeLease c now w in
  same_nodes None w w' /\ same_leases (Some key) w w' /\ lease_fit w' /\
  (lease_of w' key = lease_of w key \/ renewed_since now w') /\ (is_ok r = true -> renewed_since now w').
Proof.
  intros Hfit. unfold renewNodeLease, mbind, stM_bind. pose proof (nl_get_lease key w) as Hg. destruct (GetLease key w) as [w1 r1].
  destruct Hg as (Hn1 & Hl1 & Hr1). assert (lease_of w1 key = lease_of w key) as E by by apply Hl1.
  assert (lease_fit w1) as Hfit1 by by unfold lease_fit; rewrite E.
  assert (forall w2, same_leases (Some key) w1 w2 -> same_leases (Some key) w w2) as Hl by (intros w2 H' k Hk; rewrite H' by done; by apply Hl1).
  destruct r1 as [l|[]|]; cbn in Hr1; [| | |done].
  - pose proof (nl_update_lease (with_renew l now) w1) as Hu. destruct (UpdateLease _ w1) as [w2 r2].
    change (lease_key (with_renew l now)) with (lease_key l) in Hu. rewrite (nl_lease_name w key l Hr1) in Hu.
    replace (match lease_of w1 key with Some _ => Some (with_renew l now) | None => None end) with (Some (with_renew l now)) in Hu
      by (by rewrite E, Hr1).
    destruct Hu as (Hn2 & Hl2 & Hw). apply (write_renews now) in Hw as (Hf & Hc & Hok); [|done|exact (Hfit l Hr1)|done].
    rewrite E in Hc. assert (same_nodes None w w2) by (by eapply same_nodes_trans). destruct r2; split_and!; auto.
  - set (l := MkLease _ _ _ _ _). pose proof (nl_create_lease l w1) as Hu. destruct (CreateLease l w1) as [w2 r2].
    change (lease_key l) with key in Hu. replace (created (lease_of w1 key) l) with (Some l) in Hu by (by rewrite E, Hr1).
    destruct Hu as (Hn2 & Hl2 & Hw). apply (write_renews now) in Hw as (Hf & Hc & Hok); [|done|by exists 40%Z|done].
    rewrite E in Hc. assert (same_nodes None w w2) by (by eapply same_nodes_trans). destruct r2; split_and!; auto.
  - split_and!; [done|by apply Hl|done|by left|done].
Qed.

Lemma heartbeat_lease now w :
  lease_fit w ->
  let '(w', ok) := heartbeat c now w in
  lease_fit w' /\ (lease_of w' key = lease_of w key \/ renewed_since now w') /\ (ok = true -> renewed_since now w').
Proof.
  intros Hfit. unfold heartbeat. pose proof (nl_get_node name w) as Hg. destruct (GetNode name w) as [w1 r1].
  destruct Hg as (_ & Hl1 & _).
  assert (lease_of w1 key = lease_of w key) as E by by apply Hl1.
  assert (lease_fit w1) as Hfit1 by by unfold lease_fit; rewrite E.
  destruct r1 as [n|e|k]; [|split_and!; [done|by left|done]..].
  pose proof (nl_update_node (with_status n (nodeStatus c now)) w1) as Hu. destruct (UpdateNodeStatus _ w1) as [w2 r2].
  destruct Hu as (_ & Hl2 & _). assert (lease_of w2 key = lease_of w key) as E2 by by rewrite <-E; apply Hl2.
  pose proof (renew_lease now w2) as Hr. destruct (renewNodeLease c now w2) as [w3 r3].
  destruct Hr as (_ & _ & Hf & Hcase & Hok); [by unfold lease_fit; rewrite E2|]. split_and!; [done|by rewrite <-E2|done].
Qed.
(** *** Over many ticks *)

(** Consecutive times are at most [gap] apart. *)
Definition spaced (gap : Z) (ts : list Z) : Prop :=
  forall i a b, ts !! i = Some a -> ts !! S i = Some b -> (a <= b <= a + gap)%Z.

Lemma spaced_bounds gap ts i n a b :
  spaced gap ts -> ts !! i = Some a -> ts !! (i + n) = Some b -> (a <= b <= a + gap * Z.of_nat n)%Z.
Proof.
  intros Hs Ha. revert b. induction n as [|n IH]; intros b Hb.
  { rewrite Nat.add_0_r in Hb. simplify_eq. lia. }
  destruct (lookup_lt_is_Some_2 ts (i + n)) as [x Hx]. { apply lookup_lt_Some in Hb. lia. }
  specialize (IH x Hx). rewrite <-plus_n_Sm in Hb. pose proof (Hs _ _ _ Hx Hb). nia.
Qed.

Lemma spaced_tail gap t ts : spaced gap (t :: ts) -> spaced gap ts.
Proof. intros Hs i a b Ha Hb. exact (Hs (S i) a b Ha Hb). Qed.

Definition lease_kept (l : list (Z * (W -> W))) : Prop :=
  Forall (fun x => forall w, lease_of (x.2 w) key = lease_of w key) l.

Lemma renewed_weaken t t' w : (t <= t')%Z -> renewed_since t' w -> renewed_since t w.
Proof. intros Ht (l & r & d & ? & ? & ? & ? & ?). exists l, r, d. split_and!; done || lia. Qed.

Lemma renewed_kept t w w' : lease_of w' key = lease_of w key -> renewed_since t w -> renewed_since t w'.
Proof. intros E (l & r & d & ? & ?). exists l, r, d. by rewrite E. Qed.

Lemma heartbeats_keep l : forall w t, lease_fit w -> lease_kept l -> Forall (fun x => t <= x.1)%Z l ->
  renewed_since t w -> renewed_since t (heartbeats c l w).1.
Proof.
  induction l as [|[now others] l IH]; intros w t Hfit Hk Ht Hr; [done|]. cbn [heartbeats].
  apply Forall_cons in Hk as [Hk Hkl]. apply Forall_cons in Ht as [Ht Htl]. cbn [fst snd] in *.
  pose proof (heartbeat_lease now (others w)) as Hb. destruct (heartbeat c now (others w)) as [w1 ok].
  destruct Hb as (Hf & Hc & _); [by unfold lease_fit; rewrite Hk|].
  assert (renewed_since t w1) as Hr1.
  { destruct Hc as [E|Hnew]; [|by eapply renewed_weaken]. eapply renewed_kept; [|exact Hr]. by rewrite E. }
  specialize (IH w1 t Hf Hkl Htl Hr1). by destruct (heartbeats c l w1).
Qed.

(** A tick that renewed the lease keeps it renewed. *)
Lemma heartbeats_renewed gap l : forall w i t, lease_fit w -> lease_kept l -> spaced gap l.*1 ->
  (heartbeats c l w).2 !! i = Some (t, true) -> l.*1 !! i = Some t /\ renewed_since t (heartbeats c l w).1.
Proof.
  induction l as [|[now others] l IH]; intros w i t Hfit Hk Hs Hi; [done|]. cbn [heartbeats] in *.
  apply Forall_cons in Hk as [Hk Hkl]. cbn [fst snd] in *.
  pose proof (heartbeat_lease now (others w)) as Hb. destruct (heartbeat c now (others w)) as [w1 ok].
  destruct Hb as (Hf & _ & Hok); [by unfold lease_fit; rewrite Hk|].
  assert (Forall (fun x => now <= x.1)%Z l) as Hle.
  { apply Forall_lookup. intros j x Hx. apply (spaced_bounds gap _ 0 (S j) now x.1) in Hs; [apply Hs|done|].
    change (l.*1 !! j = Some x.1). by rewrite list_lookup_fmap, Hx. }
  pose proof (heartbeats_keep l w1 now Hf Hkl Hle) as Hkeep.
  pose proof (fun i t => IH w1 i t Hf Hkl (spaced_tail _ _ _ Hs)) as IH'.
  destruct (heartbeats c l w1) as [w2 tr]. destruct i as [|i]; cbn in *; [|by apply IH'].
  injection Hi as <- ->. auto.
Qed.

Lemma length_heartbeats l w : length (heartbeats c l w).2 = length l.
Proof.
  revert w. induction l as [|[now others] l IH]; intros w; [done|]. cbn [heartbeats].
  destruct (heartbeat c now (others w)) as [w1 ok]. specialize (IH w1). destruct (heartbeats c l w1). cbn in *. by rewrite IH.
Qed.

(** C18 The node does not fall out of the cluster: when ticks are at most 10
    seconds apart, the lease outlives two failed ticks in a row. If one of the
    last three ticks renewed it, then until 10 seconds after the last tick the
    lease is there and has not run out, whatever requests failed before and
    since and whatever others did to the cluster's other objects. *)
Theorem lease_stays_fresh l w i t last now :
  lease_fit w -> lease_kept l -> spaced (10 * sec) l.*1 ->
  (heartbeats c l w).2 !! i = Some (t, true) -> length l <= i + 3 ->
  l.*1 !! pred (length l) = Some last -> (now <= last + 10 * sec)%Z ->
  exists le r d, lease_of (heartbeats c l w).1 key = Some le /\ le_Renew le = Some r /\ le_Duration le = Some d /\
    (now < r + d * sec)%Z.
Proof.
  intros Hfit Hk Hs Hi Hlen Hlast Hnow.
  pose proof (lookup_lt_Some _ _ _ Hi) as Hlt. rewrite length_heartbeats in Hlt.
  destruct (heartbeats_renewed _ _ _ _ _ Hfit Hk Hs Hi) as [Ht (le & r & d & Hl & Hr & Hd & Hge & H40)].
  exists le, r, d. split_and!; [done..|].
  replace (pred (length l)) with (i + (pred (length l) - i)) in Hlast by lia.
  pose proof (spaced_bounds _ _ _ _ _ _ Hs Ht Hlast) as [_ Hb]. nia.
Qed.

(** The heartbeat does not register a node that is gone: it stays gone, and
    its lease is not renewed. *)
Lemma gone_node_stays_gone l w :
  node_of w name = None -> lease_kept l -> Forall (fun x => forall w, node_of (x.2 w) name = node_of w name) l ->
  node_of (heartbeats c l w).1 name = None /\ lease_of (heartbeats c l w).1 key = lease_of w key.
Proof.
  revert w. induction l as [|[now others] l IH]; intros w Hw Hk Hn; [done|]. cbn [heartbeats].
  apply Forall_cons in Hk as [Hk Hkl]. apply Forall_cons in Hn as [Hn Hnl]. cbn [fst snd] in *.
  assert (node_of (heartbeat c now (others w)).1 name = None /\ lease_of (heartbeat c now (others w)).1 key = lease_of w key) as [H1' H2'].
  { unfold heartbeat. pose proof (nl_get_node name (others w)) as Hg. destruct (GetNode name (others w)) as [w1 r].
    destruct Hg as (Hsn & Hsl & Hr). rewrite Hn, Hw in Hr. destruct r; cbn in Hr; [done|cbn|done].
    rewrite Hsn, Hsl by done. by rewrite Hn, Hk. }
  destruct (heartbeat c now (others w)) as [w1 ok]. cbn in *. destruct (IH w1 H1' Hkl Hnl) as [H3 H4].
  destruct (heartbeats c l w1). cbn in *. by rewrite H4.
Qed.
End LeaseProofs.

(** ** Start-up *)

(** What [main] has set going, oldest first. *)
Inductive start_op :=
| OStaticPods (dir : string)     (* [staticPodLoop] *)
| OKubelet (port : Z)            (* the kubelet server *)
| OClient                        (* the API client is stored: [cs() != nil] *)
| OInformers                     (* the watch caches of the resolver *)
| OHeartbeat                     (* [heartbeatLoop] *)
| OReconcile                     (* [reconcileLoop], until the context is done *)
| OKillVMs.                      (* the VMs are killed *)

#[export] Instance start_op_eq_dec : EqDecision start_op.
Proof. solve_decision. Defined.

(** The flags [main] looks at: those it makes absolute, in order (the images
    directory is among them), then the others. *)
Record flags := Flags {
  f_paths : list string; f_imagesDir : string; f_morePaths : list string; f_vmnetHelper : string; f_podCIDR6 : string; f_manifestDir : string
}.

(** How [main] ends: the context was done while it waited, or after the
    reconcile loop. A fatal error exits at once. *)
Inductive ending := Interrupted | Completed.

Section Main.
Context {W : Type} `{NodeAPI W} (c : node_config) (f : flags).
(** The host: [filepath.Abs], [os.MkdirAll], [os.Stat], the kubelet server
    and the kubeconfig. *)
Context (Abs : string -> option string) (mkdir_err stat_err : string -> option string).
Context (kubelet_err kubeconfig_err : option string).
(** The cluster: whether each poll of the apiserver got an answer, and for
    each attempt to register its time and what others did before it. Where a
    list ends the context is done. *)
Context (polls : list bool) (attempts : list (Z * (W -> W))).

Notation startM := (stM (W * list start_op) string).

Definition fatal_if (e : option string) : startM () := match e with Some e => st_fail e | None => mret () end.
Definition start_op_do (o : start_op) : startM () := fun s => ((s.1, s.2 ++ [o]), Ok ()).

(** An error of [filepath.Abs] is fatal. *)
Definition abs_path (p : string) : startM string :=
  match Abs p with Some d => mret d | None => st_fail ("abs " +:+ p) end.

Fixpoint abs_all (l : list string) : startM () :=
  match l with [] => mret () | p :: l' => abs_path p ≫= fun _ => abs_all l' end.

(** [--pod-cidr6] has to be an IPv6 /64. *)
Definition check_cidr : option string :=
  match ParsePrefix (f_podCIDR6 f) with
  | Some p => if bool_decide (px_bits p = 64%Z) && Is6 (px_ip p) then None else Some "--pod-cidr6 must be an IPv6 /64"
  | None => Some "--pod-cidr6 must be an IPv6 /64"
  end.

Definition start_static_pods : startM () :=
  if bool_decide (f_manifestDir f = "") then mret ()
  else
    abs_path (f_manifestDir f) ≫= fun dir =>
    fatal_if (mkdir_err dir) ≫= fun _ => start_op_do (OStaticPods dir).

(** The wait for the apiserver: false when the context was done first. *)
Fixpoint wait_apiserver (l : list bool) : bool :=
  match l with [] => false | up :: l' => if up : bool then true else wait_apiserver l' end.

(** The attempts to register, likewise. *)
Fixpoint register_loop (l : list (Z * (W -> W))) : startM bool :=
  match l with
  | [] => mret false
  | (now, others) :: l' => fun s =>
      let '(w, r) := registerNode c now (others s.1) in
      if is_ok r then ((w, s.2), Ok true) else register_loop l' (w, s.2)
  end.

(** [main] from the kubelet server on. *)
Definition join_cluster : startM ending :=
  fatal_if kubelet_err ≫= fun _ =>
  start_op_do (OKubelet (c_kubeletPort c)) ≫= fun _ =>
  fatal_if kubeconfig_err ≫= fun _ =>
  if negb (wait_apiserver polls) then mret Interrupted
  else
    start_op_do OClient ≫= fun _ =>
    start_op_do OInformers ≫= fun _ =>
    register_loop attempts ≫= fun registered : bool =>
    if negb registered then mret Interrupted
    else
      start_op_do OHeartbeat ≫= fun _ =>
      start_op_do OReconcile ≫= fun _ =>
      start_op_do OKillVMs ≫= fun _ => mret Completed.

Definition main : startM ending :=
  abs_all (f_paths f) ≫= fun _ => abs_path (f_imagesDir f) ≫= fun imagesDir => abs_all (f_morePaths f) ≫= fun _ =>
  fatal_if (mkdir_err imagesDir) ≫= fun _ =>
  (if bool_decide (f_vmnetHelper f = "") then mret ()
   else fatal_if check_cidr ≫= fun _ => fatal_if (stat_err (f_vmnetHelper f))) ≫= fun _ =>
  start_static_pods ≫= fun _ => join_cluster.

(** The order of start-up, as the comments of [main] give it. *)
Definition static_ops (dir : string) : list start_op :=
  if bool_decide (f_manifestDir f = "") then [] else [OStaticPods dir].
Definition start_order (dir : string) : list start_op :=
  static_ops dir ++
  [OKubelet (c_kubeletPort c); OClient; OInformers; OHeartbeat; OReconcile; OKillVMs].
End Main.

#[local] Arguments static_ops : simpl never.

Section MainProofs.
Context {W : Type} `{NodeLaws W} (c : node_config) (f : flags).
Context (Abs : string -> option string) (mkdir_err stat_err : string -> option string).
Context (kubelet_err kubeconfig_err : option string).
Context (polls : list bool) (attempts : list (Z * (W -> W))).
Notation name := (c_nodeName c).
Notation main := (main c f Abs mkdir_err stat_err kubelet_err kubeconfig_err polls attempts).

(** A step that sets nothing going and does not crash. *)
Definition silent {A} (m : stM (W * list start_op) string A) : Prop :=
  forall s, (exists a, m s = (s, Ok a)) \/ (exists e, m s = (s, Err e)).

Lemma silent_ret {A} (a : A) : silent (mret a).
Proof. intros s. left. by exists a. Qed.
Lemma silent_bind {A B} (m : stM (W * list start_op) string A) (k : A -> stM (W * list start_op) string B) :
  silent m -> (forall a, silent (k a)) -> silent (m ≫= k).
Proof.
  intros Hm Hk s. unfold mbind, stM_bind. destruct (Hm s) as [[a ->]|[e ->]]; [apply Hk|right; by exists e].
Qed.
Lemma silent_fatal e : silent (fatal_if e).
Proof. intros s. destruct e as [e|]; [right; by exists e|left; by exists tt]. Qed.
Lemma silent_abs p : silent (abs_path Abs p).
Proof. intros s. unfold abs_path. destruct (Abs p); [left|right]; by eexists. Qed.
Lemma silent_abs_all l : silent (abs_all Abs l).
Proof. induction l; cbn [abs_all]; [apply silent_ret|]. apply silent_bind; [apply silent_abs|done]. Qed.

(** A silent step before the rest of [main]. *)
Lemma after_silent {A B} (m : stM (W * list start_op) string A) (k : A -> stM (W * list start_op) string B) s
    (P : (W * list start_op) * result string B -> Prop) :
  silent m -> (forall e, P (s, Err e)) -> (forall a, P (k a s)) -> P ((m ≫= k) s).
Proof. intros Hm He Hk. unfold mbind, stM_bind. by destruct (Hm s) as [[a ->]|[e ->]]. Qed.

(** Registration loops until an attempt succeeds. *)
Lemma register_loop_spec (l : list (Z * (W -> W))) s :
  let '(s', r) := register_loop c l s in
  s'.2 = s.2 /\ (r = Ok false \/ (r = Ok true /\ exists now x, node_of s'.1 name = Some x /\ n_Status x = Some (nodeStatus c now))).
Proof.
  revert s. induction l as [|[now others] l IH]; intros s; cbn [register_loop]; [by split; [|left]|].
  pose proof (node_registers c now (others s.1)) as Hr. destruct (registerNode c now (others s.1)) as [w [[]|e|k]]; cbn [is_ok].
  - destruct Hr as (_ & _ & _ & Hr & _). split; [done|]. right. split; [done|]. cbn. exists now. by apply Hr.
  - apply (IH (w, s.2)).
  - apply (IH (w, s.2)).
Qed.
(** Lists that differ in length. *)
Ltac by_length E := apply (f_equal length) in E; rewrite !length_app in E; cbn in E; lia.

(** What holds when [main] ends in a state and with a result. *)
Definition startup_ok (s : W * list start_op) (r : result string ending) : Prop :=
  exists dir, s.2 `prefix_of` start_order c f dir /\
    (OClient ∈ s.2 -> wait_apiserver polls = true) /\
    (OHeartbeat ∈ s.2 -> exists now x, node_of s.1 name = Some x /\ n_Status x = Some (nodeStatus c now)) /\
    (r = Ok Completed <-> s.2 = start_order c f dir) /\
    (r = Ok Interrupted -> OKillVMs ∉ s.2 /\ (f_manifestDir f <> "" -> OStaticPods dir ∈ s.2)).

Lemma startup_failed w e : startup_ok (w, []) (Err e).
Proof.
  exists "". unfold start_order. split_and!; [by apply prefix_nil|set_solver|set_solver| |done].
  split; [done|]. intros E. by_length E.
Qed.

(** The part of [main] after the static pods were started. *)
Lemma main_rest w dir :
  let x := join_cluster c kubelet_err kubeconfig_err polls attempts (w, static_ops f dir) in startup_ok x.1 x.2.
Proof.
  cbn zeta. unfold join_cluster.
  unfold startup_ok, start_order. set (pods := static_ops f dir).
  assert (OClient ∉ pods /\ OHeartbeat ∉ pods /\ OKillVMs ∉ pods /\ (f_manifestDir f <> "" -> OStaticPods dir ∈ pods)) as (N1 & N2 & N3 & Hpods).
  { unfold pods, static_ops. case_bool_decide; set_solver. }
  assert (forall l1 l2 : list start_op, l1 `prefix_of` l2 -> pods ++ l1 `prefix_of` pods ++ l2) as Hpre by (intros; by apply prefix_app).
  unfold mbind, stM_bind, fatal_if, st_fail, start_op_do. destruct kubelet_err as [e|]; cbn [fst snd].
  { exists dir. cbn [fst snd mret stM_ret]. fold pods. split_and!; [by eexists|set_solver|set_solver| |done].
    split; [done|]. intros E. by_length E. }
  destruct kubeconfig_err as [e|]; cbn [fst snd mret stM_ret].
  { exists dir. cbn [fst snd mret stM_ret]. fold pods. split_and!; [by apply Hpre; exists [OClient; OInformers; OHeartbeat; OReconcile; OKillVMs]|set_solver|set_solver| |done].
    split; [done|]. intros E. by_length E. }
  destruct (wait_apiserver polls); cbn [negb].
  2: { exists dir. cbn [fst snd mret stM_ret]. fold pods. split_and!; [by apply Hpre; exists [OClient; OInformers; OHeartbeat; OReconcile; OKillVMs]|set_solver|set_solver| |].
    - split; [done|]. intros E. by_length E.
    - intros _. set_solver. }
  cbn [fst snd]. rewrite <-!app_assoc. cbn [app].
  pose proof (register_loop_spec attempts (w, pods ++ [OKubelet (c_kubeletPort c); OClient; OInformers])) as Hreg.
  destruct (register_loop c attempts _) as [[w' ops'] r]. cbn [fst snd] in Hreg. destruct Hreg as [-> [-> |[-> Hreg]]]; cbn [negb].
  - exists dir. cbn [fst snd mret stM_ret]. fold pods. split_and!; [by apply Hpre; exists [OHeartbeat; OReconcile; OKillVMs]|done|set_solver| |].
    + split; [done|]. intros E. by_length E.
    + intros _. set_solver.
  - exists dir. cbn [fst snd mret stM_ret]. fold pods. rewrite <-!app_assoc. cbn [app]. split_and!; done.
Qed.

Lemma start_static_pods_spec (w : W) :
  (exists dir, start_static_pods f Abs mkdir_err (w, []) = ((w, static_ops f dir), Ok ())) \/
  (exists e, start_static_pods f Abs mkdir_err (w, []) = ((w, []), Err e)).
Proof.
  unfold start_static_pods, static_ops. case_bool_decide; [left; by exists ""|].
  unfold mbind, stM_bind. destruct (silent_abs (f_manifestDir f) (w, [])) as [[dir ->]|[e ->]]; [|right; by exists e].
  destruct (silent_fatal (mkdir_err dir) (w, [])) as [[[] ->]|[e ->]]; [left; by exists dir|right; by exists e].
Qed.

(** C40 Start-up: whatever fails, what [main] sets going is a beginning of its
    order: the static pods first, before anything waits for the apiserver
    they are to become, then the kubelet server, then, once the apiserver
    answers, the client and its caches; the heartbeat and the reconcile loop
    only once the node is registered with its status; the VMs are killed
    exactly when all of it was reached. A [main] interrupted while it waits
    has started the static pods and kills none of their VMs. *)
Theorem agent_start_up w : let '(s', r) := main (w, []) in startup_ok s' r.
Proof.
  enough ((fun p : (W * list start_op) * result string ending => startup_ok p.1 p.2) (main (w, []))) as H' by by destruct (main (w, [])).
  unfold NodeAgent.main.
  apply after_silent; [apply silent_abs_all|intros; apply startup_failed|intros _].
  apply after_silent; [apply silent_abs|intros; apply startup_failed|intros imagesDir].
  apply after_silent; [apply silent_abs_all|intros; apply startup_failed|intros _].
  apply after_silent; [apply silent_fatal|intros; apply startup_failed|intros _].
  apply after_silent; [|intros; apply startup_failed|intros _].
  { case_bool_decide; [apply silent_ret|]. apply silent_bind; [apply silent_fatal|intros _; apply silent_fatal]. }
  unfold mbind, stM_bind. destruct (start_static_pods_spec w) as [[dir E]|[e E]]; rewrite !E; [apply main_rest|apply startup_failed].
Qed.
End MainProofs.

(** ** A server, and witnesses

    Objects by name, and for the next requests whether they fail; without an
    entry they succeed. *)

Record toy_nodes := ToyNodes {
  tn_nodes : gmap string (gmap string string * option NodeStatus * gmap string string);
  tn_leases : gmap (string * string) (option string * option Z * option Z);
  tn_fail : list bool
}.

Definition toy_node_of (w : toy_nodes) (n : string) : option Node :=
  (fun x => MkNode n x.1.1 x.1.2 x.2) <$> tn_nodes w !! n.
Definition toy_lease_of (w : toy_nodes) (k : string * string) : option Lease :=
  (fun x => MkLease k.1 k.2 x.1.1 x.1.2 x.2) <$> tn_leases w !! k.

Definition toy_put_node (x : Node) (w : toy_nodes) : toy_nodes :=
  ToyNodes (<[n_Name x := (n_Labels x, n_Status x, n_Rest x)]> (tn_nodes w)) (tn_leases w) (tn_fail w).
Definition toy_put_lease (x : Lease) (w : toy_nodes) : toy_nodes :=
  ToyNodes (tn_nodes w) (<[lease_key x := (le_Holder x, le_Duration x, le_Renew x)]> (tn_leases w)) (tn_fail w).

(** A request that may fail. *)
Definition toy_request {A} (m : stM toy_nodes api_error A) : stM toy_nodes api_error A := fun w =>
  let w' := ToyNodes (tn_nodes w) (tn_leases w) (tail (tn_fail w)) in
  if default false (head (tn_fail w)) then (w', Err ErrOther) else m w'.

Definition toy_get {A} (stored : toy_nodes -> option A) : stM toy_nodes api_error A :=
  toy_request (fun w => (w, match stored w with Some x => Ok x | None => Err ErrNotFound end)).
Definition toy_put {A} (may : toy_nodes -> bool) (put : A -> toy_nodes -> toy_nodes) (x : A) : stM toy_nodes api_error A :=
  toy_request (fun w => if may w then (put x w, Ok x) else (w, Err ErrOther)).

#[export] Instance toy_node_api : NodeAPI toy_nodes := {|
  GetNode n := toy_get (fun w => toy_node_of w n);
  CreateNode x := toy_put (fun w => bool_decide (toy_node_of w (n_Name x) = None)) toy_put_node x;
  UpdateNodeStatus x := toy_request (fun w =>
    match toy_node_of w (n_Name x) with
    | Some old => let y := MkNode (n_Name old) (n_Labels old) (n_Status x) (n_Rest old) in (toy_put_node y w, Ok y)
    | None => (w, Err ErrNotFound)
    end);
  GetLease k := toy_get (fun w => toy_lease_of w k);
  CreateLease x := toy_put (fun w => bool_decide (toy_lease_of w (lease_key x) = None)) toy_put_lease x;
  UpdateLease x := toy_put (fun w => negb (bool_decide (toy_lease_of w (lease_key x) = None))) toy_put_lease x;
  node_of := toy_node_of;
  lease_of := toy_lease_of
|}.

Lemma toy_node_put x w n : toy_node_of (toy_put_node x w) n = if decide (n_Name x = n) then Some x else toy_node_of w n.
Proof.
  unfold toy_node_of, toy_put_node. cbn. case_decide as E.
  - subst. rewrite lookup_insert_eq. by destruct x.
  - by rewrite lookup_insert_ne.
Qed.
Lemma toy_lease_put x w k : toy_lease_of (toy_put_lease x w) k = if decide (lease_key x = k) then Some x else toy_lease_of w k.
Proof.
  unfold toy_lease_of, toy_put_lease. cbn. case_decide as E.
  - subst. rewrite lookup_insert_eq. by destruct x.
  - by rewrite lookup_insert_ne.
Qed.

(** The failing requests, and what is left to show of the others. *)
Ltac toy_case :=
  unfold toy_get, toy_put, toy_request; destruct (default false (head (tn_fail _)));
  [split_and!; try done; try (eexists; split_and!; [..|by left]; done); by left|].

#[export] Instance toy_node_laws : NodeLaws toy_nodes.
Proof.
  split.
  - intros n w. cbn. toy_case. destruct w as [ns ls fs]. cbn. unfold toy_node_of. cbn.
    destruct (ns !! n); split_and!; done.
  - intros x w. cbn. toy_case. destruct w as [ns ls fs]. cbn [tn_nodes tn_leases tn_fail].
    case_bool_decide as E.
    + split_and!; [|done|].
      * intros n Hn. cbn. rewrite toy_node_put. rewrite decide_False by congruence. done.
      * exists x. split_and!; [done..|]. cbn. rewrite toy_node_put, decide_True by done.
        change (toy_node_of (ToyNodes ns ls fs) (n_Name x)) with (toy_node_of (ToyNodes ns ls (tail fs)) (n_Name x)). by rewrite E.
    + split_and!; [done..|]. exists x. split_and!; [done..|]. by left.
  - intros x w. cbn. toy_case. destruct w as [ns ls fs]. cbn [tn_nodes tn_leases tn_fail].
    change (toy_node_of (ToyNodes ns ls fs)) with (toy_node_of (ToyNodes ns ls (tail fs))).
    destruct (toy_node_of (ToyNodes ns ls (tail fs)) (n_Name x)) as [old|] eqn:E; cbn.
    + assert (n_Name old = n_Name x) as En.
      { unfold toy_node_of in E. apply fmap_Some in E as (? & _ & ->). done. }
      split_and!; [|done| |].
      * intros n Hn. rewrite toy_node_put. cbn. rewrite decide_False by congruence. done.
      * rewrite toy_node_put. cbn. by rewrite decide_True.
      * done.
    + split_and!; [done..|by left].
  - intros k w. cbn. toy_case. destruct w as [ns ls fs]. cbn. unfold toy_lease_of. cbn.
    destruct (ls !! k); split_and!; done.
  - intros x w. cbn. toy_case. destruct w as [ns ls fs]. cbn [tn_nodes tn_leases tn_fail].
    case_bool_decide as E; [|split_and!; [done..|by left]]. split_and!; [done| |].
    + intros n Hn. cbn. rewrite toy_lease_put. rewrite decide_False by congruence. done.
    + cbn. rewrite toy_lease_put, decide_True by done.
      change (toy_lease_of (ToyNodes ns ls fs) (lease_key x)) with (toy_lease_of (ToyNodes ns ls (tail fs)) (lease_key x)). by rewrite E.
  - intros x w. cbn. toy_case. destruct w as [ns ls fs]. cbn [tn_nodes tn_leases tn_fail].
    change (toy_lease_of (ToyNodes ns ls fs)) with (toy_lease_of (ToyNodes ns ls (tail fs))).
    case_bool_decide as E; cbn [negb]; [split_and!; [done..|by left]|]. split_and!; [done| |].
    + intros n Hn. cbn. rewrite toy_lease_put. rewrite decide_False by congruence. done.
    + cbn. rewrite toy_lease_put, decide_True by done. by destruct (toy_lease_of _ _).
  - intros w n x. cbn. unfold toy_node_of. intros (? & _ & ->)%fmap_Some. done.
  - intros w k x. cbn. unfold toy_lease_of. intros (? & _ & ->)%fmap_Some. by destruct k.
Qed.

Module NodeExample.

Definition config : node_config := NodeConfig "mac" "192.168.127.254" 10250.
Definition empty : toy_nodes := ToyNodes ∅ ∅ [].
Definition same (w : toy_nodes) : toy_nodes := w.
(** Others make the next request fail. *)
Definition break (w : toy_nodes) : toy_nodes := ToyNodes (tn_nodes w) (tn_leases w) [true].
Definition registered : toy_nodes := (registerNode config 0 empty).1.
Definition ticks : list (Z * (toy_nodes -> toy_nodes)) :=
  [(10 * sec, same); (20 * sec, break); (30 * sec, break)]%Z.
Definition start_flags : flags := Flags ["/h"] "/images" [] "/vmnet" "fd42:6b75:6265::/64" "manifests".

End NodeExample.

Lemma lease_stays_fresh_witness :
  (heartbeats NodeExample.config NodeExample.ticks NodeExample.registered).2 =
    [(10 * sec, true); (20 * sec, false); (30 * sec, false)]%Z /\
  exists le r d, lease_of (heartbeats NodeExample.config NodeExample.ticks NodeExample.registered).1 (node_lease NodeExample.config) = Some le /\
    le_Renew le = Some r /\ le_Duration le = Some d /\ (40 * sec < r + d * sec)%Z.
Proof.
  assert ((heartbeats NodeExample.config NodeExample.ticks NodeExample.registered).2 =
    [(10 * sec, true); (20 * sec, false); (30 * sec, false)]%Z) as Htr by (vm_compute; reflexivity).
  split; [exact Htr|].
  apply (lease_stays_fresh NodeExample.config NodeExample.ticks NodeExample.registered 0 (10 * sec) (30 * sec) (40 * sec)).
  - intros l Hl. discriminate Hl.
  - repeat constructor.
  - intros [|[|[|i]]] a b Ha Hb; cbn in Ha, Hb; simplify_eq; lia.
  - rewrite Htr. reflexivity.
  - cbn. lia.
  - reflexivity.
  - lia.
Defined.

Lemma agent_start_up_witness :
  let r := main NodeExample.config NodeExample.start_flags (fun p => Some ("/cwd/" +:+ p)) (fun _ => None) (fun _ => None) None None
    [false; true] [(5, NodeExample.break); (7, NodeExample.same)]%Z (NodeExample.empty, []) in
  r.1.2 = [OStaticPods "/cwd/manifests"; OKubelet 10250; OClient; OInformers; OHeartbeat; OReconcile; OKillVMs] /\
  r.2 = Ok Completed /\
  exists now x, node_of r.1.1 "mac" = Some x /\ n_Status x = Some (nodeStatus NodeExample.config now).
Proof.
  pose proof (agent_start_up NodeExample.config NodeExample.start_flags (fun p => Some ("/cwd/" +:+ p)) (fun _ => None) (fun _ => None)
    None None [false; true] [(5, NodeExample.break); (7, NodeExample.same)]%Z NodeExample.empty) as H.
  destruct (main _ _ _ _ _ _ _ _ _ _) as [[w ops] r] eqn:E. assert (ops = [OStaticPods "/cwd/manifests"; OKubelet 10250; OClient;
    OInformers; OHeartbeat; OReconcile; OKillVMs] /\ r = Ok Completed) as [-> ->] by (vm_compute in E; injection E as _ <- <-; done).
  destruct H as (dir & _ & _ & Hreg & _ & _). split; [done|]. split; [done|]. apply Hreg.
  apply (bool_decide_unpack _). vm_compute. exact I.
Defined.
