(* ===== verification/Volumes.v ===== *)
(** * Pod volumes (poc/agent/volumes.go, [resolveVolumes] in poc/agent/main.go)

    [resolveVolumes] turns a pod's volumes and mounts into the harness's
    [--volume] arguments and each container's mount plan; configMap and secret
    volumes are written to host files by [writeVolumeKeys]. The host's files
    are a map from paths to contents and permissions; which host operations
    fail (what a failing one leaves of its own file is not modelled), the umask
    and what the apiserver answers are parameters ([io_err], [stat_dir], [get_data]). Effects that
    precede an error stay, so a run returns the host state with the result.
    [range_data] is the order in which a Go map is ranged over. *)
From S2P Require Import Prelude GoStrings Pod PodLifecycle.

(** ** Host operations *)

Record host := Host { h_files : gmap string (bytes * Z) }.

Inductive op := OpRemoveAll (p : string) | OpMkdirAll (p : string) | OpWriteFile (p : string).

Inductive api_error := NotFound | OtherError (e : string).

(** State and error: what happened to the host stays. *)
Notation hostM := (stM host string).
Definition fail {A} (e : string) : hostM A := st_fail e.

Fixpoint mapM_ {A} (f : A -> hostM ()) (l : list A) : hostM () :=
  match l with
  | [] => mret ()
  | x :: l' => f x ≫= fun _ => mapM_ f l'
  end.

Section Volumes.
(** The errors of the host's operations, and the process's umask. *)
Context (io_err : host -> op -> option string) (umask : Z).
Context (stat_dir : string -> bool).
Context (range_data : gmap string bytes -> list (string * bytes)).
(** The apiserver: whether there is a client, and an object's [Data] and
    [BinaryData] (a secret has only [Data]). *)
Context (client : bool).
Context (get_data : bool -> string -> string -> api_error + gmap string bytes * gmap string bytes).

Definition try_op (o : op) (f : host -> host) : hostM () := fun h =>
  match io_err h o with Some e => (h, Err e) | None => (f h, Ok ()) end.

Definition RemoveAll (p : string) : hostM () :=
  try_op (OpRemoveAll p) (fun h => Host (filter (fun kv => ~ (kv.1 = p \/ HasPrefix kv.1 (p +:+ "/") = true)) (h_files h))).
Definition MkdirAll (p : string) : hostM () := try_op (OpMkdirAll p) id.

(** The permissions a file created with the [os.FileMode] [m] gets: its low
    nine bits and Go's bits for setuid, setgid and sticky, less the umask. *)
Definition syscallMode (m : Z) : Z :=
  Z.lor (Z.land m 0x1FF) (Z.lor (if Z.testbit m 23 then 0x800 else 0) (Z.lor (if Z.testbit m 22 then 0x400 else 0) (if Z.testbit m 20 then 0x200 else 0))).
Definition created (m : Z) : Z := Z.land (syscallMode m) (Z.lnot umask).

(** [os.WriteFile]: a file that is there is truncated and keeps its
    permissions. *)
Definition write_file (p : string) (content : bytes) (m : Z) (files : gmap string (bytes * Z)) : gmap string (bytes * Z) :=
  <[p := (content, match files !! p with Some (_, old) => old | None => created m end)]> files.
Definition WriteFile (p : string) (content : bytes) (m : Z) : hostM () :=
  try_op (OpWriteFile p) (fun h => Host (write_file p content m (h_files h))).

Definition freshDir (dir : string) : hostM () := RemoveAll dir ≫= fun _ => MkdirAll dir.

(** ** [writeVolumeKeys] *)

Definition key_target (dir relPath : string) : string := PathJoin [dir; Clean ("/" +:+ relPath)].

Definition write_key (dir relPath : string) (content : bytes) (m : Z) : hostM () :=
  let target := key_target dir relPath in
  MkdirAll (Dir target) ≫= fun _ => WriteFile target content m.

Definition writeVolumeKeys (dir : string) (data : gmap string bytes) (items : list KeyToPath) (defaultMode : option Z)
  : hostM () :=
  freshDir dir ≫= fun _ =>
  let mode := default 0x1A4%Z defaultMode in
  match items with
  | [] => mapM_ (fun kv => write_key dir kv.1 kv.2 mode) (range_data data)
  | _ =>
      mapM_ (fun item =>
        match data !! it_Key item with
        | None => fail "key not found"
        | Some v => write_key dir (it_Path item) v (default mode (it_Mode item))
        end) items
  end.

(** [materializeConfigMap] ([is_secret = false]) and [materializeSecret]. *)
Definition materializeObject (is_secret : bool) (ns name : string) (items : list KeyToPath) (mode : option Z)
  (optional : bool) (dir : string) : hostM () :=
  if negb client then fail "apiserver not available yet"
  else
    match get_data is_secret ns name with
    | inl NotFound => if optional then freshDir dir else fail "not found"
    | inl (OtherError e) => fail e
    | inr (data, binary) => writeVolumeKeys dir (binary ∪ data) items mode
    end.

(** ** [resolveVolumes] *)

Record volumeMount := MkVolumeMount { vm_Tag : string; vm_MountPath : string; vm_ReadOnly : bool }.

Record plan := Plan {
  pl_hostDirs : gmap string string; pl_forceRO : gset string;
  pl_tags : gmap string string; pl_args : list string; pl_mounts : gmap string (list volumeMount)
}.

(** The last volume of a name. *)
Definition byName (pod : Pod) : gmap string Volume := build_map ((fun v => (v_Name v, v)) <$> p_Volumes pod).

Definition anyRW (pod : Pod) (v : string) : bool :=
  existsb (fun c => existsb (fun m => bool_decide (m_Name m = v) && negb (m_ReadOnly m)) (ct_VolumeMounts c))
    (allContainers pod).

Definition is_static (pod : Pod) : bool := bool_decide (annotation pod sourceAnnotation = "file").

Definition volume_dir (stateDir : string) (vol : Volume) : string := PathJoin [stateDir; "volumes"; v_Name vol].

(** The host directory of a volume and whether it is read-only by kind. *)
Definition materialize_source (pod : Pod) (stateDir : string) (vol : Volume) : hostM (string * bool) :=
  let dir := volume_dir stateDir vol in
  match v_Source vol with
  | HostPath path t =>
      let t := default "" t in
      if bool_decide (t = "" \/ t = "Directory") then
        if stat_dir path then mret (path, false) else fail "not an existing directory"
      else if bool_decide (t = "DirectoryOrCreate") then MkdirAll path ≫= fun _ => mret (path, false)
      else fail "hostPath type not supported"
  | EmptyDir => MkdirAll dir ≫= fun _ => mret (dir, false)
  | ConfigMap name items mode optional =>
      if is_static pod then fail "static pods cannot reference API objects"
      else materializeObject false (p_Namespace pod) name items mode optional dir ≫= fun _ => mret (dir, true)
  | Secret name items mode optional =>
      if is_static pod then fail "static pods cannot reference API objects"
      else materializeObject true (p_Namespace pod) name items mode optional dir ≫= fun _ => mret (dir, true)
  | _ => fail "unsupported volume type"
  end.

(** [materialize]: once per volume name. *)
Definition materialize (pod : Pod) (stateDir : string) (vol : Volume) (pl : plan) : hostM (string * plan) :=
  match pl_hostDirs pl !! v_Name vol with
  | Some d => mret (d, pl)
  | None =>
      materialize_source pod stateDir vol ≫= fun r : string * bool =>
      let '(d, ro) := r in
      mret (d, Plan (<[v_Name vol := d]> (pl_hostDirs pl))
                 (if ro then {[v_Name vol]} ∪ pl_forceRO pl else pl_forceRO pl)
                 (pl_tags pl) (pl_args pl) (pl_mounts pl))
  end.

Definition volume_arg (pod : Pod) (tag hostDir v : string) (forceRO : gset string) : string :=
  tag +:+ "=" +:+ hostDir +:+ (if negb (anyRW pod v) || bool_decide (v ∈ forceRO) then ":ro" else "").

(** The tag of a volume: a new device on its first mount. *)
Definition assign_tag (pod : Pod) (v hostDir : string) (pl : plan) : string * plan :=
  match pl_tags pl !! v with
  | Some tag => (tag, pl)
  | None =>
      let tag := "vol" +:+ pretty (size (pl_tags pl)) in
      (tag, Plan (pl_hostDirs pl) (pl_forceRO pl) (<[v := tag]> (pl_tags pl))
              (pl_args pl ++ ["--volume"; volume_arg pod tag hostDir v (pl_forceRO pl)]) (pl_mounts pl))
  end.

Definition add_mount (c : string) (vm : volumeMount) (pl : plan) : plan :=
  Plan (pl_hostDirs pl) (pl_forceRO pl) (pl_tags pl) (pl_args pl)
    (<[c := default [] (pl_mounts pl !! c) ++ [vm]]> (pl_mounts pl)).

Definition mount_step (pod : Pod) (stateDir : string) (c : Container) (m : VolumeMount) (pl : plan) : hostM plan :=
  match byName pod !! m_Name m with
  | None => fail "no such volume"
  | Some vol =>
      if bool_decide (m_SubPath m <> "" \/ m_SubPathExpr m <> "") then fail "subPath not supported"
      else
        match v_Source vol with
        | Projected => mret pl
        | _ =>
            materialize pod stateDir vol pl ≫= fun r : string * plan =>
            let '(hostDir, pl) := r in
            let '(tag, pl) := assign_tag pod (v_Name vol) hostDir pl in
            mret (add_mount (ct_Name c)
                    (MkVolumeMount tag (m_MountPath m) (m_ReadOnly m || bool_decide (v_Name vol ∈ pl_forceRO pl))) pl)
        end
  end.

Fixpoint mount_loop (pod : Pod) (stateDir : string) (l : list (Container * VolumeMount)) (pl : plan) : hostM plan :=
  match l with
  | [] => mret pl
  | (c, m) :: l' => mount_step pod stateDir c m pl ≫= mount_loop pod stateDir l'
  end.

(** The nested loops over containers and their mounts. *)
Definition all_mounts (pod : Pod) : list (Container * VolumeMount) :=
  allContainers pod ≫= fun c => (fun m => (c, m)) <$> ct_VolumeMounts c.

Definition resolveVolumes (pod : Pod) (stateDir : string) : hostM (list string * gmap string (list volumeMount)) :=
  mount_loop pod stateDir (all_mounts pod) (Plan ∅ ∅ ∅ [] ∅) ≫= fun pl => mret (pl_args pl, pl_mounts pl).

(** ** Confinement *)

(** A computation leaves every path with the property alone. *)
Definition leaves {A} (P : string -> Prop) (m : hostM A) : Prop :=
  forall h p, P p -> h_files (m h).1 !! p = h_files h !! p.

Lemma leaves_ret {A} P (a : A) : leaves P (mret a).
Proof. by intros h p. Qed.
Lemma leaves_fail {A} P e : leaves P (@fail A e).
Proof. by intros h p. Qed.
Lemma leaves_bind {A B} P (m : hostM A) (f : A -> hostM B) :
  leaves P m -> (forall a, leaves P (f a)) -> leaves P (m ≫= f).
Proof.
  intros Hm Hf h p Hp. unfold mbind, stM_bind. specialize (Hm h p Hp).
  destruct (m h) as [h' [a| |]]; cbn in *; [|done..]. by rewrite Hf.
Qed.
Lemma leaves_mapM {A} P (f : A -> hostM ()) l : (forall x, x ∈ l -> leaves P (f x)) -> leaves P (mapM_ f l).
Proof.
  induction l as [|x l IH]; intros H; cbn; [apply leaves_ret|].
  apply leaves_bind; [apply H; by left|]. intros _. apply IH. intros y Hy. apply H. by right.
Qed.
Lemma leaves_MkdirAll P p : leaves P (MkdirAll p).
Proof. intros h q Hq. unfold MkdirAll, try_op. by destruct (io_err _ _). Qed.
Lemma leaves_WriteFile P p c m : ~ P p -> leaves P (WriteFile p c m).
Proof.
  intros Hp h q Hq. unfold WriteFile, try_op. destruct (io_err _ _); [done|]. cbn. unfold write_file. rewrite lookup_insert_ne; [done|].
  by intros <-.
Qed.
Lemma leaves_RemoveAll P p : (forall q, P q -> ~ inside p q) -> leaves P (RemoveAll p).
Proof.
  intros Hp h q Hq. unfold RemoveAll, try_op. destruct (io_err _ _); [done|]. cbn.
  destruct (h_files h !! q) as [f|] eqn:Hf.
  - apply map_lookup_filter_Some. split; [done|]. by apply Hp.
  - apply map_lookup_filter_None. by left.
Qed.

Lemma key_target_abs d r : d <> [] -> Forall plain d -> exists l, Forall plain l /\ key_target (abs_path d) r = abs_path (d ++ l).
Proof.
  intros Hne Hd. unfold key_target. assert (is_rooted ("/" +:+ r) = true) as Hr by apply HasPrefix_app.
  rewrite (Clean_rooted _ Hr). exists (clean_comps ("/" +:+ r)). pose proof (clean_comps_plain _ Hr).
  split; [done|]. by apply PathJoin_abs.
Qed.

Lemma leaves_freshDir P d : (forall q, P q -> ~ inside d q) -> leaves P (freshDir d).
Proof. intros H. apply leaves_bind; [by apply leaves_RemoveAll|]. intros _. apply leaves_MkdirAll. Qed.

Lemma leaves_write_key P d r c m :
  d <> [] -> Forall plain d -> (forall q, P q -> ~ inside (abs_path d) q) -> leaves P (write_key (abs_path d) r c m).
Proof.
  intros Hne Hd HP. apply leaves_bind; [apply leaves_MkdirAll|]. intros _. apply leaves_WriteFile.
  destruct (key_target_abs d r Hne Hd) as (l & _ & ->). intros Hq. by apply (HP _ Hq), inside_abs.
Qed.

Lemma leaves_writeVolumeKeys P d data items mode :
  d <> [] -> Forall plain d -> (forall q, P q -> ~ inside (abs_path d) q) ->
  leaves P (writeVolumeKeys (abs_path d) data items mode).
Proof.
  intros Hne Hd HP. apply leaves_bind; [by apply leaves_freshDir|]. intros _. destruct items as [|i items].
  - apply leaves_mapM. intros kv _. by apply leaves_write_key.
  - apply leaves_mapM. intros item _. destruct (data !! it_Key item); [by apply leaves_write_key|apply leaves_fail].
Qed.

(** ** The plan *)

(** Mounts that get a device: not projected. *)
Definition live (pod : Pod) (cm : Container * VolumeMount) : Prop :=
  exists vol, byName pod !! m_Name cm.2 = Some vol /\ v_Source vol <> Projected.
#[global] Instance live_dec pod cm : Decision (live pod cm).
Proof.
  unfold live. destruct (byName pod !! m_Name cm.2) as [vol|].
  - destruct (v_Source vol) eqn:E; (left; exists vol; split; [done|by rewrite E]) || (right; intros (? & [= <-] & ?); done).
  - right. by intros (? & ? & _).
Defined.

(** The volumes that need a device, in the order of their first mount. *)
Definition used (pod : Pod) (l : list (Container * VolumeMount)) : list string :=
  first_uses ((fun cm => m_Name cm.2) <$> filter (live pod) l).

Definition tag_of (k : nat) : string := "vol" +:+ pretty k.

(** ConfigMaps and secrets are read-only by kind. *)
Definition api_kind (pod : Pod) (v : string) : bool :=
  match v_Source <$> byName pod !! v with Some (ConfigMap _ _ _ _) | Some (Secret _ _ _ _) => true | _ => false end.

Definition device_ro (pod : Pod) (v : string) : bool := negb (anyRW pod v) || api_kind pod v.

(** Where a volume is on the host. *)
Definition host_dir (pod : Pod) (stateDir v : string) : string :=
  match v_Source <$> byName pod !! v with
  | Some (HostPath path _) => path
  | _ => PathJoin [stateDir; "volumes"; v]
  end.

Definition device_args (pod : Pod) (stateDir : string) (k : nat) (v : string) : list string :=
  ["--volume"; tag_of k +:+ "=" +:+ host_dir pod stateDir v +:+ (if device_ro pod v then ":ro" else "")].

(** The entry of a mount in its container's plan. *)
Definition mount_entry (pod : Pod) (vols : list string) (m : VolumeMount) : volumeMount :=
  MkVolumeMount (default "" (tag_of <$> index_of (m_Name m) vols)) (m_MountPath m)
    (m_ReadOnly m || api_kind pod (m_Name m)).

Definition entries_for (pod : Pod) (vols : list string) (cn : string) (l : list (Container * VolumeMount)) : list volumeMount :=
  (fun cm => mount_entry pod vols cm.2) <$> filter (fun cm => ct_Name cm.1 = cn) (filter (live pod) l).

Record plan_ok (pod : Pod) (stateDir : string) (l : list (Container * VolumeMount)) (pl : plan) : Prop := {
  po_dirs : forall v, pl_hostDirs pl !! v = if decide (v ∈ used pod l) then Some (host_dir pod stateDir v) else None;
  po_ro : forall v, v ∈ pl_forceRO pl <-> v ∈ used pod l /\ api_kind pod v = true;
  po_tags : forall v, pl_tags pl !! v = tag_of <$> index_of v (used pod l);
  po_args : pl_args pl = concat (imap (device_args pod stateDir) (used pod l));
  po_mounts : forall cn, default [] (pl_mounts pl !! cn) = entries_for pod (used pod l) cn l
}.

Lemma byName_name pod v vol : byName pod !! v = Some vol -> v_Name vol = v.
Proof.
  unfold byName, build_map. assert (forall m : gmap string Volume, (forall k x, m !! k = Some x -> v_Name x = k) ->
    forall k x, foldl (fun m kv => <[kv.1 := kv.2]> m) m ((fun v => (v_Name v, v)) <$> p_Volumes pod) !! k = Some x -> v_Name x = k) as H.
  { induction (p_Volumes pod) as [|y l IH]; intros m Hm k x; cbn; [apply Hm|]. apply IH. intros k' x'.
    destruct (decide (k' = v_Name y)) as [->|]; [rewrite lookup_insert_eq; congruence|rewrite lookup_insert_ne by done; apply Hm]. }
  apply H. intros k x. by rewrite lookup_empty.
Qed.

Lemma used_snoc_dead pod l cm : ~ live pod cm -> used pod (l ++ [cm]) = used pod l.
Proof. intros H. unfold used. rewrite filter_app, filter_cons, decide_False by done. by rewrite app_nil_r. Qed.

Lemma used_snoc_live pod l cm :
  live pod cm -> used pod (l ++ [cm]) =
    if decide (m_Name cm.2 ∈ used pod l) then used pod l else used pod l ++ [m_Name cm.2].
Proof.
  intros H. unfold used. rewrite filter_app, filter_cons, decide_True by done. rewrite fmap_app. cbn.
  by rewrite first_uses_snoc.
Qed.

Lemma elem_of_used pod l v : v ∈ used pod l <-> exists cm, cm ∈ l /\ live pod cm /\ m_Name cm.2 = v.
Proof.
  unfold used. rewrite elem_of_first_uses, list_elem_of_fmap. setoid_rewrite list_elem_of_filter. naive_solver.
Qed.

(** A successful materialization says where the volume is. *)
Lemma materialize_source_dir pod stateDir v vol h h' d ro :
  byName pod !! v = Some vol -> materialize_source pod stateDir vol h = (h', Ok (d, ro)) ->
  d = host_dir pod stateDir v /\ ro = api_kind pod v.
Proof.
  intros Hv. pose proof (byName_name _ _ _ Hv) as Hn. unfold materialize_source, host_dir, api_kind, volume_dir.
  rewrite Hv. cbn. rewrite Hn. unfold mbind, stM_bind, fail, mret, stM_ret.
  destruct (v_Source vol); repeat case_match; intros [=]; subst; done.
Qed.

Lemma index_used_mono pod l cm v :
  v ∈ used pod l -> index_of v (used pod (l ++ [cm])) = index_of v (used pod l).
Proof.
  intros Hv. destruct (decide (live pod cm)); [rewrite used_snoc_live by done|by rewrite used_snoc_dead].
  case_decide; [done|]. by apply index_of_app_l.
Qed.

Lemma entries_mono pod l cm cn : entries_for pod (used pod (l ++ [cm])) cn l = entries_for pod (used pod l) cn l.
Proof.
  unfold entries_for. apply list_fmap_ext. intros k x Hk. apply list_elem_of_lookup_2 in Hk.
  apply list_elem_of_filter in Hk as [_ Hk]. apply list_elem_of_filter in Hk as [Hlive Hin].
  unfold mount_entry. rewrite index_used_mono; [done|]. apply elem_of_used. by exists x.
Qed.

Lemma entries_snoc pod U l c m cn :
  live pod (c, m) ->
  entries_for pod U cn (l ++ [(c, m)]) =
    entries_for pod U cn l ++ (if decide (ct_Name c = cn) then [mount_entry pod U m] else []).
Proof.
  intros Hl. unfold entries_for. rewrite !filter_app, !fmap_app. f_equal.
  assert (filter (live pod) [(c, m)] = [(c, m)]) as -> by (rewrite filter_cons; by rewrite decide_True).
  rewrite filter_cons. cbn. by destruct (decide (ct_Name c = cn)).
Qed.

Lemma add_mount_entries pl c vm cn :
  default [] (pl_mounts (add_mount c vm pl) !! cn) =
    default [] (pl_mounts pl !! cn) ++ (if decide (c = cn) then [vm] else []).
Proof.
  cbn. destruct (decide (c = cn)) as [->|]; [by rewrite lookup_insert_eq|].
  rewrite lookup_insert_ne by done. by rewrite app_nil_r.
Qed.

(** A volume met before: only its mount is new. *)
Lemma plan_step_old pod sd l pl c m :
  plan_ok pod sd l pl -> live pod (c, m) -> m_Name m ∈ used pod l -> forall tag,
  pl_tags pl !! m_Name m = Some tag ->
  plan_ok pod sd (l ++ [(c, m)]) (add_mount (ct_Name c)
    (MkVolumeMount tag (m_MountPath m) (m_ReadOnly m || bool_decide (m_Name m ∈ pl_forceRO pl))) pl).
Proof.
  intros [P1 P2 P3 P4 P5] Hlive Hin tag Htag.
  assert (used pod (l ++ [(c, m)]) = used pod l) as HU by (rewrite used_snoc_live by done; by rewrite decide_True).
  split; rewrite ?HU; [exact P1|exact P2|exact P3|exact P4|]. intros cn.
  rewrite add_mount_entries, P5, entries_snoc by done. f_equal. destruct (decide (ct_Name c = cn)); [|done].
  f_equal. unfold mount_entry. rewrite P3 in Htag. rewrite Htag. f_equal. f_equal.
  destruct (api_kind pod (m_Name m)) eqn:Ek; [by apply bool_decide_true, P2|].
  apply bool_decide_false. rewrite P2, Ek. by intros [_ ?].
Qed.

Definition new_volume (pod : Pod) (v d : string) (ro : bool) (pl : plan) : plan :=
  (assign_tag pod v d (Plan (<[v := d]> (pl_hostDirs pl)) (if ro then {[v]} ∪ pl_forceRO pl else pl_forceRO pl)
    (pl_tags pl) (pl_args pl) (pl_mounts pl))).2.

(** A new volume: a device more. *)
Lemma plan_step_new pod sd l pl c m :
  plan_ok pod sd l pl -> size (pl_tags pl) = length (used pod l) -> live pod (c, m) -> m_Name m ∉ used pod l ->
  let v := m_Name m in
  let pl1 := new_volume pod v (host_dir pod sd v) (api_kind pod v) pl in
  size (pl_tags pl1) = length (used pod (l ++ [(c, m)])) /\
  plan_ok pod sd (l ++ [(c, m)]) (add_mount (ct_Name c)
    (MkVolumeMount (tag_of (length (used pod l))) (m_MountPath m) (m_ReadOnly m || bool_decide (v ∈ pl_forceRO pl1))) pl1).
Proof.
  intros [P1 P2 P3 P4 P5] Hsz Hlive Hin v pl1.
  assert (used pod (l ++ [(c, m)]) = used pod l ++ [v]) as HU by (rewrite used_snoc_live by done; by rewrite decide_False).
  assert (pl_tags pl !! v = None) as Htag by (rewrite P3; by rewrite (proj2 (index_of_None _ _) Hin)).
  assert (v ∉ pl_forceRO pl) as Hro by (rewrite P2; by intros [? _]).
  assert (forall w, w ∈ pl_forceRO pl1 <-> w ∈ used pod l ++ [v] /\ api_kind pod w = true) as Q2.
  { intros w. unfold pl1, new_volume, assign_tag. cbn [pl_tags]. rewrite Htag. cbn [snd pl_forceRO].
    rewrite elem_of_app, list_elem_of_singleton. clear -P2. destruct (api_kind pod v) eqn:Ek.
    - rewrite elem_of_union, elem_of_singleton, P2. split; [intros [->|[? ?]]; auto|intros [[?| ->] ?]; auto].
    - rewrite P2. split; [intros [? ?]; auto|intros [[?| ->] ?]; [auto|congruence]]. }
  assert (bool_decide (v ∈ pl_forceRO pl1) = api_kind pod v) as Hbd.
  { destruct (api_kind pod v) eqn:Ek; [apply bool_decide_true|apply bool_decide_false]; rewrite Q2, Ek;
      rewrite elem_of_app, list_elem_of_singleton; [by split; [right|]|by intros [_ ?]]. }
  rewrite HU. unfold pl1, new_volume, assign_tag in *. cbn [pl_tags] in *. rewrite Htag in *.
  cbn [snd pl_forceRO pl_tags pl_hostDirs pl_args pl_mounts] in *. split.
  { rewrite map_size_insert_None by done. rewrite length_app, Hsz. cbn. lia. }
  split; rewrite ?HU; cbn [add_mount pl_hostDirs pl_forceRO pl_tags pl_args].
  - intros w. destruct (decide (w = v)) as [->|Hw].
    + rewrite lookup_insert_eq, decide_True; [done|]. apply elem_of_app. right. by apply list_elem_of_singleton.
    + rewrite lookup_insert_ne, P1 by done. assert (w ∈ used pod l ++ [v] <-> w ∈ used pod l) as E.
      { rewrite elem_of_app, list_elem_of_singleton. split; [by intros [?|?]|by left]. }
      destruct (decide (w ∈ used pod l)), (decide (w ∈ used pod l ++ [v])); try done; exfalso; tauto.
  - exact Q2.
  - intros w. destruct (decide (w = v)) as [->|Hw].
    + rewrite lookup_insert_eq, index_of_snoc by done. cbn. by rewrite Hsz.
    + rewrite lookup_insert_ne, P3 by done. f_equal. destruct (decide (w ∈ used pod l)) as [Hw'|Hw'].
      * by rewrite index_of_app_l.
      * rewrite (proj2 (index_of_None _ _) Hw'). symmetry. apply index_of_None.
        rewrite elem_of_app, list_elem_of_singleton. by intros [?|?].
  - rewrite imap_app, concat_app, P4. cbn. unfold device_args, volume_arg, device_ro. rewrite Nat.add_0_r, Hsz, Hbd. done.
  - intros cn. rewrite add_mount_entries. cbn [pl_mounts]. rewrite P5, <-(entries_mono pod l (c, m)), HU, entries_snoc by done.
    f_equal. destruct (decide (ct_Name c = cn)); [|done]. f_equal. unfold mount_entry. fold v.
    rewrite index_of_snoc by done. by rewrite Hbd.
Qed.

Lemma plan_step_dead pod sd l pl cm : plan_ok pod sd l pl -> ~ live pod cm -> plan_ok pod sd (l ++ [cm]) pl.
Proof.
  intros [P1 P2 P3 P4 P5] Hd. split; rewrite ?used_snoc_dead by done; [done..|]. intros cn. rewrite P5.
  unfold entries_for. rewrite (filter_app (live pod)). assert (filter (live pod) [cm] = []) as ->.
  { rewrite filter_cons. by rewrite decide_False. }
  by rewrite app_nil_r.
Qed.

Lemma mount_step_ok pod sd l pl c m h h' pl' :
  plan_ok pod sd l pl -> size (pl_tags pl) = length (used pod l) -> mount_step pod sd c m pl h = (h', Ok pl') ->
  plan_ok pod sd (l ++ [(c, m)]) pl' /\ size (pl_tags pl') = length (used pod (l ++ [(c, m)])).
Proof.
  intros HP Hsz. unfold mount_step. destruct (byName pod !! m_Name m) as [vol|] eqn:Hv; [|done].
  pose proof (byName_name _ _ _ Hv) as Hn. case_bool_decide as Hsub; [done|].
  assert (v_Source vol = Projected \/ v_Source vol <> Projected) as [Hp|Hp].
  { destruct (v_Source vol); (by left) || by right. }
  { assert (~ live pod (c, m)) as Hd by (intros (v' & Hv' & ?); cbn in Hv'; congruence).
    rewrite Hp. intros [= <- <-]. split; [by apply plan_step_dead|]. by rewrite used_snoc_dead. }
  assert (live pod (c, m)) as Hlive by (by exists vol). intros H.
  assert ((materialize pod sd vol pl ≫= fun r : string * plan => let '(hostDir, pl) := r in
      let '(tag, pl) := assign_tag pod (v_Name vol) hostDir pl in
      mret (add_mount (ct_Name c)
        (MkVolumeMount tag (m_MountPath m) (m_ReadOnly m || bool_decide (v_Name vol ∈ pl_forceRO pl))) pl)) h = (h', Ok pl')) as Hm.
  { by destruct (v_Source vol). }
  clear H. rewrite Hn in Hm. unfold materialize in Hm. rewrite Hn, (po_dirs _ _ _ _ HP) in Hm.
  destruct (decide (m_Name m ∈ used pod l)) as [Hin|Hin].
  - destruct (index_of_elem _ _ Hin) as (k & Hk & _).
    assert (pl_tags pl !! m_Name m = Some (tag_of k)) as Ht by (by rewrite (po_tags _ _ _ _ HP), Hk).
    cbv beta iota delta [mbind stM_bind mret stM_ret] in Hm. unfold assign_tag in Hm. rewrite Ht in Hm. injection Hm as <- <-. split; [by apply plan_step_old|].
    rewrite used_snoc_live by done. by rewrite decide_True.
  - unfold mbind, stM_bind in Hm. destruct (materialize_source pod sd vol h) as [h1 [[d ro]| |]] eqn:Hs; [|done|done].
    destruct (materialize_source_dir _ _ _ _ _ _ _ _ Hv Hs) as [-> ->].
    destruct (plan_step_new pod sd l pl c m HP Hsz Hlive Hin) as [Hsz' HP'].
    cbv beta iota delta [mret stM_ret] in Hm. unfold new_volume in *.
    assert (pl_tags pl !! m_Name m = None) as Ht.
    { rewrite (po_tags _ _ _ _ HP). by rewrite (proj2 (index_of_None _ _) Hin). }
    destruct (assign_tag _ _ _ _) as [tag pl1] eqn:Ea. cbn [snd] in *.
    assert (tag = tag_of (length (used pod l))) as ->.
    { unfold assign_tag in Ea. cbn [pl_tags] in Ea. rewrite Ht in Ea. injection Ea as <- _. by rewrite Hsz. }
    injection Hm as <- <-. split; [exact HP'|exact Hsz'].
Qed.

Lemma plan_ok_nil pod sd : plan_ok pod sd [] (Plan ∅ ∅ ∅ [] ∅).
Proof.
  split; cbn; [intros v; apply lookup_empty|intros v; split; [set_solver|]; intros [?%not_elem_of_nil _]; done| |done|].
  - intros v. apply lookup_empty.
  - intros cn. by rewrite lookup_empty.
Qed.

Lemma mount_loop_ok pod sd l2 : forall l1 pl h h' pl',
  plan_ok pod sd l1 pl -> size (pl_tags pl) = length (used pod l1) -> mount_loop pod sd l2 pl h = (h', Ok pl') ->
  plan_ok pod sd (l1 ++ l2) pl'.
Proof.
  induction l2 as [|[c m] l2 IH]; intros l1 pl h h' pl' HP Hsz H.
  - injection H as <- <-. by rewrite app_nil_r.
  - cbn in H. unfold mbind, stM_bind in H. destruct (mount_step pod sd c m pl h) as [h1 [pl1| |]] eqn:Hs; [|done|done].
    destruct (mount_step_ok _ _ _ _ _ _ _ _ _ HP Hsz Hs) as [HP1 Hsz1].
    specialize (IH _ _ _ _ _ HP1 Hsz1 H). by rewrite <-app_assoc in IH.
Qed.

(** What a successful run has planned, at the volumes it used. *)
Lemma resolveVolumes_plan pod stateDir h h' args mounts :
  resolveVolumes pod stateDir h = (h', Ok (args, mounts)) ->
  args = concat (imap (device_args pod stateDir) (used pod (all_mounts pod))) /\
  forall cn, default [] (mounts !! cn) = entries_for pod (used pod (all_mounts pod)) cn (all_mounts pod).
Proof.
  intros H. unfold resolveVolumes, mbind, stM_bind in H.
  destruct (mount_loop _ _ _ _ h) as [h1 [pl| |]] eqn:Hl; [|done|done]. injection H as <- <- <-.
  by apply (mount_loop_ok _ _ _ []) in Hl as [_ _ _ P4 P5]; [|apply plan_ok_nil|done].
Qed.

(** A live mount names the device of its volume. *)
Lemma live_mount_device pod c m :
  let vols := used pod (all_mounts pod) in
  (c, m) ∈ all_mounts pod -> live pod (c, m) ->
  exists k, vols !! k = Some (m_Name m) /\ vm_Tag (mount_entry pod vols m) = tag_of k.
Proof.
  intros vols Hin Hlive. assert (m_Name m ∈ vols) as Hv by (apply elem_of_used; by exists (c, m)).
  destruct (index_of_elem _ _ Hv) as (k & Hk & _). exists k. split; [by apply index_of_lookup|].
  unfold mount_entry. cbn. by rewrite Hk.
Qed.

(** C31 The volume plan: when [resolveVolumes] succeeds, the harness gets one
    device per mounted volume (projected ones aside), in the order of first
    mounts and numbered from 0, each with the volume's host directory,
    read-only exactly when no mount of it is writable or it is a configMap
    or secret; every container's plan has its mounts, in order, each with
    the number of its volume's device; and what is mounted from a read-only
    device is mounted read-only. *)
Theorem volume_plan pod stateDir h h' args mounts :
  resolveVolumes pod stateDir h = (h', Ok (args, mounts)) ->
  let vols := used pod (all_mounts pod) in
  NoDup vols /\ args = concat (imap (device_args pod stateDir) vols) /\
  (forall cn, default [] (mounts !! cn) = entries_for pod vols cn (all_mounts pod)) /\
  (forall c m, (c, m) ∈ all_mounts pod -> live pod (c, m) ->
     exists k, vols !! k = Some (m_Name m) /\ vm_Tag (mount_entry pod vols m) = tag_of k /\
       (device_ro pod (m_Name m) = true -> vm_ReadOnly (mount_entry pod vols m) = true)).
Proof.
  intros H vols. apply resolveVolumes_plan in H as [P4 P5].
  split; [apply NoDup_first_uses|]. split; [done|]. split; [done|]. intros c m Hin Hlive.
  destruct (live_mount_device pod c m Hin Hlive) as (k & Hk & Ht). exists k. split; [done|]. split; [done|].
  unfold mount_entry, device_ro. cbn. intros [Hrw|Hk']%orb_true_iff; [|by rewrite Hk', orb_true_r].
  apply orb_true_iff. left. apply negb_true_iff in Hrw. destruct (m_ReadOnly m) eqn:Hro; [done|].
  exfalso. unfold anyRW in Hrw. apply not_true_iff_false in Hrw. apply Hrw. unfold all_mounts in Hin.
  apply list_elem_of_bind in Hin as (c' & Hc' & Hall). apply list_elem_of_fmap in Hc' as (m' & [= -> ->] & Hm).
  apply existsb_exists. exists c'. split; [by apply list_elem_of_In|]. apply existsb_exists. exists m'.
  split; [by apply list_elem_of_In|]. by rewrite bool_decide_true, Hro.
Qed.

(** ** What is written *)

(** The files a projection asks for: relative path, content and mode. *)
Definition writes (data : gmap string bytes) (items : list KeyToPath) (defaultMode : option Z)
  : option (list (string * (bytes * Z))) :=
  let mode := default 0x1A4%Z defaultMode in
  match items with
  | [] => Some ((fun kv => (kv.1, (kv.2, mode))) <$> range_data data)
  | _ => mapM (fun it => v ← data !! it_Key it; Some (it_Path it, (v, default mode (it_Mode it)))) items
  end.

Definition insert_write (dir : string) (m : gmap string (bytes * Z)) (w : string * (bytes * Z)) : gmap string (bytes * Z) :=
  write_file (key_target dir w.1) w.2.1 w.2.2 m.

Lemma write_key_ok dir r c m h h' :
  write_key dir r c m h = (h', Ok ()) -> h_files h' = insert_write dir (h_files h) (r, (c, m)).
Proof.
  unfold write_key, MkdirAll, WriteFile, mbind, stM_bind, try_op. repeat case_match; intros [=]; simplify_eq; done.
Qed.

Lemma mapM_write_key {A} (f : A -> string * (bytes * Z)) dir (l : list A) : forall h h',
  mapM_ (fun x => write_key dir (f x).1 (f x).2.1 (f x).2.2) l h = (h', Ok ()) ->
  h_files h' = foldl (insert_write dir) (h_files h) (f <$> l).
Proof.
  induction l as [|x l IH]; intros h h' H; [by injection H as <-|]. cbn in H. unfold mbind, stM_bind in H.
  destruct (write_key _ _ _ _ h) as [h1 [[]| |]] eqn:Hw; [|done|done]. apply write_key_ok in Hw. apply IH in H.
  rewrite H, Hw. cbn. by destruct (f x) as [? [? ?]].
Qed.

Lemma mapM_items dir (data : gmap string bytes) mode items : forall h h',
  mapM_ (fun item => match data !! it_Key item with
                     | None => fail "key not found"
                     | Some v => write_key dir (it_Path item) v (default mode (it_Mode item)) end) items h = (h', Ok ()) ->
  exists ws, mapM (fun it => v ← data !! it_Key it; Some (it_Path it, (v, default mode (it_Mode it)))) items = Some ws /\
    h_files h' = foldl (insert_write dir) (h_files h) ws.
Proof.
  induction items as [|it items IH]; intros h h' H; [injection H as <-; by exists []|]. cbn in H. unfold mbind, stM_bind in H.
  destruct (data !! it_Key it) as [v|] eqn:Hv; [|done].
  destruct (write_key _ _ _ _ h) as [h1 [[]| |]] eqn:Hw; [|done|done]. apply write_key_ok in Hw.
  destruct (IH _ _ H) as (ws & Hws & E). cbn. rewrite Hv. cbn. rewrite Hws. eexists. split; [done|]. by rewrite E, Hw.
Qed.

(** Writes one after the other where nothing was: of each path the last
    content and the permissions of the first write. *)
Lemma foldl_insert_write dir ws (m : gmap string (bytes * Z)) p : m !! p = None ->
  let at_path {A} (f : string * (bytes * Z) -> A) := (fun w => (key_target dir w.1, f w)) <$> ws in
  fst <$> foldl (insert_write dir) m ws !! p = build_map (at_path (fun w => w.2.1)) !! p /\
  snd <$> foldl (insert_write dir) m ws !! p = build_map (reverse (at_path (fun w => created w.2.2))) !! p.
Proof.
  intros Hm. cbn zeta. induction ws as [|w ws [IH1 IH2]] using rev_ind; [cbn; by rewrite Hm, lookup_empty|].
  rewrite foldl_app, !fmap_app, reverse_app. cbn [foldl fmap list_fmap reverse rev_append app]. rewrite build_map_snoc, build_map_cons_lookup, <-IH2.
  set (m' := foldl (insert_write dir) m ws) in *. unfold insert_write, write_file. destruct (decide (p = key_target dir w.1)) as [->|Hne].
  - rewrite !lookup_insert_eq. split; [done|]. by destruct (m' !! _) as [[]|].
  - rewrite !lookup_insert_ne by done. split; [done|]. by destruct (m' !! _).
Qed.

(** C32 A materialized volume holds exactly its projection: when
    [writeVolumeKeys] succeeds every item's key was there, and a file below
    the volume's directory exists exactly when an item (without items: a
    key) is written to it, with the content of the last one; its permissions
    are those the first one's mode has under the process's umask (a second
    write to the file does not change them). Files elsewhere are untouched, on
    failure too. *)
Theorem volume_files_exact d data items mode h :
  d <> [] -> Forall plain d ->
  (forall p, ~ inside (abs_path d) p ->
     h_files (writeVolumeKeys (abs_path d) data items mode h).1 !! p = h_files h !! p) /\
  (forall h', writeVolumeKeys (abs_path d) data items mode h = (h', Ok ()) ->
     exists ws, writes data items mode = Some ws /\
       Forall (fun w => inside (abs_path d) (key_target (abs_path d) w.1)) ws /\
       forall p, inside (abs_path d) p ->
         fst <$> h_files h' !! p = build_map ((fun w => (key_target (abs_path d) w.1, w.2.1)) <$> ws) !! p /\
         snd <$> h_files h' !! p = build_map (reverse ((fun w => (key_target (abs_path d) w.1, created w.2.2)) <$> ws)) !! p).
Proof.
  intros Hne Hd. split.
  { intros p Hp. by apply (leaves_writeVolumeKeys (fun q => ~ inside (abs_path d) q)). }
  intros h' H. unfold writeVolumeKeys, mbind, stM_bind in H.
  destruct (freshDir (abs_path d) h) as [h1 [[]| |]] eqn:Hf; [|done|done].
  assert (forall p, inside (abs_path d) p -> h_files h1 !! p = None) as Hempty.
  { intros p Hp. unfold freshDir, RemoveAll, MkdirAll, try_op, mbind, stM_bind in Hf.
    destruct (io_err _ (OpRemoveAll _)); [done|]. destruct (io_err _ (OpMkdirAll _)); [done|]. injection Hf as <-. cbn.
    apply map_lookup_filter_None. right. intros x _. cbn. by intros Hn. }
  assert (exists ws, writes data items mode = Some ws /\ h_files h' = foldl (insert_write (abs_path d)) (h_files h1) ws)
    as (ws & Hws & E).
  { unfold writes. destruct items as [|it items].
    - eexists. split; [done|].
      by apply (mapM_write_key (fun kv : string * bytes => (kv.1, (kv.2, default 0x1A4%Z mode)))) in H.
    - by apply mapM_items in H. }
  exists ws. split; [done|]. split.
  - apply Forall_forall. intros w _. destruct (key_target_abs d w.1 Hne Hd) as (l & _ & ->). by apply inside_abs.
  - intros p Hp. rewrite E. by apply foldl_insert_write, Hempty.
Qed.

Lemma byName_elem pod v vol : byName pod !! v = Some vol -> vol ∈ p_Volumes pod.
Proof.
  unfold byName, build_map. assert (forall (l : list Volume) (m : gmap string Volume), (forall k x, m !! k = Some x -> x ∈ p_Volumes pod) ->
    (forall x, x ∈ l -> x ∈ p_Volumes pod) ->
    forall k x, foldl (fun m kv => <[kv.1 := kv.2]> m) m ((fun v => (v_Name v, v)) <$> l) !! k = Some x -> x ∈ p_Volumes pod) as H.
  { induction l as [|y l IH]; intros m Hm Hl k x; cbn; [apply Hm|]. apply IH; [|set_solver]. intros k' x'.
    destruct (decide (k' = v_Name y)) as [->|]; [rewrite lookup_insert_eq; intros [= <-]; apply Hl; by left|].
    rewrite lookup_insert_ne by done. apply Hm. }
  apply H; [|done]. intros k x. by rewrite lookup_empty.
Qed.

Lemma volume_dir_abs d vol :
  d <> [] -> Forall plain d -> plain (v_Name vol) -> volume_dir (abs_path d) vol = abs_path (d ++ ["volumes"; v_Name vol]).
Proof.
  intros Hne Hd Hn. unfold volume_dir, PathJoin. assert (plain "volumes") as Hv by done.
  rewrite !filter_cons, !decide_True; [|by destruct Hn|done|done]. cbn [filter list_filter].
  rewrite Join_cons by done. change (abs_path d +:+ String slash ?x) with (abs_path d +:+ "/" +:+ x).
  rewrite <-abs_path_app by done. apply Clean_abs. apply Forall_app. split; [done|]. constructor; [done|]. constructor; [done|constructor].
Qed.

(** Volume set-up is confined: whatever the volumes, their items, the
    apiserver's answers and the host's errors, [resolveVolumes] changes no
    file outside the directories of the pod's own configMap and secret
    volumes, [stateDir/volumes/<name>]. *)
Theorem volume_writes_confined d pod h p :
  d <> [] -> Forall plain d -> Forall (fun v => plain (v_Name v)) (p_Volumes pod) ->
  (forall vol, vol ∈ p_Volumes pod -> api_kind pod (v_Name vol) = true ->
     ~ inside (abs_path (d ++ ["volumes"; v_Name vol])) p) ->
  h_files (resolveVolumes pod (abs_path d) h).1 !! p = h_files h !! p.
Proof.
  intros Hne Hd Hnames Hp.
  set (P := fun q => forall vol, vol ∈ p_Volumes pod -> api_kind pod (v_Name vol) = true ->
     ~ inside (abs_path (d ++ ["volumes"; v_Name vol])) q).
  assert (forall vol, byName pod !! v_Name vol = Some vol -> leaves P (materialize_source pod (abs_path d) vol)) as Hsrc.
  { intros vol Hv. pose proof (byName_elem _ _ _ Hv) as Hin.
    assert (plain (v_Name vol)) as Hn by (rewrite Forall_forall in Hnames; by apply Hnames).
    assert (forall s ns n its m o, api_kind pod (v_Name vol) = true ->
      leaves P (materializeObject s ns n its m o (volume_dir (abs_path d) vol))) as Hobj.
    { intros s ns n its m o Hk. rewrite volume_dir_abs by done. unfold materializeObject.
      assert (d ++ ["volumes"; v_Name vol] <> []) as Hne' by (by destruct d).
      assert (Forall plain (d ++ ["volumes"; v_Name vol])) as Hpl 
        by (apply Forall_app; split; [done|]; constructor; [done|]; constructor; [done|constructor]).
      destruct (negb client); [apply leaves_fail|]. destruct (get_data s ns n) as [[|e]|[data bin]].
      - destruct o; [|apply leaves_fail]. apply leaves_freshDir. intros q Hq. by apply (Hq vol).
      - apply leaves_fail.
      - apply leaves_writeVolumeKeys; [done|done|]. intros q Hq. by apply (Hq vol). }
    assert (forall src, v_Source vol = src -> match src with ConfigMap _ _ _ _ | Secret _ _ _ _ => api_kind pod (v_Name vol) = true | _ => True end) as Hk.
    { intros src <-. unfold api_kind. rewrite Hv. cbn. by destruct (v_Source vol). }
    specialize (Hk _ eq_refl). unfold materialize_source.
    destruct (v_Source vol); repeat case_match; try apply leaves_fail; try apply leaves_ret;
      apply leaves_bind; try (by intros; apply leaves_ret); try apply leaves_MkdirAll; by apply Hobj. }
  assert (leaves P (resolveVolumes pod (abs_path d))) as Hall; [|by apply Hall].
  unfold resolveVolumes. apply leaves_bind; [|intros; apply leaves_ret].
  generalize (Plan ∅ ∅ ∅ [] ∅). induction (all_mounts pod) as [|[c m] l IH]; intros pl; cbn; [apply leaves_ret|].
  apply leaves_bind; [|intros; apply IH]. unfold mount_step.
  destruct (byName pod !! m_Name m) as [vol|] eqn:Hv; [|apply leaves_fail].
  pose proof (byName_name _ _ _ Hv) as Hvn. rewrite <-Hvn in Hv.
  case_bool_decide; [apply leaves_fail|].
  assert (leaves P (materialize pod (abs_path d) vol pl)) as Hmat.
  { unfold materialize. destruct (pl_hostDirs pl !! v_Name vol); [apply leaves_ret|].
    apply leaves_bind; [by apply Hsrc|]. intros []. apply leaves_ret. }
  assert (forall f, (forall r, leaves P (f r)) -> leaves P (materialize pod (abs_path d) vol pl ≫= f : hostM plan)) as Hb
    by (intros; by apply leaves_bind).
  destruct (v_Source vol); try apply leaves_ret; apply Hb; intros [hd pl1]; destruct (assign_tag _ _ _ _); apply leaves_ret.
Qed.
End Volumes.

(** ** Witnesses *)

Definition ex_mount (v p : string) (ro : bool) : VolumeMount := MkMount v p ro "" "".
Definition ex_vol_container (name : string) (ms : list VolumeMount) : Container :=
  MkContainer name "img" [] [] false [] "" ms [] None None None None None.
Definition ex_vol_pod : Pod :=
  MkPod "u1" "web" "ns" ∅ [ex_vol_container "init" [ex_mount "cfg" "/etc/app" false]]
    [ex_vol_container "web" [ex_mount "data" "/data" true; ex_mount "cfg" "/cfg" false; ex_mount "token" "/tok" true]] ""
    [MkVolume "data" EmptyDir; MkVolume "cfg" (ConfigMap "app" [] None false); MkVolume "token" Projected] None None false None.
Definition ex_data (is_secret : bool) (ns name : string) : api_error + gmap string bytes * gmap string bytes :=
  inr ({[ "key" := [1; 2]%Z ]}, ∅).
Definition ex_resolve : hostM (list string * gmap string (list volumeMount)) :=
  resolveVolumes (fun _ _ => None) 0x12 (fun _ => true) map_to_list true ex_data ex_vol_pod "/state/u1".

Example ex_resolve_args :
  fst <$> (ex_resolve (Host ∅)).2 = Ok ["--volume"; "vol0=/state/u1/volumes/cfg:ro"; "--volume"; "vol1=/state/u1/volumes/data:ro"].
Proof. vm_compute. reflexivity. Qed.

Lemma volume_plan_witness : exists h' args mounts, ex_resolve (Host ∅) = (h', Ok (args, mounts)) /\
  NoDup (used ex_vol_pod (all_mounts ex_vol_pod)) /\
  default [] (mounts !! "web") = entries_for ex_vol_pod (used ex_vol_pod (all_mounts ex_vol_pod)) "web" (all_mounts ex_vol_pod).
Proof.
  pose proof ex_resolve_args as Ha.
  destruct (ex_resolve (Host ∅)) as [h' [[args mounts]|e|c]] eqn:E; [|discriminate Ha..].
  exists h', args, mounts. split; [reflexivity|]. apply volume_plan in E as (H1 & _ & H2 & _). split; [exact H1|apply H2].
Defined.

(** Two items with one path, under the umask 022: the content is the second's,
    the mode 0666 of the first becomes 0644. *)
Definition ex_items : list KeyToPath := [MkItem "a" "x/../../y" (Some 0x1B6%Z); MkItem "b" "y" (Some 0x100%Z)].
Definition ex_write : hostM () :=
  writeVolumeKeys (fun _ _ => None) 0x12 map_to_list (abs_path ["d"]) {[ "a" := [7]%Z; "b" := [8]%Z ]} ex_items None.

Lemma volume_files_exact_witness :
  exists h', ex_write (Host ∅) = (h', Ok ()) /\ fst <$> h_files h' !! "/d/y" = Some [8]%Z /\ snd <$> h_files h' !! "/d/y" = Some 0x1A4%Z.
Proof.
  assert (["d"] <> [] /\ Forall plain ["d"]) as [Hne Hd] by (split; [done|]; constructor; [done|constructor]).
  destruct (volume_files_exact (fun _ _ => None) 0x12 map_to_list ["d"] {[ "a" := [7]%Z; "b" := [8]%Z ]} ex_items None (Host ∅)
    Hne Hd) as [_ H].
  destruct (ex_write (Host ∅)) as [h' [[]|e|c]] eqn:E; [|vm_compute in E; discriminate E..].
  exists h'. split; [reflexivity|]. destruct (H h' E) as (ws & Hws & _ & Hf).
  destruct (Hf "/d/y" ltac:(right; vm_compute; reflexivity)) as [H1 H2]. vm_compute in Hws. injection Hws as <-.
  split; [rewrite H1; vm_compute; reflexivity|rewrite H2; vm_compute; reflexivity].
Defined.

Lemma volume_writes_confined_witness :
  h_files (ex_resolve (Host {[ "/etc/passwd" := ([1]%Z, 0%Z) ]})).1 !! "/etc/passwd" = Some ([1]%Z, 0%Z).
Proof.
  unfold ex_resolve. change "/state/u1" with (abs_path ["state"; "u1"]). rewrite volume_writes_confined.
  - reflexivity.
  - discriminate.
  - constructor; [done|]. constructor; [done|constructor].
  - unfold ex_vol_pod. cbn. constructor; [done|]. constructor; [done|]. constructor; [done|constructor].
  - intros vol Hv Hk [E|E].
    + pose proof (f_equal String.length E) as Hl. cbn in Hl. destruct vol as [nm src]. cbn in E. discriminate E.
    + cbn in E. discriminate E.
Defined.
