(* ===== verification/Rootfs.v ===== *)
(** * The guest's boot filesystem and its spec (poc/agent/main.go, images.go,
      ipv6.go, hostports.go)

    [makeRootfs] writes what execd boots from: a directory with execd and the
    spec of the pod's containers, each with its command, environment, working
    directory, mounts and image device. Host operations are recorded, oldest
    first; which of them fail, given those before, is a parameter, and so are
    the cached image configs and SHA-256. The spec is a record here;
    its JSON is in [SpecWire]. *)
From Stdlib Require Import Ascii.
From S2P Require Import Prelude GoStrings NetIP Pod Supervisor Volumes.

(** ** Image configs *)

Record image_config := ImageConfig {
  cf_Entrypoint : list string; cf_Cmd : list string; cf_Env : list string; cf_WorkingDir : string
}.

(** ** The spec execd reads *)

Record containerSpec := ContainerSpec {
  sp_Name : string; sp_Argv : list string; sp_Env : list string; sp_Cwd : string; sp_TTY : bool;
  sp_RootDev : string; sp_Mounts : list volumeMount
}.

Record netSpec := NetSpec { ns_IP : string; ns_GW : string; ns_DNS : string }.

Record spec := Spec {
  s_RestartPolicy : string; s_InitContainers : list containerSpec; s_Containers : list containerSpec;
  s_Net : option netSpec; s_Net6 : option string; s_Svc : option (string * string)
}.

(** ** Host operations *)

Inductive host_op :=
| HRemoveAll (p : string)
| HLoosen (p : string)                 (* chmod -R u+rwX *)
| HMkdirAll (p : string)
| HClone (from to : string)            (* cp -Rpc *)
| HCopy (from to : string)             (* cp -c *)
| HWriteSpec (p : string) (s : spec).

(** Operations done so far, and a result. *)
Notation bootM := (stM (list host_op) string).
Notation lift := st_lift.

(** ** Devices *)

(** Go's [%c]: the rune in UTF-8. *)
Definition rune_string (r : Z) : string :=
  string_of_bytes (if bool_decide (r < 0x80)%Z then [r]
    else if bool_decide (r < 0x800)%Z then [Z.lor 0xC0 (r / 64); Z.lor 0x80 (r mod 64)]
    else [Z.lor 0xE0 (r / 4096); Z.lor 0x80 (r / 64 mod 64); Z.lor 0x80 (r mod 64)])%Z.

Definition device (i : nat) : string := "/dev/vd" +:+ rune_string (97 + Z.of_nat i).

Section Rootfs.
Context (config : string -> option image_config).
Context (op_err : list host_op -> host_op -> option string).

Definition do_op (o : host_op) : bootM () := fun l =>
  (l ++ [o], match op_err l o with Some e => Err e | None => Ok () end).

Definition imageArgv (base : string) : list string :=
  match config base with Some cf => cf_Entrypoint cf ++ cf_Cmd cf | None => [] end.
Definition imageEnv (base : string) : list string := from_option cf_Env [] (config base).
Definition imageWorkingDir (base : string) : string := from_option cf_WorkingDir "" (config base).

(** ** [containerSpec] *)

Definition container_argv (c : Container) (base : string) : list string :=
  let argv := ct_Command c ++ ct_Args c in
  if bool_decide (argv = []) then imageArgv base else argv.

Definition container_env (c : Container) (base : string) : list string :=
  imageEnv base ++ omap (fun e => if ev_ValueFrom e then None else Some (ev_Name e +:+ "=" +:+ ev_Value e)) (ct_Env c).

Definition container_cwd (c : Container) (base : string) : string :=
  if bool_decide (ct_WorkingDir c = "") then imageWorkingDir base else ct_WorkingDir c.

(** The device of an image base, and the images after: a new device on the
    first use ([devByBase] is the position in [orderedImages]). *)
Definition assign_device (base : string) (images : list string) : string * list string :=
  match index_of base images with
  | Some i => (device i, images)
  | None => (device (length images), images ++ [base])
  end.

Definition container_spec (imageBlock : bool) (bases : gmap string string) (mountsByC : gmap string (list volumeMount))
    (c : Container) (images : list string) : result string (containerSpec * list string) :=
  let base := default "" (bases !! ct_Image c) in
  let argv := container_argv c base in
  if bool_decide (argv = []) then
    Err ("container " +:+ ct_Name c +:+ ": no command: pod spec has none and image config has no Entrypoint/Cmd")
  else
    let '(dev, images) := if imageBlock then assign_device base images else ("", images) in
    Ok (ContainerSpec (ct_Name c) argv (container_env c base) (container_cwd c base) (ct_TTY c) dev
          (default [] (mountsByC !! ct_Name c)), images).

Fixpoint container_specs (imageBlock : bool) (bases : gmap string string) (mountsByC : gmap string (list volumeMount))
    (cs : list Container) (images : list string) : result string (list containerSpec * list string) :=
  match cs with
  | [] => Ok ([], images)
  | c :: cs' =>
      match container_spec imageBlock bases mountsByC c images with
      | Ok (s, images) =>
          match container_specs imageBlock bases mountsByC cs' images with
          | Ok (ss, images) => Ok (s :: ss, images)
          | Err e => Err e
          | Crash c => Crash c
          end
      | Err e => Err e
      | Crash c => Crash c
      end
  end.

(** ** [podIP6] *)

Definition put_host (addr : Z) (host : Z) : Z := (addr / 2 ^ 64 * 2 ^ 64 + host)%Z.

Definition podIP6 (Sum256 : string -> bytes) (prefix : Z) (uid : string) : Z :=
  let host := be_val (take 8 (Sum256 uid)) in
  put_host prefix (if bool_decide (host < 2)%Z then (host + 2)%Z else host).

(** ** [makeRootfs] *)

Record settings := Settings {
  se_imageBlock : bool; se_execdPath : string; se_svcCIDR6 : string;
  se_vmnetHelper : bool; se_gvproxy : bool
}.

(** The pod's IPv6 address as text, an argument ([netip.Addr.String]). *)
Definition makeRootfs (se : settings) (ip6 : string) (exists_before : bool) (pod : Pod) (dir : string)
    (bases : gmap string string) (mountsByC : gmap string (list volumeMount)) : bootM (string * list string) :=
  let rootfs := PathJoin [dir; "rootfs"] in
  (if exists_before then
     fun l => match do_op (HRemoveAll rootfs) l with
              | (l, Ok _) => (l, Ok ())
              | (l, _) =>
                  let l := fst (do_op (HLoosen rootfs) l) in
                  match do_op (HRemoveAll rootfs) l with
                  | (l, Err e) => (l, Err ("removing previous rootfs: " +:+ e))
                  | r => r
                  end
              end
   else mret ()) ≫= fun _ =>
  (if se_imageBlock se then
     foldl (fun (m : bootM ()) d => m ≫= fun _ => do_op (HMkdirAll (PathJoin [rootfs; d]))) (mret ()) [""; "dev"; "proc"; "sys"]
   else
     lift (deref (head (p_Containers pod))) ≫= fun c =>
     do_op (HClone (default "" (bases !! ct_Image c)) rootfs)) ≫= fun _ =>
  do_op (HCopy (se_execdPath se) (PathJoin [rootfs; "execd"])) ≫= fun _ =>
  lift (container_specs (se_imageBlock se) bases mountsByC (p_InitContainers pod) []) ≫= fun inits =>
  lift (container_specs (se_imageBlock se) bases mountsByC (p_Containers pod) inits.2) ≫= fun mains =>
  let sp := Spec (effective_policy pod) inits.1 mains.1
    (if se_gvproxy se then Some (NetSpec "192.168.127.2/24" "192.168.127.1" "192.168.127.1") else None)
    (if se_vmnetHelper se then Some (ip6 +:+ "/64") else None)
    (if se_vmnetHelper se then Some (se_svcCIDR6 se, p_Namespace pod) else None) in
  do_op (HWriteSpec (PathJoin [rootfs; ".podvm-spec.json"]) sp) ≫= fun _ =>
  mret (rootfs, mains.2).
End Rootfs.

(** ** [collectHostPorts] *)

Definition host_port (p : ContainerPort) : option (Z * Z) :=
  if bool_decide (cp_HostPort p <> 0%Z /\ (cp_Protocol p = "" \/ cp_Protocol p = "TCP"))
  then Some (cp_HostPort p, if bool_decide (cp_ContainerPort p = 0%Z) then cp_HostPort p else cp_ContainerPort p)
  else None.
Definition collectHostPorts (pod : Pod) : list (Z * Z) := omap host_port (p_Containers pod ≫= ct_Ports).

(** ** Devices and images *)

Section RootfsProofs.
Context (config : string -> option image_config) (op_err : list host_op -> host_op -> option string).

(** What the spec says of a container, with the images attached in order. *)
Record described (imageBlock : bool) (bases : gmap string string) (mountsByC : gmap string (list volumeMount))
    (images : list string) (c : Container) (s : containerSpec) : Prop := Described {
  d_name : sp_Name s = ct_Name c;
  d_argv : sp_Argv s = container_argv config c (default "" (bases !! ct_Image c)) /\ sp_Argv s <> [];
  d_env : sp_Env s = container_env config c (default "" (bases !! ct_Image c));
  d_cwd : sp_Cwd s = container_cwd config c (default "" (bases !! ct_Image c));
  d_tty : sp_TTY s = ct_TTY c;
  d_mounts : sp_Mounts s = default [] (mountsByC !! ct_Name c);
  d_device : if imageBlock then exists k, images !! k = Some (default "" (bases !! ct_Image c)) /\ sp_RootDev s = device k
             else sp_RootDev s = ""
}.

Definition bases_of (bases : gmap string string) (cs : list Container) : list string :=
  (fun c => default "" (bases !! ct_Image c)) <$> cs.

Lemma described_more imageBlock bases mountsByC images images' c s :
  images `prefix_of` images' -> described imageBlock bases mountsByC images c s -> described imageBlock bases mountsByC images' c s.
Proof.
  intros [l ->] [H1 H2 H3 H4 H5 H6 H7]. split; [done..|]. destruct imageBlock; [|done].
  destruct H7 as (k & Hk & Hd). exists k. split; [by apply lookup_app_l_Some|done].
Qed.

Lemma container_spec_ok imageBlock bases mountsByC c images s images' seen :
  container_spec config imageBlock bases mountsByC c images = Ok (s, images') ->
  images = (if imageBlock then first_uses seen else []) ->
  images `prefix_of` images' /\
  images' = (if imageBlock then first_uses (seen ++ bases_of bases [c]) else []) /\
  described imageBlock bases mountsByC images' c s.
Proof.
  intros H Hi. unfold container_spec in H. case_bool_decide as Hargv; [done|]. unfold bases_of. cbn [fmap list_fmap].
  set (base := default "" (bases !! ct_Image c)) in *. destruct imageBlock; cbn in H; [|injection H as <- <-; subst images; by split_and!].
  rewrite first_uses_snoc. unfold assign_device in H. destruct (index_of base images) as [k|] eqn:Hk; injection H as <- <-.
  - pose proof (index_of_lookup _ _ _ Hk) as Hl. split; [done|]. split; [|split; try done; by exists k].
    subst images. case_decide as Hin; [done|]. destruct Hin. by eapply list_elem_of_lookup_2.
  - apply index_of_None in Hk. split; [by apply prefix_app_r|]. split.
    + subst images. by rewrite decide_False.
    + split; try done. exists (length images). split; [|done]. rewrite lookup_app_r by done. by rewrite Nat.sub_diag.
Qed.

Lemma container_specs_ok imageBlock bases mountsByC cs : forall images ss images' seen,
  container_specs config imageBlock bases mountsByC cs images = Ok (ss, images') ->
  images = (if imageBlock then first_uses seen else []) ->
  images `prefix_of` images' /\
  images' = (if imageBlock then first_uses (seen ++ bases_of bases cs) else []) /\
  Forall2 (described imageBlock bases mountsByC images') cs ss.
Proof.
  induction cs as [|c cs IH]; intros images ss images' seen H Hi; cbn in H.
  { injection H as <- <-. cbn. rewrite app_nil_r. by split_and!. }
  destruct (container_spec config imageBlock bases mountsByC c images) as [[s i1]| |] eqn:E; [|done..].
  destruct (container_specs config imageBlock bases mountsByC cs i1) as [[ss' i2]| |] eqn:E2; [|done..]. injection H as <- <-.
  destruct (container_spec_ok _ _ _ _ _ _ _ _ E Hi) as (H1 & H2 & H3). destruct (IH _ _ _ _ E2 H2) as (H4 & H5 & H6).
  split; [by transitivity i1|]. split; [by rewrite H5, <-app_assoc|]. constructor; [by eapply described_more|done].
Qed.

(** The commands a container can run, or the error. *)
Lemma container_specs_err imageBlock bases mountsByC cs : forall images,
  (exists r, container_specs config imageBlock bases mountsByC cs images = Ok r) <->
  Forall (fun c => container_argv config c (default "" (bases !! ct_Image c)) <> []) cs.
Proof.
  induction cs as [|c cs IH]; intros images; cbn; [split; [constructor|by eexists]|]. rewrite Forall_cons.
  unfold container_spec. case_bool_decide as Hargv; [split; [by intros [r Hr]|by intros [? _]]|].
  destruct (if imageBlock then _ else _) as [dev i1]. rewrite <-(IH i1).
  destruct (container_specs config imageBlock bases mountsByC cs i1) as [[ss i2]| |]; split; try (by intros [r Hr]); try (by intros [_ [r Hr]]).
  - intros _. split; [done|by eexists].
  - intros _. by eexists.
Qed.
End RootfsProofs.

(** Device names of the first 26 images differ. *)
Lemma device_inj i j : i < 26 -> j < 26 -> device i = device j -> i = j.
Proof.
  intros Hi Hj H. assert (Forall (fun i => Forall (fun j => device i = device j -> i = j) (seq 0 26)) (seq 0 26)) as Hall
    by (apply (bool_decide_unpack _); vm_compute; exact I).
  rewrite Forall_forall in Hall. specialize (Hall i ltac:(apply elem_of_seq; lia)). rewrite Forall_forall in Hall.
  apply (Hall j); [apply elem_of_seq; lia|done].
Qed.

(** *** What [makeRootfs] leaves behind *)

Section MakeRootfs.
Context (config : string -> option image_config) (op_err : list host_op -> host_op -> option string).
Notation makeRootfs := (makeRootfs config op_err).
Notation do_op := (do_op op_err).

Lemma do_op_inv o l l' : do_op o l = (l', Ok ()) -> l' = l ++ [o] /\ op_err l o = None.
Proof. unfold Rootfs.do_op. destruct (op_err l o); naive_solver. Qed.

(** The paths an operation changes. *)
Definition op_target (o : host_op) : string :=
  match o with HRemoveAll p | HLoosen p | HMkdirAll p | HClone _ p | HCopy _ p | HWriteSpec p _ => p end.

Lemma makeRootfs_inv se ip6 before pod dir bases mountsByC l l' rootfs images :
  makeRootfs se ip6 before pod dir bases mountsByC l = (l', Ok (rootfs, images)) ->
  rootfs = PathJoin [dir; "rootfs"] /\
  exists inits mains mid sp,
    container_specs config (se_imageBlock se) bases mountsByC (p_InitContainers pod) [] = Ok inits /\
    container_specs config (se_imageBlock se) bases mountsByC (p_Containers pod) inits.2 = Ok mains /\
    s_InitContainers sp = inits.1 /\ s_Containers sp = mains.1 /\ images = mains.2 /\
    s_RestartPolicy sp = effective_policy pod /\
    s_Net6 sp = (if se_vmnetHelper se then Some (ip6 +:+ "/64") else None) /\
    s_Svc sp = (if se_vmnetHelper se then Some (se_svcCIDR6 se, p_Namespace pod) else None) /\
    l' = l ++ mid ++ [HWriteSpec (PathJoin [rootfs; ".podvm-spec.json"]) sp].
Proof.
  unfold Rootfs.makeRootfs. set (r := PathJoin [dir; "rootfs"]). intros H.
  apply st_bind_ok in H as (l1 & [] & H1 & H). apply st_bind_ok in H as (l2 & [] & H2 & H).
  apply st_bind_ok in H as (l3 & [] & H3 & H). apply st_bind_ok in H as (l4 & inits & H4 & H).
  apply st_bind_ok in H as (l5 & mains & H5 & H). apply st_bind_ok in H as (l6 & [] & H6 & H). injection H as <- <- <-.
  apply do_op_inv in H3 as [-> _]. apply st_lift_ok in H4 as [-> H4]. apply st_lift_ok in H5 as [-> H5].
  apply do_op_inv in H6 as [-> _]. split; [done|].
  assert (exists m1, l1 = l ++ m1) as [m1 ->].
  { destruct before; [|injection H1 as <-; exists []; by rewrite app_nil_r]. unfold Rootfs.do_op in H1. cbn in H1.
    destruct (op_err l _); cbn in H1; [|injection H1 as <-; by eexists]. destruct (op_err _ (HRemoveAll r)); [done|].
    injection H1 as <-. rewrite <-!app_assoc. by eexists. }
  assert (exists m2, l2 = (l ++ m1) ++ m2) as [m2 ->].
  { destruct (se_imageBlock se).
    - cbn [foldl] in H2. repeat (apply st_bind_ok in H2 as (? & [] & H2 & [-> _]%do_op_inv)). injection H2 as <-.
      eexists. rewrite <-!app_assoc. reflexivity.
    - apply st_bind_ok in H2 as (l0 & c & [-> _]%st_lift_ok & [-> _]%do_op_inv). by eexists. }
  lazymatch goal with |- context [HWriteSpec _ ?sp] => exists inits, mains, (m1 ++ m2 ++ [HCopy (se_execdPath se) (PathJoin [r; "execd"])]), sp end.
  split_and!; [exact H4|exact H5|reflexivity..|]. by rewrite <-!app_assoc.
Qed.
End MakeRootfs.

(** ** The pod's address *)

(** A pod's IPv6 address lies in the node's /64, whatever the hash: its
    upper half is the prefix's, and its lower half is neither 0 (the subnet
    router's anycast address) nor 1 (the host). It depends on the UID only,
    and UIDs whose hashes differ in their first eight bytes, not both below
    four, get different addresses. *)
Theorem pod_address_in_prefix Sum256 prefix uid :
  (0 <= prefix < 2 ^ 128)%Z -> length (Sum256 uid) = 32 -> Forall is_byte (Sum256 uid) ->
  let ip := podIP6 Sum256 prefix uid in
  (0 <= ip < 2 ^ 128)%Z /\ (ip / 2 ^ 64 = prefix / 2 ^ 64)%Z /\ (2 <= ip mod 2 ^ 64)%Z /\
  forall uid', length (Sum256 uid') = 32 -> Forall is_byte (Sum256 uid') ->
    ip = podIP6 Sum256 prefix uid' ->
    be_val (take 8 (Sum256 uid)) = be_val (take 8 (Sum256 uid')) \/
    (be_val (take 8 (Sum256 uid)) < 4 /\ be_val (take 8 (Sum256 uid')) < 4)%Z.
Proof.
  intros Hp Hl Hb. assert (forall u, length (Sum256 u) = 32 -> Forall is_byte (Sum256 u) ->
    (0 <= be_val (take 8 (Sum256 u)) < 2 ^ 64)%Z) as Hr.
  { intros u Hlu Hbu. pose proof (le_val_range (reverse (take 8 (Sum256 u)))) as H. unfold be_val.
    rewrite length_reverse, length_take, Hlu in H. apply H. apply Forall_reverse, Forall_take, Hbu. }
  assert (forall h, 0 <= h < 2 ^ 64 -> 2 <= (if bool_decide (h < 2) then h + 2 else h) < 2 ^ 64)%Z as Hh.
  { intros h Hh. case_bool_decide; lia. }
  pose proof (Hh _ (Hr uid Hl Hb)) as H1. cbn zeta. unfold podIP6, put_host.
  set (host := if bool_decide _ then _ else _) in *.
  assert (0 <= prefix / 2 ^ 64 < 2 ^ 64)%Z as Hq by (split; [apply Z.div_pos; lia|apply Z.div_lt_upper_bound; lia]).
  split; [lia|]. split_and!.
  - rewrite Z.div_add_l by lia. rewrite (Z.div_small host) by lia. lia.
  - rewrite Z.add_comm, Z.mod_add by lia. rewrite Z.mod_small by lia. lia.
  - intros uid' Hl' Hb' Heq. pose proof (Hr uid Hl Hb). pose proof (Hr uid' Hl' Hb'). subst host. repeat case_bool_decide; lia.
Qed.

Lemma pod_address_in_prefix_witness :
  let ip := podIP6 (fun _ => replicate 32 1%Z) 0xfd000000000000000000000000000000 "u1" in
  (0 <= ip < 2 ^ 128 /\ ip / 2 ^ 64 = 0xfd00000000000000)%Z.
Proof.
  destruct (pod_address_in_prefix (fun _ => replicate 32 1%Z) 0xfd000000000000000000000000000000 "u1") as (H1 & H2 & _).
  - split; [discriminate|reflexivity].
  - reflexivity.
  - apply (bool_decide_unpack _). vm_compute. exact I.
  - cbv zeta. split; [exact H1|]. rewrite H2. reflexivity.
Defined.
