(* ===== verification/VMStart.v ===== *)
(** * Starting a pod's microVM (poc/agent/main.go [runPod], ipv6.go)

    One attempt of [runPod] to start the VM: the helper processes gvproxy and
    vmnet-helper, the service listener, and the harness with its arguments.
    What fails is a record of outcomes; the events are the processes started
    and killed, oldest first. The theorems: no helper survives a failed
    attempt or the VM, and the harness attaches to each container's device
    the image of that container. *)
From S2P Require Import Prelude GoStrings Pod Supervisor Status PodLifecycle Volumes Rootfs.

Inductive proc := Gvproxy | VmnetHelper | Harness.
#[export] Instance proc_eq_dec : EqDecision proc.
Proof. solve_decision. Defined.

#[export] Instance proc_countable : Countable proc.
Proof.
  refine (inj_countable' (fun p => match p with Gvproxy => 0 | VmnetHelper => 1 | Harness => 2 end)
    (fun n => match n with 0 => Gvproxy | 1 => VmnetHelper | _ => Harness end) _). by intros [].
Defined.

Inductive event := Started (p : proc) (args : list string) | Killed (p : proc) | Exited (p : proc).

(** Socket paths keep the first eight characters of the UID. *)
Definition sock_path (ext uid : string) : string := PathJoin ["/tmp"; "podvm-" +:+ take_string 8 uid +:+ ext].
Definition execSockPath : string -> string := sock_path ".sock".
Definition netSockPath : string -> string := sock_path ".net".
Definition vmnetSockPath : string -> string := sock_path ".vm".
Definition svcSockPath : string -> string := sock_path ".svc".
Definition gvproxyAPISockPath : string -> string := sock_path ".gvapi".

(** What goes wrong, if anything. [VmnetInfo mac]: the helper reported. *)
Inductive vmnet_outcome := VmnetNoStart (e : string) | VmnetInfo (mac : string) | VmnetBadInfo (e : string) | VmnetTimeout.

Record outcomes := Outcomes {
  o_log : option string;
  o_gvlog : option string; o_gvstart : option string; o_gvsock : option string; o_expose : option string;
  o_vmnet : vmnet_outcome; o_vmsock : option string; o_svc : option string;
  o_cmd : option string
}.

(** Events so far, and a result. *)
Definition procM (A : Type) : Type := list event * result string A.
#[export] Instance procM_ret : MRet procM := fun A a => ([], Ok a).
#[export] Instance procM_bind : MBind procM := fun A B f m =>
  match m with
  | (l, Ok a) => let '(l', r) := f a in (l ++ l', r)
  | (l, Err e) => (l, Err e)
  | (l, Crash c) => (l, Crash c)
  end.
Definition start (p : proc) (args : list string) : procM () := ([Started p args], Ok ()).

(** Fail with [e], after killing the helpers that run. *)
Definition fails {A} (running : list proc) (e : string) : procM A := (Killed <$> running, Err e).
Definition check (o : option string) (running : list proc) : procM () :=
  match o with Some e => fails running e | None => mret () end.

(** [startVmnetHelper]: the MAC, or an error with the helper killed. *)
Definition startVmnetHelper (o : vmnet_outcome) (uid sock : string) (running : list proc) : procM string :=
  let args := ["--socket"; sock; "--interface-id"; uid; "--operation-mode"; "shared"] in
  match o with
  | VmnetNoStart e => fails running e
  | VmnetInfo mac =>
      start VmnetHelper args ≫= fun _ =>
      if bool_decide (mac = "") then fails (VmnetHelper :: running) "vmnet-helper reported no MAC" else mret mac
  | VmnetBadInfo e => start VmnetHelper args ≫= fun _ => fails (VmnetHelper :: running) ("reading vmnet-helper interface info: " +:+ e)
  | VmnetTimeout =>
      start VmnetHelper args ≫= fun _ => fails (VmnetHelper :: running) "timeout waiting for vmnet-helper interface info"
  end.

Definition gvproxy_args (pod : Pod) : list string :=
  ["-listen-vfkit"; "unixgram://" +:+ netSockPath (p_UID pod); "-ssh-port"; "-1"] ++
  (if bool_decide (collectHostPorts pod = []) then [] else ["-listen"; "unix://" +:+ gvproxyAPISockPath (p_UID pod)]).

(** gvproxy: the harness arguments it adds. *)
Definition start_gvproxy (o : outcomes) (pod : Pod) : procM (list string) :=
  check (o_gvlog o) [] ≫= fun _ =>
  check (o_gvstart o) [] ≫= fun _ =>
  start Gvproxy (gvproxy_args pod) ≫= fun _ =>
  check (o_gvsock o) [Gvproxy] ≫= fun _ =>
  (if bool_decide (collectHostPorts pod = []) then mret () else check (o_expose o) [Gvproxy]) ≫= fun _ =>
  mret ["--net-socket"; netSockPath (p_UID pod)].

(** vmnet-helper and the service listener. *)
Definition start_vmnet (o : outcomes) (pod : Pod) (running : list proc) : procM (list string) :=
  startVmnetHelper (o_vmnet o) (p_UID pod) (vmnetSockPath (p_UID pod)) running ≫= fun mac =>
  check (o_vmsock o) (VmnetHelper :: running) ≫= fun _ =>
  check (o_svc o) (VmnetHelper :: running) ≫= fun _ =>
  mret ["--net2-socket"; vmnetSockPath (p_UID pod); "--net2-mac"; mac; "--vsock-svc"; svcSockPath (p_UID pod)].

Definition base_args (kernel rootfs dir : string) (pod : Pod) (volArgs images : list string) : list string :=
  let '(memMB, cpus) := vm_size pod in
  ["--kernel"; kernel; "--rootfs"; rootfs; "--cpus"; pretty cpus; "--mem"; pretty memMB;
   "--log"; PathJoin [dir; "vmm.log"]; "--vsock-exec"; execSockPath (p_UID pod)] ++
  volArgs ++ (images ≫= fun img => ["--root-image"; img +:+ ".erofs"]).

(** One attempt, from the log file to the harness. *)
Definition start_vm (se : settings) (o : outcomes) (kernel rootfs dir : string) (pod : Pod) (volArgs images : list string)
  : procM (list string) :=
  check (o_log o) [] ≫= fun _ =>
  (if se_gvproxy se then start_gvproxy o pod else mret []) ≫= fun gvArgs =>
  let running := if se_gvproxy se then [Gvproxy] else [] in
  (if se_vmnetHelper se then start_vmnet o pod running else mret []) ≫= fun vmArgs =>
  let running := running ++ (if se_vmnetHelper se then [VmnetHelper] else []) in
  let args := base_args kernel rootfs dir pod volArgs images ++ gvArgs ++ vmArgs ++ ["--"; "/execd"] in
  check (o_cmd o) running ≫= fun _ =>
  start Harness args ≫= fun _ => mret args.

(** After [cmd.Wait]: the helpers are killed. *)
Definition after_wait (se : settings) : list event :=
  Exited Harness :: (if se_gvproxy se then [Killed Gvproxy] else []) ++ (if se_vmnetHelper se then [Killed VmnetHelper] else []).

(** ** No helper is left behind *)

(** The processes alive after some events. *)
Definition alive_step (l : gset proc) (e : event) : gset proc :=
  match e with Started p _ => {[p]} ∪ l | Killed p | Exited p => l ∖ {[p]} end.
Definition alive (l : list event) (a : gset proc) : gset proc := foldl alive_step a l.

(** What an attempt may do: when it fails everything it started is dead, else
    exactly [extra] was added. *)
Definition tidy {A} (m : procM A) (before extra : gset proc) : Prop :=
  match m.2 with
  | Ok _ => alive m.1 before = extra ∪ before
  | Err _ => alive m.1 before = ∅
  | Crash _ => False
  end.

Lemma alive_app l1 l2 a : alive (l1 ++ l2) a = alive l2 (alive l1 a).
Proof. apply foldl_app. Qed.

Lemma alive_killed ps a : alive (Killed <$> ps) a = a ∖ list_to_set ps.
Proof. revert a. induction ps as [|p ps IH]; intros a; [cbn; set_solver|].
  change (alive (Killed <$> (p :: ps)) a) with (alive (Killed <$> ps) (a ∖ {[p]})). rewrite IH. cbn. set_solver. Qed.

Lemma tidy_ret {A} (a : A) before : tidy (mret a) before ∅.
Proof. unfold tidy. cbn. set_solver. Qed.

Lemma tidy_bind {A B} (m : procM A) (f : A -> procM B) before x y :
  tidy m before x -> (forall a, m.2 = Ok a -> tidy (f a) (x ∪ before) y) -> tidy (m ≫= f) before (y ∪ x).
Proof.
  unfold tidy, mbind, procM_bind. destruct m as [l [a|e|c]]; cbn [fst snd]; [|done..]. intros Hm Hf. specialize (Hf a eq_refl).
  destruct (f a) as [l' r]. cbn [fst snd] in *. rewrite alive_app, Hm. destruct r; [|done..]. rewrite Hf. set_solver.
Qed.

Lemma tidy_eq {A} (m : procM A) before x y : x ∪ before = y ∪ before -> tidy m before x -> tidy m before y.
Proof. unfold tidy. destruct m.2; [by intros <-|done..]. Qed.

Lemma tidy_start p args before : tidy (start p args) before {[p]}.
Proof. done. Qed.

Lemma tidy_fails {A} ps e before extra : before ⊆ list_to_set ps -> tidy (@fails A ps e) before extra.
Proof. intros H. unfold tidy, fails. cbn [fst snd]. rewrite alive_killed. set_solver. Qed.

Lemma tidy_check o ps before : before ⊆ list_to_set ps -> tidy (check o ps) before ∅.
Proof. intros H. unfold check. destruct o; [by apply tidy_fails|apply tidy_ret]. Qed.

#[local] Hint Resolve tidy_ret tidy_start : core.

Lemma tidy_vmnet_helper o uid sock running before :
  before ⊆ list_to_set running -> tidy (startVmnetHelper o uid sock running) before {[VmnetHelper]}.
Proof.
  intros H. unfold startVmnetHelper. destruct o as [e|mac|e|]; [by apply tidy_fails|..].
  all: eapply tidy_eq; [|apply (tidy_bind _ _ before {[VmnetHelper]} ∅); [done|intros [] _]]; [set_solver|].
  - case_bool_decide; [apply tidy_fails; set_solver|done].
  - apply tidy_fails. set_solver.
  - apply tidy_fails. set_solver.
Qed.

Lemma tidy_gvproxy o pod : tidy (start_gvproxy o pod) ∅ {[Gvproxy]}.
Proof.
  unfold start_gvproxy. eapply tidy_eq; [|eapply tidy_bind; [by apply tidy_check|intros _ _]].
  2: eapply tidy_bind; [apply tidy_check; set_solver|intros _ _].
  2: eapply tidy_bind; [apply tidy_start|intros _ _]. 2: eapply tidy_bind; [apply tidy_check; set_solver|intros _ _].
  2: eapply (tidy_bind _ _ _ ∅); [case_bool_decide; [done|apply tidy_check; set_solver]|intros _ _]. 2: apply tidy_ret.
  set_solver.
Qed.

Lemma tidy_vmnet o pod running before :
  before ⊆ list_to_set running -> tidy (start_vmnet o pod running) before {[VmnetHelper]}.
Proof.
  intros H. unfold start_vmnet. eapply tidy_eq; [|eapply tidy_bind; [by apply tidy_vmnet_helper|intros mac _]].
  2: eapply tidy_bind; [apply tidy_check; set_solver|intros _ _]. 2: eapply tidy_bind; [apply tidy_check; set_solver|intros _ _].
  2: apply tidy_ret. set_solver.
Qed.

Definition helpers (se : settings) : gset proc :=
  (if se_gvproxy se then {[Gvproxy]} else ∅) ∪ (if se_vmnetHelper se then {[VmnetHelper]} else ∅).

Lemma tidy_start_vm se o kernel rootfs dir pod volArgs images :
  tidy (start_vm se o kernel rootfs dir pod volArgs images) ∅ (helpers se ∪ {[Harness]}).
Proof.
  unfold start_vm, helpers. eapply tidy_eq; [|eapply tidy_bind; [by apply tidy_check|intros _ _]].
  2: eapply (tidy_bind _ _ _ (if se_gvproxy se then {[Gvproxy]} else ∅)); [|intros gvArgs _].
  2: { destruct (se_gvproxy se); [|done]. rewrite (right_id_L ∅ (∪)). apply tidy_gvproxy. }
  2: eapply (tidy_bind _ _ _ (if se_vmnetHelper se then {[VmnetHelper]} else ∅)); [|intros vmArgs _].
  2: { destruct (se_vmnetHelper se); [|done]. apply tidy_vmnet. destruct (se_gvproxy se); set_solver. }
  2: eapply tidy_bind; [apply tidy_check; destruct (se_gvproxy se), (se_vmnetHelper se); set_solver|intros _ _].
  2: eapply tidy_bind; [apply tidy_start|intros _ _]. 2: apply tidy_ret.
  destruct (se_gvproxy se), (se_vmnetHelper se); set_solver.
Qed.

(** C33 No helper process outlives its VM: when an attempt to start the VM
    fails, at whatever point, every process it started has been killed; when
    it succeeds exactly the configured helpers and the harness run, and after
    the harness exits the helpers are killed. *)
Theorem no_helper_leaks se o kernel rootfs dir pod volArgs images :
  let '(l, r) := start_vm se o kernel rootfs dir pod volArgs images in
  match r with
  | Ok _ => alive l ∅ = helpers se ∪ {[Harness]} /\ alive (l ++ after_wait se) ∅ = ∅
  | Err _ => alive l ∅ = ∅
  | Crash _ => False
  end.
Proof.
  pose proof (tidy_start_vm se o kernel rootfs dir pod volArgs images) as H. unfold tidy in H.
  destruct (start_vm se o kernel rootfs dir pod volArgs images) as [l [args|e|c]]; cbn [fst snd] in H; [|done..].
  rewrite (right_id_L ∅ (∪)) in H. split; [done|]. rewrite alive_app, H. unfold helpers, after_wait.
  destruct (se_gvproxy se), (se_vmnetHelper se); cbn; set_solver.
Qed.

(** ** The harness's arguments *)

(** The values of a flag, in order; flags and values alternate up to ["--"]. *)
Fixpoint flag_values (f : string) (args : list string) : list string :=
  match args with
  | x :: v :: rest =>
      if bool_decide (x = "--") then []
      else if bool_decide (x = f) then v :: flag_values f rest else flag_values f rest
  | _ => []
  end.

(** Arguments that are flags with their values. *)
Definition flagged (fvs : list (string * string)) : list string := fvs ≫= fun fv => [fv.1; fv.2].

Lemma flagged_app a b : flagged (a ++ b) = flagged a ++ flagged b.
Proof. apply bind_app. Qed.

Lemma flag_values_flagged f fvs rest :
  Forall (fun fv => fv.1 <> "--") fvs ->
  flag_values f (flagged fvs ++ rest) = (filter (fun fv => fv.1 = f) fvs).*2 ++ flag_values f rest.
Proof.
  induction 1 as [|[x v] fvs Hx _ IH]; [done|]. cbn in Hx.
  change (flagged ((x, v) :: fvs) ++ rest) with (x :: v :: (flagged fvs ++ rest)). cbn [flag_values].
  rewrite bool_decide_false by done. rewrite IH, filter_cons. cbn [fst]. destruct (decide (x = f)) as [->|Hne]; [by rewrite bool_decide_true|by rewrite bool_decide_false].
Qed.

(** The value of a volume's device. *)
Definition device_value (pod : Pod) (dir : string) (k : nat) (v : string) : string :=
  tag_of k +:+ "=" +:+ host_dir pod dir v +:+ (if device_ro pod v then ":ro" else "").
Definition volume_values (pod : Pod) (dir : string) : list string := imap (device_value pod dir) (used pod (all_mounts pod)).

Lemma resolveVolumes_flags io_err umask stat_dir range_data client get_data pod stateDir h h' args mounts :
  resolveVolumes io_err umask stat_dir range_data client get_data pod stateDir h = (h', Ok (args, mounts)) ->
  args = flagged (("--volume",.) <$> volume_values pod stateDir).
Proof.
  intros [-> _]%resolveVolumes_plan. unfold volume_values, flagged. generalize (used pod (all_mounts pod)). intros vols.
  induction vols as [|v vols IH] using rev_ind; [done|]. rewrite !imap_app, concat_app, fmap_app, bind_app, IH. done.
Qed.

Lemma start_vm_args se o kernel rootfs dir pod volArgs images l args :
  start_vm se o kernel rootfs dir pod volArgs images = (l, Ok args) ->
  exists extra, args = base_args kernel rootfs dir pod volArgs images ++ flagged extra ++ ["--"; "/execd"] /\
    Forall (fun fv : string * string => fv.1 ∈ ["--net-socket"; "--net2-socket"; "--net2-mac"; "--vsock-svc"]) extra.
Proof.
  assert (forall A B (m : procM A) (f : A -> procM B) l b, m ≫= f = (l, Ok b) ->
    exists l1 l2 a, m = (l1, Ok a) /\ f a = (l2, Ok b)) as Hbind.
  { intros A B [l0 [a|e|c]] f l' b; cbn; [|done..]. destruct (f a) as [l2 r] eqn:E. intros [= _ ->]. eauto. }
  unfold start_vm. intros H. apply Hbind in H as (? & ? & [] & _ & H). apply Hbind in H as (? & ? & gvArgs & Hgv & H).
  apply Hbind in H as (? & ? & vmArgs & Hvm & H). apply Hbind in H as (? & ? & [] & _ & H).
  apply Hbind in H as (? & ? & [] & _ & H). injection H as _ <-.
  assert (exists ex, gvArgs = flagged ex /\ Forall (fun fv => fv.1 ∈ ["--net-socket"; "--net2-socket"; "--net2-mac"; "--vsock-svc"]) ex)
    as (ex1 & -> & H1).
  { destruct (se_gvproxy se); [|injection Hgv as _ <-; by exists []]. unfold start_gvproxy in Hgv.
    repeat (apply Hbind in Hgv as (? & ? & ? & _ & Hgv)). injection Hgv as _ <-. exists [("--net-socket", netSockPath (p_UID pod))].
    split; [done|]. apply Forall_singleton. left. }
  assert (exists ex, vmArgs = flagged ex /\ Forall (fun fv => fv.1 ∈ ["--net-socket"; "--net2-socket"; "--net2-mac"; "--vsock-svc"]) ex)
    as (ex2 & -> & H2).
  { destruct (se_vmnetHelper se); [|injection Hvm as _ <-; by exists []]. unfold start_vmnet in Hvm.
    apply Hbind in Hvm as (? & ? & mac & _ & Hvm). repeat (apply Hbind in Hvm as (? & ? & ? & _ & Hvm)). injection Hvm as _ <-.
    exists [("--net2-socket", vmnetSockPath (p_UID pod)); ("--net2-mac", mac); ("--vsock-svc", svcSockPath (p_UID pod))].
    split; [done|]. repeat apply Forall_cons_2; try apply Forall_nil_2; cbn; set_solver. }
  exists (ex1 ++ ex2). split; [rewrite flagged_app, <-!app_assoc; done|by apply Forall_app].
Qed.

(** The values of any flag but the network's. *)
Lemma start_vm_values se o kernel rootfs dir pod vs images l args f :
  start_vm se o kernel rootfs dir pod (flagged (("--volume",.) <$> vs)) images = (l, Ok args) ->
  f ∉ ["--net-socket"; "--net2-socket"; "--net2-mac"; "--vsock-svc"] ->
  exists pre, pre.*1 = ["--kernel"; "--rootfs"; "--cpus"; "--mem"; "--log"; "--vsock-exec"] /\ ("--rootfs", rootfs) ∈ pre /\
  flag_values f args = (filter (fun fv : string * string => fv.1 = f) pre).*2 ++ (if bool_decide (f = "--volume") then vs else []) ++
    (if bool_decide (f = "--root-image") then (fun img => img +:+ ".erofs") <$> images else []).
Proof.
  intros H Hf. apply start_vm_args in H as (extra & -> & Hex). unfold base_args. destruct (vm_size pod) as [mem cpus].
  set (pre := [("--kernel", kernel); ("--rootfs", rootfs); ("--cpus", pretty cpus); ("--mem", pretty mem);
               ("--log", PathJoin [dir; "vmm.log"]); ("--vsock-exec", execSockPath (p_UID pod))]).
  exists pre. split; [done|]. split; [set_solver|].
  assert (forall A (g : A -> string * string) x l, (forall a, (g a).1 = x) ->
    (filter (fun fv : string * string => fv.1 = f) (g <$> l)).*2 = if bool_decide (f = x) then snd ∘ g <$> l else []) as Hsame.
  { clear. intros A g x l Hg. induction l as [|a l IH]; [by case_bool_decide|]. rewrite fmap_cons, filter_cons, Hg.
    case_bool_decide as Hx; [rewrite decide_True by done|rewrite decide_False by congruence]; [|done]. rewrite fmap_cons, IH. done. }
  assert ((images ≫= fun img => ["--root-image"; img +:+ ".erofs"]) = flagged ((fun img => ("--root-image", img +:+ ".erofs")) <$> images)) as ->.
  { unfold flagged. clear. induction images as [|i l IH]; [done|]. cbn. by rewrite IH. }
  change (["--kernel"; kernel; "--rootfs"; rootfs; "--cpus"; pretty cpus; "--mem"; pretty mem;
    "--log"; PathJoin [dir; "vmm.log"]; "--vsock-exec"; execSockPath (p_UID pod)]) with (flagged pre).
  rewrite <-!app_assoc, (app_assoc (flagged pre)), <-flagged_app, (app_assoc (flagged (pre ++ _))), <-flagged_app,
    (app_assoc (flagged ((pre ++ _) ++ _))), <-flagged_app.
  rewrite flag_values_flagged.
  - change (flag_values f ["--"; "/execd"]) with (@nil string). rewrite !filter_app, !fmap_app, app_nil_r.
    rewrite (Hsame _ _ "--volume"), (Hsame _ _ "--root-image") by done.
    assert (filter (fun fv : string * string => fv.1 = f) extra = []) as ->.
    { clear -Hex Hf. induction Hex as [|[x v] ex Hx _ IH]; [done|]. rewrite filter_cons, decide_False; [done|]. cbn in *. set_solver. }
    cbn [fmap list_fmap]. rewrite app_nil_r, <-app_assoc. repeat f_equal; case_bool_decide; try done. apply list_fmap_id.
  - repeat apply Forall_app_2; [repeat apply Forall_cons_2; done|by apply Forall_fmap, Forall_true|by apply Forall_fmap, Forall_true|].
    eapply Forall_impl; [exact Hex|]. intros [x v] Hx. cbn in *. set_solver.
Qed.

(** The disks and the volumes, in order. *)
Lemma start_vm_devices se o kernel rootfs dir pod vs images l args :
  start_vm se o kernel rootfs dir pod (flagged (("--volume",.) <$> vs)) images = (l, Ok args) ->
  flag_values "--root-image" args = (fun img => img +:+ ".erofs") <$> images /\ flag_values "--rootfs" args = [rootfs] /\
  flag_values "--volume" args = vs.
Proof.
  intros H. split_and!.
  1: destruct (start_vm_values _ _ _ _ _ _ _ _ _ _ "--root-image" H ltac:(set_solver)) as (pre & Hp & Hr & ->).
  2: destruct (start_vm_values _ _ _ _ _ _ _ _ _ _ "--rootfs" H ltac:(set_solver)) as (pre & Hp & Hr & ->).
  3: destruct (start_vm_values _ _ _ _ _ _ _ _ _ _ "--volume" H ltac:(set_solver)) as (pre & Hp & Hr & ->).
  all: destruct pre as [|[a1 b1] [|[a2 b2] [|[a3 b3] [|[a4 b4] [|[a5 b5] [|[a6 b6] [|]]]]]]]; try done; injection Hp as -> -> -> -> -> ->;
    cbn; rewrite ?app_nil_r; try done. set_solver.
Qed.

(** Every container boots its own image: when the volumes resolve, the boot
    filesystem is written and the harness starts, the spec on the boot
    filesystem describes the pod's init and main containers in order, each
    with its own command, environment, working directory and mounts, and the
    device it names is the disk to which the harness attaches that
    container's image; no image is attached twice. *)
Lemma container_boots_its_image io_err umask stat_dir range_data client get_data config op_err se ip6 before pod dir kernel bases o
    h h' volArgs mounts ops ops' rootfs images l args :
  se_imageBlock se = true ->
  resolveVolumes io_err umask stat_dir range_data client get_data pod dir h = (h', Ok (volArgs, mounts)) ->
  makeRootfs config op_err se ip6 before pod dir bases mounts ops = (ops', Ok (rootfs, images)) ->
  start_vm se o kernel rootfs dir pod volArgs images = (l, Ok args) ->
  flag_values "--rootfs" args = [rootfs] /\ NoDup images /\
  exists sp, last ops' = Some (HWriteSpec (PathJoin [rootfs; ".podvm-spec.json"]) sp) /\
    s_RestartPolicy sp = effective_policy pod /\
    Forall2 (fun c s =>
      described config true bases mounts images c s /\
      exists k, sp_RootDev s = device k /\
        flag_values "--root-image" args !! k = Some (default "" (bases !! ct_Image c) +:+ ".erofs"))
      (allContainers pod) (s_InitContainers sp ++ s_Containers sp).
Proof.
  intros Hblock Hvol Hboot Hvm. apply resolveVolumes_flags in Hvol as ->. apply start_vm_devices in Hvm as (Himg & Hroot & _).
  apply makeRootfs_inv in Hboot as (_ & inits & mains & mid & sp & Hi & Hm & Ei & Em & -> & Hpol & _ & _ & ->).
  rewrite Hblock in Hi, Hm. destruct inits as [inits i1], mains as [mains i2]. cbn [fst snd] in *.
  destruct (container_specs_ok config true bases mounts _ [] inits i1 [] Hi eq_refl) as (_ & E1 & F1).
  destruct (container_specs_ok config true bases mounts _ i1 mains i2 _ Hm E1) as (Hpre & E2 & F2).
  split; [done|]. split; [rewrite E2; apply NoDup_first_uses|]. exists sp. split; [by rewrite app_assoc, last_snoc|]. split; [done|].
  rewrite Ei, Em. unfold allContainers.
  assert (forall c s, described config true bases mounts i2 c s -> described config true bases mounts i2 c s /\
    exists k, sp_RootDev s = device k /\ flag_values "--root-image" args !! k = Some (default "" (bases !! ct_Image c) +:+ ".erofs")) as Hd.
  { intros c s Hcs. split; [done|]. destruct (d_device _ _ _ _ _ _ _ Hcs) as (k & Hk & Hdev). exists k. split; [done|].
    by rewrite Himg, list_lookup_fmap, Hk. }
  apply Forall2_app; (eapply Forall2_impl; [eassumption|]); intros c s Hcs; apply Hd; [by eapply described_more|done].
Qed.
