(* ===== verification/HostPorts.v ===== *)
(** * Host ports (poc/agent/hostports.go)

    [exposeHostPorts] asks the pod's gvproxy to forward each host port the
    pod's containers declare ([collectHostPorts] of [Rootfs]), with up to 20
    attempts per port. What gvproxy answers to an attempt is a parameter; the
    bodies posted are recorded, oldest first. *)
From Stdlib Require Import Ascii.
From S2P Require Import Prelude GoStrings Pod Rootfs.

Definition attempts : nat := 20.

Definition dq : string := String (ascii_of_nat 34) "".
Definition json_field (k v : string) : string := dq +:+ k +:+ dq +:+ ":" +:+ dq +:+ v +:+ dq.

(** The JSON body of a request to forward a host port to the guest. *)
Definition expose_body (p : Z * Z) : string :=
  "{" +:+ json_field "local" ("127.0.0.1:" +:+ pretty p.1) +:+ "," +:+
  json_field "remote" ("192.168.127.2:" +:+ pretty p.2) +:+ "," +:+ json_field "protocol" "tcp" +:+ "}".

Section Expose.
(** The error of an attempt, given what was posted before; [None] is 200. *)
Context (post : list string -> string -> option string).

Notation postM := (stM (list string) string).

(** One attempt. *)
Definition post_once (body : string) (s : list string) : list string * option string := (s ++ [body], post s body).

(** The attempts for one port, [n] of them left: the last error is returned. *)
Fixpoint expose_port (n : nat) (body : string) (last : option string) : postM () := fun s =>
  match n with
  | O => (s, match last with Some e => Err e | None => Ok () end)
  | S n' =>
      match post_once body s with
      | (s', None) => (s', Ok ())
      | (s', Some e) => expose_port n' body (Some e) s'
      end
  end.

Fixpoint exposeHostPorts (ports : list (Z * Z)) : postM () :=
  match ports with
  | [] => mret ()
  | p :: ports' => expose_port attempts (expose_body p) None ≫= fun _ => exposeHostPorts ports'
  end.

(** ** What is posted *)

(** Some of the first [n] attempts from a history on is accepted. *)
Fixpoint accepted (n : nat) (body : string) (s : list string) : Prop :=
  match n with O => False | S n' => post s body = None \/ accepted n' body (s ++ [body]) end.

Lemma expose_port_spec n body last s :
  n <> 0 \/ last <> None ->
  exists k, k <= n /\ (expose_port n body last s).1 = s ++ replicate k body /\
    match (expose_port n body last s).2 with
    | Ok _ => 1 <= k /\ post (s ++ replicate (k - 1) body) body = None
    | Err _ => k = n /\ forall j, j < n -> post (s ++ replicate j body) body <> None
    | Crash _ => False
    end.
Proof.
  revert last s. induction n as [|n IH]; intros last s Hn; cbn [expose_port].
  { exists 0. rewrite app_nil_r. split_and!; [lia|done|]. destruct last; [|naive_solver]. split; [done|lia]. }
  unfold post_once. destruct (post s body) as [e|] eqn:E.
  - destruct (IH (Some e) (s ++ [body])) as (k & Hk & Hs & Hr); [by right|]. exists (S k).
    rewrite Hs, <-app_assoc. split_and!; [lia|done|]. destruct (expose_port n body (Some e) (s ++ [body])) as [s' [a|e'|c]]; cbn in *; [|..|done].
    + destruct Hr as [H1 H2]. split; [lia|]. rewrite Nat.sub_0_r. destruct k as [|k]; [lia|].
      rewrite <-app_assoc in H2. cbn in H2. by rewrite Nat.sub_0_r in H2.
    + destruct Hr as [-> Hall]. split; [done|]. intros [|j] Hj; cbn [replicate]; [by rewrite app_nil_r, E|].
      specialize (Hall j ltac:(lia)). by rewrite <-app_assoc in Hall.
  - exists 1. cbn. split_and!; [lia|done|lia|]. by rewrite app_nil_r.
Qed.

(** Host ports: the requests posted are, port by port in the order of the
    containers, between one and twenty copies of the request for that port,
    each for 127.0.0.1 on the host and the guest's fixed address; without an
    error every port's last request was accepted; with an error the first
    port that was refused twenty times is the last one asked for. *)
Theorem host_ports_exposed ports s :
  exists counts, Forall (fun k => 1 <= k <= attempts) counts /\ length counts <= length ports /\
    (exposeHostPorts ports s).1 = s ++ concat (zip_with (fun p k => replicate k (expose_body p)) ports counts) /\
    match (exposeHostPorts ports s).2 with
    | Ok _ => length counts = length ports /\
        forall i p k, ports !! i = Some p -> counts !! i = Some k ->
          exists before, post before (expose_body p) = None /\ before ++ [expose_body p] `prefix_of` (exposeHostPorts ports s).1
    | Err _ => last counts = Some attempts
    | Crash _ => False
    end.
Proof.
  revert s. induction ports as [|p ports IH]; intros s.
  { exists []. cbn. rewrite app_nil_r. split_and!; [constructor|lia|done|done|done]. }
  cbn [exposeHostPorts]. destruct (expose_port_spec attempts (expose_body p) None s) as (k & Hk & Hs & Hr); [by left|].
  unfold mbind, stM_bind. destruct (expose_port attempts (expose_body p) None s) as [s1 [[]|e|c]]; cbn [fst snd] in *; [|..|done].
  - destruct Hr as [Hk1 Hpost]. destruct (IH s1) as (counts & Hc & Hlen & Hs1 & Hr1). exists (k :: counts).
    split; [by constructor|]. split; [cbn; lia|]. cbn [zip_with concat]. split; [by rewrite Hs1, Hs, <-app_assoc|].
    destruct (exposeHostPorts ports s1) as [s2 [[]|e|c]]; cbn [fst snd] in *; [| |done].
    + destruct Hr1 as [H1 H2]. split; [cbn; lia|]. intros [|i] q k' Hq Hk'; cbn in Hq, Hk'; [|by eapply H2].
      injection Hq as <-. injection Hk' as <-. eexists. split; [exact Hpost|].
      rewrite Hs1, Hs. replace k with (k - 1 + 1) at 2 by lia. rewrite replicate_add.
      exists (concat (zip_with (fun p k => replicate k (expose_body p)) ports counts)). by rewrite <-!app_assoc.
    + destruct counts as [|x l]; [done|]. by rewrite last_cons_cons.
  - destruct Hr as [-> _]. exists [attempts]. split; [repeat constructor|]. split; [cbn; lia|]. split; [|done].
    rewrite Hs. cbn [zip_with concat]. by destruct ports; cbn [zip_with concat]; rewrite app_nil_r.
Qed.
End Expose.

Example host_ports_example :
  let r := exposeHostPorts (fun before _ => if bool_decide (length before < 2) then Some "connection refused" else None)
    (collectHostPorts (MkPod "uid" "api" "kube-system" ∅ []
       [MkContainer "c" "img" [] [] false [] "" [] [MkPort "https" 0 6443 "" "TCP"; MkPort "dns" 53 53 "" "UDP"] None None None None None]
       "" [] None None false None)) [] in
  r = (replicate 3 (expose_body (6443, 6443)%Z), Ok ()).
Proof. vm_compute. reflexivity. Qed.
