(* ===== verification/Boot.v ===== *)
(** * Booting the guest (poc/execd/main.go, blockroot.go, supervisor.go)

    What execd's [main] does between reading the spec and supervising the
    containers: each container's writable root over its image device
    ([buildContainerRoot]), network and services, [resolv.conf], the volume
    mounts. System calls are recorded, oldest first; which of them fail, given
    those before, is a parameter. Also the command line, environment and
    working directory a process of a container gets ([mergeEnv], [startOnce],
    [handleExec]). *)
From Stdlib Require Import Ascii.
From S2P Require Import Prelude GoStrings GuestRoot Volumes Rootfs.

(** ** Environment *)

Definition defaultEnv : list string :=
  ["PATH=/usr/local/sbin:/usr/local/bin:/usr/sbin:/usr/bin:/sbin:/bin"; "HOME=/root"; "TERM=xterm"].

Definition env_key (kv : string) : string := (Cut "="%char kv).1.1.

(** The [idx] of the code is the position of the key in [out]. *)
Definition env_add (out : list string) (kv : string) : list string :=
  match index_of (env_key kv) (env_key <$> out) with
  | Some i => <[i := kv]> out
  | None => out ++ [kv]
  end.
Definition mergeEnv (base override : list string) : list string :=
  foldl env_add (foldl env_add [] base) override.

(** ** Commands *)

(** What execd knows of a container; [ci_root] is [None] for a container
    that runs in the boot root (directory mode). *)
Record container_info := Info { ci_root : option fsys; ci_Env : list string; ci_Cwd : string }.

Record command := Command { cm_Path : string; cm_Argv : list string; cm_Env : list string; cm_Dir : string; cm_Chroot : bool }.

(** The command both [startOnce] and [handleExec] build for a non-empty argv.
    In the boot root [exec.Command] resolves a bare name in execd's own
    environment: that lookup is part of whether the process starts. [quote] is
    Go's [%q]. *)
Definition container_command (quote : string -> string) (ci : container_info) (argv0 : string) (args : list string) : result string command :=
  let env := mergeEnv defaultEnv (ci_Env ci) in
  let dir := if bool_decide (ci_Cwd ci <> "") then ci_Cwd ci else match ci_root ci with Some _ => "/" | None => "" end in
  match ci_root ci with
  | None => Ok (Command argv0 (argv0 :: args) env dir false)
  | Some fs =>
      match lookPathInRoot fs env argv0 with
      | Some path => Ok (Command path (argv0 :: args) env dir true)
      | None => Err ("executable " +:+ quote argv0 +:+ " not found in PATH inside image")
      end
  end.

(** ** Container roots *)

Inductive sys_op :=
| SMkdirAll (p : string)
| SMount (src dst fstype : string) (ro : bool) (opts : string)
| SBind (src dst : string)
| SSticky (p : string)             (* chmod 01777 *)
| SWriteEtc (p content : string)
| SConfigureNet (ip gw : string) | SConfigureNet6 (ip : string)
| SServiceLB (cidr : string)
| SDNSProxy (upstream : string)
| SServe                           (* the vsock control channel *)
| SRun.                            (* the supervisor *)

(** [mountedLowers], [builtRoots], [podShmReady]. *)
Record roots := Roots { ro_lowers : gmap string string; ro_built : list string; ro_shm : bool }.

(** The operations so far, and the root tables. *)
Notation sysM := (stM (list sys_op * roots) string).

Section Boot.
Context (sys_err : list sys_op -> sys_op -> option string).
Context (is_dir : list sys_op -> string -> bool).

(** A call whose error is returned. *)
Definition sys (o : sys_op) : sysM () := fun s =>
  ((s.1 ++ [o], s.2), match sys_err s.1 o with Some e => Err e | None => Ok () end).
(** A call whose error is only logged, or not looked at. *)
Definition sys_try (o : sys_op) : sysM bool := fun s =>
  ((s.1 ++ [o], s.2), Ok (bool_decide (sys_err s.1 o = None))).
Definition get_roots : sysM roots := st_get snd.
Definition put_roots (r : roots) : sysM () := fun s => ((s.1, r), Ok ()).
Definition check_dir (p : string) : sysM bool := st_get (fun s => is_dir s.1 p).

(** [ensureDevMounted] *)
Definition lower_dir (dev : string) : string := "/lower-" +:+ Base dev.

Definition ensureDevMounted (dev : string) : sysM string :=
  get_roots ≫= fun r =>
  match ro_lowers r !! dev with
  | Some p => mret p
  | None =>
      (if bool_decide (ro_lowers r = ∅) then sys_try (SMount "devtmpfs" "/dev" "devtmpfs" false "") else mret true) ≫= fun _ =>
      sys (SMkdirAll (lower_dir dev)) ≫= fun _ =>
      sys_try (SMount dev (lower_dir dev) "erofs" true "") ≫= fun ok : bool =>
      (if ok then mret () else sys (SMount dev (lower_dir dev) "ext4" true "")) ≫= fun _ =>
      get_roots ≫= fun r =>
      put_roots (Roots (<[dev := lower_dir dev]> (ro_lowers r)) (ro_built r) (ro_shm r)) ≫= fun _ =>
      mret (lower_dir dev)
  end.

Definition overlay_opts (lower rw : string) : string :=
  "lowerdir=" +:+ lower +:+ ",upperdir=" +:+ rw +:+ "/upper,workdir=" +:+ rw +:+ "/work".

Definition kernel_mount (src dst fstype opts : string) : sysM () :=
  sys_try (SMkdirAll dst) ≫= fun _ => sys_try (SMount src dst fstype false opts) ≫= fun _ => mret ().

(** The calls of [buildContainerRoot] once the overlay is mounted: none of
    their errors is returned. *)
Definition finishRoot (root : string) : sysM string :=
  kernel_mount "proc" (root +:+ "/proc") "proc" "" ≫= fun _ =>
  kernel_mount "sysfs" (root +:+ "/sys") "sysfs" "" ≫= fun _ =>
  kernel_mount "devtmpfs" (root +:+ "/dev") "devtmpfs" "" ≫= fun _ =>
  kernel_mount "devpts" (root +:+ "/dev/pts") "devpts" "mode=620,ptmxmode=666" ≫= fun _ =>
  get_roots ≫= fun r =>
  (if ro_shm r then mret ()
   else sys_try (SMkdirAll "/podshm") ≫= fun _ =>
        sys_try (SMount "tmpfs" "/podshm" "tmpfs" false "mode=1777") ≫= fun ok : bool =>
        if ok then get_roots ≫= fun r => put_roots (Roots (ro_lowers r) (ro_built r) true) else mret ()) ≫= fun _ =>
  get_roots ≫= fun r =>
  (if ro_shm r then sys_try (SMkdirAll (root +:+ "/dev/shm")) ≫= fun _ => sys_try (SBind "/podshm" (root +:+ "/dev/shm")) ≫= fun _ => mret ()
   else mret ()) ≫= fun _ =>
  check_dir (root +:+ "/tmp") ≫= fun have_tmp : bool =>
  (if have_tmp then mret true else sys_try (SMkdirAll (root +:+ "/tmp"))) ≫= fun _ =>
  sys_try (SSticky (root +:+ "/tmp")) ≫= fun _ =>
  sys_try (SMkdirAll (root +:+ "/etc")) ≫= fun _ =>
  get_roots ≫= fun r => put_roots (Roots (ro_lowers r) (ro_built r ++ [root]) (ro_shm r)) ≫= fun _ =>
  mret root.

(** [buildContainerRoot] *)
Definition buildContainerRoot (name dev : string) : sysM string :=
  ensureDevMounted dev ≫= fun lower =>
  let rw := "/rw-" +:+ name in
  let root := "/roots/" +:+ name in
  sys (SMkdirAll rw) ≫= fun _ => sys (SMkdirAll root) ≫= fun _ =>
  sys (SMount "tmpfs" rw "tmpfs" false "") ≫= fun _ =>
  sys (SMkdirAll (rw +:+ "/upper")) ≫= fun _ => sys (SMkdirAll (rw +:+ "/work")) ≫= fun _ =>
  sys (SMount "overlay" root "overlay" false (overlay_opts lower rw)) ≫= fun _ =>
  finishRoot root.

(** ** [main] *)

Fixpoint each {A B} (f : A -> sysM B) (l : list A) : sysM (list B) :=
  match l with [] => mret [] | x :: l' => f x ≫= fun y => each f l' ≫= fun ys => mret (y :: ys) end.

(** [build]: the container's root, "" in the boot root. *)
Definition build (cs : containerSpec) : sysM string :=
  if bool_decide (sp_RootDev cs = "") then mret "" else buildContainerRoot (sp_Name cs) (sp_RootDev cs).

Definition mountVolumes (root : string) (mounts : list volumeMount) : sysM () :=
  each (fun m =>
    sys (SMkdirAll (root +:+ vm_MountPath m)) ≫= fun _ =>
    sys (SMount (vm_Tag m) (root +:+ vm_MountPath m) "virtiofs" (vm_ReadOnly m) "")) mounts ≫= fun _ => mret ().

Definition writeEtc (name content : string) : sysM () :=
  get_roots ≫= fun r =>
  each (fun root => sys_try (SWriteEtc (root +:+ "/etc/" +:+ name) content)) ("" :: ro_built r) ≫= fun _ => mret ().

Definition newline : string := String (Ascii.ascii_of_nat 10) "".

Definition resolv_conf (ns : string) : string :=
  let ns := if bool_decide (ns = "") then "default" else ns in
  "nameserver 127.0.0.1" +:+ newline +:+ "search " +:+ ns +:+ ".svc.cluster.local svc.cluster.local cluster.local" +:+
  newline +:+ "options ndots:5" +:+ newline.

(** [net.JoinHostPort] *)
Definition join_port (host port : string) : string :=
  if has_char ":"%char host || has_char "%"%char host then "[" +:+ host +:+ "]:" +:+ port else host +:+ ":" +:+ port.

Definition setup_network (sp : spec) : sysM () :=
  match s_Net sp with Some n => sys_try (SConfigureNet (ns_IP n) (ns_GW n)) | None => mret true end ≫= fun _ =>
  match s_Net6 sp with Some ip => sys_try (SConfigureNet6 ip) | None => mret true end ≫= fun _ =>
  let dns := match s_Net sp with Some n => ns_DNS n | None => "" end in
  match s_Svc sp with
  | Some (cidr, ns) =>
      sys_try (SServiceLB cidr) ≫= fun _ =>
      sys_try (SDNSProxy (if bool_decide (dns = "") then "" else join_port dns "53")) ≫= fun ok : bool =>
      if ok then writeEtc "resolv.conf" (resolv_conf ns) else mret ()
  | None => if bool_decide (dns = "") then mret () else writeEtc "resolv.conf" ("nameserver " +:+ dns +:+ newline)
  end.

(** [main], up to the supervisor: the roots of the init and the main
    containers; an error is a fatal exit. *)
Definition boot (sp : spec) : sysM (list string * list string) :=
  if bool_decide (s_Containers sp = []) then st_fail "no containers in spec"
  else
    sys_try (SMkdirAll "/logs") ≫= fun _ =>
    each build (s_InitContainers sp) ≫= fun inits =>
    each build (s_Containers sp) ≫= fun mains =>
    setup_network sp ≫= fun _ =>
    each (fun rc : string * containerSpec => mountVolumes rc.1 (sp_Mounts rc.2))
      (zip (inits ++ mains) (s_InitContainers sp ++ s_Containers sp)) ≫= fun _ =>
    sys_try SServe ≫= fun _ => sys_try SRun ≫= fun _ => mret (inits, mains).
End Boot.

(** ** Environment: the specification *)

(** The last entry of a key. *)
Definition last_of (l : list string) (k : string) : string := default "" (last (filter (fun kv => env_key kv = k) l)).

Lemma last_of_key l k : k ∈ env_key <$> l -> env_key (last_of l k) = k.
Proof.
  intros (kv & -> & Hin)%list_elem_of_fmap. unfold last_of.
  destruct (last (filter (fun x => env_key x = env_key kv) l)) as [x|] eqn:E; cbn.
  - apply last_Some_elem_of in E. by apply list_elem_of_filter in E as [? _].
  - apply last_None in E. assert (kv ∈ filter (fun x => env_key x = env_key kv) l) as Hf by (by apply list_elem_of_filter).
    rewrite E in Hf. by apply elem_of_nil in Hf.
Qed.

Lemma last_of_snoc l x k : last_of (l ++ [x]) k = if decide (env_key x = k) then x else last_of l k.
Proof.
  unfold last_of. rewrite filter_app, filter_cons, filter_nil. case_decide; [by rewrite last_snoc|by rewrite app_nil_r].
Qed.

Definition env_spec (l : list string) : list string := last_of l <$> first_uses (env_key <$> l).

Lemma env_spec_keys l : env_key <$> env_spec l = first_uses (env_key <$> l).
Proof.
  unfold env_spec. rewrite <-list_fmap_compose. transitivity (id <$> first_uses (env_key <$> l)); [|by rewrite list_fmap_id].
  apply list_fmap_ext. intros i k Hk. apply last_of_key. apply elem_of_first_uses. by eapply list_elem_of_lookup_2.
Qed.

Lemma env_add_spec l x : env_add (env_spec l) x = env_spec (l ++ [x]).
Proof.
  unfold env_add. rewrite env_spec_keys. unfold env_spec. rewrite fmap_app. cbn [fmap list_fmap]. rewrite first_uses_snoc.
  destruct (index_of (env_key x) (first_uses (env_key <$> l))) as [i|] eqn:Hi.
  - pose proof (index_of_lookup _ _ _ Hi) as Hl. rewrite decide_True by (by eapply list_elem_of_lookup_2).
    apply list_eq. intros j. rewrite list_lookup_insert, !list_lookup_fmap.
    case_decide as Hne; [destruct Hne as [-> _]|].
    + rewrite Hl. cbn. rewrite last_of_snoc. by rewrite decide_True.
    + destruct (first_uses (env_key <$> l) !! j) as [k|] eqn:Hj; [|done]. cbn. rewrite last_of_snoc. case_decide as Hk; [|done].
      exfalso. subst k. pose proof (NoDup_lookup _ _ _ _ (NoDup_first_uses (env_key <$> l)) Hl Hj) as ->.
      apply Hne. split; [done|]. rewrite length_fmap. by eapply lookup_lt_Some.
  - apply index_of_None in Hi. rewrite decide_False by done. rewrite fmap_app. cbn. f_equal.
    + apply list_fmap_ext. intros j k Hk. rewrite last_of_snoc. rewrite decide_False; [done|]. intros <-. apply Hi. by eapply list_elem_of_lookup_2.
    + rewrite last_of_snoc. by rewrite decide_True.
Qed.

(** [mergeEnv] is the merge its two loops compute with a map and a slice:
    every variable occurs once, at the place of its first occurrence, with
    the value of its last one, overrides after the base. *)
Theorem mergeEnv_correct base override :
  mergeEnv base override = env_spec (base ++ override) /\
  NoDup (env_key <$> mergeEnv base override) /\
  (forall kv, kv ∈ override -> last_of override (env_key kv) ∈ mergeEnv base override).
Proof.
  assert (forall l k, foldl env_add (env_spec k) l = env_spec (k ++ l)) as Hf.
  { induction l as [|x l IH]; intros k; [by rewrite app_nil_r|]. cbn. by rewrite env_add_spec, IH, <-app_assoc. }
  assert (mergeEnv base override = env_spec (base ++ override)) as E.
  { unfold mergeEnv. change (@nil string) with (env_spec []). by rewrite !Hf. }
  rewrite E. split; [done|]. split; [rewrite env_spec_keys; apply NoDup_first_uses|]. intros kv Hkv. unfold env_spec.
  apply list_elem_of_fmap. exists (env_key kv). split.
  - unfold last_of. rewrite filter_app, last_app.
    destruct (last (filter (fun x => env_key x = env_key kv) override)) as [x|] eqn:El; [done|].
    apply last_None in El. assert (kv ∈ filter (fun x => env_key x = env_key kv) override) as Hin by (by apply list_elem_of_filter).
    rewrite El in Hin. by apply elem_of_nil in Hin.
  - apply elem_of_first_uses. apply list_elem_of_fmap_2. apply elem_of_app. by right.
Qed.

Lemma container_env_example :
  mergeEnv defaultEnv ["PATH=/opt/bin"; "A=1"; "A=2"; "B"] =
  ["PATH=/opt/bin"; "HOME=/root"; "TERM=xterm"; "A=2"; "B"].
Proof. vm_compute. reflexivity. Qed.

(** ** The boot sequence: what has happened when the containers start *)

Section BootProofs.
Context (sys_err : list sys_op -> sys_op -> option string) (is_dir : list sys_op -> string -> bool).

(** A call that succeeded, at its place in the sequence. *)
Definition succeeded (o : sys_op) (ops : list sys_op) : Prop :=
  exists l1 l2, ops = l1 ++ o :: l2 /\ sys_err l1 o = None.

Lemma succeeded_app o l k : succeeded o l -> succeeded o (l ++ k).
Proof. intros (l1 & l2 & -> & He). exists l1, (l2 ++ k). by rewrite <-app_assoc. Qed.

(** Not the start of the control channel or of the containers. *)
Definition early (o : sys_op) : Prop := o <> SServe /\ o <> SRun.

(** Only early calls are added, and, when [keep], the lower mounts stay. *)
Definition adds {A} (keep : bool) (m : sysM A) : Prop :=
  forall s s' r, m s = (s', r) ->
    (exists l, s'.1 = s.1 ++ l /\ Forall early l) /\ (keep = true -> ro_lowers s'.2 = ro_lowers s.2).

Lemma adds_bind {A B} k (m : sysM A) (f : A -> sysM B) : adds k m -> (forall a, adds k (f a)) -> adds k (m ≫= f).
Proof.
  intros Hm Hf s s' r. unfold mbind, stM_bind. destruct (m s) as [s1 ra] eqn:E. apply Hm in E as [(l1 & H1 & F1) K1].
  destruct ra as [a|e|c]; [|by intros [= <- <-]; split; [by exists l1|]..].
  intros [(l2 & H2 & F2) K2]%Hf. split; [|intros Hk; by rewrite K2, K1]. exists (l1 ++ l2).
  rewrite H2, H1, app_assoc. split; [done|by apply Forall_app].
Qed.
Lemma adds_none {A} k (m : sysM A) : (forall s, exists r, m s = (s, r)) -> adds k m.
Proof. intros Hm s s' r E. destruct (Hm s) as [r' E']. rewrite E in E'. injection E' as -> ->. split; [|done]. exists []. by rewrite app_nil_r. Qed.
Lemma adds_ret {A} k (a : A) : adds k (mret a).
Proof. apply adds_none. by eexists. Qed.
Lemma adds_fail {A} k e : adds k (st_fail (A:=A) e).
Proof. apply adds_none. by eexists. Qed.
Lemma adds_get k : adds k get_roots.
Proof. apply adds_none. by eexists. Qed.
Lemma adds_check k p : adds k (check_dir is_dir p).
Proof. apply adds_none. by eexists. Qed.
Lemma adds_sys k o : early o -> adds k (sys sys_err o).
Proof. intros HP s s' r [= <- <-]. split; [|done]. exists [o]. split; [done|by apply Forall_singleton]. Qed.
Lemma adds_sys_try k o : early o -> adds k (sys_try sys_err o).
Proof. intros HP s s' r [= <- <-]. split; [|done]. exists [o]. split; [done|by apply Forall_singleton]. Qed.
Lemma adds_put x : adds false (put_roots x).
Proof. intros s s' r [= <- <-]. split; [|done]. exists []. by rewrite app_nil_r. Qed.
Lemma adds_modify k (f : roots -> list string) (g : roots -> bool) :
  adds k (get_roots ≫= fun r => put_roots (Roots (ro_lowers r) (f r) (g r))).
Proof. intros s s' r [= <- <-]. split; [|done]. exists []. by rewrite app_nil_r. Qed.
Lemma adds_modify_bind {A} k (f : roots -> list string) (g : roots -> bool) (c : sysM A) :
  adds k c -> adds k (get_roots ≫= fun r => put_roots (Roots (ro_lowers r) (f r) (g r)) ≫= fun _ => c).
Proof.
  intros Hc s s' r E. cbn in E. apply Hc in E as [H1 H2]. by split.
Qed.
Lemma adds_each {A B} k (f : A -> sysM B) l : (forall x, adds k (f x)) -> adds k (each f l).
Proof.
  intros Hf. induction l as [|x l IH]; [apply adds_ret|]. apply adds_bind; [done|]. intros y.
  apply adds_bind; [done|]. intros ys. apply adds_ret.
Qed.

Ltac adds := repeat first
  [ apply adds_ret | apply adds_fail | apply adds_get | apply adds_check
  | apply adds_sys; done | apply adds_sys_try; done | apply adds_modify | apply adds_put
  | apply adds_modify_bind | apply adds_bind; [|intros ?] | apply adds_each; intros ? | case_match | progress cbn zeta ].

Lemma adds_ensure dev : adds false (ensureDevMounted sys_err dev).
Proof. unfold ensureDevMounted. adds. Qed.
Lemma adds_finish root : adds true (finishRoot sys_err is_dir root).
Proof. unfold finishRoot, kernel_mount. adds. Qed.
Lemma adds_weaken {A} k (m : sysM A) : adds true m -> adds k m.
Proof. intros H s s' r E. destruct (H _ _ _ E). by split; [|auto]. Qed.
Lemma adds_build cs : adds false (build sys_err is_dir cs).
Proof. unfold build, buildContainerRoot. case_bool_decide; adds. Qed.
Lemma adds_network sp : adds true (setup_network sys_err sp).
Proof. unfold setup_network, writeEtc. adds. Qed.
Lemma adds_volumes root ms : adds true (mountVolumes sys_err root ms).
Proof. unfold mountVolumes. adds. Qed.

(** *** Inversion *)

Lemma sys_inv o s s' : sys sys_err o s = (s', Ok ()) -> s' = (s.1 ++ [o], s.2) /\ succeeded o s'.1.
Proof.
  unfold sys. intros [= <- He]. split; [done|]. exists s.1, []. split; [done|]. by destruct (sys_err s.1 o).
Qed.

Lemma sys_try_inv o s s' ok : sys_try sys_err o s = (s', Ok ok) -> s' = (s.1 ++ [o], s.2) /\ (ok = true -> succeeded o s'.1).
Proof.
  unfold sys_try. intros [= <- <-]. split; [done|]. intros He%bool_decide_eq_true. by exists s.1, [].
Qed.

(** The image of a device is mounted read-only on its lower directory. *)
Definition lower_mounted (dev : string) (ops : list sys_op) : Prop :=
  succeeded (SMount dev (lower_dir dev) "erofs" true "") ops \/ succeeded (SMount dev (lower_dir dev) "ext4" true "") ops.

Definition lowers_ok (s : list sys_op * roots) : Prop :=
  forall dev p, ro_lowers s.2 !! dev = Some p -> p = lower_dir dev /\ lower_mounted dev s.1.

Lemma lower_mounted_app dev l k : lower_mounted dev l -> lower_mounted dev (l ++ k).
Proof. intros [H|H]; [left|right]; by apply succeeded_app. Qed.

Lemma lowers_ok_same s s' l : ro_lowers s'.2 = ro_lowers s.2 -> s'.1 = s.1 ++ l -> lowers_ok s -> lowers_ok s'.
Proof. intros Hr Hl Hok dev p Hp. rewrite Hr in Hp. destruct (Hok dev p Hp). split; [done|]. rewrite Hl. by apply lower_mounted_app. Qed.

Lemma put_inv s s' r u : put_roots r s = (s', Ok u) -> s' = (s.1, r).
Proof. by intros [= <-]. Qed.
(** Follow a run that succeeded, call by call. *)
Ltac run := repeat match goal with
  | H : (_ ≫= _) _ = (_, Ok _) |- _ => apply st_bind_ok in H as (? & ? & ? & H)
  | H : get_roots _ = (_, Ok _) |- _ => apply st_get_ok in H as [-> ->]
  | H : put_roots _ _ = (_, Ok _) |- _ => apply put_inv in H as ->
  | H : check_dir _ _ _ = (_, Ok _) |- _ => apply st_get_ok in H as [-> _]
  | H : mret _ _ = (_, Ok _) |- _ => apply st_ret_ok in H as [-> ->]
  | H : sys _ _ _ = (_, Ok ?u) |- _ => destruct u; apply sys_inv in H as [-> H]
  | H : sys_try _ _ _ = (_, Ok _) |- _ => apply sys_try_inv in H as [-> H]
  end; cbn [fst snd] in *.

Lemma ensure_ok dev s s' p :
  lowers_ok s -> ensureDevMounted sys_err dev s = (s', Ok p) -> lowers_ok s' /\ p = lower_dir dev /\ lower_mounted dev s'.1.
Proof.
  intros Hok H. pose proof (adds_ensure dev _ _ _ H) as [(l & Hl & _) _]. unfold ensureDevMounted in H.
  run. destruct (ro_lowers s.2 !! dev) as [q|] eqn:E; run; [by destruct (Hok _ _ E)|].
  assert (x.2 = s.2) as E1 by (case_bool_decide; run; done).
  assert (x5.2 = x.2 /\ lower_mounted dev x5.1) as [E5 Hm] by (destruct x4; run; split; [done|left; auto|done|by right]).
  split; [|by split]. intros dev' p' Hp. cbn [snd fst ro_lowers] in *. apply lookup_insert_Some in Hp as [[<- <-]|[_ Hp]]; [by split|].
  rewrite E5, E1 in Hp. destruct (Hok _ _ Hp) as [-> Hm']. split; [done|]. rewrite Hl. by apply lower_mounted_app.
Qed.

(** What a container's root is made of. *)
Definition root_ready (cs : containerSpec) (root : string) (ops : list sys_op) : Prop :=
  if bool_decide (sp_RootDev cs = "") then root = ""
  else root = "/roots/" +:+ sp_Name cs /\ lower_mounted (sp_RootDev cs) ops /\
    succeeded (SMount "tmpfs" ("/rw-" +:+ sp_Name cs) "tmpfs" false "") ops /\
    succeeded (SMount "overlay" root "overlay" false (overlay_opts (lower_dir (sp_RootDev cs)) ("/rw-" +:+ sp_Name cs))) ops.

Lemma root_ready_app cs root l k : root_ready cs root l -> root_ready cs root (l ++ k).
Proof.
  unfold root_ready. case_bool_decide; [done|]. intros (? & ? & ? & ?). split_and!; [done|by apply lower_mounted_app|by apply succeeded_app..].
Qed.

Lemma build_ok cs s s' root :
  lowers_ok s -> build sys_err is_dir cs s = (s', Ok root) -> lowers_ok s' /\ root_ready cs root s'.1.
Proof.
  intros Hok. unfold build, root_ready. case_bool_decide as Hd; [intros H; by run|].
  unfold buildContainerRoot. cbn zeta. intros H. apply st_bind_ok in H as (s1 & lower & H1 & H).
  destruct (ensure_ok _ _ _ _ Hok H1) as (Hok1 & -> & Hm). run.
  pose proof (adds_finish _ _ _ _ H) as [(l & Hl & _) Hk].
  assert (root = "/roots/" +:+ sp_Name cs) as -> by (unfold finishRoot in H; by run).
  cbn [fst snd] in Hl, Hk. split.
  - eapply (lowers_ok_same s1 s'); [by rewrite Hk| |exact Hok1]. cbn. rewrite Hl. cbn. rewrite <-!app_assoc. reflexivity.
  - rewrite Hl. split_and!; [done|by repeat apply lower_mounted_app|by repeat first [eassumption|apply succeeded_app]..].
Qed.

Lemma each_build l s s' rs :
  lowers_ok s -> each (build sys_err is_dir) l s = (s', Ok rs) ->
  lowers_ok s' /\ Forall2 (fun cs root => root_ready cs root s'.1) l rs.
Proof.
  revert s rs. induction l as [|cs l IH]; intros s rs Hok H; cbn [each] in H; run; [by split|].
  destruct (build_ok _ _ _ _ Hok H0) as [Hok1 Hr]. destruct (IH _ _ Hok1 H1) as [Hok2 Hrs]. split; [done|]. constructor; [|done].
  pose proof (adds_each false _ l adds_build _ _ _ H1) as [(k & -> & _) _]. by apply root_ready_app.
Qed.

(** A volume mount that took effect in a root. *)
Definition volume_mounted (root : string) (ops : list sys_op) (m : volumeMount) : Prop :=
  succeeded (SMkdirAll (root +:+ vm_MountPath m)) ops /\
  succeeded (SMount (vm_Tag m) (root +:+ vm_MountPath m) "virtiofs" (vm_ReadOnly m) "") ops.

Lemma volume_mounted_app root l k m : volume_mounted root l m -> volume_mounted root (l ++ k) m.
Proof. intros []. split; by apply succeeded_app. Qed.

Lemma mountVolumes_ok root ms s s' u :
  mountVolumes sys_err root ms s = (s', Ok u) -> Forall (volume_mounted root s'.1) ms.
Proof.
  unfold mountVolumes. intros H. run. revert s x0 H0. induction ms as [|m ms IH]; intros s rs H; cbn [each] in H; run; [done|].
  pose proof (IH _ _ H1) as Hms. constructor; [|done].
  assert (adds true (each (fun m => sys sys_err (SMkdirAll (root +:+ vm_MountPath m)) ≫= fun _ =>
    sys sys_err (SMount (vm_Tag m) (root +:+ vm_MountPath m) "virtiofs" (vm_ReadOnly m) "")) ms)) as Ha by adds.
  destruct (Ha _ _ _ H1) as [(k & -> & _) _]. apply volume_mounted_app. split; [by apply succeeded_app|done].
Qed.

Lemma each_volumes l s s' us :
  each (fun rc : string * containerSpec => mountVolumes sys_err rc.1 (sp_Mounts rc.2)) l s = (s', Ok us) ->
  Forall (fun rc => Forall (volume_mounted rc.1 s'.1) (sp_Mounts rc.2)) l.
Proof.
  revert s us. induction l as [|rc l IH]; intros s us H; cbn [each] in H; run; [done|]. constructor; [|by eapply IH].
  pose proof (adds_each true _ l (fun rc => adds_volumes rc.1 (sp_Mounts rc.2)) _ _ _ H1) as [(k & -> & _) _].
  apply mountVolumes_ok in H0. eapply Forall_impl; [exact H0|]. intros m. apply volume_mounted_app.
Qed.

Lemma network_svc sp s s' u cidr ns : setup_network sys_err sp s = (s', Ok u) -> s_Svc sp = Some (cidr, ns) -> SServiceLB cidr ∈ s'.1.
Proof.
  unfold setup_network. intros H E. rewrite E in H. cbn zeta in H. apply st_bind_ok in H as (s1 & b1 & _ & H).
  apply st_bind_ok in H as (s2 & b2 & _ & H). apply st_bind_ok in H as (s3 & b3 & H1 & H).
  assert (SServiceLB cidr ∈ s3.1) as Hin by (apply sys_try_inv in H1 as [-> _]; cbn; set_solver).
  match type of H with ?m _ = _ => assert (adds true m) as Ha end.
  { unfold writeEtc. adds. }
  destruct (Ha _ _ _ H) as [(k & -> & _) _]. set_solver.
Qed.

(** Early calls, then, on success only, the control channel and the
    containers. *)
Definition starts {A} (m : sysM A) : Prop :=
  forall s s' r, m s = (s', r) ->
    exists l, Forall early l /\ s'.1 = s.1 ++ l ++ match r with Ok _ => [SServe; SRun] | _ => [] end.

Lemma starts_bind {A B} (m : sysM A) (f : A -> sysM B) : adds false m -> (forall a, starts (f a)) -> starts (m ≫= f).
Proof.
  intros Hm Hf s s' r. unfold mbind, stM_bind. destruct (m s) as [s1 ra] eqn:E. apply Hm in E as [(l1 & H1 & F1) _].
  destruct ra as [a|e|c]; [|by intros [= <- <-]; exists l1; rewrite app_nil_r..].
  intros (l2 & F2 & H2)%Hf. exists (l1 ++ l2). rewrite H2, H1, <-!app_assoc. split; [by apply Forall_app|done].
Qed.
Lemma starts_end {A} (a : A) : starts (sys_try sys_err SServe ≫= fun _ => sys_try sys_err SRun ≫= fun _ => mret a).
Proof. intros s s' r [= <- <-]. exists []. cbn. by rewrite <-app_assoc. Qed.
Lemma starts_fail {A} e : starts (st_fail (A:=A) e).
Proof. intros s s' r [= <- <-]. exists []. by rewrite app_nil_r. Qed.

Lemma boot_starts sp : starts (boot sys_err is_dir sp).
Proof.
  unfold boot. case_bool_decide; [apply starts_fail|]. apply starts_bind; [apply adds_sys_try; done|]. intros _.
  apply starts_bind; [apply adds_each, adds_build|]. intros inits. apply starts_bind; [apply adds_each, adds_build|]. intros mains.
  apply starts_bind; [apply adds_weaken, adds_network|]. intros _.
  apply starts_bind; [apply adds_each; intros rc; apply adds_weaken, adds_volumes|]. intros _. apply starts_end.
Qed.

Lemma Forall2_app_zip {A B} (P : A -> B -> Prop) (Q : B * A -> Prop) l k :
  Forall2 P l k -> Forall Q (zip k l) -> Forall2 (fun a b => P a b /\ Q (b, a)) l k.
Proof. induction 1; cbn; [constructor|]. intros [? ?]%Forall_cons. constructor; auto. Qed.

(** When [main] gets to its supervisor everything is in place. *)
Lemma boot_ready sp s inits mains :
  boot sys_err is_dir sp ([], Roots ∅ [] false) = (s, Ok (inits, mains)) ->
  exists pre, s.1 = pre ++ [SServe; SRun] /\ Forall early pre /\
    Forall2 (fun cs root => root_ready cs root pre /\ Forall (volume_mounted root pre) (sp_Mounts cs))
      (s_InitContainers sp ++ s_Containers sp) (inits ++ mains) /\
    forall cidr ns, s_Svc sp = Some (cidr, ns) -> SServiceLB cidr ∈ pre.
Proof.
  intros E. destruct (boot_starts _ _ _ _ E) as (l & Hl & Hs). cbn in Hs.
  exists l. split_and!; [done|done|..]; unfold boot in E; case_bool_decide; try done.
  all: apply st_bind_ok in E as (s1 & b1 & H1 & E); apply st_bind_ok in E as (s2 & ri & H2 & E);
    apply st_bind_ok in E as (s3 & rm & H3 & E); apply st_bind_ok in E as (s4 & u4 & H4 & E);
    apply st_bind_ok in E as (s5 & u5 & H5 & E);
    assert (s5.1 = l /\ inits = ri /\ mains = rm) as (<- & -> & ->) by
      (by injection E as <- -> ->; cbn in Hs; rewrite <-app_assoc in Hs; apply app_inv_tail in Hs).
  all: pose proof (adds_each true _ _ (fun rc => adds_volumes rc.1 (sp_Mounts rc.2)) _ _ _ H5) as [(k5 & E5 & _) _];
    pose proof (adds_network sp _ _ _ H4) as [(k4 & E4 & _) _].
  - apply sys_try_inv in H1 as [-> _]. pose proof (adds_each false _ _ adds_build _ _ _ H3) as [(k3 & E3 & _) _].
    assert (lowers_ok ([SMkdirAll "/logs"], Roots ∅ [] false)) as H0 by (intros dev p Hp; done).
    destruct (each_build _ _ _ _ H0 H2) as [Hok2 Hi]. destruct (each_build _ _ _ _ Hok2 H3) as [_ Hm].
    apply (Forall2_app_zip _ (fun rc => Forall (volume_mounted rc.1 s5.1) (sp_Mounts rc.2))); [|by apply each_volumes in H5].
    rewrite E5, E4. apply Forall2_app; eapply Forall2_impl; [exact Hi| |exact Hm|]; cbn; intros cs root Hr.
    + rewrite E3. by repeat apply root_ready_app.
    + by repeat apply root_ready_app.
  - intros cidr ns Hsvc. rewrite E5. apply elem_of_app. left. by eapply network_svc.
Qed.

(** C14 The boot order: the containers are started only when every root and
    volume is in place. If [main] gets to its supervisor, then before the
    control channel opens and the containers start, every init and main
    container's image device was mounted read-only, its own writable layer
    and the overlay of the two were mounted, each of its volumes was mounted
    in that root, and, when the pod has service settings, the setup of the
    service load balancer was attempted: its failure is only logged.
    Otherwise neither is ever reached. *)
Theorem boot_order sp :
  let (s, r) := boot sys_err is_dir sp ([], Roots ∅ [] false) in
  match r with
  | Ok (inits, mains) => exists pre, s.1 = pre ++ [SServe; SRun] /\ Forall early pre /\
      Forall2 (fun cs root => root_ready cs root pre /\ Forall (volume_mounted root pre) (sp_Mounts cs))
        (s_InitContainers sp ++ s_Containers sp) (inits ++ mains) /\
      forall cidr ns, s_Svc sp = Some (cidr, ns) -> SServiceLB cidr ∈ pre
  | _ => SServe ∉ s.1 /\ SRun ∉ s.1
  end.
Proof.
  destruct (boot sys_err is_dir sp _) as [s r] eqn:E. destruct r as [[inits mains]|e|c]; [by apply boot_ready|..].
  all: destruct (boot_starts _ _ _ _ E) as (l & Hl & Hs); cbn in Hs; rewrite app_nil_r in Hs; rewrite Hs;
    split; intros Hin; by destruct (proj1 (Forall_forall _ _) Hl _ Hin).
Qed.
End BootProofs.
