(* ===== verification/GuestNet.v ===== *)
(** * The guest's network (poc/execd/net.go, services.go, main.go)

    [configureNet], [configureNet6] and [setupServiceLB] over the state the
    kernel keeps for them: links with their addresses, routes, the nftables
    chain, the packet queue and its handler. Netlink, nftables and nfqueue are
    third-party: what they do when they succeed is written out, and whether a
    call fails is decided by arguments of the model. Last, the network part of
    execd's [main], where [Boot] has one operation for each of the three. *)
From S2P Require Import Prelude GoStrings NetIP NetCIDR SvcProto ServiceLB Pod Rootfs.

(** ** What the kernel keeps *)

(** An address of a link: its IP, prefix length, and whether duplicate
    detection is off. *)
Record nladdr := NlAddr { na_ip : bytes; na_bits : Z; na_nodad : bool }.
Record nlink := NLink { nl_up : bool; nl_addrs : list nladdr }.
Record route := Route { rt_link : string; rt_dst : option ipnet; rt_gw : option bytes; rt_src : option bytes }.
Record netns := Netns {
  ns_links : gmap string nlink; ns_routes : list route;
  ns_rules : option (list (list nft_expr));   (* the output chain, once flushed *)
  ns_queue : option Z; ns_handler : bool
}.

Inductive net_op :=
| OAddrAdd (link : string) (a : nladdr) | OLinkSetUp (link : string) | ORouteAdd (r : route)
| OAddSet | OFlush (rules : list (list nft_expr)) | OQueueOpen (num : Z) | ORegister.

Definition with_link (link : string) (f : nlink -> nlink) (ns : netns) : netns :=
  Netns (alter f link (ns_links ns)) (ns_routes ns) (ns_rules ns) (ns_queue ns) (ns_handler ns).
Definition with_route (r : route) (ns : netns) : netns :=
  Netns (ns_links ns) (ns_routes ns ++ [r]) (ns_rules ns) (ns_queue ns) (ns_handler ns).

(** What a call does when it succeeds; nothing is sent for a set before the
    flush. *)
Definition apply_op (o : net_op) (ns : netns) : netns :=
  match o with
  | OAddrAdd link a => with_link link (fun l => NLink (nl_up l) (nl_addrs l ++ [a])) ns
  | OLinkSetUp link => with_link link (fun l => NLink true (nl_addrs l)) ns
  | ORouteAdd r => with_route r ns
  | OAddSet => ns
  | OFlush rules => Netns (ns_links ns) (ns_routes ns) (Some rules) (ns_queue ns) (ns_handler ns)
  | OQueueOpen num => Netns (ns_links ns) (ns_routes ns) (ns_rules ns) (Some num) (ns_handler ns)
  | ORegister => Netns (ns_links ns) (ns_routes ns) (ns_rules ns) (ns_queue ns) true
  end.

Notation netM := (stM netns string).

Section Net.
(** [netlink.ParseAddr], which calls fail, and how the kernel lists a link's
    addresses. *)
Context (parse_addr : string -> string + nladdr) (net_err : netns -> net_op -> option string).
Context (listed : netns -> string -> list nladdr -> option (list nladdr)).

Definition call (o : net_op) : netM () := fun ns =>
  match net_err ns o with Some e => (ns, Err e) | None => (apply_op o ns, Ok ()) end.
(** The same, where the source wraps the error. *)
Definition call_as (wrap : string) (o : net_op) : netM () := fun ns =>
  match net_err ns o with Some e => (ns, Err (wrap +:+ e)) | None => (apply_op o ns, Ok ()) end.
(** A call whose error is dropped. *)
Definition call_try (o : net_op) : netM () := fun ns => ((call o ns).1, Ok ()).

(** [netlink.LinkByName], for its error. *)
Definition have_link (link : string) : netM bool := st_get (fun ns => bool_decide (is_Some (ns_links ns !! link))).
Definition LinkByName (link : string) : netM () :=
  have_link link ≫= fun ok : bool => if ok then mret () else st_fail ("no " +:+ link +:+ ": Link not found").

Definition parse (ip : string) : netM nladdr :=
  match parse_addr ip with inr a => mret a | inl e => st_fail ("parsing ip " +:+ ip +:+ ": " +:+ e) end.

(** [configureNet6] *)
Definition configureNet6 (ip : string) : netM () :=
  LinkByName "eth1" ≫= fun _ =>
  parse ip ≫= fun a =>
  call_as "adding address: " (OAddrAdd "eth1" (NlAddr (na_ip a) (na_bits a) true)) ≫= fun _ =>
  call_as "link up: " (OLinkSetUp "eth1").

(** [configureNet] *)
Definition configureNet (n : netSpec) : netM () :=
  have_link "lo" ≫= fun lo : bool => (if lo then call_try (OLinkSetUp "lo") else mret ()) ≫= fun _ =>
  LinkByName "eth0" ≫= fun _ =>
  parse (ns_IP n) ≫= fun a =>
  call_as "adding address: " (OAddrAdd "eth0" a) ≫= fun _ =>
  call_as "link up: " (OLinkSetUp "eth0") ≫= fun _ =>
  match ParseIP (ns_GW n) with
  | None => st_fail ("bad gateway " +:+ ns_GW n)
  | Some gw => call_as "adding default route: " (ORouteAdd (Route "eth0" None (Some gw) None))
  end.

(** The preferred source of the service route: the first global unicast
    address the kernel lists for the link. *)
Definition route_source (ns : netns) (link : string) : option bytes :=
  addrs ← listed ns link (from_option nl_addrs [] (ns_links ns !! link));
  na_ip <$> head (filter (fun a => IsGlobalUnicast (na_ip a) = true) addrs).

Definition service_route (ns : netns) (cidr : ipnet) : route := Route "eth1" (Some cidr) None (route_source ns "eth1").

(** [installBase], which sends what it adds in one flush. *)
Definition install (cidr : ipnet) : netM () :=
  call_as "add eps map: " OAddSet ≫= fun _ => call (OFlush (installBase cidr)).

(** [setupServiceLB] with [serve]'s registration of the handler. *)
Definition setupServiceLB (cidr : string) : netM () :=
  match ParseCIDR cidr with
  | None => st_fail ("parsing service cidr: invalid CIDR address: " +:+ cidr)
  | Some (net, mask) =>
      have_link "eth1" ≫= fun eth1 : bool =>
      (if eth1 then st_get (fun ns => service_route ns (IPNet net mask)) ≫= fun r => call_try (ORouteAdd r) else mret ()) ≫= fun _ =>
      install (IPNet net mask) ≫= fun _ =>
      call_as "opening nfqueue: " (OQueueOpen nfQueueNum) ≫= fun _ =>
      call_as "registering nfqueue handler: " ORegister
  end.

(** The network part of [main]: every error is logged and dropped. *)
Definition logged {A} (m : netM A) (ns : netns) : netns := (m ns).1.
Definition bring_up (sp : spec) (ns : netns) : netns :=
  let ns := match s_Net sp with Some n => logged (configureNet n) ns | None => ns end in
  let ns := match s_Net6 sp with Some ip => logged (configureNet6 ip) ns | None => ns end in
  match s_Svc sp with Some (cidr, _) => logged (setupServiceLB cidr) ns | None => ns end.
End Net.

(** ** Facts *)

Section NetProofs.
Context (parse_addr : string -> string + nladdr) (net_err : netns -> net_op -> option string).
Context (listed : netns -> string -> list nladdr -> option (list nladdr)).
(** The kernel lists the addresses a link has. *)
Hypothesis listed_perm : forall ns link l k, listed ns link l = Some k -> k ≡ₚ l.
Notation configureNet := (configureNet parse_addr net_err).
Notation configureNet6 := (configureNet6 parse_addr net_err).
Notation setupServiceLB := (setupServiceLB net_err listed).
Notation bring_up := (bring_up parse_addr net_err listed).

Lemma call_as_ok wrap o ns ns' : call_as net_err wrap o ns = (ns', Ok ()) -> ns' = apply_op o ns.
Proof. unfold call_as. destruct (net_err ns o); [done|]. by intros [= <-]. Qed.

Lemma LinkByName_ok link ns ns' : LinkByName link ns = (ns', Ok ()) -> ns' = ns /\ is_Some (ns_links ns !! link).
Proof.
  unfold LinkByName. intros H. apply st_bind_ok in H as (s1 & ok & [-> ->]%st_get_ok & H). case_bool_decide; [|done].
  by apply st_ret_ok in H as [-> _].
Qed.

Lemma parse_ok ip ns ns' a : parse parse_addr ip ns = (ns', Ok a) -> ns' = ns /\ parse_addr ip = inr a.
Proof. unfold parse. destruct (parse_addr ip); [done|]. by intros [-> ->]%st_ret_ok. Qed.

Definition add_addr (a : nladdr) (l : nlink) : nlink := NLink true (nl_addrs l ++ [a]).

(** A pod's IPv6 address, once configured, is on eth1, which is up, without
    duplicate detection; nothing else has changed. *)
Lemma configureNet6_ok ip ns ns' : configureNet6 ip ns = (ns', Ok ()) ->
  exists a, parse_addr ip = inr a /\ is_Some (ns_links ns !! "eth1") /\
    ns' = with_link "eth1" (add_addr (NlAddr (na_ip a) (na_bits a) true)) ns.
Proof.
  intros H. apply st_bind_ok in H as (s1 & [] & [-> Hl]%LinkByName_ok & H). apply st_bind_ok in H as (s2 & a & [-> Ha]%parse_ok & H).
  apply st_bind_ok in H as (s3 & [] & ->%call_as_ok & ->%call_as_ok). exists a. split; [done|]. split; [done|].
  apply (f_equal (fun ls => Netns ls _ _ _ _)), alter_alter_eq.
Qed.

(** The IPv4 network, once configured: the address on eth0, which is up, and
    the default route through the gateway. *)
Lemma configureNet_ok n ns ns' : configureNet n ns = (ns', Ok ()) ->
  exists a gw, parse_addr (ns_IP n) = inr a /\ ParseIP (ns_GW n) = Some gw /\ is_Some (ns_links ns !! "eth0") /\
    (exists lo, ns_links ns' = alter (add_addr a) "eth0" lo /\ (lo = ns_links ns \/ lo = alter (fun l => NLink true (nl_addrs l)) "lo" (ns_links ns))) /\
    ns_routes ns' = ns_routes ns ++ [Route "eth0" None (Some gw) None].
Proof.
  intros H. apply st_bind_ok in H as (s1 & lo & [-> ->]%st_get_ok & H). apply st_bind_ok in H as (s2 & [] & Hlo & H).
  apply st_bind_ok in H as (s3 & [] & [-> Hl]%LinkByName_ok & H). apply st_bind_ok in H as (s4 & a & [-> Ha]%parse_ok & H).
  apply st_bind_ok in H as (s5 & [] & ->%call_as_ok & H). apply st_bind_ok in H as (s6 & [] & ->%call_as_ok & H).
  destruct (ParseIP (ns_GW n)) as [gw|] eqn:Hgw; [|done]. apply call_as_ok in H as ->. exists a, gw.
  assert ((ns_links s2 = ns_links ns \/ ns_links s2 = alter (fun l => NLink true (nl_addrs l)) "lo" (ns_links ns)) /\ ns_routes s2 = ns_routes ns) as [Hs Hr].
  { case_bool_decide; [|apply st_ret_ok in Hlo as [-> _]; by auto]. injection Hlo as <-. unfold call. destruct (net_err _ _); by auto. }
  split_and!; [done|done| |exists (ns_links s2)|].
  - destruct Hs as [Hs|Hs]; rewrite Hs in Hl; [done|]. rewrite lookup_alter_ne in Hl by done. done.
  - split; [apply alter_alter_eq|done].
  - cbn. by rewrite Hr.
Qed.

(** The route, if the kernel takes it. *)
Definition added (ns : netns) (r : route) : list route := match net_err ns (ORouteAdd r) with None => [r] | Some _ => [] end.

(** The service balancer, once set up. *)
Lemma setup_ok cidr ns ns' : setupServiceLB cidr ns = (ns', Ok ()) ->
  exists net mask, ParseCIDR cidr = Some (net, mask) /\ ns_links ns' = ns_links ns /\
    ns_rules ns' = Some (installBase (IPNet net mask)) /\ ns_queue ns' = Some nfQueueNum /\ ns_handler ns' = true /\
    ns_routes ns' = ns_routes ns ++ (if bool_decide (is_Some (ns_links ns !! "eth1")) then added ns (service_route listed ns (IPNet net mask)) else []).
Proof.
  intros H. unfold GuestNet.setupServiceLB in H. destruct (ParseCIDR cidr) as [[net mask]|]; [|done]. exists net, mask. split; [done|].
  apply st_bind_ok in H as (s1 & eth1 & [-> ->]%st_get_ok & H). apply st_bind_ok in H as (s2 & [] & Hr & H).
  apply st_bind_ok in H as (s3 & [] & Hi & H). apply st_bind_ok in H as (s4 & [] & ->%call_as_ok & ->%call_as_ok).
  apply st_bind_ok in Hi as (s5 & [] & ->%call_as_ok & Hf). unfold call in Hf. destruct (net_err _ _); [done|]. injection Hf as <-. cbn.
  assert (ns_links s2 = ns_links ns /\ ns_routes s2 = ns_routes ns ++ (if bool_decide (is_Some (ns_links ns !! "eth1")) then added ns (service_route listed ns (IPNet net mask)) else [])) as [Hs Ho].
  { case_bool_decide; [|apply st_ret_ok in Hr as [-> _]; by rewrite app_nil_r]. apply st_bind_ok in Hr as (s6 & r & [-> ->]%st_get_ok & Hr).
    injection Hr as <-. unfold call, added. destruct (net_err _ _); cbn; [by rewrite app_nil_r|done]. }
  by split_and!.
Qed.

(** The preferred source, once eth1 has one global unicast address: that one,
    when the kernel lists the link's addresses. *)
Lemma route_source_pod ns a l : ns_links ns !! "eth1" = Some (add_addr a l) -> Forall (fun b => IsGlobalUnicast (na_ip b) = false) (nl_addrs l) ->
  IsGlobalUnicast (na_ip a) = true ->
  route_source listed ns "eth1" = (fun _ => na_ip a) <$> listed ns "eth1" (nl_addrs l ++ [a]).
Proof.
  intros Hl Hn Ha. unfold route_source. rewrite Hl. cbn [from_option nl_addrs add_addr].
  destruct (listed _ _ _) as [k|] eqn:Hk; [|done]. apply listed_perm in Hk. cbn [mbind option_bind].
  assert (filter (fun a => IsGlobalUnicast (na_ip a) = true) k ≡ₚ [a]) as Hf.
  { rewrite Hk, filter_app, filter_cons_True by done. rewrite filter_nil.
    replace (filter _ (nl_addrs l)) with (@nil nladdr); [done|]. symmetry. clear -Hn. induction Hn as [|b k Hb _ IH]; [done|].
    rewrite filter_cons_False; [done|congruence]. }
  apply Permutation_singleton_r in Hf. by rewrite Hf.
Qed.

(** C7 The guest's network, when its parts come up (what came before may have
    failed): the pod's address is on eth1, up and usable at once; to the routes
    there were before is added the one to the service addresses over eth1, if
    the kernel takes it, and no other, with the pod's address, a global
    unicast one, as the preferred source if the kernel lists eth1's addresses;
    and exactly the packets to an address that the agent counts as a service
    address are held for the balancer, whose queue is open and handler
    registered before anything runs. *)
Theorem guest_network_ready sp ip cidr dnsns p ns ns1 ns2 ns3 eth1 :
  s_Net6 sp = Some ip -> s_Svc sp = Some (cidr, dnsns) ->
  ns1 = match s_Net sp with Some n => logged (configureNet n) ns | None => ns end ->
  configureNet6 ip ns1 = (ns2, Ok ()) -> setupServiceLB cidr ns2 = (ns3, Ok ()) ->
  ns_links ns1 !! "eth1" = Some eth1 -> Forall (fun b => IsGlobalUnicast (na_ip b) = false) (nl_addrs eth1) ->
  ParsePrefix cidr = Some p -> ad_is4 (px_ip p) = false ->
  bring_up sp ns = ns3 /\
  exists a net mask rules, parse_addr ip = inr a /\ ParseCIDR cidr = Some (net, mask) /\
    ns_links ns3 !! "eth1" = Some (NLink true (nl_addrs eth1 ++ [NlAddr (na_ip a) (na_bits a) true])) /\
    ns_queue ns3 = Some nfQueueNum /\ ns_handler ns3 = true /\ ns_rules ns3 = Some rules /\
    (IsGlobalUnicast (na_ip a) = true ->
       let src := (fun _ => na_ip a) <$> listed ns2 "eth1" (nl_addrs eth1 ++ [NlAddr (na_ip a) (na_bits a) true]) in
       ns_routes ns3 = ns_routes ns1 ++ added ns2 (Route "eth1" (Some (IPNet net mask)) None src)) /\
    forall kmap pkt, 40 <= length pkt -> Forall is_byte pkt ->
      eval_chain kmap pkt 0 rules =
        if Contains p (MkAddr false (be_val (slice 24 16 pkt)) "") then VQueue nfQueueNum else VContinue.
Proof using listed_perm.
  intros H6 Hsvc Hns1 Hc6 Hlb Heth Hng Hp H6p. split.
  { unfold GuestNet.bring_up. rewrite H6, Hsvc, <-Hns1. unfold logged. rewrite Hc6. cbn [fst]. by rewrite Hlb. }
  destruct (configureNet6_ok _ _ _ Hc6) as (a & Ha & _ & E2). destruct (setup_ok _ _ _ Hlb) as (net & mask & Hcidr & Hlinks & Hrules & Hq & Hh & Hroutes).
  exists a, net, mask, (installBase (IPNet net mask)).
  assert (ns_links ns2 !! "eth1" = Some (add_addr (NlAddr (na_ip a) (na_bits a) true) eth1)) as Heth2.
  { rewrite E2. change (alter (add_addr (NlAddr (na_ip a) (na_bits a) true)) "eth1" (ns_links ns1) !! "eth1" = Some (add_addr (NlAddr (na_ip a) (na_bits a) true) eth1)).
    by rewrite lookup_alter_eq, Heth. }
  split_and!; [done|done| |done|done|done| |].
  - rewrite Hlinks. exact Heth2.
  - intros Hg. cbn zeta. rewrite Hroutes, Heth2, bool_decide_true by done. f_equal; [by rewrite E2|].
    unfold service_route. by rewrite (route_source_pod ns2 _ _ Heth2 Hng).
  - intros kmap pkt Hlen Hb. clear Hroutes. destruct (prefix_and_cidr _ _ _ _ Hp Hcidr) as (Em & _ & _ & _). rewrite H6p in Em.
    rewrite chain_spec; [|done|by rewrite Em; apply length_CIDRMask|lia].
    assert (length (slice 24 16 pkt) = 16) as Hl by (unfold slice; rewrite length_take, length_drop; lia).
    pose proof (cidr_agree cidr p net mask (slice 24 16 pkt) Hp Hcidr H6p ltac:(unfold slice; by apply Forall_take, Forall_drop) Hl) as Hagree.
    unfold in_cidr. cbn [n_ip n_mask]. rewrite (bool_decide_true (0%Z = 0%Z)) by done.
    destruct (Contains _ _) eqn:Ec; case_bool_decide as Hd; [reflexivity|by exfalso; apply Hd, Hagree|exfalso|reflexivity].
    apply Hagree in Hd. congruence.
Qed.
End NetProofs.

(** *** A guest with a link-local address on eth1, and a first packet to a VIP *)

Definition ex_parse_addr (s : string) : string + nladdr :=
  match ParsePrefix s with Some p => inr (NlAddr (As16 (px_ip p)) (px_bits p) false) | None => inl "invalid CIDR" end.
Definition ex_link_local : nladdr := NlAddr ([254; 128]%Z ++ replicate 13 0%Z ++ [9]%Z) 64 false.
Definition ex_eth1 : nlink := NLink false [ex_link_local].
Definition ex_netns : netns := Netns {["lo" := NLink false []; "eth0" := NLink false []; "eth1" := ex_eth1]} [] None None false.
Definition ex_net_spec : spec :=
  Spec "Always" [] [] (Some (NetSpec "192.168.127.2/24" "192.168.127.1" "192.168.127.1")) (Some "fd00::2/64") (Some ("fd00:10:96::/112", "ns")).
Definition ex_after_net : netns := logged (configureNet ex_parse_addr (fun _ _ => None) (NetSpec "192.168.127.2/24" "192.168.127.1" "192.168.127.1")) ex_netns.
Definition ex_after_net6 : netns := (configureNet6 ex_parse_addr (fun _ _ => None) "fd00::2/64" ex_after_net).1.
Definition ex_after_lb : netns := (setupServiceLB (fun _ _ => None) (fun _ _ l => Some l) "fd00:10:96::/112" ex_after_net6).1.
Definition ex_vip_packet : bytes := ServiceLB.ipv6_packet 0x60 [0; 0; 0]%Z [0; 20]%Z 6 64 (replicate 16 7%Z) ([253; 0; 0; 16; 0; 150]%Z ++ replicate 9 0%Z ++ [1]%Z) 40000 80 (replicate 16 0%Z).
Definition ex_prefix : Prefix := default (MkPrefix (MkAddr true 0 "") 0) (ParsePrefix "fd00:10:96::/112").

Lemma guest_network_ready_witness :
  bring_up ex_parse_addr (fun _ _ => None) (fun _ _ l => Some l) ex_net_spec ex_netns = ex_after_lb /\
  ns_queue ex_after_lb = Some nfQueueNum /\ ns_handler ex_after_lb = true /\
  rt_src <$> last (ns_routes ex_after_lb) = Some (Some ([253]%Z ++ replicate 14 0%Z ++ [2]%Z)) /\
  exists rules, ns_rules ex_after_lb = Some rules /\
    eval_chain ∅ ex_vip_packet 0 rules =
      if Contains ex_prefix (MkAddr false (be_val (slice 24 16 ex_vip_packet)) "") then VQueue nfQueueNum else VContinue.
Proof.
  destruct (guest_network_ready ex_parse_addr (fun _ _ => None) (fun _ _ l => Some l)
    ltac:(intros ns link l k [= ->]; reflexivity) ex_net_spec "fd00::2/64" "fd00:10:96::/112" "ns" ex_prefix ex_netns ex_after_net ex_after_net6
    ex_after_lb ex_eth1 eq_refl eq_refl eq_refl ltac:(vm_compute; reflexivity) ltac:(vm_compute; reflexivity) ltac:(vm_compute; reflexivity)
    ltac:(constructor; [vm_compute; reflexivity|constructor]) ltac:(vm_compute; reflexivity) ltac:(vm_compute; reflexivity))
    as (Hb & a & net & mask & rules & Ha & _ & _ & Hq & Hh & Hr & Hro & Hc).
  split; [exact Hb|]. split; [exact Hq|]. split; [exact Hh|].
  vm_compute in Ha. injection Ha as <-. split; [rewrite Hro by (vm_compute; reflexivity); cbn; rewrite last_snoc; vm_compute; reflexivity|]. exists rules. split; [exact Hr|]. apply Hc.
  - vm_compute. lia.
  - apply (bool_decide_unpack _). vm_compute. exact I.
Defined.

Example ex_vip_is_held : Contains ex_prefix (MkAddr false (be_val (slice 24 16 ex_vip_packet)) "") = true.
Proof. vm_compute. reflexivity. Qed.
