(* ===== verification/SpecWire.v ===== *)
(** * The boot spec as a file, and a pod from the API to its containers
      (poc/agent/main.go, poc/execd/main.go)

    [makeRootfs] writes the spec as JSON into the boot filesystem and execd's
    [main] reads it there: the map the agent marshals, the struct the guest
    decodes, and [main] from the file's bytes on. With it the agent's side of
    a VM's start ([VMStart], [Volumes]) and the guest's ([Boot]) compose. *)
From Stdlib Require Import Ascii.
From S2P Require Import Prelude GoStrings Json JsonFacts JsonDecode Pod Volumes Rootfs VMStart Boot.

(** ** The agent's map *)

(** Fields that are there when they are not empty. *)
Definition opt {A} (empty : bool) (k : string) (j : A) : list (string * A) := if empty then [] else [(k, j)].

(** [volumeMount] is a struct with the same tags on both sides. *)
Definition mount_json (m : volumeMount) : json :=
  JObj ([("tag", JStr (vm_Tag m)); ("mountPath", JStr (vm_MountPath m))] ++ opt (negb (vm_ReadOnly m)) "readOnly" (JBool (vm_ReadOnly m))).

(** [containerSpec]'s map; keys are sorted. *)
Definition container_json (c : containerSpec) : json :=
  JObj ([("argv", JArr (map JStr (sp_Argv c)))] ++
        opt (bool_decide (sp_Cwd c = "")) "cwd" (JStr (sp_Cwd c)) ++
        opt (bool_decide (sp_Env c = [])) "env" (JArr (map JStr (sp_Env c))) ++
        opt (bool_decide (sp_Mounts c = [])) "mounts" (JArr (map mount_json (sp_Mounts c))) ++
        [("name", JStr (sp_Name c))] ++
        opt (bool_decide (sp_RootDev c = "")) "rootDev" (JStr (sp_RootDev c)) ++
        [("tty", JBool (sp_TTY c))]).

(** [specData]; a nil slice is null. *)
Definition spec_json (s : spec) : json :=
  JObj ([("containers", if bool_decide (s_Containers s = []) then JNull else JArr (map container_json (s_Containers s)))] ++
        opt (bool_decide (s_InitContainers s = [])) "initContainers" (JArr (map container_json (s_InitContainers s))) ++
        match s_Net s with
        | Some n => [("net", JObj [("dns", JStr (ns_DNS n)); ("gw", JStr (ns_GW n)); ("ip", JStr (ns_IP n))])]
        | None => []
        end ++
        match s_Net6 s with Some ip => [("net6", JObj [("ip", JStr ip)])] | None => [] end ++
        [("restartPolicy", JStr (s_RestartPolicy s))] ++
        match s_Svc s with Some (cidr, ns) => [("svc", JObj [("cidr", JStr cidr); ("ns", JStr ns)])] | None => [] end).

Definition spec_text (s : spec) : bytes := print (spec_json s).

(** ** The guest's structs *)

Definition mount_fields : list (field volumeMount) :=
  [ fld "tag" dec_string vm_Tag (fun m v => MkVolumeMount v (vm_MountPath m) (vm_ReadOnly m));
    fld "mountPath" dec_string vm_MountPath (fun m v => MkVolumeMount (vm_Tag m) v (vm_ReadOnly m));
    fld "readOnly" dec_bool vm_ReadOnly (fun m v => MkVolumeMount (vm_Tag m) (vm_MountPath m) v) ].
Definition dec_mount : decoder volumeMount := dec_struct mount_fields.
Definition zero_mount : volumeMount := MkVolumeMount "" "" false.

Definition container_fields : list (field containerSpec) :=
  [ fld "name" dec_string sp_Name (fun c v => ContainerSpec v (sp_Argv c) (sp_Env c) (sp_Cwd c) (sp_TTY c) (sp_RootDev c) (sp_Mounts c));
    fld "argv" (dec_list "" dec_string) sp_Argv (fun c v => ContainerSpec (sp_Name c) v (sp_Env c) (sp_Cwd c) (sp_TTY c) (sp_RootDev c) (sp_Mounts c));
    fld "env" (dec_list "" dec_string) sp_Env (fun c v => ContainerSpec (sp_Name c) (sp_Argv c) v (sp_Cwd c) (sp_TTY c) (sp_RootDev c) (sp_Mounts c));
    fld "cwd" dec_string sp_Cwd (fun c v => ContainerSpec (sp_Name c) (sp_Argv c) (sp_Env c) v (sp_TTY c) (sp_RootDev c) (sp_Mounts c));
    fld "tty" dec_bool sp_TTY (fun c v => ContainerSpec (sp_Name c) (sp_Argv c) (sp_Env c) (sp_Cwd c) v (sp_RootDev c) (sp_Mounts c));
    fld "rootDev" dec_string sp_RootDev (fun c v => ContainerSpec (sp_Name c) (sp_Argv c) (sp_Env c) (sp_Cwd c) (sp_TTY c) v (sp_Mounts c));
    fld "mounts" (dec_list zero_mount dec_mount) sp_Mounts (fun c v => ContainerSpec (sp_Name c) (sp_Argv c) (sp_Env c) (sp_Cwd c) (sp_TTY c) (sp_RootDev c) v) ].
Definition dec_container : decoder containerSpec := dec_struct container_fields.
Definition zero_container : containerSpec := ContainerSpec "" [] [] "" false "" [].

Definition net_fields : list (field netSpec) :=
  [ fld "ip" dec_string ns_IP (fun n v => NetSpec v (ns_GW n) (ns_DNS n));
    fld "gw" dec_string ns_GW (fun n v => NetSpec (ns_IP n) v (ns_DNS n));
    fld "dns" dec_string ns_DNS (fun n v => NetSpec (ns_IP n) (ns_GW n) v) ].
Definition net6_fields : list (field string) := [ fld "ip" dec_string id (fun _ v => v) ].
Definition svc_fields : list (field (string * string)) :=
  [ fld "cidr" dec_string fst (fun p v => (v, p.2)); fld "ns" dec_string snd (fun p v => (p.1, v)) ].

Definition spec_fields : list (field spec) :=
  [ fld "restartPolicy" dec_string s_RestartPolicy (fun s v => Spec v (s_InitContainers s) (s_Containers s) (s_Net s) (s_Net6 s) (s_Svc s));
    fld "initContainers" (dec_list zero_container dec_container) s_InitContainers (fun s v => Spec (s_RestartPolicy s) v (s_Containers s) (s_Net s) (s_Net6 s) (s_Svc s));
    fld "containers" (dec_list zero_container dec_container) s_Containers (fun s v => Spec (s_RestartPolicy s) (s_InitContainers s) v (s_Net s) (s_Net6 s) (s_Svc s));
    fld "net" (dec_ptr (NetSpec "" "" "") (dec_struct net_fields)) s_Net (fun s v => Spec (s_RestartPolicy s) (s_InitContainers s) (s_Containers s) v (s_Net6 s) (s_Svc s));
    fld "net6" (dec_ptr "" (dec_struct net6_fields)) s_Net6 (fun s v => Spec (s_RestartPolicy s) (s_InitContainers s) (s_Containers s) (s_Net s) v (s_Svc s));
    fld "svc" (dec_ptr ("", "") (dec_struct svc_fields)) s_Svc (fun s v => Spec (s_RestartPolicy s) (s_InitContainers s) (s_Containers s) (s_Net s) (s_Net6 s) v) ].
Definition zero_spec : spec := Spec "" [] [] None None None.

Definition unmarshal_spec : bytes -> option spec := unmarshal (dec_struct spec_fields) zero_spec.

(** [main] of execd from the bytes of /.podvm-spec.json on; [None] when the
    file cannot be read. *)
Definition execd_main sys_err is_dir (file : option bytes) : stM (list sys_op * roots) string (spec * (list string * list string)) :=
  match file with
  | None => st_fail "reading spec"
  | Some data =>
      match unmarshal_spec data with
      | None => st_fail "parsing spec"
      | Some sp =>
          let sp := if bool_decide (s_RestartPolicy sp = "")
                    then Spec "Always" (s_InitContainers sp) (s_Containers sp) (s_Net sp) (s_Net6 sp) (s_Svc sp) else sp in
          boot sys_err is_dir sp ≫= fun rs => mret (sp, rs)
      end
  end.

(** ** The spec survives the file *)

Definition mount_utf8 (m : volumeMount) : Prop := utf8_valid (vm_Tag m) = true /\ utf8_valid (vm_MountPath m) = true.
Definition container_utf8 (c : containerSpec) : Prop :=
  utf8_valid (sp_Name c) = true /\ utf8_all (sp_Argv c) /\ utf8_all (sp_Env c) /\ utf8_valid (sp_Cwd c) = true /\
  utf8_valid (sp_RootDev c) = true /\ Forall mount_utf8 (sp_Mounts c).
Definition spec_utf8 (s : spec) : Prop :=
  utf8_valid (s_RestartPolicy s) = true /\ Forall container_utf8 (s_InitContainers s) /\ Forall container_utf8 (s_Containers s) /\
  from_option (fun n => utf8_valid (ns_IP n) = true /\ utf8_valid (ns_GW n) = true /\ utf8_valid (ns_DNS n) = true) True (s_Net s) /\
  from_option (fun ip => utf8_valid ip = true) True (s_Net6 s) /\
  from_option (fun p => utf8_valid p.1 = true /\ utf8_valid p.2 = true) True (s_Svc s).

#[export] Instance mount_utf8_dec m : Decision (mount_utf8 m).
Proof. unfold mount_utf8. apply _. Defined.
#[export] Instance container_utf8_dec c : Decision (container_utf8 c).
Proof. unfold container_utf8, utf8_all. apply _. Defined.
#[export] Instance spec_utf8_dec s : Decision (spec_utf8 s).
Proof. unfold spec_utf8. destruct (s_Net s), (s_Net6 s), (s_Svc s); cbn; apply _. Defined.

Lemma mount_carries m : mount_utf8 m -> carries dec_mount zero_mount (mount_json m) m.
Proof. destruct m as [tag path []]; intros [Ht Hp]; cbn in Ht, Hp; unfold mount_json; cbn; carry_members. Qed.

Lemma carries_forall {A} (zero : A) (d : decoder A) (enc : A -> json) (P : A -> Prop) l :
  (forall x, P x -> carries d zero (enc x) x) -> Forall P l -> carries (dec_list zero d) [] (JArr (map enc l)) l.
Proof.
  intros H Hl. replace l with (map id l) at 2 by apply map_id. apply carries_list. rewrite Forall_forall in Hl. intros x Hx. by apply H, Hl.
Qed.

Lemma container_carries c : container_utf8 c -> carries dec_container zero_container (container_json c) c.
Proof.
  destruct c as [name argv env cwd tty dev mounts]. intros (Hn & Ha & He & Hc & Hd & Hm). cbn in Hn, Ha, He, Hc, Hd, Hm.
  pose proof (carries_forall zero_mount dec_mount mount_json mount_utf8 mounts mount_carries Hm) as Hms.
  unfold container_json. cbn. repeat case_bool_decide; subst; cbn; carry_members.
Qed.

Lemma spec_carries s : spec_utf8 s -> carries (dec_struct spec_fields) zero_spec (spec_json s) s.
Proof.
  destruct s as [pol inits mains net net6 svc]. intros (Hp & Hi & Hm & Hn & Hn6 & Hs). cbn in Hp, Hi, Hm, Hn, Hn6, Hs.
  pose proof (carries_forall zero_container dec_container container_json container_utf8 inits container_carries Hi) as Hci.
  pose proof (carries_forall zero_container dec_container container_json container_utf8 mains container_carries Hm) as Hcm.
  assert (forall n, net = Some n -> carries (dec_ptr (NetSpec "" "" "") (dec_struct net_fields)) None
    (JObj [("dns", JStr (ns_DNS n)); ("gw", JStr (ns_GW n)); ("ip", JStr (ns_IP n))]) (Some n)) as Hcn.
  { intros [ip gw dns] ->. destruct Hn as (H1 & H2 & H3). cbn in H1, H2, H3. apply carries_ptr; [done|]. cbn. carry_members. }
  assert (forall ip, net6 = Some ip -> carries (dec_ptr "" (dec_struct net6_fields)) None (JObj [("ip", JStr ip)]) (Some ip)) as Hc6.
  { intros ip ->. cbn in Hn6. apply carries_ptr; [done|]. carry_members. }
  assert (forall cidr ns, svc = Some (cidr, ns) -> carries (dec_ptr ("", "") (dec_struct svc_fields)) None
    (JObj [("cidr", JStr cidr); ("ns", JStr ns)]) (Some (cidr, ns))) as Hcs.
  { intros cidr ns ->. destruct Hs as (H1 & H2). cbn in H1, H2. apply carries_ptr; [done|]. carry_members. }
  clear Hi Hm Hn Hn6 Hs. unfold spec_json. cbn.
  destruct net as [n|]; [pose proof (Hcn n eq_refl); destruct n as [ip gw dns]|]; (destruct net6 as [ip6|]; [pose proof (Hc6 ip6 eq_refl)|]);
    (destruct svc as [[cidr ns]|]; [pose proof (Hcs cidr ns eq_refl)|]); repeat case_bool_decide; subst; cbn in *; carry_members.
Qed.

Lemma mount_wf m : wf_json 1 (mount_json m) = true.
Proof. by destruct m as [tag path []]. Qed.

Lemma container_wf c : wf_json 3 (container_json c) = true.
Proof.
  pose proof (wf_array JStr 1) as Hs. pose proof (wf_array mount_json 1 (sp_Mounts c) mount_wf) as Hm.
  unfold container_json, opt. repeat case_bool_decide; cbn -[wf_json]; rewrite ?forallb_app; cbn in *; by rewrite ?Hs, ?Hm by done.
Qed.

Lemma spec_wf s : wf_json 5 (spec_json s) = true.
Proof.
  pose proof (fun l => wf_array container_json 3 l container_wf) as Hc. unfold spec_json, opt. cbn [wf_json].
  rewrite !forallb_app. destruct (s_Net s), (s_Net6 s), (s_Svc s) as [[]|]; repeat case_bool_decide; cbn -[wf_json]; by rewrite ?Hc.
Qed.

(** The spec the guest reads is the spec the agent wrote. *)
Theorem spec_survives_the_file s : spec_utf8 s -> unmarshal_spec (spec_text s) = Some s.
Proof. intros Hs. apply (unmarshal_print _ _ 5); [apply spec_wf|done|by apply spec_carries]. Qed.

(** ** A pod, from the API to its containers' roots *)

Section PodBoots.
Context (config : string -> option image_config) (bases : gmap string string) (pod : Pod) (dir : string).
Context (images : list string) (args : list string) (mounts : gmap string (list volumeMount)).
Context (sys_err : list sys_op -> sys_op -> option string).

(** The disk the harness attaches as number [k], and what is mounted of it. *)
Definition root_from_image (c : Container) (root : string) (ops : list sys_op) : Prop :=
  exists k, flag_values "--root-image" args !! k = Some (default "" (bases !! ct_Image c) +:+ ".erofs") /\
    lower_mounted sys_err (device k) ops /\
    succeeded sys_err (SMount "overlay" root "overlay" false (overlay_opts (lower_dir (device k)) ("/rw-" +:+ ct_Name c))) ops.

(** The host directory the harness shares as number [k], and its mount. *)
Definition volume_from_host (m : VolumeMount) (root : string) (ops : list sys_op) : Prop :=
  exists k, flag_values "--volume" args !! k = Some (device_value pod dir k (m_Name m)) /\
    succeeded sys_err (SMount (tag_of k) (root +:+ m_MountPath m) "virtiofs" (m_ReadOnly m || api_kind pod (m_Name m)) "") ops.

Record container_up (ops : list sys_op) (c : Container) (root : string) : Prop := ContainerUp {
  cu_root : root = "/roots/" +:+ ct_Name c;
  cu_image : root_from_image c root ops;
  cu_volumes : forall m, m ∈ ct_VolumeMounts c -> live pod (c, m) -> volume_from_host m root ops
}.
End PodBoots.

Lemma device_nonempty k : device k <> "".
Proof. done. Qed.

Lemma effective_policy_nonempty p : effective_policy p <> "".
Proof. unfold effective_policy. by case_bool_decide. Qed.

(** C11 A pod boots as its spec in the API says: when the agent resolves the
    volumes, writes the boot filesystem and starts the VM, and the guest reads
    the spec from the file and gets to its supervisor, then it has read the
    spec the agent wrote, which gives every init and main container its own
    command, environment, working directory and terminal; and before the
    control channel opened and anything ran, each container's root was the
    overlay, over a writable layer of its own, of the read-only disk to which
    the harness attached that container's image, with each volume it mounts
    mounted at its path from the share of that volume's own host directory,
    read-only when the mount or the volume's kind asks. *)
Theorem pod_boots_end_to_end io_err umask stat_dir range_data client get_data config op_err se ip6 before pod dir kernel bases o
    h h' volArgs mounts ops ops' rootfs images l args sp sys_err is_dir s sp' inits mains :
  se_imageBlock se = true ->
  resolveVolumes io_err umask stat_dir range_data client get_data pod dir h = (h', Ok (volArgs, mounts)) ->
  makeRootfs config op_err se ip6 before pod dir bases mounts ops = (ops', Ok (rootfs, images)) ->
  start_vm se o kernel rootfs dir pod volArgs images = (l, Ok args) ->
  last ops' = Some (HWriteSpec (PathJoin [rootfs; ".podvm-spec.json"]) sp) -> spec_utf8 sp ->
  execd_main sys_err is_dir (Some (spec_text sp)) ([], Roots ∅ [] false) = (s, Ok (sp', (inits, mains))) ->
  sp' = sp /\ s_RestartPolicy sp = effective_policy pod /\
  Forall2 (described config true bases mounts images) (allContainers pod) (s_InitContainers sp ++ s_Containers sp) /\
  exists pre, s.1 = pre ++ [SServe; SRun] /\ Forall early pre /\
    Forall2 (container_up bases pod dir args sys_err pre) (allContainers pod) (inits ++ mains).
Proof.
  intros Hblock Hvol Hboot Hvm Hlast Hutf Hguest.
  destruct (container_boots_its_image _ _ _ _ _ _ _ _ _ _ _ _ _ _ _ _ _ _ _ _ _ _ _ _ _ _ Hblock Hvol Hboot Hvm)
    as (_ & _ & sp1 & Hlast1 & Hpol & Hcs). rewrite Hlast in Hlast1. injection Hlast1 as <-.
  pose proof (resolveVolumes_flags _ _ _ _ _ _ _ _ _ _ _ _ Hvol) as ->. apply start_vm_devices in Hvm as (_ & _ & Hvols).
  apply resolveVolumes_plan in Hvol as [_ Hentries].
  unfold execd_main in Hguest. rewrite spec_survives_the_file in Hguest by done.
  assert (s_RestartPolicy sp <> "") as Hne by (rewrite Hpol; apply effective_policy_nonempty).
  cbn zeta in Hguest. rewrite (bool_decide_false (s_RestartPolicy sp = "")) in Hguest by done.
  apply st_bind_ok in Hguest as (s1 & rs & Hg & Hret). apply st_ret_ok in Hret as [-> Hret]. injection Hret as -> <-.
  destruct (boot_ready _ _ _ _ _ _ Hg) as (pre & Hs & Hearly & Hroots & _).
  split; [done|]. split; [done|]. split; [eapply Forall2_impl; [exact Hcs|by intros c cs []]|].
  exists pre. split; [done|]. split; [done|]. apply Forall2_same_length_lookup. split.
  { by rewrite (Forall2_length _ _ _ Hcs), (Forall2_length _ _ _ Hroots). }
  intros i c root Hc Hr. destruct (Forall2_lookup_l _ _ _ _ _ Hcs Hc) as (cs & Hi & Hd & k & Hdev & Hk).
  pose proof (Forall2_lookup_lr _ _ _ _ _ _ Hroots Hi Hr) as [Hready Hmounted].
  unfold root_ready in Hready. rewrite Hdev in Hready. rewrite bool_decide_false in Hready by apply device_nonempty.
  rewrite (d_name _ _ _ _ _ _ _ Hd) in Hready. destruct Hready as (Hroot & Hlower & _ & Hover). split; [done|by exists k|].
  intros m Hm Hlive. assert ((c, m) ∈ all_mounts pod) as Hin.
  { apply list_elem_of_bind. exists c. split; [|by eapply list_elem_of_lookup_2]. apply list_elem_of_fmap. by exists m. }
  destruct (live_mount_device stat_dir client get_data pod c m Hin Hlive) as (j & Hj & Htag). exists j. split.
  { rewrite Hvols. unfold volume_values. by rewrite list_lookup_imap, Hj. }
  rewrite (d_mounts _ _ _ _ _ _ _ Hd), Hentries, Forall_forall in Hmounted.
  destruct (Hmounted (mount_entry pod (used pod (all_mounts pod)) m)) as [_ Hmnt]; [|by rewrite Htag in Hmnt].
  unfold entries_for. apply list_elem_of_fmap. exists (c, m). split; [done|]. by rewrite !list_elem_of_filter.
Qed.

(** *** A pod with an init container and two main containers of two images,
    which share a scratch volume *)

Definition ex_boot_container (name image : string) (ms : list VolumeMount) : Container :=
  MkContainer name image [] ["-v"] false [] "" ms [] None None None None None.
Definition ex_boot_pod : Pod :=
  MkPod "u1" "web" "ns" ∅ [ex_boot_container "init" "busybox" [ex_mount "data" "/out" false]]
    [ex_boot_container "app" "nginx" [ex_mount "data" "/data" true]; ex_boot_container "side" "busybox" []]
    "" [MkVolume "data" EmptyDir] None None false None.
Definition ex_bases : gmap string string := {["busybox" := "/images/b"; "nginx" := "/images/n"]}.
Definition ex_config (base : string) : option image_config := Some (ImageConfig ["/run"] [base] ["A=1"] "").
Definition ex_settings : settings := Settings true "/bin/execd" "fd00::/112" true true.
Definition ex_outcomes : outcomes := Outcomes None None None None None (VmnetInfo "52:54:00:00:00:01") None None None.

Definition ex_volumes := resolveVolumes (fun _ _ => None) 0x12 (fun _ => true) map_to_list true (fun _ _ _ => inr (∅, ∅)) ex_boot_pod "/state/u1" (Host ∅).
Definition ex_volume_args : list string := match ex_volumes.2 with Ok p => p.1 | _ => [] end.
Definition ex_mounts : gmap string (list volumeMount) := match ex_volumes.2 with Ok p => p.2 | _ => ∅ end.
Definition ex_boot := makeRootfs ex_config (fun _ _ => None) ex_settings "fd00::2" false ex_boot_pod "/state/u1" ex_bases ex_mounts [].
Definition ex_spec : spec := match last ex_boot.1 with Some (HWriteSpec _ sp) => sp | _ => zero_spec end.
Definition ex_vm := start_vm ex_settings ex_outcomes "/kernel" "/state/u1/rootfs" "/state/u1" ex_boot_pod ex_volume_args ["/images/b"; "/images/n"].
Notation ex_guest := (execd_main (fun _ _ => None) (fun _ _ => true) (Some (spec_text ex_spec)) ([], Roots ∅ [] false)).

Lemma ex_spec_utf8 : spec_utf8 ex_spec.
Proof. assert (bool_decide (spec_utf8 ex_spec) = true) as H by (vm_compute; reflexivity). by apply bool_decide_eq_true in H. Qed.

Lemma pod_boots_end_to_end_witness :
  exists s inits mains args pre, ex_guest = (s, Ok (ex_spec, (inits, mains))) /\ s.1 = pre ++ [SServe; SRun] /\
    Forall2 (container_up ex_bases ex_boot_pod "/state/u1" args (fun _ _ => None) pre) (allContainers ex_boot_pod) (inits ++ mains).
Proof.
  destruct ex_volumes as [h' rv] eqn:Hv. assert (rv = Ok (ex_volume_args, ex_mounts)) as ->
    by (change rv with (snd (h', rv)); rewrite <-Hv; vm_compute; reflexivity).
  destruct ex_boot as [ops' r] eqn:Hb. assert (r = Ok ("/state/u1/rootfs", ["/images/b"; "/images/n"])) as ->
    by (change r with (snd (ops', r)); rewrite <-Hb; vm_compute; reflexivity).
  destruct ex_vm as [l ra] eqn:Hm. assert (exists args, ra = Ok args) as [args ->]
    by (change ra with (snd (l, ra)); rewrite <-Hm; eexists; vm_compute; reflexivity).
  assert (last ops' = Some (HWriteSpec (PathJoin ["/state/u1/rootfs"; ".podvm-spec.json"]) ex_spec)) as Hl
    by (change ops' with (fst (ops', Ok (E:=string) ("/state/u1/rootfs", ["/images/b"; "/images/n"]))); rewrite <-Hb; vm_compute; reflexivity).
  destruct ex_guest as [s rg] eqn:Hg. assert (exists rs, rg = Ok (ex_spec, rs)) as [[inits mains] ->]
    by (change rg with (snd (s, rg)); rewrite <-Hg; eexists; vm_compute; reflexivity).
  destruct (pod_boots_end_to_end (fun _ _ => None) 0x12 (fun _ => true) map_to_list true (fun _ _ _ => inr (∅, ∅)) ex_config
    (fun _ _ => None) ex_settings "fd00::2" false ex_boot_pod "/state/u1" "/kernel" ex_bases ex_outcomes (Host ∅) h' ex_volume_args ex_mounts
    [] ops' "/state/u1/rootfs" ["/images/b"; "/images/n"] l args ex_spec (fun _ _ => None) (fun _ _ => true) s ex_spec inits mains
    eq_refl Hv Hb Hm Hl ex_spec_utf8 Hg) as (_ & _ & _ & pre & Hpre & _ & Hup).
  exists s, inits, mains, args, pre. split; [reflexivity|]. split; [exact Hpre|exact Hup].
Defined.
