(* ===== verification/Handlers.v ===== *)
(** * The guest's control channel (poc/execd/handlers.go)

    [handleConn] of execd: one connection, its request frame, and the handler
    of the request's operation, over the codec of [Frames], the supervisor's
    state and the containers' commands ([Boot]). What is outside of execd is a
    parameter: the JSON codec and [%q], the processes (whether they start,
    what they print, how they exit), dialing a port and HTTP. The output
    copiers of a process run concurrently, so what it prints is a list of
    chunks in the order they are read. The theorems compose the handlers with
    the agent's client ([Frames.Client]). *)
From Stdlib Require Import Ascii.
From S2P Require Import Prelude GoStrings Frames Supervisor GuestRoot Boot.
Import Wire.

Record request := Request {
  rq_Op : string; rq_Container : string; rq_Argv : list string; rq_TTY : bool; rq_Cols : Z; rq_Rows : Z;
  rq_Ptype : string; rq_Port : Z; rq_Path : string; rq_Scheme : string; rq_Timeout : Z; rq_Grace : Z
}.

(** A container: whether it is an init container, and its index. *)
Notation cid := (bool * nat)%type.

(** The supervisor, and the containers that have an attached client. *)
Record guest := Guest { g_sup : sup; g_attached : list cid }.

Definition with_sup (s : sup) (g : guest) : guest := Guest s (g_attached g).

(** A process under a handler: it does not start, it runs, or it runs without
    one of its pipes, which could not be made: [handleExec] ignores that error
    and goes on with a nil reader or writer. *)
Inductive run := NoStart (e : string) | Ran (chunks : list (bool * bytes)) (w : wait_result) | NoPipe.

(** What a handler does with a process's input: calls on its stdin and pty. *)
Inductive input_op := InWrite (p : bytes) | InClose | InResize (cols rows : Z).

(** What a handler does beside answering. *)
Inductive effect :=
| ETerminate (c : cid) (grace : Z)
| EShutdown (grace : Z)
| EStart (cmd : command) (tty : bool) (size : option (Z * Z))
| EInput (ops : list input_op)
| EAttach (c : cid) (ops : list input_op)
| ECrash (k : crash).              (* a panic of its goroutine, which ends execd *)

(** ** Exit frames *)

Definition dq : string := String (ascii_of_nat 34) "".

(** The JSON text of an exit frame, without and with an error (quoted). *)
Definition exit_text (code : Z) : string := "{" +:+ dq +:+ "code" +:+ dq +:+ ":" +:+ pretty code +:+ "}".
Definition error_text (code : Z) (quoted : string) : string :=
  "{" +:+ dq +:+ "code" +:+ dq +:+ ":" +:+ pretty code +:+ "," +:+ dq +:+ "error" +:+ dq +:+ ":" +:+ quoted +:+ "}".

Definition exit_payload (code : Z) : bytes := bytes_of_string (exit_text code).
Definition error_payload (code : Z) (quoted : string) : bytes := bytes_of_string (error_text code quoted).

Definition literal (s : string) : string := dq +:+ s +:+ dq.

Definition answer (payload : bytes) (c : conn) : conn := (writeFrame frameExit payload c).1.

(** [io.Copy] of the process's outputs to frames: a copier stops at its first
    failed write. *)
Fixpoint copy_chunks (chunks : list (bool * bytes)) (out_dead err_dead : bool) (c : conn) : conn :=
  match chunks with
  | [] => c
  | (is_err, p) :: l =>
      if (if is_err : bool then err_dead else out_dead) then copy_chunks l out_dead err_dead c
      else
        match frameWriter_Write (if is_err then frameStderr else frameStdout) p c with
        | (c', Ok _) => copy_chunks l out_dead err_dead c'
        | (c', _) => copy_chunks l (out_dead || negb is_err) (err_dead || is_err) c'
        end
  end.

Section Handlers.
Context (unmarshal_request : bytes -> option request) (unmarshal_size : bytes -> option (Z * Z)).
Context (marshal_statuses : list containerStatus -> option bytes) (quote : string -> string).
(** What the containers run in, and whether they have a terminal. *)
Context (info : cid -> container_info) (has_stdin has_tty : cid -> bool).
Context (launch : command -> bool -> run).
(** Dialing a port of the pod: what the peer sends until it closes. *)
Context (dial : Z -> result string (list bytes)).
(** Probes: a TCP dial and an HTTP status, with the timeout in seconds. *)
Context (tcp_ok : Z -> Z -> bool) (http_get : bool -> string -> Z -> option Z).

(** ** The client's input *)

(** The frames that follow the request, up to the end of the connection. *)
Fixpoint input_frames (fuel : nat) (c : conn) : list (Z * bytes) :=
  match fuel with
  | O => []
  | S fuel' =>
      match readFrame c with
      | Ok (typ, p, c') => (typ, p) :: input_frames fuel' c'
      | _ => []
      end
  end.

(** The reader goroutine of [handleExec]. *)
Definition exec_op (tty : bool) (f : Z * bytes) : option input_op :=
  if bool_decide (f.1 = frameStdin) then Some (InWrite f.2)
  else if bool_decide (f.1 = frameStdinClose) then Some InClose
  else if bool_decide (f.1 = frameResize) then
    match unmarshal_size f.2 with Some (cols, rows) => if tty then Some (InResize cols rows) else None | None => None end
  else None.

(** The loop of [handleAttach]: closing stdin is ignored. *)
Definition attach_op (stdin tty : bool) (f : Z * bytes) : option input_op :=
  if bool_decide (f.1 = frameStdin) then (if stdin then Some (InWrite f.2) else None)
  else if bool_decide (f.1 = frameResize) then
    match unmarshal_size f.2 with Some (cols, rows) => if tty then Some (InResize cols rows) else None | None => None end
  else None.

(** The loop of [handlePortForward]: the peer's half is closed on request. *)
Definition forward_op (f : Z * bytes) : option input_op :=
  if bool_decide (f.1 = frameStdin) then Some (InWrite f.2)
  else if bool_decide (f.1 = frameStdinClose) then Some InClose else None.

Definition input_ops (op : Z * bytes -> option input_op) (c : conn) : list input_op :=
  omap op (input_frames (Client.read_fuel c) c).

(** ** The handlers: the connection, the guest and the effects after *)

Definition handled : Type := conn * guest * list effect.

Definition handlePortForward (rq : request) (c : conn) (g : guest) : handled :=
  if bool_decide (rq_Port rq = 0%Z) then (answer (error_payload 126 (literal "no port")) c, g, [])
  else match dial (rq_Port rq) with
       | Ok sent => (answer (exit_payload 0) (copy_chunks ((false,.) <$> sent) false false c), g, [EInput (input_ops forward_op c)])
       | Err e => (answer (error_payload 1 (quote e)) c, g, [])
       | Crash k => (c, g, [ECrash k])
       end.

Definition grace_of (rq : request) : Z := if bool_decide (rq_Grace rq <= 0)%Z then 30 else rq_Grace rq.

Definition handleKill (rq : request) (c : conn) (g : guest) : handled :=
  match byName (rq_Container rq) (g_sup g) with
  | None => (answer (error_payload 126 (literal "no such container")) c, g, [])
  | Some (init, i) =>
      (answer (exit_payload 0) c, with_sup (terminate init i (g_sup g)) g, [ETerminate (init, i) (grace_of rq)])
  end.

Definition handleStatus (c : conn) (g : guest) : handled :=
  match marshal_statuses (statuses (g_sup g)) with
  | None => (c, g, [])
  | Some data => (answer (exit_payload 0) (writeFrame frameStdout data c).1, g, [])
  end.

Definition probe_timeout (rq : request) : Z := if bool_decide (rq_Timeout rq <= 0)%Z then 1 else rq_Timeout rq.

Definition probe_ok (rq : request) : bool :=
  if bool_decide (rq_Ptype rq = "tcp") then tcp_ok (rq_Port rq) (probe_timeout rq)
  else if bool_decide (rq_Ptype rq = "http") then
    let scheme := if bool_decide (rq_Scheme rq = "") then "http" else rq_Scheme rq in
    let url := scheme +:+ "://127.0.0.1:" +:+ pretty (rq_Port rq) +:+ rq_Path rq in
    match http_get (bool_decide (scheme = "https")) url (probe_timeout rq) with
    | Some status => bool_decide (200 <= status < 400)%Z
    | None => false
    end
  else false.

Definition handleProbe (rq : request) (c : conn) (g : guest) : handled :=
  (answer (exit_payload (if probe_ok rq then 0 else 1)) c, g, []).

Definition handleShutdown (rq : request) (c : conn) (g : guest) : handled :=
  (answer (exit_payload 0) c, with_sup (shutdownAll (g_sup g)) g, [EShutdown (grace_of rq)]).

(** [c.attached] is set for the time of the connection. *)
Definition attach_open (i : cid) (g : guest) : option guest :=
  if bool_decide (i ∈ g_attached g) then None else Some (Guest (g_sup g) (i :: g_attached g)).
Definition attach_close (i : cid) (g : guest) : guest :=
  Guest (g_sup g) (filter (fun j => j <> i) (g_attached g)).

Definition handleAttach (rq : request) (c : conn) (g : guest) : handled :=
  match byName (rq_Container rq) (g_sup g) with
  | None => (answer (error_payload 126 (literal "no such container")) c, g, [])
  | Some i =>
      match attach_open i g with
      | None => (answer (error_payload 126 (literal "already attached")) c, g, [])
      | Some g' => (c, attach_close i g', [EAttach i (input_ops (attach_op (has_stdin i) (has_tty i)) c)])
      end
  end.

(** With a terminal there is one output. *)
Definition outputs (tty : bool) (chunks : list (bool * bytes)) : list (bool * bytes) :=
  if tty then (fun ch => (false, ch.2)) <$> chunks else chunks.

Definition winsize (rq : request) : option (Z * Z) :=
  if rq_TTY rq && bool_decide (0 < rq_Cols rq)%Z then Some (rq_Cols rq, rq_Rows rq) else None.

Definition handleExec (rq : request) (c : conn) (g : guest) : handled :=
  match rq_Argv rq with
  | [] => (answer (error_payload 126 (literal "empty argv")) c, g, [])
  | argv0 :: args =>
      match byName (rq_Container rq) (g_sup g) with
      | None => (answer (error_payload 126 (literal "no such container")) c, g, [])
      | Some i =>
          match container_command quote (info i) argv0 args with
          | Ok cmd =>
              match launch cmd (rq_TTY rq) with
              | NoStart e => (answer (error_payload 126 (quote e)) c, g, [])
              | Ran chunks w =>
                  (answer (exit_payload (wait_code w)) (copy_chunks (outputs (rq_TTY rq) chunks) false false c), g,
                   [EStart cmd (rq_TTY rq) (winsize rq); EInput (input_ops (exec_op (rq_TTY rq)) c)])
              | NoPipe => (c, g, [EStart cmd (rq_TTY rq) (winsize rq); ECrash NilDeref])
              end
          | Err e => (answer (error_payload 126 (quote e)) c, g, [])
          | Crash k => (c, g, [ECrash k])
          end
      end
  end.

Definition dispatch (rq : request) (c : conn) (g : guest) : handled :=
  let op := rq_Op rq in
  if bool_decide (op = "exec") then handleExec rq c g
  else if bool_decide (op = "attach") then handleAttach rq c g
  else if bool_decide (op = "probe") then handleProbe rq c g
  else if bool_decide (op = "status") then handleStatus c g
  else if bool_decide (op = "kill") then handleKill rq c g
  else if bool_decide (op = "portforward") then handlePortForward rq c g
  else if bool_decide (op = "shutdown") then handleShutdown rq c g
  else (c, g, []).

(** [handleConn] *)
Definition handleConn (c : conn) (g : guest) : handled :=
  match readFrame c with
  | Ok (typ, payload, c') =>
      if bool_decide (typ <> frameRequest) then (c', g, [])
      else match unmarshal_request payload with
           | Some rq => dispatch rq c' g
           | None => (c', g, [])
           end
  | Err _ => (c, g, [])
  | Crash k => (c, g, [ECrash k])
  end.
End Handlers.

(** ** What a handler writes *)

Lemma answer_out payload c : c_room c = None -> answer payload c = Conn (c_in c) (c_out c ++ encode (frameExit, payload)) None.
Proof. intros Hr. unfold answer. by rewrite writeFrame_out. Qed.

Lemma copy_chunks_out chunks c :
  c_room c = None -> copy_chunks chunks false false c = Conn (c_in c) (c_out c ++ encode_all (Client.chunk_frame <$> chunks)) None.
Proof.
  revert c. induction chunks as [|[e p] l IH]; intros c Hr; cbn [copy_chunks].
  { cbn. rewrite app_nil_r. destruct c; naive_solver. }
  replace (if e then false else false) with false by (by destruct e). unfold frameWriter_Write. rewrite writeFrame_out by done.
  rewrite IH by done. cbn [c_in c_out]. rewrite <-app_assoc. by destruct e.
Qed.

(** Frames of the two output streams. *)
Definition output_frame (f : Z * bytes) : Prop := f.1 = frameStdout \/ f.1 = frameStderr.

Lemma chunk_frames_output chunks : Forall output_frame (Client.chunk_frame <$> chunks).
Proof. apply Forall_fmap, Forall_forall. intros [[] p] _; [by right|by left]. Qed.

Lemma output_not_exit fs : Forall output_frame fs -> Forall (fun f => f.1 <> frameExit) fs.
Proof. intros H. eapply Forall_impl; [exact H|]. intros f [-> | ->]; discriminate. Qed.

(** *** The client's loops over a guest's answer *)

Definition replies (fs : list (Z * bytes)) (payload : bytes) (i : nat) : result string conn :=
  Ok (Conn (encode_all fs ++ encode (frameExit, payload)) [] None).

Lemma session_of ux fs payload req out errw :
  Forall frame_fits fs -> Forall output_frame fs -> frame_fits (frameExit, payload) ->
  Client.session ux (replies fs payload) req out errw =
  Ok (Client.SessionOut (Client.sink_write out (Client.stream_of frameStdout fs)) (Client.sink_write errw (Client.stream_of frameStderr fs))
        (Client.exit_error "command terminated with exit code " (ux payload))).
Proof.
  intros Hf Ho Hp. unfold Client.session, Client.dialExecd, replies. cbn [Client.dial_loop mbind result_bind].
  rewrite writeFrame_out by done. unfold Client.read_fuel. cbn [c_in c_out].
  rewrite <-(app_nil_r (encode (frameExit, payload))). rewrite Client.session_loop_frames; [done|done|by apply output_not_exit|done|].
  rewrite length_app. pose proof (Client.encode_all_length fs). lia.
Qed.

Lemma request_of ux payload req :
  frame_fits (frameExit, payload) ->
  Client.execdRequest ux (replies [] payload) req =
  match Client.exit_error "exit code " (ux payload) with None => Ok () | Some e => Err (Client.CodeExit e) end.
Proof.
  intros Hp. unfold Client.execdRequest, Client.dialExecd, replies. cbn [Client.dial_loop mbind result_bind].
  rewrite writeFrame_out by done. unfold Client.read_fuel. cbn [c_in c_out Client.request_loop encode_all fmap list_fmap concat].
  rewrite app_nil_l, <-(app_nil_r (encode (frameExit, payload))), readFrame_encode by done. cbn [fst snd].
  rewrite bool_decide_true by done. by destruct (Client.exit_error _ _).
Qed.

Lemma status_of {status} (us : bytes -> option (list status)) data payload req :
  frame_fits (frameStdout, data) -> frame_fits (frameExit, payload) ->
  Client.execdStatus us (replies [(frameStdout, data)] payload) req =
  match us data with Some sts => Ok sts | None => Err Client.ParsingStatus end.
Proof.
  intros Hd Hp. unfold Client.execdStatus, Client.dialExecd, replies. cbn [Client.dial_loop mbind result_bind].
  rewrite writeFrame_out by done. unfold Client.read_fuel. cbn [c_in c_out].
  change (encode_all [(frameStdout, data)]) with (encode (frameStdout, data) ++ []). rewrite app_nil_r.
  assert (exists n, length (encode (frameStdout, data) ++ encode (frameExit, payload)) = S n) as [n Hn].
  { rewrite length_app, encode_length. by eexists. }
  rewrite Hn. cbn [Client.status_loop]. rewrite readFrame_encode by done. cbn [fst snd].
  rewrite bool_decide_true by done. cbn [app]. rewrite <-(app_nil_r (encode (frameExit, payload))), readFrame_encode by done. cbn [fst snd].
  rewrite bool_decide_false, bool_decide_true by done. by destruct (us data).
Qed.

(** *** The handlers, entered with a request *)

Section HandlerProofs.
Context (unmarshal_request : bytes -> option request) (unmarshal_size : bytes -> option (Z * Z)).
Context (marshal_statuses : list containerStatus -> option bytes) (quote : string -> string).
Context (info : cid -> container_info) (has_stdin has_tty : cid -> bool).
Context (launch : command -> bool -> run).
Context (dial : Z -> result string (list bytes)).
Context (tcp_ok : Z -> Z -> bool) (http_get : bool -> string -> Z -> option Z).
Notation handleConn := (handleConn unmarshal_request unmarshal_size marshal_statuses quote info has_stdin has_tty launch dial tcp_ok http_get).
Notation dispatch := (dispatch unmarshal_size marshal_statuses quote info has_stdin has_tty launch dial tcp_ok http_get).
Notation probe_ok := (probe_ok tcp_ok http_get).

(** A connection that opens with a request. *)
Definition requesting (reqData : bytes) (later : list (Z * bytes)) : conn :=
  Conn (encode (frameRequest, reqData) ++ encode_all later) [] None.

Lemma handleConn_request reqData later rq g :
  frame_fits (frameRequest, reqData) -> unmarshal_request reqData = Some rq ->
  handleConn (requesting reqData later) g = dispatch rq (Conn (encode_all later) [] None) g.
Proof.
  intros Hf Hu. unfold Handlers.handleConn, requesting. rewrite readFrame_encode by done. cbn [fst snd].
  rewrite bool_decide_false by auto. by rewrite Hu.
Qed.

(** What [handleStatus] answers is what the agent's client decodes. *)
Lemma handleStatus_client {status} (us : bytes -> option (list status)) reqData g data sts :
  (Z.of_nat (length data) < u32max)%Z -> marshal_statuses (statuses (g_sup g)) = Some data -> us data = Some sts ->
  exists c, handleStatus marshal_statuses (Conn [] [] None) g = (c, g, []) /\
    Client.execdStatus us (fun _ => Ok (Conn (c_out c) [] None)) reqData = Ok sts.
Proof.
  intros Hdata Hm Hus. unfold handleStatus. rewrite Hm. eexists. split; [done|].
  rewrite writeFrame_out by done. cbn [fst c_in c_out]. rewrite answer_out by done. cbn [c_out].
  rewrite <-(app_nil_r (encode (frameStdout, data))).
  change (fun _ : nat => _) with (replies [(frameStdout, data)] (exit_payload 0)). rewrite status_of by done. by rewrite Hus.
Qed.

(** A status request leaves the guest alone. *)
Lemma status_request {status} (us : bytes -> option (list status)) reqData rq g data sts :
  unmarshal_request reqData = Some rq -> rq_Op rq = "status" ->
  Forall (fun b : bytes => Z.of_nat (length b) < u32max)%Z [reqData; data] ->
  marshal_statuses (statuses (g_sup g)) = Some data -> us data = Some sts ->
  exists c, handleConn (requesting reqData []) g = (c, g, []) /\
    Client.execdStatus us (fun _ => Ok (Conn (c_out c) [] None)) reqData = Ok sts.
Proof.
  intros Hu Hop [Hreq [Hdata _]%Forall_cons]%Forall_cons Hm Hus. rewrite (handleConn_request _ _ _ _ Hreq Hu).
  unfold Handlers.dispatch. rewrite Hop. cbn zeta. repeat (rewrite bool_decide_false by discriminate). rewrite bool_decide_true by done.
  by apply (handleStatus_client us reqData g data sts).
Qed.

Lemma input_frames_encode fs fuel out room :
  Forall frame_fits fs -> length fs < fuel -> input_frames fuel (Conn (encode_all fs) out room) = fs.
Proof.
  intros Hf. revert fuel. induction Hf as [|[typ p] fs Hf _ IH]; intros [|fuel] Hl; cbn [length] in Hl; try lia; [done|].
  cbn [input_frames]. change (encode_all ((typ, p) :: fs)) with (encode (typ, p) ++ encode_all fs).
  rewrite readFrame_encode by done. cbn [fst snd]. by rewrite IH by lia.
Qed.

Lemma input_ops_encode op fs out room :
  Forall frame_fits fs -> input_ops op (Conn (encode_all fs) out room) = omap op fs.
Proof.
  intros Hf. unfold input_ops. rewrite input_frames_encode; [done|done|]. unfold Client.read_fuel. cbn [c_in].
  pose proof (Client.encode_all_length fs). lia.
Qed.

(** The client's stdin, read in buffers up to its end. *)
Definition stdin_reads (bufs : list bytes) : list (bytes * bool) := ((., false) <$> bufs) ++ [([], true)].

Lemma stdin_input bufs tty :
  omap (exec_op unmarshal_size tty) (Client.stdin_pump (stdin_reads bufs)) = (InWrite <$> filter (fun b => b <> []) bufs) ++ [InClose].
Proof.
  induction bufs as [|b bufs IH]; [done|]. unfold stdin_reads in *. rewrite fmap_cons. cbn [app Client.stdin_pump].
  rewrite omap_app, IH, filter_cons. destruct b as [|x b]; [by rewrite decide_False by auto|].
  rewrite decide_True by done. rewrite bool_decide_true by (cbn; lia). done.
Qed.

Lemma stdin_fits bufs :
  Forall (fun b : bytes => Z.of_nat (length b) < u32max)%Z bufs -> Forall frame_fits (Client.stdin_pump (stdin_reads bufs)).
Proof.
  unfold stdin_reads. induction 1 as [|b bufs Hb _ IH]; [by repeat constructor|]. rewrite fmap_cons. cbn [app Client.stdin_pump].
  apply Forall_app. split; [|exact IH]. case_bool_decide; by repeat constructor.
Qed.

(** What a process prints and its exit status, as the client's session has them. *)
Lemma session_of_chunks ux tty chunks code reqData :
  Forall (fun b : bytes => Z.of_nat (length b) < u32max)%Z (exit_payload code :: (snd <$> chunks)) -> ux (exit_payload code) = Client.ExitInfo code "" ->
  Client.session ux (replies (Client.chunk_frame <$> outputs tty chunks) (exit_payload code)) reqData (Some []) (Some []) =
    Ok (Client.SessionOut (Some (Client.chunks_of false (outputs tty chunks))) (Some (Client.chunks_of true (outputs tty chunks)))
          (if bool_decide (code = 0%Z) then None
           else Some (Client.CodeExitError ("command terminated with exit code " +:+ pretty code) code))).
Proof.
  intros [Hexit Hchunks]%Forall_cons Hux. set (l := outputs tty chunks). rewrite session_of; [|..|done].
  - cbn [Client.sink_write fmap option_fmap option_map app]. rewrite (Client.stream_of_chunks false), (Client.stream_of_chunks true), Hux.
    unfold Client.exit_error. cbn [Client.e_code Client.e_error]. by rewrite (bool_decide_true ("" = "")).
  - apply Forall_fmap. assert (Forall (fun ch : bool * bytes => Z.of_nat (length ch.2) < u32max)%Z l) as Hl.
    { unfold l, outputs. rewrite Forall_fmap in Hchunks. destruct tty; [by apply Forall_fmap|done]. }
    eapply Forall_impl; [exact Hl|]. by intros [].
  - apply chunk_frames_output.
Qed.

(** Exec end to end: a request to run a command in a container starts
    exactly the command that container's root, environment and working
    directory give it; the process's stdin receives the client's input in
    order, then its end; and the agent's session returns the bytes the
    process printed to each stream, in order, and its exit status, leaving
    the supervisor alone. *)
Theorem exec_end_to_end ux reqData rq argv0 args i cmd chunks w bufs g :
  unmarshal_request reqData = Some rq -> rq_Op rq = "exec" -> rq_Argv rq = argv0 :: args ->
  byName (rq_Container rq) (g_sup g) = Some i -> container_command quote (info i) argv0 args = Ok cmd ->
  launch cmd (rq_TTY rq) = Ran chunks w ->
  Forall (fun b : bytes => Z.of_nat (length b) < u32max)%Z (reqData :: exit_payload (wait_code w) :: bufs ++ (snd <$> chunks)) ->
  ux (exit_payload (wait_code w)) = Client.ExitInfo (wait_code w) "" ->
  let '(c, g', effects) := handleConn (requesting reqData (Client.stdin_pump (stdin_reads bufs))) g in
  Client.session ux (fun _ => Ok (Conn (c_out c) [] None)) reqData (Some []) (Some []) =
    Ok (Client.SessionOut (Some (Client.chunks_of false (outputs (rq_TTY rq) chunks)))
          (Some (Client.chunks_of true (outputs (rq_TTY rq) chunks)))
          (if bool_decide (wait_code w = 0%Z) then None
           else Some (Client.CodeExitError ("command terminated with exit code " +:+ pretty (wait_code w)) (wait_code w)))) /\
  effects = [EStart cmd (rq_TTY rq) (winsize rq); EInput ((InWrite <$> filter (fun b => b <> []) bufs) ++ [InClose])] /\
  g' = g.
Proof.
  intros Hu Hop Hargv Hname Hcmd Hrun Hfit Hux. apply Forall_cons in Hfit as [Hreq Hfit]. apply Forall_cons in Hfit as [Hexit Hfit].
  apply Forall_app in Hfit as [Hbufs Hchunks]. rewrite (handleConn_request _ _ _ _ Hreq Hu).
  unfold Handlers.dispatch. rewrite Hop. cbn zeta. rewrite bool_decide_true by done. unfold handleExec. rewrite Hargv, Hname, Hcmd, Hrun.
  rewrite copy_chunks_out, answer_out by done. cbn [c_in c_out app]. split_and!; [|by rewrite input_ops_encode, stdin_input by (by apply stdin_fits)|done].
  apply session_of_chunks; [by constructor|done].
Qed.

(** The control requests, over any codec: what the agent is told of its kill,
    shutdown, probe and status requests is what the guest did. A kill of a
    known container is one [terminate] step of the supervisor, of an unknown
    one an error and no change; a shutdown is one [shutdownAll] step; a probe
    request succeeds exactly when the probe does; the status is the
    supervisor's. The grace period handed on is positive. *)
Lemma control_over_codec {status} ux (us : bytes -> option (list status)) reqData rq g data sts :
  unmarshal_request reqData = Some rq ->
  Forall (fun b : bytes => Z.of_nat (length b) < u32max)%Z [reqData; data] ->
  ux (exit_payload 0) = Client.ExitInfo 0 "" -> ux (exit_payload 1) = Client.ExitInfo 1 "" ->
  ux (error_payload 126 (literal "no such container")) = Client.ExitInfo 126 "no such container" ->
  marshal_statuses (statuses (g_sup g)) = Some data -> us data = Some sts ->
  let '(c, g', effects) := handleConn (requesting reqData []) g in
  let dialed := fun _ => Ok (Conn (c_out c) [] None) in
  let res := Client.execdRequest ux dialed reqData in
  (0 < grace_of rq)%Z /\
  (rq_Op rq = "kill" ->
     match byName (rq_Container rq) (g_sup g) with
     | Some (init, i) =>
         res = Ok () /\ exec (ATerminate init i) (g_sup g) = Some (g_sup g') /\ effects = [ETerminate (init, i) (grace_of rq)]
     | None => res = Err (Client.CodeExit (Client.CodeExitError "no such container" 126)) /\ g' = g /\ effects = []
     end) /\
  (rq_Op rq = "shutdown" -> res = Ok () /\ exec AShutdown (g_sup g) = Some (g_sup g') /\ effects = [EShutdown (grace_of rq)]) /\
  (rq_Op rq = "probe" -> g' = g /\ (res = Ok () <-> probe_ok rq = true)) /\
  (rq_Op rq = "status" -> g' = g /\ Client.execdStatus us dialed reqData = Ok sts).
Proof.
  intros Hu Hfit H0 H1 H126 Hm Hus. apply Forall_cons in Hfit as [Hreq [Hdata _]%Forall_cons].
  rewrite (handleConn_request _ _ _ _ Hreq Hu). unfold Handlers.dispatch. cbn zeta.
  assert (0 < grace_of rq)%Z as Hgrace by (unfold grace_of; case_bool_decide; lia).
  assert (forall payload, frame_fits (frameExit, payload) ->
    Client.execdRequest ux (fun _ => Ok (Conn (c_out (answer payload (Conn [] [] None))) [] None)) reqData =
    match Client.exit_error "exit code " (ux payload) with None => Ok () | Some e => Err (Client.CodeExit e) end) as Hans.
  { intros payload Hp. rewrite answer_out by done. apply (request_of ux payload reqData Hp). }
  destruct (decide (rq_Op rq ∈ ["kill"; "shutdown"; "probe"; "status"])) as [Hin|Hout].
  2: { destruct (_ : handled) as [[c g'] effects]. split_and!; [done|intros E; rewrite E in Hout; set_solver..]. }
  change (encode_all []) with (@nil Z).
  repeat apply elem_of_cons in Hin as [Hop|Hin]; [..|by apply elem_of_nil in Hin]; rewrite Hop.
  all: repeat (rewrite bool_decide_false by discriminate); rewrite bool_decide_true by done.
  - unfold handleKill. destruct (byName _ _) as [[init i]|]; (split_and!; [done| |discriminate..]); intros _; (split_and!; [|done..]).
    + rewrite Hans, H0; done.
    + rewrite Hans, H126; done.
  - unfold handleShutdown. (split_and!; [done|discriminate| |discriminate..]); intros _; (split_and!; [|done..]). by rewrite Hans, H0.
  - unfold handleProbe. (split_and!; [done|discriminate..| |discriminate]); intros _. split; [done|].
    destruct (probe_ok rq); [by rewrite Hans, H0 by done|rewrite Hans, H1 by done]. cbn. split; discriminate.
  - destruct (handleStatus_client us reqData g data _ Hdata Hm Hus) as (c & -> & Hc).
    (split_and!; [done|discriminate..|]); intros _. by split.
Qed.

(** *** Any connection *)

(** What a handler may do: frames of the outputs and at most one exit frame,
    and at most one step of the supervisor. *)
Record proper (c : conn) (g : guest) (h : conn * guest * list effect) : Prop := Proper {
  pr_sup : g_sup h.1.2 = g_sup g \/ step (g_sup g) (g_sup h.1.2);
  pr_attached : g_attached h.1.2 = g_attached g;
  pr_out : exists fs exit, c_out h.1.1 = c_out c ++ encode_all (fs ++ exit) /\
    Forall output_frame fs /\ Forall (fun f => f.1 = frameExit) exit /\ length exit <= 1
}.

Lemma proper_nothing c c' g effects : c_out c' = c_out c -> proper c g (c', g, effects).
Proof. intros Hc. split; [by left|done|]. exists [], []. cbn. rewrite Hc, app_nil_r. split_and!; [done|constructor|constructor|lia]. Qed.

Lemma proper_answer c g g' fs payload effects :
  c_room c = None -> Forall output_frame fs -> g_sup g' = g_sup g \/ step (g_sup g) (g_sup g') -> g_attached g' = g_attached g ->
  proper c g (answer payload (Conn (c_in c) (c_out c ++ encode_all fs) None), g', effects).
Proof.
  intros Hr Hf Hs Ha. rewrite answer_out by done. split; [done|done|]. exists fs, [(frameExit, payload)]. cbn [fst snd c_out].
  rewrite Client.encode_all_app, app_assoc. change (encode_all [(frameExit, payload)]) with (encode (frameExit, payload) ++ []).
  rewrite app_nil_r. split_and!; [done|done|by repeat constructor|done].
Qed.

Lemma proper_reply c g g' payload effects :
  c_room c = None -> g_sup g' = g_sup g \/ step (g_sup g) (g_sup g') -> g_attached g' = g_attached g ->
  proper c g (answer payload c, g', effects).
Proof.
  intros Hr Hs Ha. pose proof (proper_answer c g g' [] payload effects Hr (Forall_nil_2 _) Hs Ha) as H. cbn in H. rewrite app_nil_r in H.
  destruct c; cbn in *. by subst.
Qed.

Lemma attach_open_close i g g' : attach_open i g = Some g' -> attach_close i g' = g.
Proof.
  unfold attach_open, attach_close. case_bool_decide as Hi; [done|]. intros [= <-]. cbn [g_sup g_attached].
  rewrite filter_cons_False by auto. rewrite filter_every; [by destruct g|]. apply Forall_forall. by intros j Hj ->.
Qed.

Lemma dispatch_proper rq c g : c_room c = None -> proper c g (dispatch rq c g).
Proof.
  intros Hr. unfold Handlers.dispatch. cbn zeta. repeat case_bool_decide; [..|by apply proper_nothing].
  - unfold handleExec. destruct (rq_Argv rq) as [|argv0 args]; [by apply proper_reply; auto|].
    destruct (byName _ _) as [i|]; [|by apply proper_reply; auto]. destruct (container_command _ _ _ _) as [cmd|e|k]; [|by apply proper_reply; auto|by apply proper_nothing].
    destruct (launch cmd (rq_TTY rq)) as [e|chunks w|]; [by apply proper_reply; auto| |by apply proper_nothing]. rewrite copy_chunks_out by done.
    apply proper_answer; [done|apply chunk_frames_output|by left|done].
  - unfold handleAttach. destruct (byName _ _) as [i|]; [|by apply proper_reply; auto].
    destruct (attach_open i g) as [g'|] eqn:E; [|by apply proper_reply; auto]. rewrite (attach_open_close _ _ _ E). by apply proper_nothing.
  - by apply proper_reply; auto.
  - unfold handleStatus. destruct (marshal_statuses _) as [data|]; [|by apply proper_nothing].
    rewrite writeFrame_out by done. cbn [fst]. rewrite <-(app_nil_r (encode (frameStdout, data))).
    apply (proper_answer c g g [(frameStdout, data)]); [done|by repeat constructor|by left|done].
  - unfold handleKill. destruct (byName _ _) as [[init i]|]; apply proper_reply; auto. right. by exists (ATerminate init i).
  - unfold handlePortForward. case_bool_decide; [by apply proper_reply; auto|].
    destruct (dial (rq_Port rq)) as [sent|e|k]; [|by apply proper_reply; auto|by apply proper_nothing]. rewrite copy_chunks_out by done.
    apply proper_answer; [done|apply chunk_frames_output|by left|done].
  - unfold handleShutdown. apply proper_reply; [done| |done]. right. by exists AShutdown.
Qed.

Lemma readFrame_room c typ p c' : readFrame c = Ok (typ, p, c') -> c_room c' = c_room c /\ c_out c' = c_out c.
Proof.
  unfold readFrame. intros H. ok_inv H. destruct a as [hdr c1]. ok_inv H. destruct a as [p' c2]. simplify_eq/=.
  by apply read_full_ok in Hc as (-> & _ & ->), Hc0 as (-> & _ & ->).
Qed.

Lemma handleConn_proper c g : c_room c = None -> proper c g (handleConn c g).
Proof.
  intros Hr. unfold Handlers.handleConn. destruct (readFrame c) as [[[typ p] c1]| |] eqn:E; [|by apply proper_nothing..].
  apply readFrame_room in E as [Er Eo]. case_bool_decide; [by apply proper_nothing|].
  destruct (unmarshal_request p) as [rq|]; [|by apply proper_nothing].
  destruct (dispatch_proper rq c1 g) as [H1 H2 H3]; [congruence|]. rewrite Eo in H3. by split.
Qed.

(** Whatever a client sends, down to arbitrary bytes, the guest answers in
    the protocol and stays in its supervisor's state space: it writes whole
    output frames followed by at most one exit frame and nothing after it,
    its supervisor makes at most one of the steps of its own transition
    system, so that every invariant of [Supervisor] holds of a guest under
    any traffic, and no client is left attached. *)
Theorem any_connection_is_safe c g :
  c_room c = None ->
  let '(c', g', _) := handleConn c g in
  (forall pol ns ms, reachable pol ns ms (g_sup g) -> reachable pol ns ms (g_sup g')) /\
  g_attached g' = g_attached g /\
  exists fs exit, c_out c' = c_out c ++ encode_all (fs ++ exit) /\
    Forall output_frame fs /\ Forall (fun f => f.1 = frameExit) exit /\ length exit <= 1.
Proof.
  intros Hr. destruct (handleConn_proper c g Hr) as [Hs Ha Ho].
  destruct (handleConn c g) as [[c' g'] effects]. cbn [fst snd] in *. split_and!; [|done|done].
  intros pol ns ms Hreach. destruct Hs as [-> |Hs]; [done|]. by eapply rtc_r.
Qed.
End HandlerProofs.

(** ** Witnesses *)

Definition ex_request (op : string) : request := Request op "" ["/bin/date"; "-u"] false 0 0 "tcp" 80 "" "" 0 0.
Definition ex_guest : guest := Guest (Supervisor.start "Always" [] ["app"]) [].
Definition ex_info (_ : cid) : container_info := Info None ["A=1"] "".
Definition ex_command : command := Command "/bin/date" ["/bin/date"; "-u"] (mergeEnv defaultEnv ["A=1"]) "" false.
Definition ex_launch (_ : command) (_ : bool) : run := Ran [(false, [104]); (true, [33]); (false, [105])]%Z (WaitExit 3).
Definition ex_decode (p : bytes) : Client.exit_info :=
  if bool_decide (p = exit_payload 3) then Client.ExitInfo 3 ""
  else if bool_decide (p = exit_payload 1) then Client.ExitInfo 1 ""
  else if bool_decide (p = exit_payload 0) then Client.ExitInfo 0 ""
  else Client.ExitInfo 126 "no such container".
(** The guest, with the request it decodes and statuses encoded as nothing. *)
Definition ex_handle (rq : request) :=
  handleConn (fun _ => Some rq) (fun _ => None) (fun _ => Some []) literal ex_info (fun _ => true) (fun _ => false)
    ex_launch (fun _ => Ok []) (fun _ _ => true) (fun _ _ _ => None).

Lemma exec_end_to_end_witness :
  let '(c, g', effects) := ex_handle (ex_request "exec") (requesting [7]%Z (Client.stdin_pump (stdin_reads [[1; 2]; []; [3]]%Z))) ex_guest in
  Client.session ex_decode (fun _ => Ok (Conn (c_out c) [] None)) [7]%Z (Some []) (Some []) =
    Ok (Client.SessionOut (Some [104; 105]%Z) (Some [33]%Z)
          (Some (Client.CodeExitError "command terminated with exit code 3" 3))) /\
  effects = [EStart ex_command false None; EInput [InWrite [1; 2]%Z; InWrite [3]%Z; InClose]] /\ g' = ex_guest.
Proof.
  refine (exec_end_to_end (fun _ => Some (ex_request "exec")) (fun _ => None) (fun _ => Some []) literal ex_info (fun _ => true) (fun _ => false)
    ex_launch (fun _ => Ok []) (fun _ _ => true) (fun _ _ _ => None) ex_decode [7]%Z (ex_request "exec") "/bin/date" ["-u"] (false, 0) ex_command
    [(false, [104]); (true, [33]); (false, [105])]%Z (WaitExit 3) [[1; 2]; []; [3]]%Z ex_guest _ _ _ _ _ _ _ _); try reflexivity.
  apply (bool_decide_unpack _). vm_compute. exact I.
Defined.

Lemma any_connection_is_safe_witness :
  let '(c', g', _) := ex_handle (ex_request "kill") (Conn [9; 9; 9]%Z [] None) ex_guest in
  (forall pol ns ms, reachable pol ns ms (g_sup ex_guest) -> reachable pol ns ms (g_sup g')) /\
  g_attached g' = [] /\
  exists fs exit, c_out c' = [] ++ encode_all (fs ++ exit) /\
    Forall output_frame fs /\ Forall (fun f => f.1 = frameExit) exit /\ length exit <= 1.
Proof.
  exact (any_connection_is_safe (fun _ => Some (ex_request "kill")) (fun _ => None) (fun _ => Some []) literal ex_info (fun _ => true) (fun _ => false)
    ex_launch (fun _ => Ok []) (fun _ _ => true) (fun _ _ _ => None) (Conn [9; 9; 9]%Z [] None) ex_guest eq_refl).
Defined.
