(* ===== verification/StatusPath.v ===== *)
(** * The status path, end to end

    One poll of the agent's [statusLoop]: the status request over the control
    channel ([Handlers], [Frames]), the translation and the push ([Status]),
    from the state of the guest's supervisor ([Supervisor]) to the pod's
    status in the API. *)
From S2P Require Import Prelude GoStrings Frames Pod Supervisor Handlers Status.
Import Wire.

(** What a poll hands to [pushStatus]: nothing when [execdStatus] fails. *)
Definition polled (r : result Client.client_error (list guestContainerStatus)) : option (list guestContainerStatus) :=
  match r with Ok sts => Some sts | _ => None end.

(** [statusLoop]'s tick. *)
Definition poll_tick (us : bytes -> option (list guestContainerStatus)) (dial : nat -> result string conn) (reqData : bytes)
    (client : bool) (o : api_outcome) (now : Z) (pod : Pod) (vm : podVM) (store : api) : podVM * api :=
  pushStatus client o now pod (polled (Client.execdStatus us dial reqData)) vm store.

(** What a poll that got these statuses has to publish; [pushStatus] compares
    it with the last payload it tried to push. *)
Definition payload (pod : Pod) (sts : list guestContainerStatus) (vm : podVM) : phase * list ContainerStatus * list ContainerStatus :=
  let '(ics, css, ph) := translateStatuses pod sts vm in (ph, ics, css).

(** ** The specification: what the API says of a supervised container *)

(** The state of a supervised process. *)
Definition shows_state (p : container) (st : container_state) : Prop :=
  match c_state p with
  | Running => st = CsRunning (from_option unix 0%Z (c_startedAt p))
  | Terminated => exists reason, st =
      CsTerminated (c_exitCode p) reason (c_reason p) (from_option unix 0%Z (c_startedAt p)) (from_option unix 0%Z (c_finishedAt p)) /\
      (reason = "Completed" <-> c_exitCode p = 0%Z)
  | Waiting => exists reason, st = CsWaiting reason (c_reason p)
  end.

(** The status of a container is that of its process: name, image, state,
    restarts, and ready as the rule for init and main containers says. *)
Definition shows (vm : podVM) (init : bool) (c : Container) (p : container) (cs : ContainerStatus) : Prop :=
  cs_Name cs = ct_Name c /\ c_name p = ct_Name c /\ cs_Image cs = ct_Image c /\ shows_state p (cs_State cs) /\
  cs_RestartCount cs = c_restarts p /\
  (cs_Ready cs = true <->
   if init then c_state p = Terminated /\ c_exitCode p = 0%Z
   else c_state p = Running /\ containerReady (c_name p) vm = true).

(** One status per container, in the order of the spec. *)
Definition shows_all (vm : podVM) (init : bool) (cs : list Container) (ps : list proc) (sts : list ContainerStatus) : Prop :=
  length sts = length cs /\
  forall i c, cs !! i = Some c -> exists p st, ps !! i = Some p /\ sts !! i = Some st /\ shows vm init c p.1 st.

Definition done_ok (p : proc) : Prop := c_state p.1 = Terminated /\ c_exitCode p.1 = 0%Z.
#[export] Instance done_ok_dec p : Decision (done_ok p).
Proof. unfold done_ok. apply _. Defined.
Definition up (vm : podVM) (p : proc) : Prop := c_state p.1 = Running /\ containerReady (c_name p.1) vm = true.

(** ** Lemmas *)

Lemma conv_shows (s : sup) vm init c p :
  NoDup (names_of (inits s ++ mains s)) -> p ∈ procs init s -> ct_Name c = c_name p.1 ->
  shows vm init c p.1 (conv vm (of_guest <$> statuses s) init c).
Proof.
  intros Hnd Hin Hc. unfold shows, conv. rewrite Hc, (supervisor_status s p init) by done.
  destruct p as [[]]. cbn in *. unfold shows_state.
  destruct c_state; cbn; repeat first [rewrite bool_decide_true by done | rewrite bool_decide_false by discriminate]; cbn.
  - split_and!; try done; [by eexists|]. by destruct init; split; [|intros []|intros|intros []].
  - split_and!; try done. destruct init; naive_solver.
  - split_and!; try done; [|].
    + eexists. split; [done|]. case_bool_decide; naive_solver.
    + destruct init; cbn; [case_bool_decide|]; naive_solver.
Qed.

Lemma conv_shows_all (s : sup) vm init cs :
  NoDup (names_of (inits s ++ mains s)) -> names_of (procs init s) = ct_Name <$> cs ->
  shows_all vm init cs (procs init s) (conv vm (of_guest <$> statuses s) init <$> cs).
Proof.
  intros Hnd Hn. split; [by rewrite length_fmap|]. intros i c Hc.
  assert (names_of (procs init s) !! i = Some (ct_Name c)) as Hp by by rewrite Hn, list_lookup_fmap, Hc.
  rewrite list_lookup_fmap in Hp. destruct (procs init s !! i) as [p|] eqn:E; [|done]. injection Hp as Hp.
  exists p, (conv vm (of_guest <$> statuses s) init c). split_and!; [done|by rewrite list_lookup_fmap, Hc|].
  apply conv_shows; [done|by eapply list_elem_of_lookup_2|done].
Qed.

(** [pushStatus] on every branch: what is recorded, what is left alone, and
    what is written when the payload is new and the requests go through. *)
Lemma push_cases o now pod sts vm store :
  let vs := pushStatus true o now pod (Some sts) vm store in
  vm_lastPush vs.1 = Some (payload pod sts vm) /\
  (forall k, k <> api_key pod vm -> vs.2 !! k = store !! k) /\
  (vm_lastPush vm = Some (payload pod sts vm) \/ ao_get o && ao_update o = false \/ store !! api_key pod vm = None -> vs.2 = store) /\
  (vm_lastPush vm <> Some (payload pod sts vm) -> ao_get o && ao_update o = true -> is_Some (store !! api_key pod vm) ->
   let '(ics, css, ph) := translateStatuses pod sts vm in
   exists st, vs.2 = <[api_key pod vm := st]> store /\
     ps_Phase st = Some ph /\ ps_Ready st = pod_ready ph css /\ (css <> [] -> ps_CS st = css) /\ (ics <> [] -> ps_ICS st = ics)).
Proof.
  unfold payload. destruct (translateStatuses pod sts vm) as [[ics css] ph] eqn:Ht. cbn zeta.
  destruct (pushStatus true o now pod (Some sts) vm store) as [vm' store'] eqn:E.
  destruct (push_records _ _ _ _ _ _ _ _ _ _ _ _ Ht E) as [Hrec _]. cbn [fst snd].
  destruct (decide (vm_lastPush vm = Some (ph, ics, css))) as [Hs|Hs].
  { rewrite (push_same _ _ _ _ _ _ _ _ _ _ Ht Hs) in E. injection E as <- <-. naive_solver. }
  destruct o as [[] []], (store !! api_key pod vm) as [latest|] eqn:Hk; cbn [ao_get ao_update andb];
    try (assert (store' = store) as -> by (unfold pushStatus in E; rewrite Ht, bool_decide_false in E by done;
           unfold setPhase, api_key in *; cbn in E; rewrite ?Hk in E; by simplify_eq/=);
         split_and!; [done|done|done|intros _ ? []; done]).
  destruct (push_publishes now pod sts vm store ics css ph latest [] Ht Hs Hk) as [(st & H1 & H2 & H3 & H4 & H5 & _) _].
  rewrite E in H1. cbn [snd] in H1. subst store'. split_and!; [done| |naive_solver|intros _ _ _; by exists st].
  intros k Hne. by rewrite lookup_insert_ne.
Qed.

Section PollProof.
Context (unmarshal_request : bytes -> option request) (unmarshal_size : bytes -> option (Z * Z)).
Context (marshal_statuses : list containerStatus -> option bytes) (quote : string -> string).
Context (info : cid -> Boot.container_info) (has_stdin has_tty : cid -> bool).
Context (launch : Boot.command -> bool -> run).
Context (dial : Z -> result string (list bytes)).
Context (tcp_ok : Z -> Z -> bool) (http_get : bool -> string -> Z -> option Z).
Notation handleConn := (handleConn unmarshal_request unmarshal_size marshal_statuses quote info has_stdin has_tty launch dial tcp_ok http_get).

(** The status path, over any codec and with any outcome of the requests: a
    poll of a guest whose supervisor is in any reachable state, over the
    control channel, leaves the guest alone and changes no other pod's status.
    It changes nothing at all when the payload is the last one it tried to
    push, or a request fails; otherwise the API then says exactly what the
    supervisor knows: every container's state, exit code and restarts; the
    phase is Running exactly when every init container has exited 0; and the
    pod is Ready exactly when, beyond that, it has main containers and all of
    them are running with their readiness flag up. In every case the payload
    counts as pushed from then on. *)
Lemma status_over_codec pol us reqData rq g data o now pod vm store :
  unmarshal_request reqData = Some rq -> rq_Op rq = "status" ->
  Forall (fun b : bytes => Z.of_nat (length b) < u32max)%Z [reqData; data] ->
  marshal_statuses (statuses (g_sup g)) = Some data -> us data = Some (of_guest <$> statuses (g_sup g)) ->
  reachable pol (ct_Name <$> p_InitContainers pod) (ct_Name <$> p_Containers pod) (g_sup g) ->
  NoDup (ct_Name <$> allContainers pod) ->
  let new := payload pod (of_guest <$> statuses (g_sup g)) vm in
  let '(c, g', _) := handleConn (requesting reqData []) g in
  let dialed := fun _ => Ok (Conn (c_out c) [] None) in
  let vs := poll_tick us dialed reqData true o now pod vm store in
  g' = g /\ vm_lastPush vs.1 = Some new /\
  (forall k, k <> api_key pod vm -> vs.2 !! k = store !! k) /\
  (vm_lastPush vm = Some new \/ ao_get o && ao_update o = false \/ store !! api_key pod vm = None -> vs.2 = store) /\
  (vm_lastPush vm <> Some new -> ao_get o && ao_update o = true -> is_Some (store !! api_key pod vm) ->
   exists st, vs.2 !! api_key pod vm = Some st /\
    (p_Containers pod <> [] -> shows_all vm false (p_Containers pod) (mains (g_sup g)) (ps_CS st)) /\
    (p_InitContainers pod <> [] -> shows_all vm true (p_InitContainers pod) (inits (g_sup g)) (ps_ICS st)) /\
    ps_Phase st = Some (if decide (Forall done_ok (inits (g_sup g))) then PodRunning else PodPending) /\
    (ps_Ready st = true <->
       p_Containers pod <> [] /\ Forall done_ok (inits (g_sup g)) /\ Forall (up vm) (mains (g_sup g)))).
Proof.
  intros Hu Hop Hfit Hm Hus Hr Hnd new.
  destruct (status_request unmarshal_request unmarshal_size marshal_statuses quote info has_stdin has_tty launch dial
    tcp_ok http_get us reqData rq g data _ Hu Hop Hfit Hm Hus) as (c & -> & Hc).
  cbn zeta. unfold poll_tick. rewrite Hc. cbn [polled].
  destruct (push_cases o now pod (of_guest <$> statuses (g_sup g)) vm store) as (Hrec & Hframe & Hsame & Hpush).
  fold new in Hrec, Hsame, Hpush. split_and!; [done..|]. intros Hnew Ho Hs. specialize (Hpush Hnew Ho Hs). clear Hrec Hframe Hsame Hnew.
  destruct (reachable_names _ _ _ _ Hr) as [Hi Hmn].
  assert (NoDup (names_of (inits (g_sup g) ++ mains (g_sup g)))) as Hnd'.
  { rewrite fmap_app, Hi, Hmn, <-fmap_app. done. }
  cbn [translateStatuses] in Hpush. destruct Hpush as (st & -> & Hph & Hready & Hcs & Hics).
  exists st. rewrite lookup_insert_eq. split; [done|].
  pose proof (exited_zero_list (g_sup g) vm true _ Hnd' (eq_sym Hi)) as Hex. cbn [procs] in Hex.
  split_and!.
  - intros Hne. rewrite Hcs by (by destruct (p_Containers pod)). by apply (conv_shows_all (g_sup g) vm false).
  - intros Hne. rewrite Hics by (by destruct (p_InitContainers pod)). by apply (conv_shows_all (g_sup g) vm true).
  - rewrite Hph. case_decide as Hd; destruct (forallb _ _); naive_solver.
  - rewrite Hready. unfold pod_ready. rewrite !andb_true_iff, !bool_decide_eq_true, ready_list by done.
    rewrite <-Hex. destruct (p_Containers pod), (forallb _ _); naive_solver.
Qed.
End PollProof.
