(* ===== verification/Pki.v ===== *)
(** * The declarative PKI reconciler (poc/pki/main.go)

    The directory of specs and their generated files: [loadSpecs], the four
    passes of [main], and the reconciliation of a key pair, a certificate and
    a kubeconfig. The files of the directory are a map from paths to
    contents; every write is logged. Cryptography, the PEM and DER codecs,
    [net.ParseIP], [time.ParseDuration], base64 and YAML are an interface
    ([Crypto]) with the laws the reconciler relies on ([CryptoLaws]);
    randomness is a seed that each use advances. *)
From S2P Require Import Prelude GoStrings.

Inductive usage := ServerAuth | ClientAuth | OtherUsage (n : nat).
#[export] Instance usage_eq_dec : EqDecision usage.
Proof. solve_decision. Defined.

Record spec := Spec {
  k_Kind : string; k_IsCA : bool; k_IssuerRef : string; k_CommonName : string; k_Organizations : list string;
  k_DNSNames : list string; k_IPAddresses : list string; k_Usages : list string; k_Duration : string;
  k_Algorithm : string; k_Server : string; k_CARef : string; k_ClientRef : string; k_name : string
}.

(** [x509.Certificate], as template and as parsed; [x_PublicKey] is nil in a
    template, and [x_CertSign] is [KeyUsageCertSign]. IP addresses are in
    the form [net.IP.String] gives them. *)
Record certificate (pub : Type) := Certificate {
  x_CommonName : string; x_Organization : list string; x_IsCA : bool; x_CertSign : bool; x_DNSNames : list string;
  x_IPAddresses : list string; x_ExtKeyUsage : list usage; x_NotAfter : Z; x_PublicKey : option pub
}.
Arguments Certificate {pub} _ _ _ _ _ _ _ _ _.
Arguments x_CommonName {pub} _.
Arguments x_Organization {pub} _.
Arguments x_IsCA {pub} _.
Arguments x_CertSign {pub} _.
Arguments x_DNSNames {pub} _.
Arguments x_IPAddresses {pub} _.
Arguments x_ExtKeyUsage {pub} _.
Arguments x_NotAfter {pub} _.
Arguments x_PublicKey {pub} _.

Class Crypto := {
  key : Type; pub : Type;
  Public : key -> pub;
  PubEqual : pub -> pub -> bool;
  ParseKey : string -> option key;             (* a file's contents *)
  MarshalKey : key -> string;
  MarshalPublic : key -> string;
  ParseCert : string -> option (certificate pub);
  (* template, parent, subject key, signer, randomness: the PEM text *)
  CreateCert : certificate pub -> certificate pub -> pub -> key -> nat -> result string string;
  CheckSignatureFrom : certificate pub -> certificate pub -> bool;
  GenRSA : nat -> key; GenECDSA : nat -> key;
  ParseIP : string -> option string;           (* then String *)
  ParseDuration : string -> option Z;
  Base64 : string -> string
}.

(** The files, the seed, and the paths written, oldest first. *)
Record pki := Pki { p_files : gmap string string; p_seed : nat; p_log : list string }.

Notation hour := 3600000000000%Z.
Notation pkiM := (stM pki string).

Definition thirty_days : Z := 30 * 24 * hour.

(** ** Comparisons *)

(** The loop over the sorted copies. *)
Definition stringSetEqual (a b : list string) : bool :=
  bool_decide (length a = length b) &&
  forallb (fun p : string * string => bool_decide (p.1 = p.2)) (zip (merge_sort str_le a) (merge_sort str_le b)).

Definition usage_of (u : string) : option usage :=
  if bool_decide (u = "server auth") then Some ServerAuth
  else if bool_decide (u = "client auth") then Some ClientAuth else None.

Definition wantExtKeyUsages (s : spec) : list usage :=
  if k_IsCA s then []
  else if bool_decide (k_Usages s = []) then [ServerAuth; ClientAuth]
  else omap usage_of (k_Usages s).

Definition extKeyUsagesEqual (have : list usage) (s : spec) : bool :=
  let want := wantExtKeyUsages s in
  bool_decide (length have = length want) && forallb (fun u => bool_decide (u ∈ have)) want.

Definition algName (a : string) : string := if bool_decide (a = "") then "rsa2048" else a.

(** ** Specs *)

Section LoadSpecs.
(** [yaml.Unmarshal]: the API version and the spec, without its name. *)
Context (unmarshal : string -> option (string * spec)).

Definition with_name (n : string) (s : spec) : spec :=
  Spec (k_Kind s) (k_IsCA s) (k_IssuerRef s) (k_CommonName s) (k_Organizations s) (k_DNSNames s) (k_IPAddresses s)
    (k_Usages s) (k_Duration s) (k_Algorithm s) (k_Server s) (k_CARef s) (k_ClientRef s) n.

(** One file of the walk: its path relative to the root, and what reading it
    gives. *)
Definition load_file (f : string * result string string) : result string (option spec) :=
  let '(rel, content) := f in
  if negb (HasSuffix rel ".yaml") then Ok None
  else match content with
       | Err e => Err e
       | Crash c => Crash c
       | Ok data =>
           match unmarshal data with
           | Some (v, s) =>
               if bool_decide (v <> "kube-on-macos.io/v1alpha1") then Ok None
               else if bool_decide (k_Kind s ∈ ["Certificate"; "KeyPair"; "Kubeconfig"]) then Ok (Some (with_name (TrimSuffix rel ".yaml") s))
               else Err (rel +:+ ": unknown kind " +:+ k_Kind s)
           | None => Ok None
           end
       end.

Fixpoint load_files (fs : list (string * result string string)) : result string (list spec) :=
  match fs with
  | [] => Ok []
  | f :: fs' => o ← load_file f; l ← load_files fs'; Ok (option_list o ++ l)
  end.

Definition loadSpecs (fs : list (string * result string string)) : result string (list spec) :=
  merge_sort (fun a b => str_le (k_name a) (k_name b)) <$> load_files fs.
End LoadSpecs.

(** ** The reconciler *)

Section Reconcile.
Context `{Crypto} (root : string) (specs : list spec).
(** The error of a write, given the writes before. *)
Context (write_err : list string -> string -> option string).


Definition WriteFile (path content : string) : pkiM () := fun st =>
  match write_err (p_log st) path with
  | Some e => (Pki (p_files st) (p_seed st) (p_log st ++ [path]), Err e)
  | None => (Pki (<[path := content]> (p_files st)) (p_seed st) (p_log st ++ [path]), Ok ())
  end.
Definition fresh : pkiM nat := fun st => (Pki (p_files st) (S (p_seed st)) (p_log st), Ok (p_seed st)).

Definition path (name ext : string) : string := PathJoin [root; name +:+ ext].
Definition find (name : string) : option spec := snd <$> list_find (fun s => k_name s = name) specs.

Definition loadKey (files : gmap string string) (p : string) : option key := files !! p ≫= ParseKey.
Definition loadCert (files : gmap string string) (p : string) : option (certificate pub) := files !! p ≫= ParseCert.

Definition generateKey (algorithm : string) : pkiM key :=
  let a := algName algorithm in
  if bool_decide (a = "rsa2048") then fresh ≫= fun r => mret (GenRSA r)
  else if bool_decide (a = "ecdsa-p256") then fresh ≫= fun r => mret (GenECDSA r)
  else st_fail ("unknown algorithm " +:+ algorithm).

(** *** Key pairs *)

Definition reconcileKeyPair (s : spec) : pkiM () :=
  let keyPath := path (k_name s) ".key" in
  let pubPath := path (k_name s) ".pub" in
  st_get p_files ≫= fun files =>
  match loadKey files keyPath with
  | Some k => if bool_decide (files !! pubPath = Some (MarshalPublic k)) then mret () else WriteFile pubPath (MarshalPublic k)
  | None =>
      generateKey (k_Algorithm s) ≫= fun k =>
      WriteFile keyPath (MarshalKey k) ≫= fun _ => WriteFile pubPath (MarshalPublic k)
  end.

(** *** Certificates *)

(** The issuer's certificate and key; [None] for a self-signed CA. *)
Definition issuer_of (files : gmap string string) (s : spec) : result string (option (certificate pub * key)) :=
  if negb (k_IsCA s) || bool_decide (k_IssuerRef s <> "") then
    let ref := k_IssuerRef s in
    if bool_decide (ref = "") then Err "non-CA certificate needs issuerRef"
    else match find ref with
         | Some i =>
             if bool_decide (k_Kind i <> "Certificate") || negb (k_IsCA i) then Err ("issuerRef " +:+ ref +:+ " is not a CA Certificate spec")
             else match loadCert files (path ref ".crt") with
                  | None => Err ("issuer " +:+ ref +:+ " not materialized")
                  | Some c =>
                      match loadKey files (path ref ".key") with
                      | None => Err ("issuer " +:+ ref +:+ " key")
                      | Some k => Ok (Some (c, k))
                      end
                  end
         | None => Err ("issuerRef " +:+ ref +:+ " is not a CA Certificate spec")
         end
  else Ok None.

(** Why a certificate is issued again. *)
Inductive drift :=
| Missing | KeyMissing | KeyMismatch | CommonNameDiffers | OrganizationsDiffer | IsCAChanged | DNSNamesDiffer
| IPAddressesDiffer | UsagesChanged | NotSigned | SelfSignature | ExpiresSoon.

Definition publicKeysEqual (p : option pub) (q : pub) : bool := match p with Some p => PubEqual p q | None => false end.

Definition certDrift (now : Z) (files : gmap string string) (s : spec) (issuer : option (certificate pub)) : option drift :=
  match loadCert files (path (k_name s) ".crt") with
  | None => Some Missing
  | Some cert =>
      match loadKey files (path (k_name s) ".key") with
      | None => Some KeyMissing
      | Some k =>
          if negb (publicKeysEqual (x_PublicKey cert) (Public k)) then Some KeyMismatch
          else if bool_decide (x_CommonName cert <> k_CommonName s) then Some CommonNameDiffers
          else if negb (stringSetEqual (x_Organization cert) (k_Organizations s)) then Some OrganizationsDiffer
          else if bool_decide (x_IsCA cert <> k_IsCA s) then Some IsCAChanged
          else if negb (stringSetEqual (x_DNSNames cert) (k_DNSNames s)) then Some DNSNamesDiffer
          else if negb (stringSetEqual (x_IPAddresses cert) (omap ParseIP (k_IPAddresses s))) then Some IPAddressesDiffer
          else if negb (extKeyUsagesEqual (x_ExtKeyUsage cert) s) then Some UsagesChanged
          else if negb (CheckSignatureFrom cert (default cert issuer)) then Some (match issuer with Some _ => NotSigned | None => SelfSignature end)
          else if bool_decide (x_NotAfter cert - now < thirty_days)%Z then Some ExpiresSoon
          else None
      end
  end.

Fixpoint parse_ips (l : list string) : result string (list string) :=
  match l with
  | [] => Ok []
  | ip :: l' => match ParseIP ip with Some p => ps ← parse_ips l'; Ok (p :: ps) | None => Err ("bad ipAddress " +:+ ip) end
  end.

Definition certTemplate (now : Z) (s : spec) : result string (certificate pub) :=
  d ← (if bool_decide (k_Duration s = "") then Ok (10 * 365 * 24 * hour)%Z
       else match ParseDuration (k_Duration s) with Some d => Ok d | None => Err "duration" end);
  ips ← parse_ips (k_IPAddresses s);
  Ok (Certificate (k_CommonName s) (k_Organizations s) (k_IsCA s) (k_IsCA s) (k_DNSNames s) ips (wantExtKeyUsages s) (now + d)%Z None).

(** The existing key, or a new one. *)
Definition certificate_key (files : gmap string string) (keyPath : string) : pkiM key :=
  match loadKey files keyPath with
  | Some k => mret k
  | None => generateKey "ecdsa-p256" ≫= fun k => WriteFile keyPath (MarshalKey k) ≫= fun _ => mret k
  end.

Definition reconcileCertificate (now : Z) (s : spec) : pkiM () :=
  st_get p_files ≫= fun files =>
  st_lift (issuer_of files s) ≫= fun issuer =>
  match certDrift now files s (fst <$> issuer) with
  | None => mret ()
  | Some _ =>
      certificate_key files (path (k_name s) ".key") ≫= fun k =>
      st_lift (certTemplate now s) ≫= fun tmpl =>
      let '(parent, signer) := default (tmpl, k) issuer in
      fresh ≫= fun r =>
      st_lift (CreateCert tmpl parent (Public k) signer r) ≫= fun crt =>
      WriteFile (path (k_name s) ".crt") crt
  end.

(** *** Kubeconfigs *)

Definition kubeconfig_text (ca server name user crt k : string) : string :=
  "apiVersion: v1
kind: Config
clusters:
- name: kube-on-macos
  cluster:
    certificate-authority-data: " +:+ ca +:+ "
    server: " +:+ server +:+ "
contexts:
- name: " +:+ name +:+ "
  context:
    cluster: kube-on-macos
    user: " +:+ user +:+ "
current-context: " +:+ name +:+ "
users:
- name: " +:+ user +:+ "
  user:
    client-certificate-data: " +:+ crt +:+ "
    client-key-data: " +:+ k +:+ "
".

Definition ReadFile (files : gmap string string) (p : string) : result string string :=
  match files !! p with Some c => Ok c | None => Err ("open " +:+ p) end.

Definition kubeconfig (files : gmap string string) (s : spec) : result string string :=
  if bool_decide (k_Server s = "" \/ k_CARef s = "" \/ k_ClientRef s = "") then
    Err "kubeconfig needs server, certificateAuthorityRef, clientCertificateRef"
  else
    ca ← ReadFile files (path (k_CARef s) ".crt");
    crt ← ReadFile files (path (k_ClientRef s) ".crt");
    k ← ReadFile files (path (k_ClientRef s) ".key");
    match ParseCert crt with
    | Some cert => Ok (kubeconfig_text (Base64 ca) (k_Server s) (Base (k_name s)) (x_CommonName cert) (Base64 crt) (Base64 k))
    | None => Err ("parsing " +:+ path (k_ClientRef s) ".crt")
    end.

Definition reconcileKubeconfig (s : spec) : pkiM () :=
  st_get p_files ≫= fun files =>
  st_lift (kubeconfig files s) ≫= fun content =>
  let out := path (k_name s) ".kubeconfig" in
  if bool_decide (files !! out = Some content) then mret () else WriteFile out content.

(** *** [main] *)

Definition reconcile (now : Z) (s : spec) : pkiM () :=
  if bool_decide (k_Kind s = "KeyPair") then reconcileKeyPair s
  else if bool_decide (k_Kind s = "Certificate") then reconcileCertificate now s
  else if bool_decide (k_Kind s = "Kubeconfig") then reconcileKubeconfig s
  else mret ().

(** The specs in the order of the passes. *)
Definition ordered : list spec :=
  filter (fun s => k_Kind s = "KeyPair") specs ++
  filter (fun s => k_Kind s = "Certificate" /\ k_IsCA s = true) specs ++
  filter (fun s => k_Kind s = "Certificate" /\ k_IsCA s = false) specs ++
  filter (fun s => k_Kind s = "Kubeconfig") specs.

Fixpoint reconcile_all (now : Z) (l : list spec) : pkiM () :=
  match l with [] => mret () | s :: l' => reconcile now s ≫= fun _ => reconcile_all now l' end.

Definition run (now : Z) : pkiM () :=
  if bool_decide (specs = []) then st_fail "no pki specs found" else reconcile_all now ordered.
End Reconcile.

(** ** Comparisons as sets *)

Lemma forallb_zip_eq (l k : list string) :
  length l = length k -> forallb (fun p : string * string => bool_decide (p.1 = p.2)) (zip l k) = bool_decide (l = k).
Proof.
  revert k. induction l as [|x l IH]; intros [|y k] Hl; try done. cbn [zip zip_with forallb fst snd]. rewrite IH by (cbn in Hl; lia).
  repeat case_bool_decide; naive_solver.
Qed.

Lemma stringSetEqual_spec a b : stringSetEqual a b = true <-> a ≡ₚ b.
Proof.
  unfold stringSetEqual. rewrite andb_true_iff, bool_decide_eq_true. split.
  - intros [Hl H]. rewrite forallb_zip_eq in H by (by rewrite !merge_sort_Permutation).
    apply bool_decide_eq_true in H. by apply sorted_perm_eq.
  - intros Hp. split; [by rewrite Hp|]. rewrite forallb_zip_eq by (by rewrite !merge_sort_Permutation, Hp).
    apply bool_decide_eq_true. by apply sorted_perm_eq.
Qed.

Lemma extKeyUsagesEqual_spec have s :
  extKeyUsagesEqual have s = true <->
  length have = length (wantExtKeyUsages s) /\ forall u, u ∈ wantExtKeyUsages s -> u ∈ have.
Proof.
  unfold extKeyUsagesEqual. cbn zeta. rewrite andb_true_iff, bool_decide_eq_true, forallb_forall. split; intros [Hl H]; (split; [done|]).
  - intros u Hu%list_elem_of_In. by apply H, bool_decide_eq_true in Hu.
  - intros u Hu. apply bool_decide_eq_true, H. by apply list_elem_of_In.
Qed.

(** ** What the cryptography promises *)

Class CryptoLaws `{Crypto} := {
  PubEqual_refl p : PubEqual p p = true;
  ParseKey_MarshalKey k : ParseKey (MarshalKey k) = Some k;
  (* a certificate has its template's fields; a set may be reordered *)
  CreateCert_parse t p pb sg r crt : CreateCert t p pb sg r = Ok crt ->
    exists c, ParseCert crt = Some c /\ x_CommonName c = x_CommonName t /\ x_Organization c ≡ₚ x_Organization t /\
      x_IsCA c = x_IsCA t /\ x_CertSign c = x_CertSign t /\ x_DNSNames c = x_DNSNames t /\ x_IPAddresses c = x_IPAddresses t /\
      x_ExtKeyUsage c = x_ExtKeyUsage t /\ x_PublicKey c = Some pb;
  (* a parent that may sign has signed it: another signer is refused *)
  CreateCert_signed t p pb sg r crt c : CreateCert t p pb sg r = Ok crt -> ParseCert crt = Some c ->
    x_IsCA p = true -> x_CertSign p = true -> is_Some (x_PublicKey p) -> CheckSignatureFrom c p = true;
  CreateCert_self t sg r crt c : CreateCert t t (Public sg) sg r = Ok crt -> ParseCert crt = Some c ->
    x_IsCA t = true -> x_CertSign t = true -> CheckSignatureFrom c c = true
}.

Section Proofs.
Context `{CryptoLaws} (root : string) (specs : list spec) (write_err : list string -> string -> option string).
Notation files := (gmap string string).
Notation path := (path root).
Notation find := (find specs).
Notation issuer_of := (issuer_of root specs).
Notation certDrift := (certDrift root).
Notation kubeconfig := (kubeconfig root).
Notation reconcile := (reconcile root specs write_err).
Notation reconcile_all := (reconcile_all root specs write_err).
Notation run := (run root specs write_err).
Notation ordered := (ordered specs).

(** The files match the spec. *)
Definition cert_matches (f : files) (s : spec) (issuer : option (certificate pub)) (cert : certificate pub) (k : key) : Prop :=
  loadCert f (path (k_name s) ".crt") = Some cert /\ loadKey f (path (k_name s) ".key") = Some k /\
  publicKeysEqual (x_PublicKey cert) (Public k) = true /\
  x_CommonName cert = k_CommonName s /\ x_Organization cert ≡ₚ k_Organizations s /\ x_IsCA cert = k_IsCA s /\
  x_DNSNames cert ≡ₚ k_DNSNames s /\ x_IPAddresses cert ≡ₚ omap ParseIP (k_IPAddresses s) /\
  (length (x_ExtKeyUsage cert) = length (wantExtKeyUsages s) /\ forall u, u ∈ wantExtKeyUsages s -> u ∈ x_ExtKeyUsage cert) /\
  CheckSignatureFrom cert (default cert issuer) = true.

Lemma certDrift_None now f s issuer :
  certDrift now f s issuer = None <->
  exists cert k, cert_matches f s issuer cert k /\ (thirty_days <= x_NotAfter cert - now)%Z.
Proof.
  unfold Pki.certDrift, cert_matches. setoid_rewrite <-extKeyUsagesEqual_spec. setoid_rewrite <-stringSetEqual_spec.
  destruct (loadCert f _) as [cert|]; [|split; [done|by intros (? & ? & (? & _) & _)]].
  destruct (loadKey f _) as [k|]; [|split; [done|by intros (? & ? & (_ & ? & _) & _)]].
  repeat match goal with |- context [if negb ?b then _ else _] => destruct b eqn:?; cbn [negb]; [|split; [done|intros (? & ? & ([= <-] & [= <-] & Hm) & _); destruct_and!; congruence]]
    | |- context [if bool_decide (?x <> ?y) then _ else _] => case_bool_decide; [split; [done|intros (? & ? & ([= <-] & [= <-] & Hm) & _); destruct_and!; congruence]|] end.
  case_bool_decide as Ht.
  - split; [done|]. intros (c' & k' & ([= <-] & [= <-] & _) & Hc). lia.
  - split; [|done]. intros _. exists cert, k. split; [|lia]. split_and!; try done; by apply dec_stable.
Qed.

(** *** Nothing left to do *)

Definition done_keypair (f : files) (s : spec) : Prop :=
  exists k, loadKey f (path (k_name s) ".key") = Some k /\ f !! path (k_name s) ".pub" = Some (MarshalPublic k).
Definition done_certificate (now : Z) (f : files) (s : spec) : Prop :=
  exists issuer, issuer_of f s = Ok issuer /\ certDrift now f s (fst <$> issuer) = None.
Definition done_kubeconfig (f : files) (s : spec) : Prop :=
  exists c, kubeconfig f s = Ok c /\ f !! path (k_name s) ".kubeconfig" = Some c.

Definition done (now : Z) (f : files) (s : spec) : Prop :=
  if bool_decide (k_Kind s = "KeyPair") then done_keypair f s
  else if bool_decide (k_Kind s = "Certificate") then done_certificate now f s
  else if bool_decide (k_Kind s = "Kubeconfig") then done_kubeconfig f s
  else True.

Lemma done_noop now s st : done now (p_files st) s -> reconcile now s st = (st, Ok ()).
Proof.
  unfold done, Pki.reconcile. repeat case_bool_decide; [..|done].
  - intros (k & Hk & Hp). unfold reconcileKeyPair, mbind, stM_bind, st_get. cbn. rewrite Hk, bool_decide_true by done. done.
  - intros (i & Hi & Hd). unfold reconcileCertificate, mbind, stM_bind, st_get, st_lift. cbn. rewrite Hi. cbn. by rewrite Hd.
  - intros (c & Hc & Ho). unfold reconcileKubeconfig, mbind, stM_bind, st_get, st_lift. cbn. rewrite Hc. cbn. by rewrite bool_decide_true.
Qed.

(** *** What a spec reads and writes *)

Definition owned (s : spec) : list string :=
  if bool_decide (k_Kind s = "KeyPair") then [path (k_name s) ".key"; path (k_name s) ".pub"]
  else if bool_decide (k_Kind s = "Certificate") then [path (k_name s) ".key"; path (k_name s) ".crt"]
  else [path (k_name s) ".kubeconfig"].

Definition refs (s : spec) : list string :=
  if bool_decide (k_Kind s = "Certificate") then [path (k_IssuerRef s) ".crt"; path (k_IssuerRef s) ".key"]
  else if bool_decide (k_Kind s = "Kubeconfig") then
    [path (k_CARef s) ".crt"; path (k_ClientRef s) ".crt"; path (k_ClientRef s) ".key"]
  else [].

Definition agree (ps : list string) (f g : files) : Prop := forall p, p ∈ ps -> f !! p = g !! p.

Lemma agree_load {A} (parse : string -> option A) ps f g p : agree ps f g -> p ∈ ps -> (f !! p ≫= parse) = (g !! p ≫= parse).
Proof. intros Ha Hp. by rewrite (Ha p Hp). Qed.

Lemma issuer_of_agree f g s : agree [path (k_IssuerRef s) ".crt"; path (k_IssuerRef s) ".key"] f g -> issuer_of f s = issuer_of g s.
Proof.
  intros Ha. unfold Pki.issuer_of, loadCert, loadKey. rewrite !(agree_load _ _ f g _ Ha) by set_solver. done.
Qed.

Lemma certDrift_agree now f g s i :
  agree [path (k_name s) ".key"; path (k_name s) ".crt"] f g -> certDrift now f s i = certDrift now g s i.
Proof. intros Ha. unfold Pki.certDrift, loadCert, loadKey. by rewrite !(agree_load _ _ f g _ Ha) by set_solver. Qed.

Lemma done_agree now f g s : agree (owned s ++ refs s) f g -> done now f s -> done now g s.
Proof.
  unfold done, owned, refs. repeat case_bool_decide; try congruence; try done; intros Ha.
  - intros (k & Hk & Hp). exists k. unfold loadKey in *. rewrite <-!Ha by set_solver. done.
  - intros (i & Hi & Hd). exists i. rewrite <-(issuer_of_agree f g), <-(certDrift_agree now f g); [done|..]; intros p Hp; apply Ha; set_solver.
  - intros (c & Hc & Ho). exists c. rewrite <-Ha by set_solver. split; [|done]. rewrite <-Hc. unfold Pki.kubeconfig, ReadFile.
    rewrite <-!Ha by set_solver. done.
Qed.

(** Only the files [ps] change. *)
Definition touches {A} (ps : list string) (m : stM pki string A) : Prop :=
  forall st st' r, m st = (st', r) -> forall p, p ∉ ps -> p_files st' !! p = p_files st !! p.

Lemma touches_bind {A B} ps (m : stM pki string A) (f : A -> stM pki string B) :
  touches ps m -> (forall a, touches ps (f a)) -> touches ps (m ≫= f).
Proof.
  intros Hm Hf st st' r. unfold mbind, stM_bind. destruct (m st) as [st1 [a|e|c]] eqn:E; [|intros [= <- <-]; by apply Hm in E..].
  intros E' p Hp. rewrite (Hf a _ _ _ E' p Hp). by apply (Hm _ _ _ E).
Qed.
Lemma touches_none {A} ps (m : stM pki string A) : (forall st, p_files (m st).1 = p_files st) -> touches ps m.
Proof. intros Hm st st' r E p _. specialize (Hm st). rewrite E in Hm. cbn in Hm. by rewrite Hm. Qed.
Lemma touches_write ps q c : q ∈ ps -> touches ps (WriteFile write_err q c).
Proof.
  intros Hq st st' r E p Hp. unfold WriteFile in E. destruct (write_err _ _); injection E as <- <-; [done|].
  cbn. apply lookup_insert_ne. intros ->. done.
Qed.
Lemma touches_generate ps a : touches ps (generateKey a).
Proof. apply touches_none. intros st. unfold generateKey. cbn zeta. by repeat case_bool_decide. Qed.
Hint Resolve touches_generate : core.

Ltac touch := repeat first
  [ apply touches_bind; [|intros ?] | apply touches_write; set_solver | apply touches_generate
  | by apply touches_none | case_match | progress cbn zeta ].

Lemma reconcile_frame now s : touches (owned s) (reconcile now s).
Proof.
  unfold Pki.reconcile, owned. repeat case_bool_decide; try congruence.
  - unfold reconcileKeyPair. touch.
  - unfold reconcileCertificate, certificate_key. touch.
  - unfold reconcileKubeconfig. touch.
  - by apply touches_none.
Qed.

Lemma reconcile_all_frame now l : touches (concat (owned <$> l)) (reconcile_all now l).
Proof.
  induction l as [|s l IH]; cbn [Pki.reconcile_all]; [by apply touches_none|]. apply touches_bind; [|intros _].
  - intros st st' r E p Hp. apply (reconcile_frame now s _ _ _ E). set_solver.
  - intros st st' r E p Hp. apply (IH _ _ _ E). set_solver.
Qed.

(** *** What a successful reconciliation leaves *)

Lemma write_ok q c st st' u : WriteFile write_err q c st = (st', Ok u) -> p_files st' = <[q := c]> (p_files st).
Proof. unfold WriteFile. destruct (write_err _ _); [done|]. by intros [= <-]. Qed.

Lemma generate_ok a st st' k : generateKey a st = (st', Ok k) -> p_files st' = p_files st.
Proof. unfold generateKey. cbn zeta. repeat case_bool_decide; [..|done]; by intros [= <- <-]. Qed.

Lemma loadKey_written k q f : loadKey (<[q := MarshalKey k]> f) q = Some k.
Proof. unfold loadKey. rewrite lookup_insert_eq. cbn. apply ParseKey_MarshalKey. Qed.

Lemma keypair_done s st st' u :
  path (k_name s) ".key" <> path (k_name s) ".pub" ->
  reconcileKeyPair root write_err s st = (st', Ok u) -> done_keypair (p_files st') s.
Proof.
  intros Hne. unfold reconcileKeyPair. intros E. apply st_bind_ok in E as (st1 & f & [-> ->]%st_get_ok & E).
  destruct (loadKey (p_files st) _) as [k|] eqn:Hk.
  - case_bool_decide as Hp; [apply st_ret_ok in E as [-> _]; by exists k|]. apply write_ok in E. exists k. rewrite E, lookup_insert_eq.
    split; [|done]. unfold loadKey in *. by rewrite lookup_insert_ne.
  - apply st_bind_ok in E as (st2 & k & Hg & E). apply st_bind_ok in E as (st3 & u' & Hw & E). apply write_ok in Hw, E.
    exists k. rewrite E, lookup_insert_eq. split; [|done]. unfold loadKey. rewrite lookup_insert_ne by done. rewrite Hw. apply loadKey_written.
Qed.

Lemma kubeconfig_done s st st' u :
  Forall (.∉ [path (k_name s) ".kubeconfig"]) [path (k_CARef s) ".crt"; path (k_ClientRef s) ".crt"; path (k_ClientRef s) ".key"] ->
  reconcileKubeconfig root write_err s st = (st', Ok u) -> done_kubeconfig (p_files st') s.
Proof.
  intros Hne. unfold reconcileKubeconfig. intros E. apply st_bind_ok in E as (st1 & f & [-> ->]%st_get_ok & E).
  apply st_bind_ok in E as (st1 & c & [-> Hc]%st_lift_ok & E). case_bool_decide as Ho; [apply st_ret_ok in E as [-> _]; by exists c|].
  apply write_ok in E. exists c. rewrite E, lookup_insert_eq. split; [|done]. rewrite <-Hc. rewrite !Forall_cons in Hne.
  unfold Pki.kubeconfig, ReadFile. rewrite !lookup_insert_ne by set_solver. done.
Qed.

Lemma parse_ips_ok l ps : parse_ips l = Ok ps -> ps = omap ParseIP l.
Proof.
  revert ps. induction l as [|ip l IH]; intros ps; cbn; [by intros [= <-]|]. destruct (ParseIP ip) as [p|]; [|done].
  intros Hps. ok_inv Hps. injection Hps as <-. by rewrite (IH _ Hc).
Qed.

Lemma certTemplate_ok now s t : certTemplate now s = Ok t ->
  x_CommonName t = k_CommonName s /\ x_Organization t = k_Organizations s /\ x_IsCA t = k_IsCA s /\ x_CertSign t = k_IsCA s /\
  x_DNSNames t = k_DNSNames s /\ x_IPAddresses t = omap ParseIP (k_IPAddresses s) /\ x_ExtKeyUsage t = wantExtKeyUsages s.
Proof. unfold certTemplate. intros E. ok_inv E. injection E as <-. apply parse_ips_ok in Hc0 as ->. done. Qed.

(** A certificate that may sign if it is a CA's. *)
Definition can_sign (f : files) (s : spec) : Prop :=
  k_Kind s = "Certificate" -> k_IsCA s = true -> forall c, loadCert f (path (k_name s) ".crt") = Some c -> x_CertSign c = true.

(** The issuer's own certificate is in order. *)
Definition issuer_good (issuer : option (certificate pub * key)) : Prop :=
  forall c k, issuer = Some (c, k) -> x_IsCA c = true /\ x_CertSign c = true /\ is_Some (x_PublicKey c).

Lemma certificate_key_ok f q st st' k :
  f = p_files st -> certificate_key write_err f q st = (st', Ok k) ->
  loadKey (p_files st') q = Some k /\ forall p, p <> q -> p_files st' !! p = p_files st !! p.
Proof.
  intros -> E. unfold certificate_key in E. destruct (loadKey (p_files st) q) as [k'|] eqn:Hk.
  - apply st_ret_ok in E as [-> ->]. done.
  - apply st_bind_ok in E as (st1 & k' & Hg%generate_ok & E). apply st_bind_ok in E as (st2 & u & Hw%write_ok & E).
    apply st_ret_ok in E as [-> ->]. rewrite Hw, Hg. split; [apply loadKey_written|]. intros p Hp. by apply lookup_insert_ne.
Qed.

Lemma certificate_done now s st st' u :
  path (k_name s) ".key" <> path (k_name s) ".crt" ->
  reconcileCertificate root specs write_err now s st = (st', Ok u) ->
  exists issuer, issuer_of (p_files st) s = Ok issuer /\
    (issuer_good issuer -> (issuer = None -> k_IsCA s = true) ->
     exists cert k, cert_matches (p_files st') s (fst <$> issuer) cert k /\ (st' = st \/ x_CertSign cert = k_IsCA s)).
Proof.
  intros Hne E. unfold reconcileCertificate in E. apply st_bind_ok in E as (st1 & f & [-> ->]%st_get_ok & E).
  apply st_bind_ok in E as (st1 & issuer & [-> Hi]%st_lift_ok & E). exists issuer. split; [done|]. intros Hgood Hself.
  destruct (certDrift now (p_files st) s (fst <$> issuer)) as [d|] eqn:Hd.
  2: { apply st_ret_ok in E as [-> _]. apply certDrift_None in Hd as (c & k & Hm & _). exists c, k. split; [done|by left]. }
  apply st_bind_ok in E as (st1 & k & Hk & E). apply st_bind_ok in E as (st2 & t & [-> Ht]%st_lift_ok & E).
  destruct (certificate_key_ok _ _ _ _ _ eq_refl Hk) as [Hload _]. apply certTemplate_ok in Ht as (H1 & H2 & H3 & H4 & H5 & H6 & H7).
  destruct (default (t, k) issuer) as [parent signer] eqn:Hp. apply st_bind_ok in E as (st2 & r & [= <- <-] & E).
  apply st_bind_ok in E as (st2 & crt & [-> Hc]%st_lift_ok & E). apply write_ok in E. cbn [p_files] in E.
  destruct (CreateCert_parse _ _ _ _ _ _ Hc) as (cert & Hparse & P1 & P2 & P3 & P4 & P5 & P6 & P7 & P8).
  exists cert, k. split; [|right; congruence]. unfold cert_matches, loadCert, loadKey. rewrite E, lookup_insert_eq, lookup_insert_ne by done.
  assert (CheckSignatureFrom cert (default cert (fst <$> issuer)) = true) as Hs.
  { destruct issuer as [[ic ik]|]; cbn in *; injection Hp as <- <-.
    - destruct (Hgood ic ik eq_refl) as (G1 & G2 & G3). by eapply CreateCert_signed.
    - assert (k_IsCA s = true) by auto. eapply CreateCert_self; [exact Hc|done|congruence..]. }
  rewrite P1, P2, P3, P5, P6, P7, P8, H1, H2, H3, H5, H6, H7. split_and!; try done. apply PubEqual_refl.
Qed.

(** *** A whole run *)

(** No file of [ps] is written by [t]. *)
Definition clear_of (ps : list string) (t : spec) : Prop := Forall (fun p => p ∉ ps) (owned t).

(** Each spec has files of its own, and its references come before it. *)
Fixpoint well_ordered (l : list spec) : Prop :=
  match l with
  | [] => True
  | s :: l' =>
      NoDup (owned s) /\ clear_of (refs s) s /\ Forall (clear_of (owned s ++ refs s)) l' /\ well_ordered l'
  end.

Lemma well_ordered_mid pre s l :
  well_ordered (pre ++ s :: l) ->
  NoDup (owned s) /\ clear_of (refs s) s /\ Forall (fun t => clear_of (owned t ++ refs t) s) pre /\
  Forall (clear_of (owned s ++ refs s)) l.
Proof.
  induction pre as [|t pre IH]; cbn [app well_ordered]; [naive_solver|]. intros (_ & _ & Hl & Hw). destruct (IH Hw) as (H1 & H2 & H3 & H4).
  split_and!; [done|done| |done]. constructor; [|done]. apply Forall_app in Hl as [_ Hl]. by apply Forall_cons in Hl as [Hl _].
Qed.

Lemma agree_frame ps t f g : clear_of ps t -> (forall p, p ∉ owned t -> g !! p = f !! p) -> agree ps f g.
Proof.
  intros Hc Hf p Hp. symmetry. apply Hf. intros Ho. unfold clear_of in Hc. rewrite Forall_forall in Hc. by apply (Hc p Ho).
Qed.

Lemma agree_frames ps l f g :
  Forall (clear_of ps) l -> (forall p, p ∉ concat (owned <$> l) -> g !! p = f !! p) -> agree ps f g.
Proof.
  intros Hc Hf p Hp. symmetry. apply Hf. intros Ho. apply list_elem_of_In, in_concat in Ho as (o & Hin & Hpo).
  apply list_elem_of_In, list_elem_of_fmap in Hin as (t & -> & Ht). rewrite Forall_forall in Hc. specialize (Hc t Ht).
  unfold clear_of in Hc. rewrite Forall_forall in Hc. by apply (Hc p); [apply list_elem_of_In|].
Qed.

Lemma ordered_elem s : s ∈ specs -> k_Kind s = "Certificate" -> s ∈ ordered.
Proof.
  intros Hs Hk. unfold Pki.ordered. rewrite !elem_of_app, !list_elem_of_filter. destruct (k_IsCA s) eqn:?; naive_solver.
Qed.

Lemma crt_owned s : k_Kind s = "Certificate" -> owned s = [path (k_name s) ".key"; path (k_name s) ".crt"].
Proof. intros E. unfold owned. by rewrite E. Qed.

Lemma crt_refs s : k_Kind s = "Certificate" -> refs s = [path (k_IssuerRef s) ".crt"; path (k_IssuerRef s) ".key"].
Proof. intros E. unfold refs. by rewrite E. Qed.

Lemma key_owned s : k_Kind s = "KeyPair" -> owned s = [path (k_name s) ".key"; path (k_name s) ".pub"].
Proof. intros E. unfold owned. by rewrite E. Qed.
Lemma kc_owned s : k_Kind s = "Kubeconfig" -> owned s = [path (k_name s) ".kubeconfig"].
Proof. intros E. unfold owned. by rewrite E. Qed.
Lemma kc_refs s : k_Kind s = "Kubeconfig" -> refs s = [path (k_CARef s) ".crt"; path (k_ClientRef s) ".crt"; path (k_ClientRef s) ".key"].
Proof. intros E. unfold refs. by rewrite E. Qed.

(** The issuer of a certificate is a CA spec that comes before it. *)
Lemma issuer_good_of pre s l f now issuer :
  well_ordered (pre ++ s :: l) -> pre ++ s :: l = ordered -> k_Kind s = "Certificate" ->
  Forall (done now f) pre -> Forall (can_sign f) pre -> issuer_of f s = Ok issuer ->
  issuer_good issuer /\ (issuer = None -> k_IsCA s = true).
Proof.
  intros Hw Ho Hk Hd Hs. destruct (well_ordered_mid _ _ _ Hw) as (_ & Hself & _ & Hlate). unfold Pki.issuer_of.
  rewrite crt_refs in Hself, Hlate by done.
  destruct (negb (k_IsCA s) || _) eqn:E; cbn zeta.
  2: { intros [= <-]. split; [by intros c k|]. intros _. by destruct (k_IsCA s). }
  destruct (decide (k_IssuerRef s = "")) as [Hr|Hr]; [by rewrite (bool_decide_true (k_IssuerRef s = ""))|].
  rewrite (bool_decide_false (k_IssuerRef s = "")) by done. destruct (find (k_IssuerRef s)) as [i|] eqn:Hf; [|done]. unfold Pki.find in Hf.
  apply fmap_Some in Hf as ([n i'] & Hf & ->). apply list_find_Some in Hf as (Hl & Hname & _). cbn [snd].
  destruct (bool_decide _ || _) eqn:Hki; [done|]. apply orb_false_iff in Hki as [Hki%bool_decide_eq_false Hca%negb_false_iff].
  apply dec_stable in Hki. destruct (loadCert f _) as [c|] eqn:Hc; [|done]. destruct (loadKey f _) as [k|] eqn:Hkey; [|done].
  intros [= <-]. split; [|done]. intros c' k' [= <- <-].
  assert (i' ∈ pre) as Hin.
  { assert (i' ∈ pre ++ s :: l) as Hin by (rewrite Ho; apply ordered_elem; [by eapply list_elem_of_lookup_2|done]).
    assert (path (k_IssuerRef s) ".crt" ∈ owned i') as Hown by (rewrite crt_owned, Hname by done; set_solver).
    apply elem_of_app in Hin as [Hin|Hin]; [done|exfalso]. apply elem_of_cons in Hin as [->|Hin].
    - unfold clear_of in Hself. rewrite Forall_forall in Hself. apply (Hself _ Hown). set_solver.
    - rewrite Forall_forall in Hlate. specialize (Hlate i' Hin). unfold clear_of in Hlate. rewrite Forall_forall in Hlate. apply (Hlate _ Hown). set_solver. }
  rewrite Forall_forall in Hd, Hs. specialize (Hd i' Hin). specialize (Hs i' Hin). unfold done in Hd.
  rewrite Hki, bool_decide_false, bool_decide_true in Hd by done. destruct Hd as (ii & _ & Hd).
  apply certDrift_None in Hd as (c2 & k2 & (Hc2 & _ & Hpk & _ & _ & Hisca & _) & _). rewrite Hname, Hc in Hc2. injection Hc2 as <-.
  split_and!; [congruence|by apply Hs; [..|rewrite Hname]|]. unfold publicKeysEqual in Hpk. by destruct (x_PublicKey c).
Qed.

(** One spec of the order. *)
Lemma reconcile_done now now' pre s l st st1 u :
  well_ordered (pre ++ s :: l) -> pre ++ s :: l = ordered ->
  Forall (done now' (p_files st)) pre -> Forall (can_sign (p_files st)) (pre ++ s :: l) ->
  reconcile now s st = (st1, Ok u) ->
  (k_Kind s = "Certificate" -> forall c, loadCert (p_files st1) (path (k_name s) ".crt") = Some c -> (thirty_days <= x_NotAfter c - now')%Z) ->
  done now' (p_files st1) s /\ can_sign (p_files st1) s.
Proof.
  intros Hw Ho Hd Hs E Hfresh. destruct (well_ordered_mid _ _ _ Hw) as (Hnd & Hself & _ & _).
  pose proof (reconcile_frame now s _ _ _ E) as Hframe. unfold Pki.reconcile in E. unfold done at 1.
  destruct (decide (k_Kind s = "KeyPair")) as [Hk|Hk]; [|destruct (decide (k_Kind s = "Certificate")) as [Hc|Hc]].
  - rewrite bool_decide_true in * by done. rewrite key_owned in Hnd by done. split; [|intros Hk'; congruence].
    eapply keypair_done; [|exact E]. apply NoDup_cons in Hnd as [Hnd _]. set_solver.
  - rewrite bool_decide_false, bool_decide_true in * by done. rewrite crt_owned in Hnd by done.
    assert (path (k_name s) ".key" <> path (k_name s) ".crt") as Hne by (apply NoDup_cons in Hnd as [Hnd _]; set_solver).
    destruct (certificate_done _ _ _ _ _ Hne E) as (issuer & Hi & Hm). apply Forall_app in Hs as [Hs1 Hs2].
    destruct (issuer_good_of _ _ _ _ _ _ Hw Ho Hc Hd Hs1 Hi) as [Hg Hn]. destruct (Hm Hg Hn) as (cert & k & Hcm & Hsign).
    pose proof Hcm as (Hload & _). split.
    + exists issuer. split; [|apply certDrift_None; exists cert, k; split; [done|by apply Hfresh]].
      rewrite <-Hi. symmetry. apply issuer_of_agree. rewrite <-crt_refs by done. by apply (agree_frame _ s).
    + intros _ Hca c Hc'. destruct Hsign as [->|Hsign]; [apply Forall_cons in Hs2 as [Hs2 _]; by apply Hs2|congruence].
  - rewrite (bool_decide_false (k_Kind s = "KeyPair")), (bool_decide_false (k_Kind s = "Certificate")) in * by done.
    split; [|intros Hk'; congruence]. case_bool_decide as Hkc; [|done]. eapply kubeconfig_done; [|exact E]. unfold clear_of in Hself.
    rewrite kc_owned, kc_refs, Forall_singleton in Hself by done. apply Forall_forall. intros p Hp Hq%list_elem_of_singleton. by subst.
Qed.

Lemma can_sign_agree f g s : (k_Kind s = "Certificate" -> g !! path (k_name s) ".crt" = f !! path (k_name s) ".crt") -> can_sign f s -> can_sign g s.
Proof. intros Ha Hs Hk Hca c. unfold loadCert. rewrite (Ha Hk). by apply Hs. Qed.

(** No certificate is within 30 days of its end. *)
Definition lasting_one (now : Z) (f : files) (s : spec) : Prop :=
  match loadCert f (path (k_name s) ".crt") with
  | Some c => k_Kind s = "Certificate" -> (thirty_days <= x_NotAfter c - now)%Z
  | None => True
  end.
Definition lasting (now : Z) (f : files) (l : list spec) : Prop := Forall (lasting_one now f) l.
#[export] Instance lasting_dec now f l : Decision (lasting now f l).
Proof.
  unfold lasting. apply Forall_dec. intros s. unfold lasting_one. destruct (loadCert _ _); apply _.
Defined.
#[export] Instance well_ordered_dec l : Decision (well_ordered l).
Proof. induction l; cbn [well_ordered]; unfold clear_of; apply _. Defined.

Lemma reconcile_all_done now now' l : forall pre st st' u,
  well_ordered (pre ++ l) -> pre ++ l = ordered ->
  Forall (done now' (p_files st)) pre -> Forall (can_sign (p_files st)) (pre ++ l) ->
  reconcile_all now l st = (st', Ok u) -> lasting now' (p_files st') (pre ++ l) ->
  Forall (done now' (p_files st')) (pre ++ l).
Proof.
  induction l as [|s l IH]; intros pre st st' u Hw Ho Hd Hs E Hlast; cbn [Pki.reconcile_all] in E.
  { apply st_ret_ok in E as [-> _]. by rewrite app_nil_r. }
  apply st_bind_ok in E as (st1 & [] & E1 & E2). destruct (well_ordered_mid _ _ _ Hw) as (_ & _ & Hpre & Hl).
  pose proof (reconcile_frame now s _ _ _ E1) as Hf1. pose proof (reconcile_all_frame now l _ _ _ E2) as Hf2.
  destruct (reconcile_done now now' pre s l st st1 ()) as [Hds Hss]; try done.
  { intros Hk c Hc. unfold lasting in Hlast. rewrite Forall_forall in Hlast. specialize (Hlast s ltac:(set_solver)).
    unfold lasting_one, loadCert in *. rewrite <-(agree_frames (owned s ++ refs s) l (p_files st1)), Hc in Hlast;
      [by apply Hlast|done|done|]. rewrite crt_owned by done. set_solver. }
  rewrite cons_middle, app_assoc in Hw, Ho, Hs, Hlast |- *. apply (IH _ st1 st' u); [done|done| |..|done|done].
  - apply Forall_app. split; [|by constructor]. rewrite Forall_forall in Hd, Hpre |- *. intros t Ht.
    eapply done_agree; [|by apply Hd]. by apply (agree_frame _ s); [apply Hpre|].
  - rewrite <-app_assoc in Hs |- *. cbn [app] in *. apply Forall_app in Hs as [Hs1 Hs2]. apply Forall_cons in Hs2 as [_ Hs2].
    apply Forall_app. split; [|constructor; [done|]]; rewrite Forall_forall in *; intros t Ht; (eapply can_sign_agree; [|by auto]); intros Hk.
    + symmetry. apply (agree_frame _ s _ _ (Hpre t Ht)); [done|]. rewrite crt_owned by done. set_solver.
    + apply Hf1. intros Hin. specialize (Hl t Ht). unfold clear_of in Hl. rewrite Forall_forall in Hl.
      apply (Hl (path (k_name t) ".crt")); [rewrite crt_owned by done; set_solver|set_solver].
Qed.

Lemma reconcile_all_noop now l st : Forall (done now (p_files st)) l -> reconcile_all now l st = (st, Ok ()).
Proof.
  induction 1 as [|s l Hs _ IH]; [done|]. cbn [Pki.reconcile_all]. unfold mbind, stM_bind. by rewrite done_noop.
Qed.

(** C13 Reconciliation converges: when a run has succeeded, a second one, at
    any time at which no certificate is within 30 days of its end, writes
    nothing at all and uses no randomness: the PKI is byte-stable. That is so
    for specs whose order of passes ([ordered]) puts each, with files of its
    own, after those it refers to, and where the CA certificates found may
    sign. Neither is checked: a CA whose name sorts before its issuer's is
    made or issued again one run late ([issuer_after_its_ca]). *)
Theorem pki_is_stable now now' st st' :
  run now st = (st', Ok ()) -> well_ordered ordered -> Forall (can_sign (p_files st)) ordered ->
  lasting now' (p_files st') ordered -> run now' st' = (st', Ok ()).
Proof.
  unfold Pki.run. case_bool_decide; [done|]. intros E Hw Hs Hl. apply reconcile_all_noop.
  exact (reconcile_all_done now now' ordered [] st st' () Hw eq_refl (Forall_nil_2 _) Hs E Hl).
Qed.

(** A certificate is issued again exactly when its files do not match its
    spec: it is left alone if and only if the certificate and the key can be
    read and belong together, the common name and the CA flag are the spec's,
    the organisations, DNS names and addresses are the spec's up to order,
    the usages are as many and include the spec's, the issuer's signature (or
    its own) verifies, and it lasts 30 more days. *)
Theorem cert_drift_exact now f s issuer :
  certDrift now f s issuer = None <->
  exists cert k, loadCert f (path (k_name s) ".crt") = Some cert /\ loadKey f (path (k_name s) ".key") = Some k /\
    publicKeysEqual (x_PublicKey cert) (Public k) = true /\
    x_CommonName cert = k_CommonName s /\ x_Organization cert ≡ₚ k_Organizations s /\ x_IsCA cert = k_IsCA s /\
    x_DNSNames cert ≡ₚ k_DNSNames s /\ x_IPAddresses cert ≡ₚ omap ParseIP (k_IPAddresses s) /\
    length (x_ExtKeyUsage cert) = length (wantExtKeyUsages s) /\ (forall u, u ∈ wantExtKeyUsages s -> u ∈ x_ExtKeyUsage cert) /\
    CheckSignatureFrom cert (default cert issuer) = true /\ (thirty_days <= x_NotAfter cert - now)%Z.
Proof.
  rewrite certDrift_None. unfold cert_matches. split; intros (cert & k & Hm); exists cert, k; destruct_and!; by split_and!.
Qed.
End Proofs.

(** ** Witnesses *)

(** Keys are numbers, and certificates the names of known ones. *)
Definition toy_certs : list (string * certificate nat) :=
  [("CA", Certificate "kube" ["b"; "a"] true true [] [] [] (100 * thirty_days) (Some 1));
   ("API", Certificate "api" [] false false ["api.local"] ["::1"] [ServerAuth; ClientAuth] (100 * thirty_days) (Some 3))].

Definition set_pub (pb : nat) (t : certificate nat) (c : certificate nat) : certificate nat :=
  Certificate (x_CommonName t) (x_Organization c) (x_IsCA t) (x_CertSign t) (x_DNSNames t) (x_IPAddresses t) (x_ExtKeyUsage t)
    (x_NotAfter c) (Some pb).

#[export] Instance certificate_eq_dec : EqDecision (certificate nat).
Proof. solve_decision. Defined.

Definition toy_match (t : certificate nat) (pb : nat) (e : string * certificate nat) : Prop :=
  e.2 = set_pub pb t e.2 /\ x_Organization e.2 ≡ₚ x_Organization t.
#[export] Instance toy_match_dec t pb e : Decision (toy_match t pb e).
Proof. unfold toy_match. apply _. Defined.

Definition unary (n : nat) : string := string_of_bytes (replicate n 75%Z).

#[export] Instance toy_crypto : Crypto := {
  key := nat; pub := nat; Public := id; PubEqual p q := bool_decide (p = q);
  ParseKey s := if bool_decide (s = unary (String.length s)) then Some (String.length s) else None;
  MarshalKey := unary; MarshalPublic k := "public " +:+ unary k;
  ParseCert s := snd <$> head (filter (fun e => e.1 = s) toy_certs);
  CreateCert t p pb sg r := match filter (toy_match t pb) toy_certs with e :: _ => Ok e.1 | [] => Err "unknown" end;
  CheckSignatureFrom c p := x_IsCA p; GenRSA := id; GenECDSA := id;
  ParseIP := Some; ParseDuration _ := None; Base64 := id
}.

Lemma length_unary n : String.length (unary n) = n.
Proof. unfold unary. induction n; [done|]. cbn in *. by f_equal. Qed.

Lemma toy_create t p pb sg r crt :
  CreateCert t p pb sg r = Ok crt -> exists c, ParseCert crt = Some c /\ toy_match t pb (crt, c).
Proof.
  cbn [CreateCert ParseCert toy_crypto]. destruct (filter (toy_match t pb) toy_certs) as [|e l] eqn:E; [done|]. intros [= <-].
  assert (e ∈ filter (toy_match t pb) toy_certs) as Hin by (rewrite E; set_solver). apply list_elem_of_filter in Hin as [Hm Hin].
  exists e.2. split; [|by destruct e]. unfold toy_certs in *. repeat apply elem_of_cons in Hin as [->|Hin]; [done..|]. by apply elem_of_nil in Hin.
Qed.

#[export] Instance toy_laws : CryptoLaws.
Proof.
  split.
  - intros p. by apply bool_decide_eq_true.
  - intros k. cbn [ParseKey MarshalKey toy_crypto]. rewrite length_unary. by rewrite bool_decide_true.
  - intros t p pb sg r crt (c & Hp & Hm & Ho)%toy_create. exists c. cbn [snd] in *. split; [done|]. rewrite Hm. cbn. by split_and!.
  - intros t p pb sg r crt c _ _ Hp _ _. exact Hp.
  - intros t sg r crt c (c' & Hp & Hm & _)%toy_create Hc Hca _. rewrite Hc in Hp. injection Hp as ->. cbn in *. rewrite Hm. exact Hca.
Qed.

Definition ex_spec (kind : string) (ca : bool) (issuer name : string) : spec :=
  Spec kind ca issuer "" [] [] [] [] "" "" "" "" "" name.
Definition ex_ca : spec := Spec "Certificate" true "" "kube" ["a"; "b"] [] [] [] "" "" "" "" "" "ca".
Definition ex_api : spec := Spec "Certificate" false "ca" "api" [] ["api.local"] ["::1"] [] "" "" "" "" "" "apiserver".
Definition ex_admin : spec := Spec "Kubeconfig" false "" "" [] [] [] [] "" "" "https://[::1]:6443" "ca" "apiserver" "admin".
Definition ex_specs : list spec := [ex_admin; ex_api; ex_ca; ex_spec "KeyPair" false "" "sa"].
Definition ex_st : pki := Pki ∅ 0 [].

(** The specs in name order; the seven files they give. *)
Lemma pki_is_stable_witness :
  let st := (run "/pki" ex_specs (fun _ _ => None) 0 ex_st).1 in
  p_log st = ["/pki/sa.key"; "/pki/sa.pub"; "/pki/ca.key"; "/pki/ca.crt"; "/pki/apiserver.key"; "/pki/apiserver.crt"; "/pki/admin.kubeconfig"] /\
  run "/pki" ex_specs (fun _ _ => None) 5 st = (st, Ok ()).
Proof.
  split; [vm_compute; reflexivity|].
  apply (pki_is_stable "/pki" ex_specs (fun _ _ => None) 0 5 ex_st).
  - vm_compute. reflexivity.
  - apply (bool_decide_unpack _). vm_compute. exact I.
  - apply Forall_forall. intros s _ _ _ c Hc. discriminate Hc.
  - apply (bool_decide_unpack _). vm_compute. exact I.
Defined.

(** An intermediate CA whose name sorts before its issuer's cannot be made in
    the first run: the pass over the CAs is in name order. *)
Lemma issuer_after_its_ca :
  (run "/pki" [ex_spec "Certificate" true "root-ca" "etcd-ca"; ex_spec "Certificate" true "" "root-ca"] (fun _ _ => None) 0 ex_st).2 =
  Err "issuer root-ca not materialized".
Proof. vm_compute. reflexivity. Qed.
