(* ===== verification/Logs.v ===== *)
(** * The agent's kubelet API: container logs (poc/agent/logs.go, streams.go)

    Who may call it ([authorizeKubeletClient]), how a request names a
    container ([splitStreamPath]), where its log is, where a tail starts
    ([seekToLastLines]), and the loop of [handleContainerLogs] that copies
    the file to the client and follows it. The loop runs beside the container
    that writes the file and the VM that ends: their steps interleave. TLS,
    HTTP and the API client are not modelled. *)
From Stdlib Require Import Ascii.
From S2P Require Import Prelude GoStrings.

(** ** Requests *)

(** The verified client certificate: its common name and organisations. *)
Record peer := Peer { pe_CommonName : string; pe_Organization : list string }.

(** The handler's answer: the status of the refusal, or the request goes on. *)
Definition authorizeKubeletClient (tls : option (list peer)) : option Z :=
  match tls with
  | None | Some [] => Some 401%Z
  | Some (p :: _) =>
      let authorized := bool_decide (pe_CommonName p = "kube-apiserver-kubelet-client") in
      let authorized := foldl (fun ok org => if bool_decide (org = "system:masters") then true else ok) authorized (pe_Organization p) in
      if authorized then None else Some 403%Z
  end.

(** The namespace, pod and container of a path below a prefix. *)
Definition splitStreamPath (p prefix : string) : option (string * string * string) :=
  match Split "/"%char (Trim "/"%char (TrimPrefix p prefix)) with
  | [ns; pod; container] => Some (ns, pod, container)
  | _ => None
  end.

(** The container's own log, else the console of the VM. *)
Definition log_path (workDir uid container : string) (exists_ : string -> bool) : string :=
  let p := PathJoin [workDir; uid; "rootfs"; "logs"; container +:+ ".log"] in
  if exists_ p then p else PathJoin [workDir; uid; "container.log"].

(** ** Where a tail starts *)

Notation newline := 10%Z.

Definition count_newlines (data : bytes) : nat := length (filter (fun b => b = newline) data).

(** [bytes.IndexByte] for a newline; [None] is -1. *)
Definition index_newline (data : bytes) : option nat := fst <$> list_find (fun b => b = newline) data.

(** The loop: [off += idx + 1]. *)
Fixpoint skip_lines (skip : nat) (data : bytes) (off : nat) : nat :=
  match skip with
  | O => off
  | S skip' =>
      match index_newline (drop off data) with
      | Some idx => skip_lines skip' data (off + (idx + 1))
      | None => skip_lines skip' data off
      end
  end.

(** The offset the file is left at. *)
Definition seekToLastLines (data : bytes) (n : nat) : nat :=
  if bool_decide (n = 0) then length data
  else
    let lines := count_newlines data in
    if bool_decide (lines <= n) then 0 else skip_lines (lines - n) data 0.

(** *** The last lines *)

Definition is_line (l : bytes) : Prop := newline ∉ l.
(** Complete lines, each with its newline. *)
Definition join_lines (ls : list bytes) : bytes := concat ((fun l => l ++ [newline]) <$> ls).

Lemma count_newlines_app a b : count_newlines (a ++ b) = count_newlines a + count_newlines b.
Proof. unfold count_newlines. by rewrite filter_app, length_app. Qed.

Lemma count_line l : is_line l -> count_newlines l = 0.
Proof.
  unfold is_line, count_newlines. induction l as [|b l IH]; [done|]. intros [Hb Hl]%not_elem_of_cons. rewrite filter_cons_False by done. auto.
Qed.

Lemma count_join ls : Forall is_line ls -> count_newlines (join_lines ls) = length ls.
Proof.
  unfold join_lines. induction 1 as [|l ls Hl _ IH]; [done|]. cbn [fmap list_fmap concat]. rewrite !count_newlines_app, count_line, IH by done. done.
Qed.

Lemma index_line l rest : is_line l -> index_newline (l ++ newline :: rest) = Some (length l).
Proof.
  intros Hl. unfold index_newline. rewrite list_find_app_r; [|apply list_find_None, Forall_forall; intros b Hb ->; done].
  cbn [list_find]. rewrite decide_True by done. done.
Qed.

Lemma skip_lines_spec ls : forall before rest off,
  Forall is_line ls -> off = length before ->
  skip_lines (length ls) (before ++ join_lines ls ++ rest) off = off + length (join_lines ls).
Proof.
  induction ls as [|l ls IH]; intros before rest off Hls ->; cbn [length skip_lines]; [by rewrite Nat.add_0_r|].
  apply Forall_cons in Hls as [Hl Hls]. rewrite drop_app_length.
  change (join_lines (l :: ls)) with ((l ++ [newline]) ++ join_lines ls). rewrite <-!app_assoc. cbn [app].
  rewrite index_line by done. pose proof (IH (before ++ l ++ [newline]) rest (length before + (length l + 1)) Hls) as E.
  rewrite <-!app_assoc in E. cbn [app] in E. rewrite E by (rewrite !length_app; cbn; lia). repeat (rewrite ?length_app; cbn [length]). lia.
Qed.

(** A tail: in a log of complete lines and an unfinished rest, the file is
    left at the last [n] complete lines and that rest, the whole log when it
    has no more than [n] complete lines, and its end for [n = 0]. *)
Theorem tail_starts_at_last_lines ls rest n :
  Forall is_line ls -> is_line rest ->
  drop (seekToLastLines (join_lines ls ++ rest) n) (join_lines ls ++ rest) =
  if bool_decide (n = 0) then [] else join_lines (drop (length ls - n) ls) ++ rest.
Proof.
  intros Hls Hr. unfold seekToLastLines. case_bool_decide as Hn; [by rewrite drop_all|]. cbn zeta.
  rewrite count_newlines_app, count_join, count_line, Nat.add_0_r by done. case_bool_decide as Hl.
  { replace (length ls - n) with 0 by lia. done. }
  set (k := length ls - n). pose proof (skip_lines_spec (take k ls) [] (join_lines (drop k ls) ++ rest) 0) as E.
  assert (join_lines ls = join_lines (take k ls) ++ join_lines (drop k ls)) as Hj.
  { unfold join_lines. by rewrite <-concat_app, <-fmap_app, take_drop. }
  rewrite length_take_le in E by (unfold k; lia). cbn [app length] in E. rewrite Hj, <-app_assoc, E by (by try apply Forall_take).
  cbn. by rewrite drop_app_length.
Qed.

Lemma tail_starts_at_last_lines_witness :
  drop (seekToLastLines (join_lines [[1]; [2; 2]; []; [3]] ++ [4])%Z 2) (join_lines [[1]; [2; 2]; []; [3]] ++ [4])%Z = [10; 3; 10; 4]%Z.
Proof.
  rewrite (tail_starts_at_last_lines [[1]; [2; 2]; []; [3]]%Z [4]%Z 2); [reflexivity|..].
  - apply (bool_decide_unpack _). vm_compute. exact I.
  - apply (bool_decide_unpack _). vm_compute. exact I.
Defined.

(** ** Following *)

(** Where the loop stands: before a read, after one that found the end of the
    file, asleep, or over. *)
Inductive loop_pc := Reads | AtEOF | Sleeps | Over.
#[export] Instance loop_pc_eq_dec : EqDecision loop_pc.
Proof. solve_decision. Defined.

Record tail_state := Tail {
  t_file : bytes;       (* what the container has written *)
  t_running : bool;     (* the VM is in the agent's table *)
  t_pos : nat; t_out : bytes; t_pc : loop_pc
}.

Inductive tail_action :=
| AppendLog (p : bytes) | VMGone              (* the container and its VM *)
| Read (n : nat)                              (* into a buffer of 32 KiB *)
| CheckVM | Wake | ClientGone.

Definition tail_step (follow : bool) (a : tail_action) (t : tail_state) : option tail_state :=
  let 'Tail f r pos out pc := t in
  match a, pc with
  | AppendLog p, _ => if r then Some (Tail (f ++ p) r pos out pc) else None
  | VMGone, _ => Some (Tail f false pos out pc)
  | Read n, Reads =>
      if bool_decide (drop pos f = []) then Some (Tail f r pos out (if follow then AtEOF else Over))
      else if bool_decide (0 < Z.of_nat n <= 32768)%Z then
        let p := take n (drop pos f) in Some (Tail f r (pos + length p) (out ++ p) Reads)
      else None
  | CheckVM, AtEOF => Some (Tail f r pos out (if r then Sleeps else Over))
  | Wake, Sleeps => Some (Tail f r pos out Reads)
  | ClientGone, (Reads | Sleeps) => Some (Tail f r pos out Over)
  | _, _ => None
  end.

Fixpoint tail_run (follow : bool) (l : list tail_action) (t : tail_state) : option tail_state :=
  match l with [] => Some t | a :: l' => tail_step follow a t ≫= tail_run follow l' end.

Definition tail_start (file : bytes) (running : bool) (pos : nat) : tail_state := Tail file running pos [] Reads.

Definition tail_ok (follow : bool) (start : nat) (t : tail_state) : Prop :=
  start <= t_pos t /\ t_pos t <= length (t_file t) /\ t_out t = drop start (take (t_pos t) (t_file t)) /\
  (t_pc t = AtEOF \/ t_pc t = Sleeps -> follow = true).

Lemma tail_step_ok follow a start t t' : tail_ok follow start t -> tail_step follow a t = Some t' -> tail_ok follow start t'.
Proof.
  destruct t as [f r pos out pc]. unfold tail_ok. cbn [t_pos t_file t_out t_pc]. intros (H1 & H2 & -> & H4) Hs.
  destruct a as [p| |n| | |], pc; cbn [tail_step] in Hs; try done; repeat case_bool_decide; try done;
    try (destruct r; [|done]); simplify_eq; cbn [t_pos t_file t_out t_pc].
  all: try (split_and!; [done|rewrite ?length_app; lia|by rewrite ?take_app_le by lia|first [done|naive_solver]]).
  - split_and!; [done|done|done|]. destruct follow; naive_solver.
  - split_and!; [lia| | |naive_solver].
    + rewrite length_take, length_drop. lia.
    + rewrite <-take_take_drop, drop_app_le by (rewrite length_take; lia). f_equal. rewrite length_take, length_drop.
      destruct (decide (n <= length f - pos)); [by rewrite Nat.min_l by lia|]. rewrite Nat.min_r by lia.
      by rewrite !take_ge by (rewrite length_drop; lia).
Qed.

Lemma tail_run_ok follow l start t t' : tail_ok follow start t -> tail_run follow l t = Some t' -> tail_ok follow start t'.
Proof.
  revert t. induction l as [|a l IH]; intros t Ht Hr; cbn in Hr; [by injection Hr as <-|].
  apply bind_Some in Hr as (t1 & H1 & Hr). by eapply IH; [eapply tail_step_ok|].
Qed.

(** The file from the start of the tail when the loop found its end. *)
Lemma file_grows follow a t t' : tail_step follow a t = Some t' -> t_file t `prefix_of` t_file t'.
Proof.
  destruct t as [f r pos out pc]. destruct a as [p| |n| | |], pc; cbn [tail_step]; try done; repeat case_bool_decide; try done;
    try (destruct r; [|done]); intros [= <-]; cbn; try done; by apply prefix_app_r.
Qed.

(** C37 The log stream, whatever the interleaving of the handler with the
    container that writes the log and the VM that ends: what the client has
    received is the log from the start of the tail on, in order and without
    gaps or repetition, up to the handler's position. Without [follow] the
    stream is over after the first read that finds the end of the file and has
    then delivered the whole log. *)
Theorem log_stream_is_exact follow l file running start t :
  start <= length file -> tail_run follow l (tail_start file running start) = Some t ->
  t_out t = drop start (take (t_pos t) (t_file t)) /\
  (follow = false -> t_pc t <> AtEOF /\ t_pc t <> Sleeps) /\
  (forall t', tail_step follow CheckVM t = Some t' -> t_pc t' = Over -> t_running t = false) /\
  (forall n t', follow = false -> tail_step follow (Read n) t = Some t' -> t_pc t' = Over -> t_out t' = drop start (t_file t')).
Proof.
  intros Hs Hr. apply (tail_run_ok follow l start) in Hr.
  2: { unfold tail_ok, tail_start. cbn. split_and!; [lia|done|by rewrite drop_ge by (rewrite length_take; lia)|naive_solver]. }
  pose proof Hr as (H1 & H2 & H3 & H4). split_and!; [done|intros ->; split; intros E; by specialize (H4 ltac:(auto))|..].
  - intros t' E Ho. destruct t as [f r pos out []], r; cbn in *; try done. injection E as <-. done.
  - intros n t' -> E Ho. pose proof (tail_step_ok _ _ _ _ _ Hr E) as (_ & G2 & G3 & _). rewrite G3. f_equal. apply take_ge.
    destruct t as [f r pos out []]; cbn [tail_step] in E; try done. repeat case_bool_decide; simplify_eq; cbn in *; try done.
    destruct (decide (length f <= pos)) as [|Hlt]; [done|]. assert (length (drop pos f) = 0) as E0 by (by rewrite H). rewrite length_drop in E0. lia.
Qed.

(** A follower can miss the end of the log: what the container writes after
    the loop found the end of the file, before the VM is gone, is not read. *)
Lemma follow_can_miss_the_end :
  exists l t, tail_run true l (tail_start [1]%Z true 0) = Some t /\
    t_pc t = Over /\ t_running t = false /\ ClientGone ∉ l /\ t_out t <> t_file t.
Proof.
  exists [Read 1; Read 1; AppendLog [2]%Z; VMGone; CheckVM], (Tail [1; 2]%Z false 1 [1]%Z Over).
  split_and!; [reflexivity|done|done| |discriminate]. rewrite !not_elem_of_cons. split_and!; [discriminate..|apply not_elem_of_nil].
Qed.

Lemma log_stream_is_exact_witness :
  exists t, tail_run false [Read 2; AppendLog [4]%Z; Read 5; Read 1] (tail_start [1; 2; 3]%Z true 1) = Some t /\
    t_out t = [2; 3; 4]%Z /\ t_pc t <> AtEOF.
Proof.
  eexists. split; [reflexivity|].
  destruct (log_stream_is_exact false [Read 2; AppendLog [4]%Z; Read 5; Read 1] [1; 2; 3]%Z true 1 _ ltac:(cbn; lia) eq_refl) as (H1 & H2 & _).
  split; [exact H1|exact (proj1 (H2 eq_refl))].
Defined.

(** ** Authorisation and paths *)

(** Only the API server's kubelet client and superusers pass. *)
Lemma authorize_exact tls :
  authorizeKubeletClient tls = None <->
  exists p ps, tls = Some (p :: ps) /\ (pe_CommonName p = "kube-apiserver-kubelet-client" \/ "system:masters" ∈ pe_Organization p).
Proof.
  destruct tls as [[|[cn orgs] ps]|]; [split; [done|naive_solver]| |split; [done|naive_solver]]. unfold authorizeKubeletClient. cbn zeta. cbn [pe_CommonName pe_Organization].
  assert (forall ok, foldl (fun ok org => if bool_decide (org = "system:masters") then true else ok) ok orgs = true <-> ok = true \/ "system:masters" ∈ orgs) as Hf.
  { induction orgs as [|o orgs IH]; intros ok; cbn; [set_solver|]. rewrite IH. case_bool_decide; set_solver. }
  destruct (foldl _ _ _) eqn:E.
  - apply Hf in E. rewrite bool_decide_eq_true in E. split; [intros _; by exists (Peer cn orgs), ps|done].
  - split; [done|]. intros (p & ps' & [= <- <-] & Hp). cbn in Hp.
    assert (bool_decide (cn = "kube-apiserver-kubelet-client") = true \/ "system:masters" ∈ orgs) as Hq%Hf by (by rewrite bool_decide_eq_true). congruence.
Qed.

Example stream_paths :
  splitStreamPath "/exec/default/web/app" "/exec/" = Some ("default", "web", "app") /\
  splitStreamPath "/exec/default/web" "/exec/" = None.
Proof. split; vm_compute; reflexivity. Qed.
