(* ===== verification/KubeletAPI.v ===== *)
(** * The kubelet API (poc/agent/logs.go, streams.go)

    The server the apiserver proxies logs, exec, attach and port-forward to:
    authorisation, the routes of [http.ServeMux] with its path cleaning, each
    handler up to what it serves, and the session each stream opens with the
    pod's guest. Reading the request's stream options, the API client and the
    upgrade to a stream are parameters. *)
From Stdlib Require Import Ascii.
From S2P Require Import Prelude GoStrings NetIP Frames Pod PodLifecycle Supervisor Boot Handlers Logs.

(** ** Requests and responses *)

(** A request; its path is the escaped one, as sent. *)
Record http_request := HttpRequest {
  hr_tls : option (list peer); hr_EscapedPath : string;
  hr_command : list string;                       (* [Query()["command"]] *)
  hr_follow : string; hr_tailLines : string       (* [Query().Get] *)
}.

(** Percent-decoding of a path; malformed escapes do not get past the parser
    of the request. *)
Fixpoint unescape (s : string) : string :=
  match s with
  | String "%" (String a (String b s')) =>
      match hex_digit a, hex_digit b with
      | Some x, Some y => String (ascii_of_byte (16 * x + y)) (unescape s')
      | _, _ => s
      end
  | String a s' => String a (unescape s')
  | EmptyString => ""
  end.

(** [r.URL.Path] *)
Definition hr_Path (r : http_request) : string := unescape (hr_EscapedPath r).

(** What is served, of the pod whose state has the UID. *)
Inductive served :=
| ServeLogs (path : string) (uid : string) (follow : bool) (tail : option Z)
| ServeExec (uid container : string) (cmd : list string)
| ServeAttach (uid container : string)
| ServePortForward (uid : string).

Inductive response := HttpError (code : Z) | Redirect (path : string) | Served (s : served).

(** [strconv.Atoi]: an optional sign and decimal digits, in 64 bits. *)
Fixpoint digits (val : Z) (s : string) : option Z :=
  match s with EmptyString => Some val | String a s' => d ← digit a; digits (val * 10 + d) s' end.
Definition Atoi (s : string) : option Z :=
  let '(neg, ds) := match s with
                    | String "-" s' => (true, s')
                    | String "+" s' => (false, s')
                    | _ => (false, s)
                    end in
  if bool_decide (ds = "") then None
  else n ← digits 0 ds;
       let z := if neg : bool then (- n)%Z else n in
       if bool_decide (-9223372036854775808 <= z < 9223372036854775808)%Z then Some z else None.

(** ** [http.ServeMux] *)

(** The mux's clean path keeps a trailing slash. *)
Definition cleanPath (p : string) : string :=
  if bool_decide (p = "") then "/"
  else
    let p := if is_rooted p then p else "/" +:+ p in
    let np := Clean p in
    if HasSuffix p "/" && negb (bool_decide (np = "/")) then np +:+ "/" else np.

Definition path_parts (path prefix : string) : list string := Split slash (Trim slash (TrimPrefix path prefix)).

Section Server.
Context (workDir : string) (client : bool) (getPod : string -> string -> option Pod).
Context (options_ok : http_request -> bool) (stat_ok open_ok : string -> bool).

(** The pod a handler serves: the client is there and [Get] finds it. *)
Definition with_pod (ns name : string) (k : Pod -> response) : response :=
  if negb client then HttpError 503
  else match getPod ns name with Some pod => k pod | None => HttpError 404 end.

Definition handleContainerLogs (r : http_request) : response :=
  match path_parts (hr_Path r) "/containerLogs/" with
  | [ns; name; container] =>
      with_pod ns name (fun pod =>
        let path := log_path workDir (podStateUID pod) container stat_ok in
        if open_ok path then
          Served (ServeLogs path (podStateUID pod) (bool_decide (hr_follow r = "true"))
            (n ← Atoi (hr_tailLines r); if bool_decide (0 <= n)%Z then Some n else None))
        else HttpError 404)
  | _ => HttpError 404
  end.

Definition handleExec (r : http_request) : response :=
  match splitStreamPath (hr_Path r) "/exec/" with
  | Some (ns, name, container) =>
      with_pod ns name (fun pod =>
        if options_ok r then Served (ServeExec (podStateUID pod) container (hr_command r)) else HttpError 400)
  | None => HttpError 404
  end.

Definition handleAttach (r : http_request) : response :=
  match splitStreamPath (hr_Path r) "/attach/" with
  | Some (ns, name, container) =>
      with_pod ns name (fun pod =>
        if options_ok r then Served (ServeAttach (podStateUID pod) container) else HttpError 400)
  | None => HttpError 404
  end.

(** A trailing UID is accepted and ignored. *)
Definition handlePortForward (r : http_request) : response :=
  match path_parts (hr_Path r) "/portForward/" with
  | ns :: name :: ([] | [_]) =>
      with_pod ns name (fun pod => if options_ok r then Served (ServePortForward (podStateUID pod)) else HttpError 400)
  | _ => HttpError 404
  end.

Definition routes : list (string * (http_request -> response)) :=
  [("containerLogs", handleContainerLogs); ("exec", handleExec); ("attach", handleAttach); ("portForward", handlePortForward)].

(** The mux cleans and matches the escaped path, and decodes each of its
    segments: a pattern /name/ matches every path below, and a path /name is
    redirected to it. *)
Definition find_route (name : string) : option (http_request -> response) :=
  (fun x : nat * (string * (http_request -> response)) => x.2.2) <$> list_find (fun x => x.1 = name) routes.

Definition mux (r : http_request) : response :=
  let p := cleanPath (hr_EscapedPath r) in
  match unescape <$> Split slash p with
  | ["" ; name] =>
      match find_route name with
      | Some _ => Redirect (p +:+ "/")
      | None => if bool_decide (p = hr_EscapedPath r) then HttpError 404 else Redirect p
      end
  | "" :: name :: _ =>
      if bool_decide (p = hr_EscapedPath r) then
        match find_route name with Some h => h r | None => HttpError 404 end
      else Redirect p
  | _ => HttpError 404
  end.

(** The server's handler. *)
Definition kubelet (r : http_request) : response :=
  match authorizeKubeletClient (hr_tls r) with
  | Some code => HttpError code
  | None => mux r
  end.
End Server.

(** ** The session of a stream with the guest *)

(** The requests [ExecInContainer], [AttachContainer] and [PortForward] send;
    what they leave out is the zero value. *)
Definition exec_request (container : string) (cmd : list string) (tty : bool) : request :=
  Request "exec" container cmd tty 0 0 "" 0 "" "" 0 0.
Definition attach_request (container : string) : request := Request "attach" container [] false 0 0 "" 0 "" "" 0 0.
Definition portforward_request (port : Z) : request := Request "portforward" "" [] false 0 0 "" port "" "" 0 0.

(** ** Paths *)

(** A name as it is in a path without escapes. *)
Definition simple (x : string) : Prop := plain x /\ no_char "%" x.

Lemma unescape_simple s : no_char "%" s -> unescape s = s.
Proof.
  induction s as [|a s IH]; [done|]. cbn [has_char]. intros [Ha Hs]%orb_false_iff. apply Ascii.eqb_neq in Ha.
  cbn [unescape]. rewrite IH by done. destruct a as [[] [] [] [] [] [] [] []]; done || by destruct Ha.
Qed.

Lemma has_char_join c l : c <> slash -> Forall (fun x => no_char c x) l -> no_char c (Join slash l).
Proof.
  intros Hc. induction 1 as [|x l Hx Hl IH]; [done|]. destruct l as [|y l]; [done|]. rewrite Join_cons by done.
  rewrite has_char_app, Hx. cbn [has_char orb]. rewrite IH, orb_false_r. apply Ascii.eqb_neq. congruence.
Qed.

Lemma simple_plain l : Forall simple l -> Forall plain l.
Proof. intros H. eapply Forall_impl; [exact H|]. by intros x []. Qed.

Lemma abs_path_no_percent l : Forall simple l -> no_char "%" (abs_path l).
Proof.
  intros Hl. unfold abs_path. rewrite has_char_app. cbn [has_char orb].
  apply has_char_join; [done|]. eapply Forall_impl; [exact Hl|]. by intros x [].
Qed.

Lemma abs_path_no_suffix l : l <> [] -> Forall plain l -> HasSuffix (abs_path l) "/" = false.
Proof.
  intros Hne Hl. apply not_true_is_false. intros (t & E)%HasSuffix_exists.
  pose proof (Split_abs l Hne Hl) as Hs. rewrite E in Hs. change (t +:+ "/") with (t +:+ String slash "") in Hs.
  rewrite Split_snoc in Hs. cbn [Split] in Hs. destruct l as [|x l _] using rev_ind; [done|].
  change ("" :: l ++ [x]) with (("" :: l) ++ [x]) in Hs. apply app_inj_tail in Hs as [_ <-].
  apply Forall_app in Hl as [_ [[] _]%Forall_cons]. done.
Qed.

Lemma cleanPath_abs l : l <> [] -> Forall plain l -> cleanPath (abs_path l) = abs_path l.
Proof.
  intros Hne Hl. unfold cleanPath. rewrite bool_decide_false by done. cbn zeta. rewrite is_rooted_abs.
  rewrite abs_path_no_suffix by done. cbn [andb]. by apply Clean_abs.
Qed.

(** The parts of a path below a route. *)
Lemma path_parts_abs x l : l <> [] -> Forall plain l -> path_parts (abs_path (x :: l)) ("/" +:+ x +:+ "/") = l.
Proof.
  intros Hne Hl. unfold path_parts.
  assert (abs_path (x :: l) = ("/" +:+ x +:+ "/") +:+ rel_path l) as ->.
  { unfold abs_path, rel_path. rewrite Join_cons by done. rewrite !str_app_assoc. done. }
  unfold TrimPrefix. rewrite HasPrefix_app, drop_string_app.
  change (Trim slash (rel_path l)) with (Trim slash (abs_path l)). rewrite Split_Trim_abs by done. by rewrite bool_decide_false.
Qed.

Lemma path_parts_no_slash p prefix : Forall (fun x => no_char slash x) (path_parts p prefix).
Proof. apply Split_comps_no_char. Qed.

Lemma splitStreamPath_parts p prefix :
  splitStreamPath p prefix = match path_parts p prefix with [ns; name; c] => Some (ns, name, c) | _ => None end.
Proof. done. Qed.

(** A container's log is in its pod's directory. *)
Lemma log_path_inside wd uid container stat_ok :
  Forall plain wd -> plain uid -> no_char slash container ->
  inside (abs_path (wd ++ [uid])) (log_path (abs_path wd) uid container stat_ok).
Proof.
  intros Hwd Huid Hc.
  assert (plain "rootfs" /\ plain "logs" /\ plain "container.log") as (P1 & P2 & P3) by (by split_and!).
  assert (plain (container +:+ ".log")) as Hp.
  { split_and!; [by destruct container as [|? []]|by destruct container as [|? []]|by destruct container as [|? [|? []]]|].
    by rewrite has_char_app, Hc. }
  unfold log_path. cbn zeta. case_match.
  - rewrite (PathJoin_plain wd [uid; "rootfs"; "logs"; container +:+ ".log"]) by (done || (repeat apply Forall_cons_2; done)).
    change (wd ++ [uid; ?a; ?b; ?c]) with (wd ++ [uid] ++ [a; b; c]). rewrite app_assoc. apply inside_abs. by destruct wd.
  - rewrite (PathJoin_plain wd [uid; "container.log"]) by (done || (repeat apply Forall_cons_2; done)).
    change (wd ++ [uid; ?a]) with (wd ++ [uid] ++ [a]). rewrite app_assoc. apply inside_abs. by destruct wd.
Qed.

(** ** What is served *)

Definition served_uid (s : served) : string :=
  match s with
  | ServeLogs _ uid _ _ => uid
  | ServeExec uid _ _ => uid
  | ServeAttach uid _ => uid
  | ServePortForward uid => uid
  end.

(** The certificate the TLS layer verified is one that may use the API. *)
Definition permitted (r : http_request) : Prop :=
  exists p ps, hr_tls r = Some (p :: ps) /\
    (pe_CommonName p = "kube-apiserver-kubelet-client" \/ "system:masters" ∈ pe_Organization p).

Section Served.
Context (wd : list string) (client : bool) (getPod : string -> string -> option Pod).
Context (options_ok : http_request -> bool) (stat_ok open_ok : string -> bool).
Notation kubelet := (kubelet (abs_path wd) client getPod options_ok stat_ok open_ok).
Notation with_pod := (with_pod client getPod).
Notation find_route := (find_route (abs_path wd) client getPod options_ok stat_ok open_ok).

Lemma with_pod_served ns name k s :
  with_pod ns name k = Served s -> client = true /\ exists pod, getPod ns name = Some pod /\ k pod = Served s.
Proof. unfold with_pod. destruct client; [|done]. destruct (getPod ns name) as [pod|]; [|done]. split; [done|]. by exists pod. Qed.

(** What a request that is served asks for. *)
Definition grants (r : http_request) (pod : Pod) (rest : list string) (s : served) : Prop :=
  served_uid s = podStateUID pod /\
  match s with
  | ServeLogs path uid follow _ => exists c, rest = [c] /\
      (follow = true <-> hr_follow r = "true") /\
      (Forall plain wd -> plain uid -> inside (abs_path (wd ++ [uid])) path)
  | ServeExec _ c cmd => rest = [c] /\ cmd = hr_command r
  | ServeAttach _ c => rest = [c]
  | ServePortForward _ => length rest <= 1
  end.

Definition routed (s : served) : string :=
  match s with
  | ServeLogs _ _ _ _ => "/containerLogs/" | ServeExec _ _ _ => "/exec/"
  | ServeAttach _ _ => "/attach/" | ServePortForward _ => "/portForward/"
  end.

Lemma route_grants name h r s :
  find_route name = Some h -> h r = Served s -> client = true /\
  exists ns pn pod rest, path_parts (hr_Path r) (routed s) = ns :: pn :: rest /\ getPod ns pn = Some pod /\ grants r pod rest s.
Proof.
  intros (x & Hf & ->)%fmap_Some Hs. destruct x as [i [n h']]. apply list_find_Some in Hf as (Hl & _ & _). cbn [snd] in Hs.
  destruct i as [|[|[|[|i]]]]; cbn in Hl; simplify_eq.
  - unfold handleContainerLogs in Hs. pose proof (path_parts_no_slash (hr_Path r) "/containerLogs/") as Hc.
    destruct (path_parts _ _) as [|ns [|pn [|c []]]] eqn:E; try done. apply with_pod_served in Hs as (-> & pod & Hp & Hs).
    cbn zeta in Hs. destruct (open_ok _); [|done]. injection Hs as <-. split; [done|]. exists ns, pn, pod, [c].
    split; [exact E|]. split; [done|]. split; [done|]. exists c. split; [done|]. split; [apply bool_decide_eq_true|].
    intros Hwd Hu. apply log_path_inside; [done..|]. repeat apply Forall_cons in Hc as [? Hc]. done.
  - unfold handleExec in Hs. rewrite splitStreamPath_parts in Hs.
    destruct (path_parts _ _) as [|ns [|pn [|c []]]] eqn:E; try done. apply with_pod_served in Hs as (-> & pod & Hp & Hs).
    destruct (options_ok r); [|done]. injection Hs as <-. split; [done|]. by exists ns, pn, pod, [c].
  - unfold handleAttach in Hs. rewrite splitStreamPath_parts in Hs.
    destruct (path_parts _ _) as [|ns [|pn [|c []]]] eqn:E; try done. apply with_pod_served in Hs as (-> & pod & Hp & Hs).
    destruct (options_ok r); [|done]. injection Hs as <-. split; [done|]. by exists ns, pn, pod, [c].
  - unfold handlePortForward in Hs. destruct (path_parts _ _) as [|ns [|pn rest]] eqn:E; try done.
    destruct rest as [|u [|]]; try done; apply with_pod_served in Hs as (-> & pod & Hp & Hs);
      (destruct (options_ok r); [|done]); injection Hs as <-; (split; [done|]); exists ns, pn, pod; eexists; (split; [exact E|]); (split; [exact Hp|]); (split; [done|cbn; lia]).
Qed.

(** The path of a request without escapes. *)
Lemma mux_abs tls cmd follow tail x l h :
  l <> [] -> Forall simple (x :: l) -> find_route x = Some h ->
  let r := HttpRequest tls (abs_path (x :: l)) cmd follow tail in
  mux (abs_path wd) client getPod options_ok stat_ok open_ok r = h r /\ hr_Path r = abs_path (x :: l).
Proof.
  intros Hne Hl Hf r. pose proof (simple_plain _ Hl) as Hp. split; [|by apply unescape_simple, abs_path_no_percent].
  unfold mux. cbn [r hr_EscapedPath]. rewrite cleanPath_abs, Split_abs by done.
  assert (unescape <$> "" :: x :: l = "" :: x :: l) as ->.
  { rewrite fmap_cons. f_equal. transitivity (id <$> (x :: l)); [|apply list_fmap_id].
    apply Forall_fmap_ext_1. eapply Forall_impl; [exact Hl|]. intros y [_ Hy]. by apply unescape_simple. }
  destruct l as [|y l]; [done|]. rewrite bool_decide_true by done. by rewrite Hf.
Qed.

Lemma exec_served r ns name c pod :
  permitted r -> client = true -> Forall simple [ns; name; c] -> getPod ns name = Some pod -> options_ok r = true ->
  hr_EscapedPath r = abs_path ["exec"; ns; name; c] -> kubelet r = Served (ServeExec (podStateUID pod) c (hr_command r)).
Proof.
  intros Ha Hc Hs Hp Ho He. destruct r as [tls path cmd fo ta]. cbn [hr_EscapedPath hr_command] in *. subst path.
  apply authorize_exact in Ha. cbn [hr_tls] in Ha. unfold KubeletAPI.kubelet. cbn [hr_tls]. rewrite Ha.
  assert (simple "exec") as S1 by (by split_and!).
  destruct (mux_abs tls cmd fo ta "exec" [ns; name; c] (handleExec client getPod options_ok) ltac:(done) (Forall_cons_2 _ _ _ S1 Hs) eq_refl) as [-> Hpath].
  unfold handleExec. rewrite splitStreamPath_parts, Hpath. change "/exec/" with ("/" +:+ "exec" +:+ "/").
  rewrite path_parts_abs by (done || by apply simple_plain). unfold KubeletAPI.with_pod. by rewrite Hc, Hp, Ho.
Qed.

(** C38 The kubelet API serves exactly what it should. Soundness: whatever the
    path and its escapes, something of a pod is served only to a client
    certificate that is permitted, and from the VM, or the directory, of the
    UID that [podStateUID] gives the pod the API has under the namespace and
    name in the path. That is the pod's own UID unless the pod is annotated as
    a mirror pod; then it is the UID the annotation names, whoever wrote it
    ([forged_mirror_is_served]). A log that is served is a file of that
    directory where this UID is a plain name. Completeness: a permitted client
    gets the exec, attach, port-forward or log it asks for of a pod the API
    has. *)
Theorem kubelet_serves_exactly r :
  (forall s, kubelet r = Served s -> permitted r /\ client = true /\
     exists ns name pod rest, path_parts (hr_Path r) (routed s) = ns :: name :: rest /\
       getPod ns name = Some pod /\ grants r pod rest s /\ (is_mirror pod = false -> served_uid s = p_UID pod)) /\
  (forall ns name c pod, permitted r -> client = true -> Forall simple [ns; name; c] -> getPod ns name = Some pod -> options_ok r = true ->
     (hr_EscapedPath r = abs_path ["exec"; ns; name; c] -> kubelet r = Served (ServeExec (podStateUID pod) c (hr_command r))) /\
     (hr_EscapedPath r = abs_path ["attach"; ns; name; c] -> kubelet r = Served (ServeAttach (podStateUID pod) c)) /\
     (hr_EscapedPath r = abs_path ["portForward"; ns; name] -> kubelet r = Served (ServePortForward (podStateUID pod))) /\
     (hr_EscapedPath r = abs_path ["containerLogs"; ns; name; c] ->
        open_ok (log_path (abs_path wd) (podStateUID pod) c stat_ok) = true ->
        exists follow tail, kubelet r = Served (ServeLogs (log_path (abs_path wd) (podStateUID pod) c stat_ok) (podStateUID pod) follow tail))).
Proof.
  split.
  - intros s. unfold KubeletAPI.kubelet. destruct (authorizeKubeletClient (hr_tls r)) eqn:Ha; [done|].
    apply authorize_exact in Ha. unfold mux. cbn zeta. intros Hs. split; [exact Ha|].
    destruct (unescape <$> Split slash (cleanPath (hr_EscapedPath r))) as [|[] [|name [|? ?]]] eqn:E; try done; repeat case_match; try done;
      (eapply route_grants in Hs as (Hc & ns & pn & pod & rest & Hp & Hg & Hgr); [|done]; split; [done|];
       exists ns, pn, pod, rest; split_and!; [done..|]; intros Hm; destruct Hgr as [-> _]; unfold podStateUID, is_mirror in *;
       apply bool_decide_eq_false in Hm; by rewrite bool_decide_false by tauto).
  - intros ns name c pod Hperm Hc Hsimple Hp Ho. split; [by intros; eapply exec_served|].
    destruct r as [tls path cmd fo ta]. cbn [hr_EscapedPath hr_command].
    pose proof Hperm as Ha. apply authorize_exact in Ha. cbn [hr_tls] in Ha. unfold KubeletAPI.kubelet. cbn [hr_tls]. rewrite Ha.
    assert (simple "attach" /\ simple "portForward" /\ simple "containerLogs") as (S2 & S3 & S4) by (by split_and!).
    pose proof (simple_plain _ Hsimple) as Hplain.
    assert (Forall simple [ns; name]) as Hs2. { repeat apply Forall_cons in Hsimple as [? Hsimple]. by repeat apply Forall_cons_2. }
    split_and!; intros ->.
    + destruct (mux_abs tls cmd fo ta "attach" [ns; name; c] (handleAttach client getPod options_ok) ltac:(done) (Forall_cons_2 _ _ _ S2 Hsimple) eq_refl) as [-> Hpath].
      unfold handleAttach. rewrite splitStreamPath_parts, Hpath. change "/attach/" with ("/" +:+ "attach" +:+ "/").
      rewrite path_parts_abs by done. unfold KubeletAPI.with_pod. by rewrite Hc, Hp, Ho.
    + destruct (mux_abs tls cmd fo ta "portForward" [ns; name] (handlePortForward client getPod options_ok) ltac:(done) (Forall_cons_2 _ _ _ S3 Hs2) eq_refl) as [-> Hpath].
      unfold handlePortForward. rewrite Hpath. change "/portForward/" with ("/" +:+ "portForward" +:+ "/").
      rewrite path_parts_abs by (done || by apply simple_plain). unfold KubeletAPI.with_pod. by rewrite Hc, Hp, Ho.
    + intros Hopen. destruct (mux_abs tls cmd fo ta "containerLogs" [ns; name; c] (handleContainerLogs (abs_path wd) client getPod stat_ok open_ok) ltac:(done) (Forall_cons_2 _ _ _ S4 Hsimple) eq_refl) as [-> Hpath].
      unfold handleContainerLogs. rewrite Hpath. change "/containerLogs/" with ("/" +:+ "containerLogs" +:+ "/").
      rewrite path_parts_abs by done. unfold KubeletAPI.with_pod. rewrite Hc, Hp. cbn zeta. rewrite Hopen. by eexists _, _.
Qed.
End Served.

(** *** kubectl exec *)

Section KubectlExec.
Context (wd : list string) (client : bool) (getPod : string -> string -> option Pod).
Context (options_ok : http_request -> bool) (stat_ok open_ok : string -> bool).
(** The codec of requests, and a guest ([Handlers]). *)
Context (marshal_request : request -> bytes) (unmarshal_request : bytes -> option request).
Context (unmarshal_size : bytes -> option (Z * Z)) (marshal_statuses : list containerStatus -> option bytes) (quote : string -> string).
Context (info : cid -> container_info) (has_stdin has_tty : cid -> bool) (launch : command -> bool -> run).
Context (dial : Z -> result string (list bytes)) (tcp_ok : Z -> Z -> bool) (http_get : bool -> string -> Z -> option Z).
Notation handleConn := (handleConn unmarshal_request unmarshal_size marshal_statuses quote info has_stdin has_tty launch dial tcp_ok http_get).

(** [ExecInContainer]: the request of the session. *)
Definition ExecInContainer (c : string) (cmd : list string) (tty : bool) : bytes := marshal_request (exec_request c cmd tty).

(** kubectl exec over any codec, from the HTTP request to the process and back: for a
    permitted client and a pod the API has, the request is served from the VM
    of that pod; the session starts in the named container exactly the command
    that the container's root, environment and working directory give the
    query's command, feeds it the client's stdin in order and then its end,
    and returns the bytes it prints to each stream, in order, and its exit
    status; the supervisor is left alone. *)
Lemma kubectl_exec_over_codec ux r ns name c pod argv0 args tty i cmd chunks w bufs g :
  permitted r -> client = true -> Forall simple [ns; name; c] -> getPod ns name = Some pod -> options_ok r = true ->
  hr_EscapedPath r = abs_path ["exec"; ns; name; c] -> hr_command r = argv0 :: args ->
  unmarshal_request (ExecInContainer c (argv0 :: args) tty) = Some (exec_request c (argv0 :: args) tty) ->
  byName c (g_sup g) = Some i -> container_command quote (info i) argv0 args = Ok cmd -> launch cmd tty = Ran chunks w ->
  Forall (fun b : bytes => Z.of_nat (length b) < u32max)%Z
    (ExecInContainer c (argv0 :: args) tty :: exit_payload (wait_code w) :: bufs ++ (snd <$> chunks)) ->
  ux (exit_payload (wait_code w)) = Client.ExitInfo (wait_code w) "" ->
  kubelet (abs_path wd) client getPod options_ok stat_ok open_ok r = Served (ServeExec (podStateUID pod) c (argv0 :: args)) /\
  let reqData := ExecInContainer c (argv0 :: args) tty in
  let '(conn, g', effects) := handleConn (requesting reqData (Client.stdin_pump (stdin_reads bufs))) g in
  Client.session ux (fun _ => Ok (Wire.Conn (Wire.c_out conn) [] None)) reqData (Some []) (Some []) =
    Ok (Client.SessionOut (Some (Client.chunks_of false (outputs tty chunks)))
          (Some (Client.chunks_of true (outputs tty chunks)))
          (if bool_decide (wait_code w = 0%Z) then None
           else Some (Client.CodeExitError ("command terminated with exit code " +:+ pretty (wait_code w)) (wait_code w)))) /\
  effects = [EStart cmd tty None; EInput ((InWrite <$> filter (fun b => b <> []) bufs) ++ [InClose])] /\
  g' = g.
Proof.
  intros Ha Hc Hs Hp Ho He Hcmd Hu Hi Hcc Hl Hfit Hux. split.
  - rewrite (exec_served wd client getPod options_ok stat_ok open_ok r ns name c pod) by done. by rewrite Hcmd.
  - cbn zeta. pose proof (exec_end_to_end unmarshal_request unmarshal_size marshal_statuses quote info has_stdin has_tty launch
      dial tcp_ok http_get ux (ExecInContainer c (argv0 :: args) tty) (exec_request c (argv0 :: args) tty) argv0 args i cmd chunks w bufs g
      Hu eq_refl eq_refl Hi Hcc Hl Hfit Hux) as H. cbn [rq_TTY exec_request] in H.
    destruct (handleConn _ g) as [[conn g'] effects]. destruct H as (H1 & H2 & H3). split; [exact H1|]. split; [|exact H3].
    rewrite H2. unfold winsize. cbn. by destruct tty.
Qed.
(** [AttachContainer] and [PortForward]. *)
Definition AttachContainer (c : string) : bytes := marshal_request (attach_request c).
Definition PortForward (port : Z) : bytes := marshal_request (portforward_request port).

Lemma forward_input bufs :
  omap forward_op (Client.stdin_pump (stdin_reads bufs)) = (InWrite <$> filter (fun b => b <> []) bufs) ++ [InClose].
Proof.
  rewrite <-(stdin_input (fun _ => None) bufs false). apply list_omap_ext, Forall_Forall2_diag, Forall_forall. intros [typ p] Hin.
  unfold forward_op, exec_op. cbn [fst snd]. repeat case_bool_decide; done.
Qed.

Lemma chunks_of_one b sent : Client.chunks_of b ((b,.) <$> sent) = concat sent.
Proof.
  unfold Client.chunks_of. rewrite filter_every by (apply Forall_fmap, Forall_forall; intros x _; by destruct b).
  rewrite <-list_fmap_compose. f_equal. apply list_fmap_id.
Qed.

(** Port-forwarding, end to end: one forwarded connection is one dial of the
    port inside the pod; the peer gets what the client sends, in order and then
    the end of it, and the client what the peer sends. *)
Theorem port_forward_end_to_end ux port sent bufs g :
  unmarshal_request (PortForward port) = Some (portforward_request port) -> port <> 0%Z -> dial port = Ok sent ->
  Forall (fun b : bytes => Z.of_nat (length b) < u32max)%Z (PortForward port :: bufs ++ sent) ->
  ux (exit_payload 0) = Client.ExitInfo 0 "" ->
  let '(conn, g', effects) := handleConn (requesting (PortForward port) (Client.stdin_pump (stdin_reads bufs))) g in
  Client.session ux (fun _ => Ok (Wire.Conn (Wire.c_out conn) [] None)) (PortForward port) (Some []) None =
    Ok (Client.SessionOut (Some (concat sent)) None None) /\
  effects = [EInput ((InWrite <$> filter (fun b => b <> []) bufs) ++ [InClose])] /\ g' = g.
Proof.
  intros Hu Hport Hd [Hreq [Hbufs Hsent]%Forall_app]%Forall_cons Hux.
  rewrite (handleConn_request _ _ _ _ _ _ _ _ _ _ _ _ _ _ _ Hreq Hu). unfold dispatch. cbn [rq_Op portforward_request]. cbn zeta.
  repeat (rewrite bool_decide_false by discriminate). rewrite bool_decide_true by done.
  unfold Handlers.handlePortForward. cbn [rq_Port portforward_request]. rewrite bool_decide_false by done. rewrite Hd.
  rewrite copy_chunks_out, answer_out by done. cbn [Wire.c_in Wire.c_out app].
  split; [|split; [|done]].
  - change (fun _ : nat => _) with (replies (Client.chunk_frame <$> ((false,.) <$> sent)) (exit_payload 0)).
    rewrite session_of; [|..|done].
    + cbn [Client.sink_write fmap option_fmap option_map app]. rewrite (Client.stream_of_chunks false), chunks_of_one, Hux. done.
    + rewrite !Forall_fmap. exact Hsent.
    + apply chunk_frames_output.
  - rewrite input_ops_encode by (by apply stdin_fits). by rewrite forward_input.
Qed.
End KubectlExec.

(** Finding: whose VM is reached is up to annotations anybody who may create a
    pod can set: a pod of another namespace that calls itself the mirror of a
    UID is served from the VM of the pod with that UID. *)
Lemma forged_mirror_is_served wd getPod options_ok stat_ok open_ok r ns name c pod victim :
  permitted r -> Forall simple [ns; name; c] -> getPod ns name = Some pod -> options_ok r = true ->
  annotation pod mirrorAnnotation <> "" -> annotation pod hashAnnotation = victim -> victim <> "" ->
  hr_EscapedPath r = abs_path ["exec"; ns; name; c] ->
  kubelet (abs_path wd) true getPod options_ok stat_ok open_ok r = Served (ServeExec victim c (hr_command r)).
Proof.
  intros Ha Hs Hp Ho Hm Hh Hv He. rewrite (exec_served wd true getPod options_ok stat_ok open_ok r ns name c pod) by done.
  unfold podStateUID. rewrite bool_decide_true by (split; [done|congruence]). by rewrite Hh.
Qed.

(** ** Witness *)

Module APIExample.

Definition apiserver : peer := Peer "kube-apiserver-kubelet-client" [].
Definition pod (ns name : string) : option Pod :=
  if bool_decide ((ns, name) = ("ns", "web")) then
    Some (MkPod "uid" "web" "ns" ∅ [] [] "" [] None None false None)
  else None.
Definition request : http_request := HttpRequest (Some [apiserver]) "/exec/ns/web/app" ["date"] "" "".

End APIExample.

Lemma kubelet_serves_exactly_witness :
  kubelet "/var/pods" true APIExample.pod (fun _ => true) (fun _ => true) (fun _ => true) APIExample.request =
    Served (ServeExec "uid" "app" ["date"]) /\
  permitted APIExample.request /\
  exists ns name pod rest, path_parts (hr_Path APIExample.request) "/exec/" = ns :: name :: rest /\
    APIExample.pod ns name = Some pod /\ podStateUID pod = "uid" /\ rest = ["app"].
Proof.
  destruct (kubelet_serves_exactly ["var"; "pods"] true APIExample.pod (fun _ => true) (fun _ => true) (fun _ => true) APIExample.request)
    as [Hs Hc].
  assert (permitted APIExample.request) as Hp by (exists APIExample.apiserver, []; split; [reflexivity|left; reflexivity]).
  assert (kubelet "/var/pods" true APIExample.pod (fun _ => true) (fun _ => true) (fun _ => true) APIExample.request =
    Served (ServeExec "uid" "app" ["date"])) as E.
  { destruct (Hc "ns" "web" "app" (MkPod "uid" "web" "ns" ∅ [] [] "" [] None None false None) Hp eq_refl) as (He & _);
      [|reflexivity|reflexivity|exact (He eq_refl)].
    repeat apply Forall_cons_2; [..|apply Forall_nil_2]; split_and!; done. }
  split; [exact E|]. split; [exact Hp|]. destruct (Hs _ E) as (_ & _ & ns & name & pod & rest & H1 & H2 & [H3 H4] & _).
  exists ns, name, pod, rest. split; [exact H1|]. split; [exact H2|]. split; [symmetry; exact H3|exact (proj1 H4)].
Defined.
