(* ===== verification/ControlWire.v ===== *)
(** * The control messages as JSON (poc/agent/streams.go, status.go, probes.go,
      poc/execd/main.go, handlers.go, supervisor.go)

    Every message of the control channel as the text one side writes and the
    value the other reads: the agent's request maps and the guest's
    [request], exit frames, terminal sizes, and the statuses. With these
    codecs the handlers of [Handlers] and the client of [Frames] compose with
    nothing assumed of JSON. *)
From Stdlib Require Import Ascii.
From S2P Require Import Prelude GoStrings Json JsonFacts JsonDecode Frames Pod Supervisor Status Boot Handlers Probes KubeletAPI.
Import Wire.

(** Lengths and counts that Go's [int] holds. *)
Definition int_ok (z : Z) : Prop := (-9223372036854775808 <= z <= 9223372036854775807)%Z.
Definition int32_ok (z : Z) : Prop := (-2147483648 <= z <= 2147483647)%Z.

(** ** Requests *)

Definition zero_request : request := Request "" "" [] false 0 0 "" 0 "" "" 0 0.

Definition strings_field {A} name (get : A -> list string) set : field A := fld name (dec_list "" dec_string) get set.

(** The fields of [request] (execd), by their JSON names. *)
Definition request_fields : list (field request) :=
  [ fld "op" dec_string rq_Op (fun r v => Request v (rq_Container r) (rq_Argv r) (rq_TTY r) (rq_Cols r) (rq_Rows r) (rq_Ptype r) (rq_Port r) (rq_Path r) (rq_Scheme r) (rq_Timeout r) (rq_Grace r));
    fld "container" dec_string rq_Container (fun r v => Request (rq_Op r) v (rq_Argv r) (rq_TTY r) (rq_Cols r) (rq_Rows r) (rq_Ptype r) (rq_Port r) (rq_Path r) (rq_Scheme r) (rq_Timeout r) (rq_Grace r));
    strings_field "argv" rq_Argv (fun r v => Request (rq_Op r) (rq_Container r) v (rq_TTY r) (rq_Cols r) (rq_Rows r) (rq_Ptype r) (rq_Port r) (rq_Path r) (rq_Scheme r) (rq_Timeout r) (rq_Grace r));
    fld "tty" dec_bool rq_TTY (fun r v => Request (rq_Op r) (rq_Container r) (rq_Argv r) v (rq_Cols r) (rq_Rows r) (rq_Ptype r) (rq_Port r) (rq_Path r) (rq_Scheme r) (rq_Timeout r) (rq_Grace r));
    fld "cols" dec_uint16 rq_Cols (fun r v => Request (rq_Op r) (rq_Container r) (rq_Argv r) (rq_TTY r) v (rq_Rows r) (rq_Ptype r) (rq_Port r) (rq_Path r) (rq_Scheme r) (rq_Timeout r) (rq_Grace r));
    fld "rows" dec_uint16 rq_Rows (fun r v => Request (rq_Op r) (rq_Container r) (rq_Argv r) (rq_TTY r) (rq_Cols r) v (rq_Ptype r) (rq_Port r) (rq_Path r) (rq_Scheme r) (rq_Timeout r) (rq_Grace r));
    fld "ptype" dec_string rq_Ptype (fun r v => Request (rq_Op r) (rq_Container r) (rq_Argv r) (rq_TTY r) (rq_Cols r) (rq_Rows r) v (rq_Port r) (rq_Path r) (rq_Scheme r) (rq_Timeout r) (rq_Grace r));
    fld "port" dec_int64 rq_Port (fun r v => Request (rq_Op r) (rq_Container r) (rq_Argv r) (rq_TTY r) (rq_Cols r) (rq_Rows r) (rq_Ptype r) v (rq_Path r) (rq_Scheme r) (rq_Timeout r) (rq_Grace r));
    fld "path" dec_string rq_Path (fun r v => Request (rq_Op r) (rq_Container r) (rq_Argv r) (rq_TTY r) (rq_Cols r) (rq_Rows r) (rq_Ptype r) (rq_Port r) v (rq_Scheme r) (rq_Timeout r) (rq_Grace r));
    fld "scheme" dec_string rq_Scheme (fun r v => Request (rq_Op r) (rq_Container r) (rq_Argv r) (rq_TTY r) (rq_Cols r) (rq_Rows r) (rq_Ptype r) (rq_Port r) (rq_Path r) v (rq_Timeout r) (rq_Grace r));
    fld "timeout" dec_int64 rq_Timeout (fun r v => Request (rq_Op r) (rq_Container r) (rq_Argv r) (rq_TTY r) (rq_Cols r) (rq_Rows r) (rq_Ptype r) (rq_Port r) (rq_Path r) (rq_Scheme r) v (rq_Grace r));
    fld "grace" dec_int64 rq_Grace (fun r v => Request (rq_Op r) (rq_Container r) (rq_Argv r) (rq_TTY r) (rq_Cols r) (rq_Rows r) (rq_Ptype r) (rq_Port r) (rq_Path r) (rq_Scheme r) (rq_Timeout r) v) ].

Definition unmarshal_request : bytes -> option request := unmarshal (dec_struct request_fields) zero_request.

Definition JStrs (l : list string) : json := JArr (map JStr l).

(** The maps the agent marshals, keys sorted: [ExecInContainer] and exec
    probes, [AttachContainer], [PortForward], [execdStatus], [killContainer],
    [killVM], HTTP and TCP probes. A nil [argv] would be null. *)
Definition exec_json (container : string) (argv : list string) (tty : bool) : json :=
  JObj [("argv", if bool_decide (argv = []) then JNull else JStrs argv); ("container", JStr container); ("op", JStr "exec"); ("tty", JBool tty)].
Definition attach_json (container : string) : json := JObj [("container", JStr container); ("op", JStr "attach")].
Definition portforward_json (port : Z) : json := JObj [("op", JStr "portforward"); ("port", JInt port)].
Definition status_json : json := JObj [("op", JStr "status")].
Definition kill_json (container : string) (grace : Z) : json :=
  JObj [("container", JStr container); ("grace", JInt grace); ("op", JStr "kill")].
Definition shutdown_json (grace : Z) : json := JObj [("grace", JInt grace); ("op", JStr "shutdown")].
Definition http_probe_json (port : Z) (path scheme : string) (timeout : Z) : json :=
  JObj [("op", JStr "probe"); ("path", JStr path); ("port", JInt port); ("ptype", JStr "http"); ("scheme", JStr scheme); ("timeout", JInt timeout)].
Definition tcp_probe_json (port timeout : Z) : json :=
  JObj [("op", JStr "probe"); ("port", JInt port); ("ptype", JStr "tcp"); ("timeout", JInt timeout)].


Ltac wire n := apply (unmarshal_print _ _ n); [cbn; by rewrite ?lit_ok_int|done|unfold int_ok in *; carry_members].

Section Requests.
Context (c : string) (Hc : utf8_valid c = true).

Lemma exec_decoded argv tty : utf8_all argv ->
  unmarshal_request (print (exec_json c argv tty)) = Some (exec_request c argv tty).
Proof using Hc.
  intros Ha. apply (unmarshal_print _ _ 2); [|done|].
  - unfold exec_json. case_bool_decide; [done|]. cbn [wf_json forallb snd]. unfold JStrs. rewrite wf_array; done.
  - unfold exec_json. case_bool_decide as E; [subst argv|]; carry_members.
Qed.

Lemma attach_decoded : unmarshal_request (print (attach_json c)) = Some (attach_request c).
Proof using Hc. wire 1. Qed.

Lemma kill_decoded grace : int_ok grace ->
  unmarshal_request (print (kill_json c grace)) = Some (Request "kill" c [] false 0 0 "" 0 "" "" 0 grace).
Proof using Hc. intros Hg. wire 1. Qed.
End Requests.

Lemma portforward_decoded port : int_ok port -> unmarshal_request (print (portforward_json port)) = Some (portforward_request port).
Proof. intros Hp. wire 1. Qed.

Lemma status_decoded : unmarshal_request (print status_json) = Some (Request "status" "" [] false 0 0 "" 0 "" "" 0 0).
Proof. wire 1. Qed.

Lemma shutdown_decoded grace : int_ok grace ->
  unmarshal_request (print (shutdown_json grace)) = Some (Request "shutdown" "" [] false 0 0 "" 0 "" "" 0 grace).
Proof. intros Hg. wire 1. Qed.

Lemma http_decoded port path scheme timeout : int_ok port -> int_ok timeout -> utf8_valid path = true -> utf8_valid scheme = true ->
  unmarshal_request (print (http_probe_json port path scheme timeout)) = Some (Request "probe" "" [] false 0 0 "http" port path scheme timeout 0).
Proof. intros Hp Ht Hpa Hs. wire 1. Qed.

Lemma tcp_decoded port timeout : int_ok port -> int_ok timeout ->
  unmarshal_request (print (tcp_probe_json port timeout)) = Some (Request "probe" "" [] false 0 0 "tcp" port "" "" timeout 0).
Proof. intros Hp Ht. wire 1. Qed.

(** ** Exit frames and sizes *)

(** The struct both clients decode an exit frame into; the error is ignored. *)
Definition exit_fields : list (field Client.exit_info) :=
  [ fld "code" dec_int64 Client.e_code (fun e v => Client.ExitInfo v (Client.e_error e));
    fld "error" dec_string Client.e_error (fun e v => Client.ExitInfo (Client.e_code e) v) ].
Definition unmarshal_exit (payload : bytes) : Client.exit_info :=
  (Unmarshal (dec_struct exit_fields) (Client.ExitInfo 0 "") payload).1.

Lemma exit_text_json code : exit_payload code = print (JObj [("code", JInt code)]).
Proof. unfold exit_payload, exit_text. rewrite !bytes_of_string_app. cbn [print map fst snd]. by rewrite sep_by_cons, app_nil_r, <-app_assoc. Qed.

Lemma unmarshal_of {A} (d : decoder A) zero n j a :
  wf_json n j = true -> (Z.of_nat n <= maxNestingDepth)%Z -> carries d zero j a -> (Unmarshal d zero (print j)).1 = a.
Proof. intros Hw Hn Hc. unfold Unmarshal. rewrite (parse_print n) by done. by rewrite Hc. Qed.

(** The code a process ended with arrives. *)
Lemma exit_decoded code : int_ok code -> unmarshal_exit (exit_payload code) = Client.ExitInfo code "".
Proof.
  intros Hc. unfold unmarshal_exit. rewrite exit_text_json.
  apply (unmarshal_of _ _ 1); [cbn; by rewrite lit_ok_int|done|unfold int_ok in *; carry_members].
Qed.

(** The fixed refusals. *)
Lemma refusals_decoded :
  Forall (fun s => unmarshal_exit (error_payload 126 (literal s)) = Client.ExitInfo 126 s)
    ["no such container"; "already attached"; "empty argv"; "no port"].
Proof. repeat constructor; vm_compute; reflexivity. Qed.

(** Finding: [%q] is not JSON. The error of an exec that cannot start, when
    it holds a control character (of the command's path, say), is escaped in a
    way JSON does not know; the agent ignores the decoding error and takes the
    refused exec for a success. *)
Lemma quoted_error_is_lost :
  let payload := bytes_of_string (error_text 126 (dq +:+ "fork/exec /bin/a\x01: no such file or directory" +:+ dq)) in
  unmarshal_exit payload = Client.ExitInfo 0 "" /\
  Client.exit_error "command terminated with exit code " (unmarshal_exit payload) = None.
Proof. split; vm_compute; reflexivity. Qed.

(** [struct { Cols, Rows uint16 }] *)
Definition size_fields : list (field (Z * Z)) :=
  [ fld "Cols" dec_uint16 fst (fun p v => (v, p.2)); fld "Rows" dec_uint16 snd (fun p v => (p.1, v)) ].
Definition unmarshal_size : bytes -> option (Z * Z) := unmarshal (dec_struct size_fields) (0, 0)%Z.
(** [map[string]uint16] *)
Definition size_json (cols rows : Z) : json := JObj [("Cols", JInt cols); ("Rows", JInt rows)].

Lemma carries_uint16 old z : (0 <= z <= 65535)%Z -> carries dec_uint16 old (JInt z) z.
Proof.
  intros Hz. pose proof (carries_int 0 65535 old z Hz) as H. unfold carries in *. rewrite <-H. cbn [clean JInt dec_uint16].
  destruct (int_lit_sign z) as (b & l & -> & Hb); [lia|]. by repeat case_match.
Qed.

Lemma size_decoded cols rows : (0 <= cols <= 65535)%Z -> (0 <= rows <= 65535)%Z ->
  unmarshal_size (print (size_json cols rows)) = Some (cols, rows).
Proof.
  intros Hc Hr. apply (unmarshal_print _ _ 1); [cbn; by rewrite !lit_ok_int|done|].
  pose proof (carries_uint16 0 cols Hc). pose proof (carries_uint16 0 rows Hr). carry_members.
Qed.

(** ** Statuses *)

Definition zero_status : guestContainerStatus := MkGuest "" "" 0 0 0 0 "".

(** The fields of [guestContainerStatus] (agent); nothing reads [Init]. *)
Definition status_fields : list (field guestContainerStatus) :=
  [ fld "name" dec_string g_Name (fun g v => MkGuest v (g_State g) (g_ExitCode g) (g_Restarts g) (g_StartedAt g) (g_FinishedAt g) (g_Reason g));
    fld "state" dec_string g_State (fun g v => MkGuest (g_Name g) v (g_ExitCode g) (g_Restarts g) (g_StartedAt g) (g_FinishedAt g) (g_Reason g));
    fld "exitCode" dec_int32 g_ExitCode (fun g v => MkGuest (g_Name g) (g_State g) v (g_Restarts g) (g_StartedAt g) (g_FinishedAt g) (g_Reason g));
    fld "restarts" dec_int32 g_Restarts (fun g v => MkGuest (g_Name g) (g_State g) (g_ExitCode g) v (g_StartedAt g) (g_FinishedAt g) (g_Reason g));
    fld "startedAt" dec_int64 g_StartedAt (fun g v => MkGuest (g_Name g) (g_State g) (g_ExitCode g) (g_Restarts g) v (g_FinishedAt g) (g_Reason g));
    fld "finishedAt" dec_int64 g_FinishedAt (fun g v => MkGuest (g_Name g) (g_State g) (g_ExitCode g) (g_Restarts g) (g_StartedAt g) v (g_Reason g));
    fld "reason" dec_string g_Reason (fun g v => MkGuest (g_Name g) (g_State g) (g_ExitCode g) (g_Restarts g) (g_StartedAt g) (g_FinishedAt g) v);
    fld "init" dec_bool (fun _ => false) (fun g _ => g) ].

Definition unmarshal_statuses : bytes -> option (list guestContainerStatus) :=
  unmarshal (dec_list zero_status (dec_struct status_fields)) [].

(** The guest's [containerStatus], fields in order, [omitempty] where it says so. *)
Definition status_entry (s : containerStatus) : json :=
  JObj ([("name", JStr (s_Name s)); ("state", JStr (state_string (s_State s)));
         ("exitCode", JInt (s_ExitCode s)); ("restarts", JInt (s_Restarts s))] ++
        (if bool_decide (s_StartedAt s = 0%Z) then [] else [("startedAt", JInt (s_StartedAt s))]) ++
        (if bool_decide (s_FinishedAt s = 0%Z) then [] else [("finishedAt", JInt (s_FinishedAt s))]) ++
        (if bool_decide (s_Reason s = "") then [] else [("reason", JStr (s_Reason s))]) ++
        (if s_Init s then [("init", JBool true)] else [])).
Definition statuses_json (l : list containerStatus) : json := if bool_decide (l = []) then JNull else JArr (map status_entry l).
(** Marshalling these records does not fail. *)
Definition marshal_statuses (l : list containerStatus) : option bytes := Some (print (statuses_json l)).

Definition status_fits (s : containerStatus) : Prop :=
  utf8_valid (s_Name s) = true /\ utf8_valid (s_Reason s) = true /\ int32_ok (s_ExitCode s) /\ int32_ok (s_Restarts s) /\
  int_ok (s_StartedAt s) /\ int_ok (s_FinishedAt s).

Lemma status_entry_carries s : status_fits s -> carries (dec_struct status_fields) zero_status (status_entry s) (of_guest s).
Proof.
  destruct s as [name st code restarts started fin reason init]. unfold status_fits, int_ok, int32_ok. cbn. intros (Hn & Hr & Hc & Hrs & Hs & Hf).
  assert (utf8_valid (state_string st) = true) as Hst by (by destruct st). unfold status_entry. cbn.
  repeat case_bool_decide; destruct init; subst; cbn; carry_members.
Qed.

Lemma statuses_decoded l : Forall status_fits l -> unmarshal_statuses (print (statuses_json l)) = Some (of_guest <$> l).
Proof.
  intros Hl. unfold statuses_json. case_bool_decide as E; [by subst l|]. apply (unmarshal_print _ _ 2); [|done|].
  - apply wf_array. intros s. unfold status_entry. repeat case_bool_decide; destruct (s_Init s); cbn; by rewrite !lit_ok_int.
  - apply carries_list. rewrite Forall_forall in Hl. intros s Hs. by apply status_entry_carries, Hl.
Qed.

(** ** The messages together *)

(** What the agent's maps say, as the guest's request. *)
Definition sent_as (j : json) (rq : request) : Prop := unmarshal_request (print j) = Some rq.

(** C26 Every message of the control channel is read back as what was written:
    the eight requests (their other fields zero), the exit code, a terminal's
    size, and the statuses with all the agent keeps of them. *)
Theorem control_messages_roundtrip c argv tty port grace timeout path scheme code cols rows sts :
  utf8_valid c = true -> utf8_all argv -> utf8_valid path = true -> utf8_valid scheme = true ->
  Forall int_ok [port; grace; timeout; code] -> (0 <= cols <= 65535)%Z -> (0 <= rows <= 65535)%Z -> Forall status_fits sts ->
  sent_as (exec_json c argv tty) (exec_request c argv tty) /\
  sent_as (attach_json c) (attach_request c) /\
  sent_as (portforward_json port) (portforward_request port) /\
  sent_as status_json (Request "status" "" [] false 0 0 "" 0 "" "" 0 0) /\
  sent_as (kill_json c grace) (Request "kill" c [] false 0 0 "" 0 "" "" 0 grace) /\
  sent_as (shutdown_json grace) (Request "shutdown" "" [] false 0 0 "" 0 "" "" 0 grace) /\
  sent_as (http_probe_json port path scheme timeout) (Request "probe" "" [] false 0 0 "http" port path scheme timeout 0) /\
  sent_as (tcp_probe_json port timeout) (Request "probe" "" [] false 0 0 "tcp" port "" "" timeout 0) /\
  unmarshal_exit (exit_payload code) = Client.ExitInfo code "" /\
  unmarshal_size (print (size_json cols rows)) = Some (cols, rows) /\
  marshal_statuses sts ≫= unmarshal_statuses = Some (of_guest <$> sts).
Proof.
  intros Hc Ha Hpa Hs [Hp [Hg [Ht [Hco _]%Forall_cons]%Forall_cons]%Forall_cons]%Forall_cons Hcols Hrows Hsts. unfold sent_as.
  split_and!; [by apply exec_decoded|by apply attach_decoded|by apply portforward_decoded|apply status_decoded|by apply kill_decoded
    |by apply shutdown_decoded|by apply http_decoded|by apply tcp_decoded|by apply exit_decoded|by apply size_decoded
    |by apply statuses_decoded].
Qed.

Lemma control_messages_roundtrip_witness :
  sent_as (exec_json "app" ["/bin/sh"; "-c"; "echo <a&b>"] true) (exec_request "app" ["/bin/sh"; "-c"; "echo <a&b>"] true) /\
  unmarshal_exit (exit_payload (-1)) = Client.ExitInfo (-1) "".
Proof.
  assert (Forall int_ok [80; 30; 1; -1]%Z) as Hi by (unfold int_ok; repeat constructor; lia).
  destruct (control_messages_roundtrip "app" ["/bin/sh"; "-c"; "echo <a&b>"] true 80 30 1 "/" "http" (-1) 80 24
    [mkContainerStatus "app" Running 0 1 5 0 "" false] eq_refl ltac:(repeat constructor) eq_refl eq_refl Hi ltac:(lia) ltac:(lia)
    ltac:(unfold status_fits, int_ok, int32_ok; cbn; repeat constructor; (done || lia))) as (H1 & _ & _ & _ & _ & _ & _ & _ & H2 & _).
  split; [exact H1|exact H2].
Defined.
