(* ===== verification/ControlPaths.v ===== *)
(** * The control channel end to end, over its JSON

    The agent's clients ([Frames], [KubeletAPI], [StatusPath], [Probes]) and
    the guest's handlers ([Handlers]) with the codecs of [ControlWire] on both
    sides: kubectl exec, the status poll, kills, shutdowns and probes, from
    the message one side writes to what the other is told. *)
From S2P Require Import Prelude GoStrings Json JsonFacts JsonDecode Frames Pod PodLifecycle Logs Status Supervisor Probes Boot Handlers StatusPath KubeletAPI ControlWire.
Import Wire.

(** ** An exit frame is short *)

Lemma pretty_N_go_short x s : (0 < x)%N -> String.length (pretty_N_go x s) <= S (N.to_nat (N.log2 x)) + String.length s.
Proof.
  revert s. induction (N.lt_wf_0 x) as [x _ IH]. intros s Hx. rewrite pretty_N_go_step by done.
  destruct (decide (x < 10)%N) as [Hlt|Hge].
  - rewrite N.div_small, pretty_N_go_0 by done. cbn. lia.
  - assert (0 < x / 10)%N as Hpos by (apply N.div_str_pos; lia).
    assert (N.log2 (x / 10) < N.log2 x)%N as Hlog.
    { apply N.log2_lt_pow2; [done|]. pose proof (N.log2_spec x Hx) as [_ H]. rewrite N.pow_succ_r in H by lia.
      pose proof (N.Div0.mul_div_le x 10). lia. }
    specialize (IH (x / 10)%N (N.div_lt x 10 Hx eq_refl) (String (pretty_N_char (x mod 10)) s) Hpos). cbn [String.length] in IH. lia.
Qed.

Lemma pretty_N_short x : (x < 2 ^ 64)%N -> String.length (pretty x) <= 64.
Proof.
  intros Hx. change (pretty x) with (pretty_N x). unfold pretty_N. case_decide; [cbn; lia|].
  assert (0 < x)%N as Hpos by lia. pose proof (pretty_N_go_short x "" Hpos) as Hl. apply N.log2_lt_pow2 in Hx; [|done]. cbn [String.length] in Hl. lia.
Qed.

Lemma int_short z : int_ok z -> length (bytes_of_string (pretty z)) <= 65.
Proof.
  unfold int_ok. intros Hz. rewrite length_bytes_of_string. destruct z as [|p|p]; [cbn; lia|..].
  - change (pretty (Z.pos p)) with (pretty (N.pos p)). pose proof (pretty_N_short (N.pos p) ltac:(lia)). lia.
  - change (String.length (pretty (Z.neg p))) with (S (String.length (pretty (N.pos p)))). pose proof (pretty_N_short (N.pos p) ltac:(lia)). lia.
Qed.

(** What fits in a frame. *)
Definition fits (b : bytes) : Prop := (Z.of_nat (length b) < u32max)%Z.

Lemma exit_fits code : int_ok code -> fits (exit_payload code).
Proof.
  intros Hc. pose proof (int_short code Hc). unfold fits, exit_payload, exit_text. rewrite !bytes_of_string_app, !length_app.
  change (length (bytes_of_string dq)) with 1. cbn [length bytes_of_string]. lia.
Qed.

Section Paths.
Context (quote : string -> string) (info : cid -> container_info) (has_stdin has_tty : cid -> bool).
Context (launch : command -> bool -> run) (dial : Z -> result string (list bytes)).
Context (tcp_ok : Z -> Z -> bool) (http_get : bool -> string -> Z -> option Z).
Notation handleConn :=
  (handleConn unmarshal_request unmarshal_size marshal_statuses quote info has_stdin has_tty launch dial tcp_ok http_get).
Notation probe_ok := (probe_ok tcp_ok http_get).

(** A connection that opens with a message, and the agent's side of it once
    the guest has answered. *)
Definition asked (j : json) (later : list (Z * bytes)) (g : guest) : handled := handleConn (requesting (print j) later) g.
Definition answered (h : handled) (_ : nat) : result string conn := Ok (Conn (c_out h.1.1) [] None).
Definition told (j : json) (g : guest) : result Client.client_error () :=
  Client.execdRequest unmarshal_exit (answered (asked j [] g)) (print j).

(** ** kubectl exec *)

(** What [kubectl exec] is given back: the two streams and its exit status. *)
Definition session_of_run (tty : bool) (chunks : list (bool * bytes)) (code : Z) : Client.session_out :=
  Client.SessionOut (Some (Client.chunks_of false (outputs tty chunks))) (Some (Client.chunks_of true (outputs tty chunks)))
    (if bool_decide (code = 0%Z) then None
     else Some (Client.CodeExitError ("command terminated with exit code " +:+ pretty code) code)).

(** C8 kubectl exec from the HTTP request to the process and back: a permitted
    request for a container of a pod is served from that pod's VM; the JSON
    message the agent sends starts exactly the container's command, feeds it
    the client's input in order and then its end; and the client is given what
    the process prints on each stream and its exit status, the guest's
    supervisor being untouched. *)
Theorem kubectl_exec_end_to_end wd getPod options_ok stat_ok open_ok r ns name c pod argv0 args tty i cmd chunks w bufs g :
  permitted r -> Forall simple [ns; name; c] -> getPod ns name = Some pod -> options_ok r = true ->
  hr_EscapedPath r = abs_path ["exec"; ns; name; c] -> hr_command r = argv0 :: args ->
  utf8_valid c = true -> utf8_all (argv0 :: args) ->
  byName c (g_sup g) = Some i -> container_command quote (info i) argv0 args = Ok cmd -> launch cmd tty = Ran chunks w ->
  int_ok (wait_code w) -> Forall fits (print (exec_json c (argv0 :: args) tty) :: bufs ++ (snd <$> chunks)) ->
  kubelet (abs_path wd) true getPod options_ok stat_ok open_ok r = Served (ServeExec (PodLifecycle.podStateUID pod) c (argv0 :: args)) /\
  let j := exec_json c (argv0 :: args) tty in
  let h := asked j (Client.stdin_pump (stdin_reads bufs)) g in
  Client.session unmarshal_exit (answered h) (print j) (Some []) (Some []) = Ok (session_of_run tty chunks (wait_code w)) /\
  h.2 = [EStart cmd tty None; EInput ((InWrite <$> filter (fun b => b <> []) bufs) ++ [InClose])] /\
  h.1.2 = g.
Proof.
  intros Hp Hs Hpod Ho He Hcmd Hc Ha Hi Hcc Hl Hcode [Hreq Hfit]%Forall_cons.
  pose proof (exit_fits (wait_code w) Hcode) as Hexit.
  destruct (kubectl_exec_over_codec wd true getPod options_ok stat_ok open_ok (fun rq => print (exec_json (rq_Container rq) (rq_Argv rq) (rq_TTY rq)))
    unmarshal_request unmarshal_size marshal_statuses quote info has_stdin has_tty launch dial tcp_ok http_get unmarshal_exit
    r ns name c pod argv0 args tty i cmd chunks w bufs g Hp eq_refl Hs Hpod Ho He Hcmd (exec_decoded c Hc _ tty Ha) Hi Hcc Hl
    (Forall_cons_2 _ _ _ Hreq (Forall_cons_2 _ _ _ Hexit Hfit)) (exit_decoded _ Hcode)) as [H1 H2].
  split; [exact H1|]. unfold asked, answered. unfold ExecInContainer in H2. cbn [rq_Container rq_Argv rq_TTY exec_request] in H2.
  cbn zeta in *. destruct (handleConn _ g) as [[conn g'] effects]. exact H2.
Qed.

(** ** The status poll *)

(** C9 One poll over the control channel and the JSON of both sides, with any
    outcome of its API requests, leaves the guest and every other pod's status
    alone. When the payload is new since the last attempt to push and the Get
    and the Update go through, the API then says exactly what the guest's
    supervisor knows: every container of the pod has its state, exit code and
    restarts, the phase is Running exactly once all init containers are done,
    and the pod is Ready exactly when moreover every main container is up.
    Otherwise the API is as it was. In every case the payload counts as
    pushed, so what a failed request did not bring to the API is not tried
    again until it changes ([Status.failed_push_is_lost]). *)
Theorem status_end_to_end pol g o now pod vm store :
  reachable pol (ct_Name <$> p_InitContainers pod) (ct_Name <$> p_Containers pod) (g_sup g) ->
  Forall status_fits (statuses (g_sup g)) -> fits (print (statuses_json (statuses (g_sup g)))) ->
  NoDup (ct_Name <$> allContainers pod) ->
  let new := payload pod (of_guest <$> statuses (g_sup g)) vm in
  let h := asked status_json [] g in
  let vs := poll_tick unmarshal_statuses (answered h) (print status_json) true o now pod vm store in
  h.1.2 = g /\ vm_lastPush vs.1 = Some new /\
  (forall k, k <> api_key pod vm -> vs.2 !! k = store !! k) /\
  (vm_lastPush vm = Some new \/ ao_get o && ao_update o = false \/ store !! api_key pod vm = None -> vs.2 = store) /\
  (vm_lastPush vm <> Some new -> ao_get o && ao_update o = true -> is_Some (store !! api_key pod vm) ->
   exists st, vs.2 !! api_key pod vm = Some st /\
    (p_Containers pod <> [] -> shows_all vm false (p_Containers pod) (mains (g_sup g)) (ps_CS st)) /\
    (p_InitContainers pod <> [] -> shows_all vm true (p_InitContainers pod) (inits (g_sup g)) (ps_ICS st)) /\
    ps_Phase st = Some (if decide (Forall done_ok (inits (g_sup g))) then PodRunning else PodPending) /\
    (ps_Ready st = true <->
       p_Containers pod <> [] /\ Forall done_ok (inits (g_sup g)) /\ Forall (up vm) (mains (g_sup g)))).
Proof.
  intros Hr Hfits Hlen Hnd.
  pose proof (status_over_codec unmarshal_request unmarshal_size marshal_statuses quote info has_stdin has_tty launch dial tcp_ok http_get
    pol unmarshal_statuses (print status_json) _ g (print (statuses_json (statuses (g_sup g)))) o now pod vm store
    status_decoded eq_refl) as H.
  unfold asked, answered. specialize (H ltac:(constructor; [done|by constructor]) eq_refl (statuses_decoded _ Hfits) Hr Hnd).
  destruct (handleConn _ g) as [[conn g'] effects]. exact H.
Qed.

(** ** Kills, shutdowns, probes *)

(** What [control_over_codec] says of one message. *)
Lemma control_message j rq g :
  sent_as j rq -> fits (print j) -> Forall status_fits (statuses (g_sup g)) -> fits (print (statuses_json (statuses (g_sup g)))) ->
  let h := asked j [] g in
  (0 < grace_of rq)%Z /\
  (rq_Op rq = "kill" ->
     match byName (rq_Container rq) (g_sup g) with
     | Some (init, i) =>
         told j g = Ok () /\ exec (ATerminate init i) (g_sup g) = Some (g_sup h.1.2) /\ h.2 = [ETerminate (init, i) (grace_of rq)]
     | None => told j g = Err (Client.CodeExit (Client.CodeExitError "no such container" 126)) /\ h.1.2 = g /\ h.2 = []
     end) /\
  (rq_Op rq = "shutdown" -> told j g = Ok () /\ exec AShutdown (g_sup g) = Some (g_sup h.1.2) /\ h.2 = [EShutdown (grace_of rq)]) /\
  (rq_Op rq = "probe" -> h.1.2 = g /\ (told j g = Ok () <-> probe_ok rq = true)) /\
  (rq_Op rq = "status" -> h.1.2 = g /\ Client.execdStatus unmarshal_statuses (answered h) (print j) = Ok (of_guest <$> statuses (g_sup g))).
Proof.
  intros Hu Hf Hsts Hlen.
  pose proof (control_over_codec unmarshal_request unmarshal_size marshal_statuses quote info has_stdin has_tty launch dial tcp_ok http_get
    unmarshal_exit unmarshal_statuses (print j) rq g (print (statuses_json (statuses (g_sup g)))) (of_guest <$> statuses (g_sup g)) Hu
    ltac:(constructor; [done|by constructor])) as H.
  specialize (H (exit_decoded 0 ltac:(by unfold int_ok)) (exit_decoded 1 ltac:(by unfold int_ok)) (Forall_inv refusals_decoded) eq_refl
    (statuses_decoded _ Hsts)).
  unfold told, asked, answered. destruct (handleConn _ g) as [[conn g'] effects]. exact H.
Qed.

Definition grace_given (grace : Z) : Z := if bool_decide (grace <= 0)%Z then 30 else grace.
Definition seconds_given (timeout : Z) : Z := if bool_decide (timeout <= 0)%Z then 1 else timeout.

(** What the probe of a port finds in the guest. *)
Definition http_healthy (port : Z) (path scheme : string) (timeout : Z) : bool :=
  let scheme := if bool_decide (scheme = "") then "http" else scheme in
  match http_get (bool_decide (scheme = "https")) (scheme +:+ "://127.0.0.1:" +:+ pretty port +:+ path) (seconds_given timeout) with
  | Some status => bool_decide (200 <= status < 400)%Z
  | None => false
  end.

(** C15 What the agent is told of its control requests is what the guest did:
    a kill of a known container is one [terminate] step of the supervisor, of
    an unknown one an error and no change; a shutdown is one [shutdownAll]
    step, both with a positive grace period; a probe of a port succeeds
    exactly when the connection or the GET in the guest does; and the status
    is the supervisor's. *)
Theorem control_end_to_end c grace port path scheme timeout g :
  utf8_valid c = true -> utf8_valid path = true -> utf8_valid scheme = true -> Forall int_ok [grace; port; timeout] ->
  Forall status_fits (statuses (g_sup g)) ->
  Forall (fun j => fits (print j)) [kill_json c grace; shutdown_json grace; http_probe_json port path scheme timeout;
    tcp_probe_json port timeout; statuses_json (statuses (g_sup g))] ->
  (let h := asked (kill_json c grace) [] g in
   match byName c (g_sup g) with
   | Some (init, i) => told (kill_json c grace) g = Ok () /\ exec (ATerminate init i) (g_sup g) = Some (g_sup h.1.2) /\
       h.2 = [ETerminate (init, i) (grace_given grace)]
   | None => told (kill_json c grace) g = Err (Client.CodeExit (Client.CodeExitError "no such container" 126)) /\ h.1.2 = g /\ h.2 = []
   end) /\
  (let h := asked (shutdown_json grace) [] g in
   told (shutdown_json grace) g = Ok () /\ exec AShutdown (g_sup g) = Some (g_sup h.1.2) /\ h.2 = [EShutdown (grace_given grace)]) /\
  (told (http_probe_json port path scheme timeout) g = Ok () <-> http_healthy port path scheme timeout = true) /\
  (told (tcp_probe_json port timeout) g = Ok () <-> tcp_ok port (seconds_given timeout) = true) /\
  (let h := asked status_json [] g in
   h.1.2 = g /\ Client.execdStatus unmarshal_statuses (answered h) (print status_json) = Ok (of_guest <$> statuses (g_sup g))).
Proof.
  intros Hc Hpa Hs [Hg [Hp [Ht _]%Forall_cons]%Forall_cons]%Forall_cons Hsts
    [F1 [F2 [F3 [F4 [F5 _]%Forall_cons]%Forall_cons]%Forall_cons]%Forall_cons]%Forall_cons.
  destruct (control_message _ _ g (kill_decoded c Hc grace Hg) F1 Hsts F5) as (_ & H1 & _).
  destruct (control_message _ _ g (shutdown_decoded grace Hg) F2 Hsts F5) as (_ & _ & H2 & _).
  destruct (control_message _ _ g (http_decoded port path scheme timeout Hp Ht Hpa Hs) F3 Hsts F5) as (_ & _ & _ & H3 & _).
  destruct (control_message _ _ g (tcp_decoded port timeout Hp Ht) F4 Hsts F5) as (_ & _ & _ & H4 & _).
  destruct (control_message _ _ g status_decoded ltac:(done) Hsts F5) as (_ & _ & _ & _ & H5).
  split; [exact (H1 eq_refl)|]. split; [exact (H2 eq_refl)|]. split; [exact (proj2 (H3 eq_refl))|]. split; [exact (proj2 (H4 eq_refl))|].
  exact (H5 eq_refl).
Qed.

(** ** doProbe *)

Definition probe_json (rq : probe_request) : json :=
  match rq with
  | ReqExec container argv => exec_json container argv false
  | ReqHTTP port path scheme timeout => http_probe_json port path scheme timeout
  | ReqTCP port timeout => tcp_probe_json port timeout
  end.

(** The request a probe makes. *)
Definition probe_asks (container : string) (p : Probe) : probe_request :=
  match pr_Handler p with
  | ProbeExec command => ReqExec container command
  | ProbeHTTPGet port path scheme => ReqHTTP port path (ToLower scheme) (Probes.probe_timeout p)
  | ProbeTCPSocket port => ReqTCP port (Probes.probe_timeout p)
  | ProbeNone => ReqExec container []
  end.

(** One iteration of a probe loop against a guest: the request is answered and
    the connection read to its end. *)
Definition probe_guest (container : string) (p : Probe) (g : guest) : bool :=
  doProbe unmarshal_exit (fun rq => print (probe_json rq)) (answered (asked (probe_json (probe_asks container p)) [] g)) container p.

(** Whether the container is healthy by the probe: its command exits 0, the
    GET has a status from 200 to 399, the port accepts a connection. *)
Definition healthy (container : string) (p : Probe) (g : guest) : bool :=
  match pr_Handler p with
  | ProbeExec (argv0 :: args) =>
      match byName container (g_sup g) with
      | Some i =>
          match container_command quote (info i) argv0 args with
          | Ok cmd => match launch cmd false with Ran _ w => bool_decide (wait_code w = 0%Z) | _ => false end
          | _ => false
          end
      | None => false
      end
  | ProbeExec [] | ProbeNone => false
  | ProbeHTTPGet port path scheme => negb (bool_decide (port = 0%Z)) && http_healthy port path (ToLower scheme) (Probes.probe_timeout p)
  | ProbeTCPSocket port => negb (bool_decide (port = 0%Z)) && tcp_ok port (seconds_given (Probes.probe_timeout p))
  end.

(** An exec probe's process can be started, when the container is there. *)
Definition starts (container : string) (p : Probe) (g : guest) : Prop :=
  match pr_Handler p with
  | ProbeExec (argv0 :: args) => forall i, byName container (g_sup g) = Some i ->
      exists cmd chunks w, container_command quote (info i) argv0 args = Ok cmd /\ launch cmd false = Ran chunks w /\
        int_ok (wait_code w) /\ Forall fits (snd <$> chunks)
  | _ => True
  end.

Definition probe_utf8 (p : Probe) : Prop :=
  match pr_Handler p with
  | ProbeExec command => utf8_all command
  | ProbeHTTPGet port path scheme => int_ok port /\ utf8_valid path = true /\ utf8_valid (ToLower scheme) = true
  | ProbeTCPSocket port => int_ok port
  | ProbeNone => True
  end.

Lemma asked_dispatch j rq g : sent_as j rq -> fits (print j) ->
  asked j [] g = dispatch unmarshal_size marshal_statuses quote info has_stdin has_tty launch dial tcp_ok http_get rq (Conn [] [] None) g.
Proof. intros Hu Hf. unfold asked. by rewrite (handleConn_request _ _ _ _ _ _ _ _ _ _ _ _ _ _ _ Hf Hu). Qed.

(** A probe of a port: the exit frame says whether it succeeded. *)
Lemma port_probe j rq g : sent_as j rq -> fits (print j) -> rq_Op rq = "probe" -> is_ok (told j g) = probe_ok rq.
Proof.
  intros Hu Hf Hop. unfold told, answered. rewrite (asked_dispatch j rq) by done. unfold dispatch. rewrite Hop.
  repeat (rewrite bool_decide_false by discriminate). rewrite bool_decide_true by done. unfold handleProbe. cbn [fst snd].
  assert (int_ok (if probe_ok rq then 0 else 1)) as Hc by (by destruct (probe_ok rq)). pose proof (exit_fits _ Hc) as Hx.
  rewrite answer_out by done. cbn [c_out app].
  change (fun _ : nat => _) with (replies [] (exit_payload (if probe_ok rq then 0 else 1)%Z)).
  rewrite request_of, exit_decoded by done. by destruct (probe_ok rq).
Qed.

(** The loop's view of a probe is the container's: [doProbe] returns nil
    exactly when the container is healthy by the probe. *)
Theorem probe_end_to_end container p g :
  utf8_valid container = true -> probe_utf8 p -> int_ok (Probes.probe_timeout p) ->
  fits (print (probe_json (probe_asks container p))) -> starts container p g ->
  probe_guest container p g = healthy container p g.
Proof.
  intros Hc Hp Ht Hf Hs. unfold probe_guest, healthy, doProbe, probe_utf8, starts, probe_asks in *.
  destruct (pr_Handler p) as [command|port path scheme|port|]; [|case_bool_decide; [done|]..|done]; cbn [probe_json negb andb] in *.
  - rewrite (asked_dispatch _ (exec_request container command false)) by (done || by apply exec_decoded).
    unfold dispatch. cbn [rq_Op exec_request]. rewrite bool_decide_true by done. unfold Handlers.handleExec. cbn [rq_Argv rq_Container rq_TTY exec_request].
    assert (forall why, why ∈ ["no such container"; "already attached"; "empty argv"; "no port"] ->
      match Client.session unmarshal_exit (answered (answer (error_payload 126 (literal why)) (Conn [] [] None), g, [])) (print (exec_json container command false)) (Some []) (Some []) with
      | Ok so => bool_decide (Client.so_ret so = None) | _ => false end = false) as Href.
    { intros why Hin. unfold answered. cbn [fst]. rewrite answer_out by done. cbn [c_out app].
      change (fun _ : nat => _) with (replies [] (error_payload 126 (literal why))). rewrite session_of; [|done..|revert why Hin; apply Forall_forall; repeat constructor].
      pose proof refusals_decoded as Hr. rewrite Forall_forall in Hr. rewrite Hr by done. unfold Client.exit_error. cbn. by case_bool_decide. }
    destruct command as [|argv0 args]; [by apply (Href "empty argv"); repeat constructor|].
    destruct (byName container (g_sup g)) as [i|]; [|by apply (Href "no such container"); repeat constructor].
    destruct (Hs i eq_refl) as (cmd & chunks & w & -> & -> & Hw & Hch).
    pose proof (exit_fits _ Hw) as Hx. unfold answered. cbn [fst]. rewrite copy_chunks_out, answer_out by done. cbn [c_out app].
    change (fun _ : nat => _) with (replies (Client.chunk_frame <$> outputs false chunks) (exit_payload (wait_code w))).
    rewrite session_of_chunks by (by constructor || by apply exit_decoded). cbn. by repeat case_bool_decide.
  - destruct Hp as (Hport & Hpath & Hscheme). by apply (port_probe _ _ g (http_decoded _ _ _ _ Hport Ht Hpath Hscheme)).
  - by apply (port_probe _ _ g (tcp_decoded _ _ Hp Ht)).
Qed.

End Paths.

(** ** Witnesses *)

Notation ex_asked := (asked literal ex_info (fun _ => true) (fun _ => false) ex_launch (fun _ => Ok []) (fun _ _ => true) (fun _ _ _ => None)).
Notation ex_told := (told literal ex_info (fun _ => true) (fun _ => false) ex_launch (fun _ => Ok []) (fun _ _ => true) (fun _ _ _ => None)).

Definition ex_exec_pod : Pod := MkPod "uid" "web" "ns" ∅ [] [] "" [] None None false None.
Definition ex_exec : http_request := HttpRequest (Some [APIExample.apiserver]) "/exec/ns/web/app" ["/bin/date"; "-u"] "" "".

Lemma kubectl_exec_end_to_end_witness :
  kubelet "/var/pods" true APIExample.pod (fun _ => true) (fun _ => true) (fun _ => true) ex_exec =
    Served (ServeExec "uid" "app" ["/bin/date"; "-u"]) /\
  let j := exec_json "app" ["/bin/date"; "-u"] false in
  let h := ex_asked j (Client.stdin_pump (stdin_reads [[1; 2]; []; [3]]%Z)) ex_guest in
  Client.session unmarshal_exit (answered h) (print j) (Some []) (Some []) =
    Ok (Client.SessionOut (Some [104; 105]%Z) (Some [33]%Z) (Some (Client.CodeExitError "command terminated with exit code 3" 3))) /\
  h.2 = [EStart ex_command false None; EInput [InWrite [1; 2]%Z; InWrite [3]%Z; InClose]] /\ h.1.2 = ex_guest.
Proof.
  apply (kubectl_exec_end_to_end literal ex_info (fun _ => true) (fun _ => false) ex_launch (fun _ => Ok []) (fun _ _ => true)
    (fun _ _ _ => None) ["var"; "pods"] APIExample.pod (fun _ => true) (fun _ => true) (fun _ => true) ex_exec "ns" "web" "app" ex_exec_pod
    "/bin/date" ["-u"] false (false, 0) ex_command [(false, [104]); (true, [33]); (false, [105])]%Z (WaitExit 3) [[1; 2]; []; [3]]%Z ex_guest);
    try reflexivity.
  - exists APIExample.apiserver, []. split; [reflexivity|left; reflexivity].
  - repeat apply Forall_cons_2; [..|apply Forall_nil_2]; split_and!; done.
  - repeat constructor.
  - unfold int_ok. cbn. lia.
  - unfold fits. apply (bool_decide_unpack _). vm_compute. exact I.
Defined.

(** An init container that has exited and a main that runs. *)
Definition ex_poll_labels : list action :=
  [AContainer true 0 (EvStartOk 5); AContainer true 0 (EvExit 9 WaitOk); ARun; AContainer false 0 (EvStartOk 15)].
Definition ex_poll_sup : sup := default (start "Never" ["i"] ["a"]) (exec_all ex_poll_labels (start "Never" ["i"] ["a"])).
Definition ex_poll_guest : guest := Guest ex_poll_sup [].
Definition ex_poll_pod : Pod := ex_pod ["i"] ["a"].
Definition ex_poll_vm : podVM := initReady ex_poll_pod (new_vm "uid" "web" "ns" false "").
Definition ex_poll_store : api := {[ ("ns", "web") := MkPodStatus None "" "" None "" false false false [] [] ]}.

Lemma ex_poll_fits : Forall status_fits (statuses (g_sup ex_poll_guest)).
Proof. unfold status_fits, int_ok, int32_ok. apply (bool_decide_unpack _). vm_compute. exact I. Qed.

Lemma status_end_to_end_witness :
  let h := ex_asked status_json [] ex_poll_guest in
  let polled o := poll_tick unmarshal_statuses (answered h) (print status_json) true o 9 ex_poll_pod ex_poll_vm ex_poll_store in
  h.1.2 = ex_poll_guest /\
  (exists st, (polled (ApiOutcome true true)).2 !! ("ns", "web") = Some st /\ ps_Phase st = Some PodRunning /\ ps_Ready st = true) /\
  (polled (ApiOutcome true false)).2 = ex_poll_store.
Proof.
  assert (reachable "Never" ["i"] ["a"] (g_sup ex_poll_guest)) as Hr.
  { apply (exec_all_rtc ex_poll_labels). vm_compute. reflexivity. }
  assert (fits (print (statuses_json (statuses (g_sup ex_poll_guest))))) as Hlen.
  { unfold fits. apply (bool_decide_unpack _). vm_compute. exact I. }
  assert (NoDup (ct_Name <$> allContainers ex_poll_pod)) as Hnd by (apply (bool_decide_unpack _); vm_compute; exact I).
  pose proof (fun o => status_end_to_end literal ex_info (fun _ => true) (fun _ => false) ex_launch (fun _ => Ok []) (fun _ _ => true)
    (fun _ _ _ => None) "Never" ex_poll_guest o 9 ex_poll_pod ex_poll_vm ex_poll_store Hr ex_poll_fits Hlen Hnd) as H.
  destruct (H (ApiOutcome true false)) as (_ & _ & _ & Hlost & _).
  destruct (H (ApiOutcome true true)) as (Hg & _ & _ & _ & Hpush). clear H.
  split; [exact Hg|]. split; [|apply Hlost; right; left; reflexivity].
  destruct Hpush as (st & Hst & _ & _ & Hph & Hready); [vm_compute; discriminate|reflexivity|eexists; reflexivity|].
  exists st. split; [exact Hst|]. split.
  - rewrite Hph. vm_compute. reflexivity.
  - apply Hready. split; [discriminate|]. split; apply (bool_decide_unpack _); vm_compute; exact I.
Defined.

Lemma control_end_to_end_witness :
  (let h := ex_asked (kill_json "a" 0) [] ex_poll_guest in
   ex_told (kill_json "a" 0) ex_poll_guest = Ok () /\ exec (ATerminate false 0) (g_sup ex_poll_guest) = Some (g_sup h.1.2) /\
   h.2 = [ETerminate (false, 0) (grace_given 0)]) /\
  ex_told (tcp_probe_json 80 1) ex_poll_guest = Ok ().
Proof.
  assert (Forall int_ok [0; 80; 1]%Z) as Hi by (unfold int_ok; repeat constructor; lia).
  destruct (control_end_to_end literal ex_info (fun _ => true) (fun _ => false) ex_launch (fun _ => Ok []) (fun _ _ => true) (fun _ _ _ => None)
    "a" 0 80 "/" "http" 1 ex_poll_guest eq_refl eq_refl eq_refl Hi ex_poll_fits) as (H1 & _ & _ & H4 & _).
  - unfold fits. apply (bool_decide_unpack _). vm_compute. exact I.
  - assert (byName "a" (g_sup ex_poll_guest) = Some (false, 0)) as E by (vm_compute; reflexivity).
    cbn zeta in H1. rewrite E in H1. split; [exact H1|]. apply H4. reflexivity.
Defined.

Definition ex_exec_probe : Probe := ex_probe (ProbeExec ["/bin/date"; "-u"]) 1 3.

Lemma probe_end_to_end_witness :
  probe_guest literal ex_info (fun _ => true) (fun _ => false) ex_launch (fun _ => Ok []) (fun _ _ => true) (fun _ _ _ => None)
    "app" ex_exec_probe ex_guest = false.
Proof.
  rewrite (probe_end_to_end literal ex_info (fun _ => true) (fun _ => false) ex_launch (fun _ => Ok []) (fun _ _ => true) (fun _ _ _ => None)
    "app" ex_exec_probe ex_guest).
  - reflexivity.
  - reflexivity.
  - repeat constructor.
  - vm_compute. split; discriminate.
  - reflexivity.
  - intros i Hi. injection Hi as <-. exists ex_command, [(false, [104]); (true, [33]); (false, [105])]%Z, (WaitExit 3).
    split; [reflexivity|]. split; [reflexivity|]. split; [unfold int_ok; cbn; lia|]. unfold fits. apply (bool_decide_unpack _). vm_compute. exact I.
Defined.
