(* ===== verification/PodProbes.v ===== *)
(** * The probes of a pod, and what they kill (poc/agent/probes.go)

    [Probes] has the loops of one container and [ControlPaths] one probe
    against the guest. Here are the loops of all the pod's containers over
    its one [podVM] ([runProbes]), and [killContainer] with what it does in
    the guest, or to the VM when the guest does not answer. *)
From S2P Require Import Prelude GoStrings Json JsonFacts JsonDecode Frames Pod PodLifecycle Supervisor Probes Boot Handlers ControlWire ControlPaths.
Import Wire.

(** ** [runProbes] *)

(** The loops of the containers; the VM they report to is shared. *)
Record pod_probes := PodProbes { pp_vm : podVM; pp_loops : list cprobes }.

Definition runProbes (pod : Pod) (vm : podVM) : pod_probes :=
  PodProbes vm ((fun c => runContainerProbes c vm) <$> p_Containers pod).

Definition with_vm (vm : podVM) (s : cprobes) : cprobes :=
  CProbes (cp_done s) (cp_startup s) (cp_readiness s) (cp_liveness s) vm.

(** One iteration of one loop of container [i]. *)
Definition pod_step (pod : Pod) (i : nat) (k : probe_kind) (healthy : bool) (s : pod_probes) : option (pod_probes * list Probes.effect) :=
  c ← p_Containers pod !! i;
  l ← pp_loops s !! i;
  '(l', es) ← container_step c k healthy (with_vm (pp_vm s) l);
  Some (PodProbes (cp_vm l') (<[i := l']> (pp_loops s)), es).

(** Any interleaving of all the loops; the effects with their container. *)
Fixpoint pod_run (pod : Pod) (rs : list (nat * (probe_kind * bool))) (s : pod_probes) : pod_probes * list (nat * Probes.effect) :=
  match rs with
  | [] => (s, [])
  | (i, (k, r)) :: rs' =>
      match pod_step pod i k r s with
      | None => pod_run pod rs' s
      | Some (s1, es) => let '(s2, es') := pod_run pod rs' s1 in (s2, ((i,.) <$> es) ++ es')
      end
  end.

Definition of_container {A} (i : nat) (l : list (nat * A)) : list A := snd <$> filter (fun x => x.1 = i) l.

Lemma of_container_cons {A} i j (x : A) l : of_container i ((j, x) :: l) = (if bool_decide (j = i) then [x] else []) ++ of_container i l.
Proof. unfold of_container. rewrite filter_cons. cbn [fst]. case_decide; [by rewrite bool_decide_true|by rewrite bool_decide_false]. Qed.
Lemma of_container_app {A} i (l k : list (nat * A)) : of_container i (l ++ k) = of_container i l ++ of_container i k.
Proof. unfold of_container. by rewrite filter_app, fmap_app. Qed.
Lemma of_container_same {A} i (l : list A) : of_container i ((i,.) <$> l) = l.
Proof. induction l as [|x l IH]; [done|]. change ((i,.) <$> x :: l) with ((i, x) :: ((i,.) <$> l)). by rewrite of_container_cons, bool_decide_true, IH. Qed.
Lemma of_container_other {A} i j (l : list A) : i <> j -> of_container i ((j,.) <$> l) = [].
Proof.
  intros Hn. induction l as [|x l IH]; [done|]. change ((j,.) <$> x :: l) with ((j, x) :: ((j,.) <$> l)).
  rewrite of_container_cons, bool_decide_false, IH; [done|congruence].
Qed.

(** What a container's loops keep for themselves, and what they see of the VM. *)
Record alike (c : Container) (s t : cprobes) : Prop := Alike {
  al_done : cp_done s = cp_done t;
  al_counters : forall k, counters_of k s = counters_of k t;
  al_ready : containerReady (ct_Name c) (cp_vm s) = containerReady (ct_Name c) (cp_vm t)
}.

Lemma alike_counters c s t k st : alike c s t -> alike c (set_counters k st s) (set_counters k st t).
Proof.
  intros [Hd Hc Hr]. pose proof (Hc Startup). pose proof (Hc Readiness). pose proof (Hc Liveness). cbn in *.
  split; [by destruct k|intros []; by destruct k|by destruct k].
Qed.

Lemma set_ready_alike c r s t : alike c s t ->
  alike c (set_container_ready c r s).1 (set_container_ready c r t).1 /\ (set_container_ready c r s).2 = (set_container_ready c r t).2.
Proof.
  intros [Hd Hc Hr]. unfold set_container_ready, setContainerReady. cbn. rewrite Hr. split; [|done]. split; [done|intros k; specialize (Hc k); by destruct k|].
  cbn. unfold containerReady. cbn. by rewrite !lookup_insert_eq.
Qed.

Lemma report_alike c k b s t : alike c s t ->
  alike c (on_report c k b s).1 (on_report c k b t).1 /\ (on_report c k b s).2 = (on_report c k b t).2.
Proof.
  intros Ha. destruct k; cbn [on_report]; [|by apply set_ready_alike|done].
  destruct b; [|done]. rewrite (al_done _ _ _ Ha). destruct (cp_done t); [done|]. case_bool_decide; [|].
  - apply set_ready_alike. destruct Ha as [Hd Hc Hr]. split; [done|intros k; specialize (Hc k); by destruct k|done].
  - destruct Ha as [Hd Hc Hr]. split; [|done]. split; [done|intros k; specialize (Hc k); by destruct k|done].
Qed.

(** A step of a container's loops sees of the VM only its own flag. *)
Lemma step_alike c k r s t : alike c s t ->
  match container_step c k r s, container_step c k r t with
  | Some (s', es), Some (t', fs) => alike c s' t' /\ es = fs
  | None, None => True
  | _, _ => False
  end.
Proof.
  intros Ha. unfold container_step. destruct (probe_of c k) as [p|]; [|done]. rewrite (al_done _ _ _ Ha), (al_counters _ _ _ Ha).
  destruct (_ && _); [done|]. destruct (probe_step k p r (counters_of k t)) as [st [b|]].
  - pose proof (report_alike c k b _ _ (alike_counters c _ _ k st Ha)) as [H1 H2].
    by destruct (on_report c k b (set_counters k st s)), (on_report c k b (set_counters k st t)).
  - split; [by apply alike_counters|done].
Qed.

(** It changes no other flag. *)
Lemma step_other_flags c k r s s' es name : container_step c k r s = Some (s', es) -> name <> ct_Name c ->
  containerReady name (cp_vm s') = containerReady name (cp_vm s).
Proof.
  intros H Hn. unfold container_step, on_report, set_container_ready, setContainerReady in H.
  repeat (case_match; try done); simplify_eq/=; try done; unfold containerReady; cbn; (by rewrite lookup_insert_ne) || by destruct k.
Qed.

(** The containers of a pod are probed apart: whatever the interleaving of
    all loops, each container's loops, its readiness flag and the kills and
    pushes they cause are those of its own results alone, as if the other
    containers had no probes. *)
Theorem containers_probed_apart pod vm rs i c : NoDup (ct_Name <$> p_Containers pod) -> p_Containers pod !! i = Some c ->
  let r := pod_run pod rs (runProbes pod vm) in
  let own := container_run c (of_container i rs) (runContainerProbes c vm) in
  of_container i r.2 = own.2 /\ containerReady (ct_Name c) (pp_vm r.1) = containerReady (ct_Name c) (cp_vm own.1) /\
  exists l, pp_loops r.1 !! i = Some l /\ cp_done l = cp_done own.1 /\ forall k, counters_of k l = counters_of k own.1.
Proof.
  intros Hn Hc. assert (forall s t, (exists l, pp_loops s !! i = Some l /\ alike c (with_vm (pp_vm s) l) t) ->
    let r := pod_run pod rs s in let own := container_run c (of_container i rs) t in
    of_container i r.2 = own.2 /\ exists l, pp_loops r.1 !! i = Some l /\ alike c (with_vm (pp_vm r.1) l) own.1) as Hgen.
  { induction rs as [|[j [k r]] rs IH]; intros s t (l & Hl & Ha); [by split; [|exists l]|]. rewrite of_container_cons. cbn [pod_run].
    unfold pod_step. case_bool_decide as Hj; [subst j|]; cbn [app container_run].
    - rewrite Hc, Hl. cbn [mbind option_bind]. pose proof (step_alike c k r _ _ Ha) as Hs.
      destruct (container_step c k r (with_vm (pp_vm s) l)) as [[l' es]|], (container_step c k r t) as [[t' fs]|]; try done.
      + destruct Hs as [Ha' ->]. cbn [mbind option_bind]. specialize (IH (PodProbes (cp_vm l') (<[i := l']> (pp_loops s))) t').
        destruct (pod_run pod rs _) as [s2 es2], (container_run c _ t') as [t2 fs2]. cbn [fst snd] in *.
        destruct IH as [E H]; [|by rewrite of_container_app, of_container_same, E]. exists l'. cbn [pp_loops pp_vm].
        split; [apply list_lookup_insert_eq; by eapply lookup_lt_Some|]. by destruct Ha', l'.
      + by apply IH; exists l.
    - destruct (p_Containers pod !! j) as [d|] eqn:Hd; [|by apply IH; exists l]. destruct (pp_loops s !! j) as [m|]; [|by apply IH; exists l].
      cbn [mbind option_bind]. destruct (container_step d k r (with_vm (pp_vm s) m)) as [[m' es]|] eqn:Es; [|by apply IH; exists l].
      cbn [mbind option_bind]. specialize (IH (PodProbes (cp_vm m') (<[j := m']> (pp_loops s))) t).
      destruct (pod_run pod rs _) as [s2 es2], (container_run c _ t) as [t2 fs2]. cbn [fst snd] in *.
      destruct IH as [E H]; [|split; [|done]; by rewrite of_container_app, of_container_other, E by done].
      exists l. cbn [pp_loops pp_vm]. rewrite list_lookup_insert_ne by done. split; [done|]. destruct Ha as [H1 H2 H3]. split; [done|done|].
      rewrite <-H3. cbn [with_vm cp_vm]. eapply (step_other_flags d) in Es; [exact Es|]. intros E.
      apply Hj. eapply NoDup_lookup; [exact Hn|..]; rewrite list_lookup_fmap; [by rewrite Hd|by rewrite Hc; cbn; rewrite E]. }
  cbn zeta. destruct (Hgen (runProbes pod vm) (runContainerProbes c vm)) as (H1 & l & H2 & [H3 H4 H5]).
  { exists (runContainerProbes c vm). split; [unfold runProbes; cbn [pp_loops]; by rewrite list_lookup_fmap, Hc|done]. }
  split; [done|]. split; [done|]. exists l. split; [done|]. split; [done|]. intros k. specialize (H4 k). by destruct k.
Qed.

(** ** [killContainer] *)

Section Kill.
Context (quote : string -> string) (info : cid -> container_info) (has_stdin has_tty : cid -> bool).
Context (launch : command -> bool -> Handlers.run) (dial : Z -> result string (list bytes)).
Context (tcp_ok : Z -> Z -> bool) (http_get : bool -> string -> Z -> option Z).
Notation asked := (asked quote info has_stdin has_tty launch dial tcp_ok http_get).

(** The agent and one of its VMs: the guest, when its control channel can be
    reached, and what was done in it on the agent's requests. *)
Record node := Node { n_agent : agent; n_guest : option guest; n_done : list Handlers.effect }.

(** The connection of a request. *)
Definition reached (n : node) (j : json) : nat -> result string conn :=
  match n_guest n with Some g => answered (asked j [] g) | None => fun _ => Err "connection refused" end.

(** A request: whether the agent is told that it was done, and what it did. *)
Definition requested (j : json) (n : node) : node * bool :=
  (match n_guest n with
   | Some g => Node (n_agent n) (Some (asked j [] g).1.2) (n_done n ++ (asked j [] g).2)
   | None => n
   end, is_ok (Client.execdRequest unmarshal_exit (reached n j) (print j))).

Lemma requested_guest j a g ds :
  requested j (Node a (Some g) ds) =
    (Node a (Some (asked j [] g).1.2) (ds ++ (asked j [] g).2), is_ok (told quote info has_stdin has_tty launch dial tcp_ok http_get j g)).
Proof. unfold requested, told, reached. cbn [n_guest n_agent n_done]. done. Qed.

(** [killVM], for its request's outcome in the guest. *)
Definition kill_vm (v : nat) (why : kill_reason) (grace : Z) (n : node) : node :=
  let '(n, ok) := requested (shutdown_json grace) n in Node (killVM v why grace ok (n_agent n)) (n_guest n) (n_done n).

(** [killContainer] *)
Definition killContainer (v : nat) (container : string) (grace : Z) (reason : string) (n : node) : node :=
  let '(n, ok) := requested (kill_json container grace) n in
  if ok then n else kill_vm v (ByProbe reason) grace n.

(** One iteration of a probe loop with what it leads to; [pushStatus] is in
    [StatusPath]. *)
Definition probed (container : string) (p : Probe) (n : node) : bool :=
  doProbe unmarshal_exit (fun rq => print (probe_json rq)) (reached n (probe_json (probe_asks container p))) container p.
Definition acted (pod : Pod) (v : nat) (c : Container) (e : Probes.effect) (n : node) : node :=
  match e with EffKill reason => killContainer v (ct_Name c) (podGracePeriod pod) reason n | EffPush => n end.
Definition probe_tick (pod : Pod) (v : nat) (c : Container) (k : probe_kind) (s : cprobes) (n : node) : option (cprobes * node) :=
  p ← probe_of c k;
  '(s', es) ← container_step c k (probed (ct_Name c) p n) s;
  Some (s', foldl (fun n e => acted pod v c e n) n es).

(** What a kill does: SIGTERM to the container's process, and a timer that
    kills it if it still runs after the grace period. *)
Lemma kill_exact v c grace reason a g ds :
  utf8_valid c = true -> int_ok grace -> fits (print (kill_json c grace)) -> fits (print (shutdown_json grace)) ->
  Forall status_fits (statuses (g_sup g)) -> fits (print (statuses_json (statuses (g_sup g)))) ->
  let n' := killContainer v c grace reason (Node a (Some g) ds) in
  match byName c (g_sup g) with
  | Some (init, i) =>
      exists g', n' = Node a (Some g') (ds ++ [ETerminate (init, i) (grace_given grace)]) /\ exec (ATerminate init i) (g_sup g) = Some (g_sup g')
  | None =>
      exists g', n' = Node (killVM v (ByProbe reason) grace true a) (Some g') (ds ++ [EShutdown (grace_given grace)]) /\
        exec AShutdown (g_sup g) = Some (g_sup g')
  end.
Proof.
  intros Hc Hg F1 F2 Hs F3. unfold killContainer. rewrite requested_guest.
  destruct (control_message quote info has_stdin has_tty launch dial tcp_ok http_get _ _ g (kill_decoded c Hc grace Hg) F1 Hs F3) as (_ & H1 & _).
  specialize (H1 eq_refl). cbn [rq_Container] in H1. cbn zeta in *. destruct (byName c (g_sup g)) as [[init i]|].
  - destruct H1 as (-> & H2 & H3). cbn [is_ok]. rewrite H3. by eexists.
  - destruct H1 as (-> & H2 & H3). cbn [is_ok]. rewrite H2, H3, app_nil_r. unfold kill_vm. rewrite requested_guest.
    destruct (control_message quote info has_stdin has_tty launch dial tcp_ok http_get _ _ g (shutdown_decoded grace Hg) F2 Hs F3) as (_ & _ & H4 & _).
    specialize (H4 eq_refl). destruct H4 as (-> & H5 & ->). cbn [is_ok n_guest n_agent n_done]. by eexists.
Qed.

(** Without the guest: the VM's process is killed at once. *)
Lemma kill_unreachable v c grace reason a ds :
  killContainer v c grace reason (Node a None ds) = Node (killVM v (ByProbe reason) grace false a) None ds.
Proof. reflexivity. Qed.

(** A container of the supervisor that runs, its termination asked for. *)
Lemma terminate_running i ct att cmd s : mains s !! i = Some (ct, Waits att) -> c_state ct = Running -> c_cmd ct = Some cmd ->
  terminate false i s = Sup (policy s) (stopping s) (inits s) (mains s) (run_at s) (nextCmd s) (killTimers s)
    ((false, i, cmd) :: termTimers s) ((false, i, SIGTERM) :: signals s) (killed s).
Proof. intros Hm Hs Hc. unfold terminate, procs. rewrite Hm. destruct ct; cbn in *; by subst. Qed.

(** The exit of a main container, by its policy. *)
Definition after_kill (pol : string) (ct : container) (w : wait_result) (i : nat) (s s2 : sup) : Prop :=
  inits s2 = inits s /\ (forall j, j <> i -> mains s2 !! j = mains s !! j) /\
  exists ct2 pc2, mains s2 !! i = Some (ct2, pc2) /\
    if shouldRestart pol (wait_code w)
    then c_restarts ct2 = (c_restarts ct + 1)%Z /\ exists k d, pc2 = Sleeping k d /\
      exists s3, exec (AContainer false i EvWake) s2 = Some s3 /\ mains s3 !! i = Some (ct2, Starting (S k))
    else pc2 = Done /\ c_state ct2 = Terminated.

Lemma exit_by_policy i ct att now w s : mains s !! i = Some (ct, Waits att) -> stopping s = false ->
  exists s2, exec (AContainer false i (EvExit now w)) s = Some s2 /\ after_kill (policy s) ct w i s s2.
Proof.
  intros Hm Hst. cbn [exec procs]. rewrite Hm. cbn [container_event snd fst]. unfold after_exit, policy_of. rewrite Hst. cbn [orb].
  assert (i < length (mains s)) as Hi by (by eapply lookup_lt_Some).
  destruct (shouldRestart (policy s) (wait_code w)) eqn:E; cbn [negb next_pc]; eexists; (split; [done|]); (split; [done|]);
    (split; [intros j Hj; cbn; by rewrite list_lookup_insert_ne|]); do 2 eexists; (split; [cbn; by apply list_lookup_insert_eq|]); rewrite E; [|done].
  split; [done|]. do 2 eexists. split; [done|]. cbn [exec procs set_proc mains]. rewrite list_lookup_insert_eq by done. cbn.
  rewrite Hst. cbn. eexists. split; [done|]. cbn. rewrite list_insert_insert_eq. by apply list_lookup_insert_eq.
Qed.

(** C35 A container that fails its liveness probe is restarted in the guest: at
    the iteration that completes [failureThreshold] failures in a row the
    agent has execd send the container's process a SIGTERM (and a SIGKILL to
    the same process after the pod's grace period); the VM and the agent's
    view of it are left alone, and when the process exits the supervisor
    starts the container again, exactly when the restart policy says so, no
    other container being touched. A healthy container is left alone. *)
Theorem failing_liveness_restarts pod v c p s succ a g ds i ct att cmd :
  ct_LivenessProbe c = Some p -> cp_done s = true -> cp_liveness s = (succ, failureThreshold p - 1)%Z ->
  utf8_valid (ct_Name c) = true -> probe_utf8 p -> starts quote info launch (ct_Name c) p g ->
  Forall int_ok [Probes.probe_timeout p; podGracePeriod pod] -> Forall status_fits (statuses (g_sup g)) ->
  Forall (fun j => fits (print j)) [probe_json (probe_asks (ct_Name c) p); kill_json (ct_Name c) (podGracePeriod pod);
    shutdown_json (podGracePeriod pod); statuses_json (statuses (g_sup g))] ->
  byName (ct_Name c) (g_sup g) = Some (false, i) -> mains (g_sup g) !! i = Some (ct, Waits att) ->
  c_state ct = Running -> c_cmd ct = Some cmd -> stopping (g_sup g) = false ->
  let n := Node a (Some g) ds in
  exists s' n', probe_tick pod v c Liveness s n = Some (s', n') /\
  if healthy quote info launch tcp_ok http_get (ct_Name c) p g then n' = n
  else exists g', n' = Node a (Some g') (ds ++ [ETerminate (false, i) (grace_given (podGracePeriod pod))]) /\
    signals (g_sup g') = (false, i, SIGTERM) :: signals (g_sup g) /\ (false, i, cmd) ∈ termTimers (g_sup g') /\
    inits (g_sup g') = inits (g_sup g) /\ mains (g_sup g') = mains (g_sup g) /\
    forall now w, exists s2, exec (AContainer false i (EvExit now w)) (g_sup g') = Some s2 /\
      after_kill (policy (g_sup g)) ct w i (g_sup g) s2.
Proof.
  intros Hp Hd Hl Hu Hpu Hst [Ht [Hg _]%Forall_cons]%Forall_cons Hss [F1 [F2 [F3 [F4 _]%Forall_cons]%Forall_cons]%Forall_cons]%Forall_cons
    Hn Hm Hr Hc Hstop. cbn zeta. unfold probe_tick. cbn [probe_of]. rewrite Hp. cbn [mbind option_bind].
  assert (probed (ct_Name c) p (Node a (Some g) ds) = healthy quote info launch tcp_ok http_get (ct_Name c) p g) as ->.
  { rewrite <-(probe_end_to_end quote info has_stdin has_tty launch dial tcp_ok http_get (ct_Name c) p g Hu Hpu Ht F1 Hst). reflexivity. }
  unfold container_step. cbn [probe_of]. rewrite Hp, Hd. cbn [negb andb counters_of]. rewrite Hl.
  destruct (liveness_step p succ (failureThreshold p - 1) (healthy quote info launch tcp_ok http_get (ct_Name c) p g)) as [succ' ->].
  destruct (healthy _ _ _ _ _ _ _ _); [by case_bool_decide; do 2 eexists|].
  rewrite (bool_decide_true (failureThreshold p - 1 + 1 = _)%Z) by lia. cbn [on_report fmap mbind option_bind foldl acted].
  do 2 eexists. split; [done|].
  pose proof (kill_exact v (ct_Name c) (podGracePeriod pod) "liveness probe failed" a g ds Hu Hg F2 F3 Hss F4) as Hk.
  cbn zeta in Hk. rewrite Hn in Hk. destruct Hk as (g' & -> & He). cbn [exec] in He. injection He as He.
  rewrite (terminate_running i ct att cmd) in He by done. exists g'. split; [done|]. rewrite <-He. cbn [signals termTimers inits mains].
  split_and!; [done|by left|done|done|]. intros now w. exact (exit_by_policy i ct att now w (Sup _ _ _ _ _ _ _ _ _ _) Hm Hstop).
Qed.
End Kill.

(** ** Witnesses *)

Definition ex_probed (name : string) : Container :=
  MkContainer name "img" [] [] false [] "" [] [] None None None None (Some (ex_probe (ProbeTCPSocket 80) 1 2)).
Definition ex_probed_pod : Pod := MkPod "uid" "web" "ns" ∅ [] [ex_probed "a"; ex_probed "b"] "" [] None None false None.
(** One failure was seen; the port still does not answer. *)
Definition ex_loop : cprobes := CProbes true (0, 0)%Z (0, 0)%Z (0, 1)%Z (new_vm "uid" "web" "ns" false "").
Definition ex_agent : agent := init_agent true.

Lemma failing_liveness_restarts_witness :
  exists s' g', probe_tick literal ex_info (fun _ => true) (fun _ => false) ex_launch (fun _ => Ok []) (fun _ _ => false) (fun _ _ _ => None)
      ex_probed_pod 0 (ex_probed "a") Liveness ex_loop (Node ex_agent (Some ex_poll_guest) []) =
    Some (s', Node ex_agent (Some g') [ETerminate (false, 0) 30]) /\ signals (g_sup g') = [(false, 0, SIGTERM)].
Proof.
  destruct (failing_liveness_restarts literal ex_info (fun _ => true) (fun _ => false) ex_launch (fun _ => Ok []) (fun _ _ => false) (fun _ _ _ => None)
    ex_probed_pod 0 (ex_probed "a") (ex_probe (ProbeTCPSocket 80) 1 2) ex_loop 0 ex_agent ex_poll_guest [] 0
    (default (new_container "") (fst <$> mains (g_sup ex_poll_guest) !! 0)) 0 1) as (s' & n' & H1 & H2); try reflexivity.
  - unfold probe_utf8, int_ok. cbn. lia.
  - unfold int_ok. apply (bool_decide_unpack _). vm_compute. exact I.
  - exact ex_poll_fits.
  - unfold fits. apply (bool_decide_unpack _). vm_compute. exact I.
  - destruct H2 as (g' & -> & H3 & _). exists s', g'. split; [exact H1|]. rewrite H3. reflexivity.
Defined.

Lemma containers_probed_apart_witness :
  let r := pod_run ex_probed_pod [(0, (Liveness, false)); (1, (Liveness, false)); (0, (Liveness, false))]
    (runProbes ex_probed_pod (new_vm "uid" "web" "ns" false "")) in
  of_container 0 r.2 = [liveness_kill] /\ of_container 1 r.2 = [].
Proof.
  assert (NoDup (ct_Name <$> p_Containers ex_probed_pod)) as Hn by (apply (bool_decide_unpack _); vm_compute; exact I).
  destruct (containers_probed_apart ex_probed_pod (new_vm "uid" "web" "ns" false "")
    [(0, (Liveness, false)); (1, (Liveness, false)); (0, (Liveness, false))] 0 (ex_probed "a") Hn eq_refl) as (H0 & _).
  destruct (containers_probed_apart ex_probed_pod (new_vm "uid" "web" "ns" false "")
    [(0, (Liveness, false)); (1, (Liveness, false)); (0, (Liveness, false))] 1 (ex_probed "b") Hn eq_refl) as (H1 & _).
  cbn zeta in *. rewrite H0, H1. split; vm_compute; reflexivity.
Defined.
