(* ===== verification/Serve.v ===== *)
(** * The listeners (poc/execd/handlers.go, poc/agent/logs.go, services.go)

    The three servers of the program, around the handlers the other files
    model: [serveVsock] of execd, which hands each connection of the control
    channel to a goroutine ([Handlers]); [startKubeletServer] of the agent,
    with its certificates ([KubeletAPI]); [startSvcListener], one unix socket
    per VM for the guest's service queries ([SvcWire]). Accepting, the TLS
    handshake and the file system of sockets are what the runtime documents;
    connections, failures and cancellation are events. *)
From S2P Require Import Prelude GoStrings NetIP Pod PodLifecycle VMStart Frames Supervisor GuestRoot Boot Logs KubeletAPI Handlers.
Import Wire.

(** ** The control channel of the guest *)

(** The server: whether it still accepts, the guest, the connections whose
    goroutine has not begun, what the running ones hold, what each connection
    that was taken up was given back, and the one whose goroutine panicked, if
    one did: that is the end of execd, and of the VM. *)
Record vsock := Vsock {
  vs_listening : bool; vs_guest : guest; vs_pending : list conn;
  vs_running : list (option cid); vs_answered : list (conn * conn); vs_crashed : option conn
}.

Inductive vsock_event := VAccept (c : conn) | VAcceptError | VBegin (i : nat) | VEnd (j : nat) | VSup (a : action).

(** The lengths the headers on a connection declare, as far as it can be read
    in frames. *)
Fixpoint frame_lengths (fuel : nat) (c : conn) : list Z :=
  match fuel with
  | O => []
  | S fuel' =>
      match read_full 5 c with
      | Ok (hdr, c1) =>
          let n := be_val (drop 1 hdr) in
          n :: (if bool_decide (n <= Z.of_nat (length (c_in c1)))%Z then
                  match read_full (Z.to_nat n) c1 with Ok (_, c2) => frame_lengths fuel' c2 | _ => [] end
                else [])
      | _ => []
      end
  end.
Definition declared (c : conn) : list Z := frame_lengths (Client.read_fuel c) c.

(** A handler that goes on reading frames, and one that panicked. *)
Definition reads_on (e : effect) : bool := match e with EInput _ | EAttach _ _ => true | _ => false end.
Definition panicked (e : effect) : bool := match e with ECrash _ => true | _ => false end.

Section Vsock.
(** Whether [make([]byte, n)] succeeds in the guest: out of memory is fatal. *)
Context (alloc : Z -> bool).
Context (unmarshal_request : bytes -> option request) (unmarshal_size : bytes -> option (Z * Z)).
Context (marshal_statuses : list containerStatus -> option bytes) (quote : string -> string).
Context (info : cid -> container_info) (has_stdin has_tty : cid -> bool).
Context (launch : command -> bool -> run).
Context (dial : Z -> result string (list bytes)).
Context (tcp_ok : Z -> Z -> bool) (http_get : bool -> string -> Z -> option Z).
Notation handleConn := (handleConn unmarshal_request unmarshal_size marshal_statuses quote info has_stdin has_tty launch dial tcp_ok http_get).

(** The container a connection holds as its attached client until it ends. *)
Definition holds (c : conn) (g : guest) : option cid :=
  match readFrame c with
  | Ok (typ, payload, _) =>
      if bool_decide (typ <> frameRequest) then None
      else rq ← unmarshal_request payload;
           if bool_decide (rq_Op rq = "attach") then
             i ← byName (rq_Container rq) (g_sup g); (fun _ => i) <$> attach_open i g
           else None
  | _ => None
  end.

Definition release (h : option cid) (g : guest) : guest := match h with Some i => attach_close i g | None => g end.

(** [readFrame] allocates a payload of the length the client declares before
    it reads it: for the request, and for every frame after it when the
    handler goes on reading. *)
Definition unallocatable (l : list Z) : bool := existsb (fun n => negb (alloc n)) l.

(** A connection's goroutine does not end: it panics, or runs out of memory. *)
Definition takes_down (c : conn) (g : guest) : bool :=
  if unallocatable (take 1 (declared c)) then true
  else
    let effects := (handleConn c g).2 in
    if existsb panicked effects then true
    else if existsb reads_on effects then unallocatable (declared c) else false.

(** [serveVsock]: the loop accepts until accepting fails, and each connection
    is handled by a goroutine of its own, between which and around which the
    supervisor steps; nothing happens any more once one has crashed. *)
Definition vsock_step (e : vsock_event) (s : vsock) : option vsock :=
  let '(Vsock l g p r a d) := s in
  match d, e with
  | Some _, _ => None
  | None, VAccept c => if l then Some (Vsock l g (p ++ [c]) r a d) else None
  | None, VAcceptError => if l then Some (Vsock false g p r a d) else None
  | None, VBegin i =>
      c ← p !! i;
      if takes_down c g then Some (Vsock l g (delete i p) r a (Some c))
      else
        let h := holds c g in
        let '(c', g', _) := handleConn c g in
        Some (Vsock l (Guest (g_sup g') (option_list h ++ g_attached g')) (delete i p) (r ++ [h]) (a ++ [(c, c')]) d)
  | None, VEnd j => h ← r !! j; Some (Vsock l (release h g) p (delete j r) a d)
  | None, VSup act => (fun s' => Vsock l (with_sup s' g) p r a d) <$> exec act (g_sup g)
  end.

Definition vsock_run (es : list vsock_event) (s : vsock) : option vsock :=
  foldl (fun s e => s ← s; vsock_step e s) (Some s) es.

(** What [serveVsock] starts from: the listener is open or was refused. *)
Definition serveVsock (listen_ok : bool) (g : guest) : vsock := Vsock listen_ok g [] [] [] None.

(** *** Its invariant *)

Definition well_answered (x : conn * conn) : Prop :=
  c_room x.1 = None -> exists fs exit, c_out x.2 = c_out x.1 ++ encode_all (fs ++ exit) /\
    Forall output_frame fs /\ Forall (fun f => f.1 = frameExit) exit /\ length exit <= 1.

Definition accepts (es : list vsock_event) : list conn := omap (fun e => match e with VAccept c => Some c | _ => None end) es.

Lemma handleConn_guest c g :
  let g' := (handleConn c g).1.2 in (g_sup g' = g_sup g \/ step (g_sup g) (g_sup g')) /\ g_attached g' = g_attached g.
Proof.
  cbn zeta. unfold Handlers.handleConn. destruct (readFrame c) as [[[typ p] c1]| |]; [|by auto..].
  case_bool_decide; [by auto|]. destruct (unmarshal_request p) as [rq|]; [|by auto].
  unfold Handlers.dispatch. cbn zeta. repeat case_bool_decide; [..|by auto].
  - unfold handleExec. repeat case_match; by auto.
  - unfold handleAttach. destruct (byName _ _) as [i|]; [|by auto].
    destruct (attach_open i g) as [g'|] eqn:E; [|by auto]. rewrite (attach_open_close _ _ _ E). by auto.
  - by auto.
  - unfold handleStatus. case_match; by auto.
  - unfold handleKill. destruct (byName _ _) as [[init i]|]; [|by auto]. split; [|done]. right. by exists (ATerminate init i).
  - unfold handlePortForward. repeat case_match; by auto.
  - unfold handleShutdown. split; [|done]. right. by exists AShutdown.
Qed.

(** Only memory, a pipe that could not be made or a [net.Dial] that panics
    take the guest down: the handlers have no crash of their own. *)
Definition cause (c : conn) : Prop :=
  (exists n, n ∈ declared c /\ alloc n = false) \/ (exists cmd tty, launch cmd tty = NoPipe) \/ (exists port k, dial port = Crash k).

Lemma handlers_never_panic c g :
  existsb panicked (handleConn c g).2 = true -> (exists cmd tty, launch cmd tty = NoPipe) \/ (exists port k, dial port = Crash k).
Proof.
  unfold Handlers.handleConn. destruct (readFrame c) as [[[typ p] c1]| |k] eqn:E; [|done|by apply Client.readFrame_no_crash in E].
  case_bool_decide; [done|]. destruct (unmarshal_request p) as [rq|]; [|done].
  unfold Handlers.dispatch. cbn zeta. repeat case_bool_decide; [..|done].
  - unfold handleExec, container_command. repeat case_match; simplify_eq; try done; intros _; left; by eexists _, _.
  - unfold handleAttach. by repeat case_match.
  - done.
  - unfold handleStatus. by case_match.
  - unfold handleKill. by repeat case_match.
  - unfold handlePortForward. case_bool_decide; [done|]. destruct (dial _) as [| |k] eqn:Ed; [done..|]. intros _. right. by eexists _, _.
  - done.
Qed.

Lemma unallocatable_cause l c : unallocatable l = true -> l ⊆ declared c -> cause c.
Proof.
  intros (n & Hn & Ha)%existsb_exists Hl. left. exists n. split; [apply Hl; by apply list_elem_of_In|by apply negb_true_iff].
Qed.

Lemma takes_down_cause c g : takes_down c g = true -> cause c.
Proof.
  unfold takes_down. destruct (unallocatable (take 1 (declared c))) eqn:E.
  { intros _. eapply unallocatable_cause; [exact E|]. by apply subseteq_take. }
  destruct (existsb panicked _) eqn:Ep; [intros _; right; by eapply handlers_never_panic|].
  destruct (existsb reads_on _); [|done]. intros Eu. by eapply unallocatable_cause.
Qed.

(** A container that is held is not taken: the client is refused. *)
Lemma holds_free c g i : holds c g = Some i -> i ∉ g_attached g.
Proof.
  unfold holds. destruct (readFrame c) as [[[typ p] c1]| |]; [|done..]. case_bool_decide; [done|].
  intros (rq & _ & Hb)%bind_Some. case_bool_decide; [|done]. apply bind_Some in Hb as (j & _ & Hb).
  apply fmap_Some in Hb as (g' & Hb & ->). unfold attach_open in Hb. by case_bool_decide.
Qed.

Lemma filter_not_perm (i : cid) l : NoDup (i :: l) -> filter (fun j => j <> i) (i :: l) = l.
Proof.
  intros [Hi _]%NoDup_cons. rewrite filter_cons_False by auto. apply filter_every, Forall_forall. by intros j Hj ->.
Qed.

Record served_well (pol : string) (ns ms : list string) (es : list vsock_event) (s : vsock) : Prop := ServedWell {
  sw_sup : reachable pol ns ms (g_sup (vs_guest s));
  sw_nodup : NoDup (g_attached (vs_guest s));
  sw_held : g_attached (vs_guest s) ≡ₚ omap id (vs_running s);
  sw_answered : Forall well_answered (vs_answered s);
  sw_conns : accepts es ≡ₚ vs_pending s ++ (vs_answered s).*1 ++ option_list (vs_crashed s);
  sw_up : VAcceptError ∉ es -> vs_listening s = true;
  sw_crashed : forall c, vs_crashed s = Some c -> cause c
}.

Lemma accepts_snoc es e : accepts (es ++ [e]) = accepts es ++ match e with VAccept c => [c] | _ => [] end.
Proof. unfold accepts. rewrite omap_app. by destruct e. Qed.

Lemma held_release (r : list (option cid)) j h : r !! j = Some h -> omap id r ≡ₚ option_list h ++ omap id (delete j r).
Proof. intros Hj. rewrite (delete_Permutation r j h Hj) at 1. by destruct h. Qed.

Lemma served_well_step pol ns ms es e s s' :
  served_well pol ns ms es s -> vsock_step e s = Some s' -> served_well pol ns ms (es ++ [e]) s'.
Proof.
  destruct s as [l g p r a [d|]]; [done|]. intros [Hs Hn Hh Ha Hc Hu Hd] Hstep. cbn [vs_guest vs_running vs_answered vs_pending vs_listening vs_crashed] in *.
  cbn [option_list] in Hc. rewrite app_nil_r in Hc.
  assert (VAcceptError ∉ es ++ [e] -> l = true) as Hu' by (intros [Hes _]%not_elem_of_app; auto).
  destruct e as [c| |i|j|act]; cbn [vsock_step] in Hstep.
  - destruct l; [|done]. simplify_eq. split; try done. rewrite accepts_snoc, Hc. cbn. by rewrite app_nil_r, <-!app_assoc, (Permutation_app_comm [c]).
  - destruct l; [|done]. simplify_eq. split; try done; [by rewrite accepts_snoc, !app_nil_r|]. intros H. set_solver.
  - apply bind_Some in Hstep as (c & Hi & Hstep). destruct (takes_down c g) eqn:Et.
    { injection Hstep as <-. split; try done; [|intros c' [= <-]; by eapply takes_down_cause].
      rewrite accepts_snoc, app_nil_r, Hc, (delete_Permutation p i c Hi) at 1. cbn. by rewrite app_assoc, <-Permutation_cons_append. }
    pose proof (handleConn_guest c g) as Hg. pose proof (handleConn_proper unmarshal_request unmarshal_size
      marshal_statuses quote info has_stdin has_tty launch dial tcp_ok http_get c g) as Hp. destruct (handleConn c g) as [[c' g'] eff]. cbn zeta in Hstep.
    cbn [fst snd] in Hg. destruct Hg as [Hg1 Hg2]. injection Hstep as <-. split; cbn [vs_guest vs_running vs_answered vs_pending vs_listening vs_crashed g_sup g_attached].
    + destruct Hg1 as [-> |Hg1]; [done|]. by eapply rtc_r.
    + rewrite Hg2. destruct (holds c g) as [k|] eqn:E; [|done]. apply NoDup_cons. split; [by apply (holds_free c)|done].
    + rewrite Hg2, omap_app, Hh. rewrite Permutation_app_comm. by destruct (holds c g).
    + apply Forall_app. split; [done|]. apply Forall_singleton. intros Hr. by destruct (Hp Hr) as [_ _ Ho].
    + rewrite accepts_snoc, app_nil_r, Hc. cbn [option_list]. rewrite app_nil_r, (delete_Permutation p i c Hi) at 1. rewrite fmap_app. cbn.
      rewrite (app_assoc _ _ [c]). by rewrite <-Permutation_cons_append.
    + done.
    + done.
  - apply bind_Some in Hstep as (h & Hj & Hstep). injection Hstep as <-. pose proof (held_release r j h Hj) as Hr.
    split; cbn [vs_guest vs_running vs_answered vs_pending vs_listening vs_crashed]; [by destruct h| | |done| |done|done].
    + destruct h as [i|]; [|done]. cbn [release attach_close g_attached]. by apply NoDup_filter.
    + destruct h as [i|]; cbn in Hr; [|by rewrite Hh]. cbn [release attach_close g_attached].
      rewrite Hr in Hh. rewrite Hh in Hn. rewrite Hh. by rewrite filter_not_perm.
    + by rewrite accepts_snoc, !app_nil_r.
  - apply fmap_Some in Hstep as (g1 & Hx & ->). split; try done.
    + cbn. eapply rtc_r; [done|]. by exists act.
    + by rewrite accepts_snoc, !app_nil_r.
Qed.
End Vsock.

Section VsockProofs.
Context (alloc : Z -> bool).
Context (unmarshal_request : bytes -> option request) (unmarshal_size : bytes -> option (Z * Z)).
Context (marshal_statuses : list containerStatus -> option bytes) (quote : string -> string).
Context (info : cid -> container_info) (has_stdin has_tty : cid -> bool).
Context (launch : command -> bool -> run).
Context (dial : Z -> result string (list bytes)).
Context (tcp_ok : Z -> Z -> bool) (http_get : bool -> string -> Z -> option Z).
Notation vsock_run := (vsock_run alloc unmarshal_request unmarshal_size marshal_statuses quote info has_stdin has_tty launch dial tcp_ok http_get).
Notation vsock_step := (vsock_step alloc unmarshal_request unmarshal_size marshal_statuses quote info has_stdin has_tty launch dial tcp_ok http_get).

Lemma vsock_run_snoc es e s : vsock_run (es ++ [e]) s = (s' ← vsock_run es s; vsock_step e s').
Proof. unfold Serve.vsock_run. by rewrite foldl_app. Qed.


(** Finding: five bytes take the guest down. [readFrame] allocates whatever
    length the header declares, up to 4 GiB, before any of it has arrived;
    where that much cannot be had, execd ends, and the VM with it. *)
Theorem header_takes_the_guest_down g hdr later n :
  length hdr = 5 -> be_val (drop 1 hdr) = n -> alloc n = false ->
  exists s, vsock_run [VAccept (Conn (hdr ++ later) [] None); VBegin 0] (serveVsock true g) = Some s /\
    vs_crashed s = Some (Conn (hdr ++ later) [] None) /\ forall e, vsock_step e s = None.
Proof.
  intros Hl Hn Ha. set (c := Conn (hdr ++ later) [] None).
  assert (exists l, declared c = n :: l) as [l El].
  { unfold declared, Client.read_fuel. cbn [frame_lengths]. unfold read_full at 1. subst c. cbn [c_in].
    rewrite bool_decide_true by (rewrite length_app; lia). rewrite take_app_length', Hn by done. by eexists. }
  assert (takes_down alloc unmarshal_request unmarshal_size marshal_statuses quote info has_stdin has_tty launch dial tcp_ok http_get c g = true) as Ht.
  { unfold takes_down. rewrite El. cbn. by rewrite Ha. }
  eexists. split; [cbn; by rewrite Ht|]. split; [done|]. by intros [].
Qed.
End VsockProofs.

(** Two clients attach to one container: the second is refused, and the
    channel goes on. *)
Definition ex_client : conn := requesting [7]%Z [].
Definition ex_events : list vsock_event :=
  [VAccept ex_client; VAccept ex_client; VBegin 0; VBegin 0; VSup AShutdown; VEnd 0; VAccept ex_client].
(** A guest with a GiB to spare. *)
Definition ex_alloc (n : Z) : bool := bool_decide (n <= 2 ^ 30)%Z.
Definition ex_vsock_run (es : list vsock_event) (s : vsock) : option vsock :=
  vsock_run ex_alloc (fun _ => Some (ex_request "attach")) (fun _ => None) (fun _ => Some []) literal ex_info (fun _ => true) (fun _ => false)
    ex_launch (fun _ => Ok []) (fun _ _ => true) (fun _ _ _ => None) es s.
Definition ex_served : vsock := default (serveVsock false ex_guest) (ex_vsock_run ex_events (serveVsock true ex_guest)).

Example second_client_refused :
  vs_running ex_served = [None] /\
  (vs_answered ex_served).*2 = [Conn [] [] None; Conn [] (encode (frameExit, error_payload 126 (literal "already attached"))) None].
Proof. vm_compute. done. Qed.


Lemma header_takes_the_guest_down_witness :
  exists s, ex_vsock_run [VAccept (Conn [0; 255; 255; 255; 255]%Z [] None); VBegin 0] (serveVsock true ex_guest) = Some s /\
    vs_crashed s = Some (Conn [0; 255; 255; 255; 255]%Z [] None).
Proof.
  destruct (header_takes_the_guest_down ex_alloc (fun _ => Some (ex_request "attach")) (fun _ => None) (fun _ => Some []) literal ex_info (fun _ => true) (fun _ => false)
    ex_launch (fun _ => Ok []) (fun _ _ => true) (fun _ _ _ => None) ex_guest [0; 255; 255; 255; 255]%Z [] 4294967295 eq_refl eq_refl eq_refl) as (s & H1 & H2 & _).
  exists s. split; [exact H1|exact H2].
Defined.

(** ** The kubelet server *)

Section KubeletServer.
Context {keypair cert : Type}.
Context (LoadX509KeyPair : string -> string -> result string keypair) (ReadFile : string -> result string bytes).
(** The certificates [AppendCertsFromPEM] finds (it tells whether there is
    one), a certificate's subject, and whether a chain verifies against roots. *)
Context (certs_of_PEM : bytes -> list cert) (subject : cert -> peer) (verifies : list cert -> list cert -> bool).
Context (Listen : string -> option string).
Context (workDir : string) (client : bool) (getPod : string -> string -> option Pod).
Context (options_ok : http_request -> bool) (stat_ok open_ok : string -> bool).
Notation kubelet := (kubelet workDir client getPod options_ok stat_ok open_ok).

(** [tls.RequireAndVerifyClientCert] is the only mode the code uses. *)
Record server := Server { srv_addr : string; srv_Certificate : keypair; srv_ClientCAs : list cert; srv_Handler : http_request -> response }.

Definition startKubeletServer (kubeletCert kubeletKey clientCA : string) (port : Z) : result string server :=
  match LoadX509KeyPair kubeletCert kubeletKey with
  | Ok kp =>
      match ReadFile clientCA with
      | Ok caPEM =>
          let caPool := certs_of_PEM caPEM in
          if bool_decide (length caPool = 0) then Err ("no certificates in " +:+ clientCA)
          else
            let addr := "127.0.0.1:" +:+ pretty port in
            match Listen addr with
            | Some e => Err e
            | None => Ok (Server addr kp caPool kubelet)
            end
      | Err e => Err ("loading client CA: " +:+ e)
      | Crash k => Crash k
      end
  | Err e => Err ("loading kubelet serving cert (run pki?): " +:+ e)
  | Crash k => Crash k
  end.

(** What the TLS layer lets through: a client that sent a chain which verifies
    against the server's roots; the request then carries the chain. *)
Definition handshake (srv : server) (chain : list cert) : option (list peer) :=
  if bool_decide (length chain = 0) then None
  else if verifies (srv_ClientCAs srv) chain then Some (subject <$> chain) else None.

Definition with_tls (tls : list peer) (r : http_request) : http_request :=
  HttpRequest (Some tls) (hr_EscapedPath r) (hr_command r) (hr_follow r) (hr_tailLines r).

(** A request over a connection, before or after the context ended and the
    server was closed. *)
Definition serve_request (srv : server) (closed : bool) (chain : list cert) (r : http_request) : option response :=
  if closed then None
  else tls ← handshake srv chain; Some (srv_Handler srv (with_tls tls r)).

Lemma kubelet_permitted r s : kubelet r = Served s -> permitted r.
Proof.
  unfold KubeletAPI.kubelet. destruct (authorizeKubeletClient (hr_tls r)) as [code|] eqn:E; [done|]. intros _. by apply authorize_exact.
Qed.

(** The kubelet server starts exactly when its key pair loads, the client CA
    file has a certificate and the port on the loopback address is free. Then
    something is served only while the server is open, to a client whose
    chain verifies against the certificates of that file and whose own
    certificate is the apiserver's kubelet client or a system:masters one;
    and such a client's request gets the answer of the kubelet API. *)
Theorem kubelet_server_admits crt key ca port :
  (forall srv, startKubeletServer crt key ca port = Ok srv <->
     exists kp pem, LoadX509KeyPair crt key = Ok kp /\ ReadFile ca = Ok pem /\ certs_of_PEM pem <> [] /\
       Listen ("127.0.0.1:" +:+ pretty port) = None /\ srv = Server ("127.0.0.1:" +:+ pretty port) kp (certs_of_PEM pem) kubelet) /\
  (forall srv closed chain r, startKubeletServer crt key ca port = Ok srv ->
     (forall s, serve_request srv closed chain r = Some (Served s) ->
        closed = false /\ exists pem leaf rest, ReadFile ca = Ok pem /\ chain = leaf :: rest /\ verifies (certs_of_PEM pem) chain = true /\
          (pe_CommonName (subject leaf) = "kube-apiserver-kubelet-client" \/ "system:masters" ∈ pe_Organization (subject leaf)) /\
          kubelet (with_tls (subject <$> chain) r) = Served s) /\
     (forall leaf rest, chain = leaf :: rest -> verifies (srv_ClientCAs srv) chain = true ->
        serve_request srv false chain r = Some (kubelet (with_tls (subject <$> chain) r)))).
Proof.
  assert (forall srv, startKubeletServer crt key ca port = Ok srv <->
     exists kp pem, LoadX509KeyPair crt key = Ok kp /\ ReadFile ca = Ok pem /\ certs_of_PEM pem <> [] /\
       Listen ("127.0.0.1:" +:+ pretty port) = None /\ srv = Server ("127.0.0.1:" +:+ pretty port) kp (certs_of_PEM pem) kubelet) as Hst.
  { intros srv. unfold startKubeletServer. cbn zeta. split.
    - destruct (LoadX509KeyPair crt key) as [kp| |] eqn:Ek; [|done..]. destruct (ReadFile ca) as [pem| |] eqn:Ef; [|done..].
      case_bool_decide as Hl; [done|]. destruct (Listen _) eqn:El; [done|]. intros [= <-]. exists kp, pem. split_and!; try done.
      intros E. by rewrite E in Hl.
    - intros (kp & pem & -> & -> & Hne & -> & ->). rewrite bool_decide_false; [done|]. by destruct (certs_of_PEM pem). }
  split; [exact Hst|]. intros srv closed chain r Hsrv. pose proof (proj1 (Hst srv) Hsrv) as (kp & pem & _ & Hpem & _ & _ & ->). split.
  - intros s. unfold serve_request, handshake. destruct closed; [done|]. destruct chain as [|leaf rest]; [done|].
    rewrite bool_decide_false by done. cbn [srv_ClientCAs srv_Handler]. destruct (verifies _ _) eqn:Ev; [|done]. intros [= Hk].
    split; [done|]. exists pem, leaf, rest. split_and!; [done|done|done| |exact Hk].
    apply kubelet_permitted in Hk as (p & ps & [= <- _] & Hp). exact Hp.
  - intros leaf rest -> Hv. unfold serve_request, handshake. cbn [length srv_ClientCAs srv_Handler] in *. rewrite bool_decide_false by done. by rewrite Hv.
Qed.
End KubeletServer.

(** A CA that issued the certificates which name it. *)
Definition ex_verifies (roots chain : list (string * string * list string)) : bool :=
  match chain with leaf :: _ => existsb (fun root => bool_decide (leaf.1.1 = root.1.2)) roots | [] => false end.
Definition ex_subject (c : string * string * list string) : peer := Peer c.1.2 c.2.
Definition ex_leaf : string * string * list string := ("kubernetes-ca", "kube-apiserver-kubelet-client", []).
Definition ex_load (crt key : string) : result string string := Ok key.
Definition ex_read (path : string) : result string bytes := Ok [1]%Z.
Definition ex_certs (pem : bytes) : list (string * string * list string) := [("root", "kubernetes-ca", [])].
Definition ex_server : result string server :=
  startKubeletServer ex_load ex_read ex_certs (fun _ => None) "/var/pods" true APIExample.pod (fun _ => true) (fun _ => true) (fun _ => true)
    "pki/kubelet-server.crt" "pki/kubelet-server.key" "pki/ca.crt" 10250.

(** The apiserver's certificate is let through, one of another CA is not. *)
Lemma kubelet_server_admits_witness :
  exists srv, ex_server = Ok srv /\
    serve_request ex_subject ex_verifies srv false [ex_leaf] APIExample.request = Some (Served (ServeExec "uid" "app" ["date"])) /\
    (forall s, serve_request ex_subject ex_verifies srv false [("other-ca", "kube-apiserver-kubelet-client", [])] APIExample.request <> Some (Served s)).
Proof.
  destruct (kubelet_server_admits ex_load ex_read ex_certs ex_subject ex_verifies (fun _ => None) "/var/pods" true APIExample.pod
    (fun _ => true) (fun _ => true) (fun _ => true) "pki/kubelet-server.crt" "pki/kubelet-server.key" "pki/ca.crt" 10250) as [Hst Hsv].
  eexists. split; [apply Hst; exists "pki/kubelet-server.key", [1]%Z; (split; [reflexivity|]); (split; [reflexivity|]); (split; [done|]); (split; [reflexivity|reflexivity])|].
  split.
  - rewrite (proj2 (Hsv _ false [ex_leaf] APIExample.request eq_refl) ex_leaf [] eq_refl); [|reflexivity]. vm_compute. reflexivity.
  - intros s Hs. apply (Hsv _ _ _ _ eq_refl) in Hs as (_ & pem & leaf & rest & _ & _ & Hv & _). vm_compute in Hv. discriminate.
Defined.

(** ** The service listeners of the agent *)

(** Unix sockets: the listener bound to each path, and the open listeners. *)
Record sockets := Sockets { so_bound : gmap string nat; so_open : gset nat; so_next : nat }.

Definition unlink_path (p : string) (s : sockets) : sockets := Sockets (delete p (so_bound s)) (so_open s) (so_next s).

(** [net.Listen]: an address in use is refused; what else may fail is given. *)
Definition listen_unix (fails : option string) (p : string) (s : sockets) : result string nat * sockets :=
  match fails, so_bound s !! p with
  | Some e, _ => (Err e, s)
  | None, Some _ => (Err "bind: address already in use", s)
  | None, None => (Ok (so_next s), Sockets (<[p := so_next s]> (so_bound s)) ({[so_next s]} ∪ so_open s) (S (so_next s)))
  end.

(** Closing a listener removes its path. *)
Definition close_listener (id : nat) (p : string) (s : sockets) : sockets :=
  unlink_path p (Sockets (so_bound s) (so_open s ∖ {[id]}) (so_next s)).

(** [startSvcListener]: what is left of an earlier listener is removed first;
    the accept loop serves for as long as the listener is open. *)
Definition startSvcListener (fails : option string) (uid : string) (s : sockets) : result string nat * sockets :=
  let sock := svcSockPath uid in listen_unix fails sock (unlink_path sock s).

(** Its [stop]. *)
Definition stopSvc (id : nat) (uid : string) (s : sockets) : sockets :=
  let sock := svcSockPath uid in unlink_path sock (close_listener id sock s).

(** The listener the VM's harness reaches. *)
Definition dial_svc (uid : string) (s : sockets) : option nat :=
  id ← so_bound s !! svcSockPath uid; if decide (id ∈ so_open s) then Some id else None.

(** The agent's pods: a pod's attempts start listeners, and their stops are
    deferred to the end of the pod, last first. *)
Record svc_agent := SvcAgent { sa_sockets : sockets; sa_deferred : gmap string (list nat) }.
Inductive svc_event := SvcStart (uid : string) (fails : option string) | SvcEnd (uid : string).

Definition deferred (uid : string) (a : svc_agent) : list nat := default [] (sa_deferred a !! uid).

Definition svc_step (a : svc_agent) (e : svc_event) : svc_agent :=
  match e with
  | SvcStart uid fails =>
      let '(r, s) := startSvcListener fails uid (sa_sockets a) in
      match r with
      | Ok id => SvcAgent s (<[uid := id :: deferred uid a]> (sa_deferred a))
      | _ => SvcAgent s (sa_deferred a)
      end
  | SvcEnd uid => SvcAgent (foldl (fun s id => stopSvc id uid s) (sa_sockets a) (deferred uid a)) (delete uid (sa_deferred a))
  end.

Definition svc_agent_new : svc_agent := SvcAgent (Sockets ∅ ∅ 0) ∅.
Definition svc_run (es : list svc_event) : svc_agent := foldl svc_step svc_agent_new es.

Definition event_uid (e : svc_event) : string := match e with SvcStart uid _ | SvcEnd uid => uid end.

(** *** What a VM reaches *)

(** The last event of the pod started a listener. *)
Definition up (uid : string) (es : list svc_event) : bool :=
  foldl (fun b e => if bool_decide (event_uid e = uid) then match e with SvcStart _ None => true | _ => false end else b) false es.

Lemma stops_exact uid ids s :
  foldl (fun s id => stopSvc id uid s) s ids =
  Sockets (match ids with [] => so_bound s | _ => delete (svcSockPath uid) (so_bound s) end) (so_open s ∖ list_to_set ids) (so_next s).
Proof.
  revert s. induction ids as [|id ids IH]; intros s.
  - cbn. destruct s as [b o n]. cbn. f_equal. set_solver.
  - cbn [foldl]. rewrite IH. unfold stopSvc, close_listener, unlink_path. cbn zeta. cbn [so_bound so_open so_next list_to_set]. f_equal; [|set_solver].
    destruct ids; by rewrite ?delete_delete_eq.
Qed.

Lemma deferred_insert uid ids a s u :
  deferred u (SvcAgent s (<[uid := ids]> (sa_deferred a))) = if decide (u = uid) then ids else deferred u a.
Proof. unfold deferred. cbn. destruct (decide (u = uid)) as [-> |]; [by rewrite lookup_insert_eq|by rewrite lookup_insert_ne]. Qed.

Lemma deferred_delete uid a s u :
  deferred u (SvcAgent s (delete uid (sa_deferred a))) = if decide (u = uid) then [] else deferred u a.
Proof. unfold deferred. cbn. destruct (decide (u = uid)) as [-> |]; [by rewrite lookup_delete_eq|by rewrite lookup_delete_ne]. Qed.

Record svc_ok (es : list svc_event) (a : svc_agent) : Prop := SvcOk {
  so_open_exact : forall id, id ∈ so_open (sa_sockets a) <-> exists uid, id ∈ deferred uid a;
  so_fresh : forall id, id ∈ so_open (sa_sockets a) -> id < so_next (sa_sockets a);
  so_apart : forall u v id, id ∈ deferred u a -> id ∈ deferred v a -> u = v;
  so_known : forall u id, id ∈ deferred u a -> u ∈ event_uid <$> es;
  so_path : forall u, (forall v, v ∈ event_uid <$> es -> svcSockPath u = svcSockPath v -> u = v) ->
    so_bound (sa_sockets a) !! svcSockPath u = if up u es then head (deferred u a) else None;
  so_head : forall u, up u es = true -> deferred u a <> []
}.

Lemma up_snoc u es e :
  up u (es ++ [e]) = if bool_decide (event_uid e = u) then match e with SvcStart _ None => true | _ => false end else up u es.
Proof. unfold up. by rewrite foldl_app. Qed.

Lemma startSvc_exact fails uid s :
  startSvcListener fails uid s =
  match fails with
  | Some e => (Err e, unlink_path (svcSockPath uid) s)
  | None => (Ok (so_next s), Sockets (<[svcSockPath uid := so_next s]> (so_bound s)) ({[so_next s]} ∪ so_open s) (S (so_next s)))
  end.
Proof.
  unfold startSvcListener, listen_unix, unlink_path. cbn. destruct fails; [done|]. rewrite lookup_delete_eq. by rewrite insert_delete_eq.
Qed.

(** Pods whose sockets have paths of their own. *)
Definition paths_apart (uids : list string) : Prop := forall u v, u ∈ uids -> v ∈ uids -> svcSockPath u = svcSockPath v -> u = v.

Lemma svc_ok_step es e a :
  paths_apart (event_uid <$> es ++ [e]) -> svc_ok es a -> svc_ok (es ++ [e]) (svc_step a e).
Proof.
  intros Hap [H1 H2 H3 H4 H5 H6].
  assert (forall u, (forall v, v ∈ event_uid <$> es ++ [e] -> svcSockPath u = svcSockPath v -> u = v) ->
    forall v, v ∈ event_uid <$> es -> svcSockPath u = svcSockPath v -> u = v) as Hmono.
  { intros u Hu v Hv. apply Hu. rewrite fmap_app. set_solver. }
  assert (event_uid e ∈ event_uid <$> es ++ [e]) as Hin by (rewrite fmap_app; set_solver).
  assert (forall u id, id ∈ deferred u a -> u ∈ event_uid <$> es ++ [e]) as Hk by (intros u id Hu; rewrite fmap_app; apply elem_of_app; left; by eapply H4).
  destruct e as [uid fails|uid]; cbn [svc_step event_uid] in *.
  - rewrite startSvc_exact. destruct fails as [err|].
    + split; cbn [sa_sockets unlink_path so_open so_next so_bound]; try done.
      * intros u Hu. rewrite up_snoc. cbn [event_uid]. case_bool_decide as E; [subst u; apply lookup_delete_eq|].
        rewrite lookup_delete_ne by (intros E'; symmetry in E'; by apply E; symmetry; apply Hu). apply H5. by apply Hmono.
      * intros u. rewrite up_snoc. cbn [event_uid]. case_bool_decide; [done|]. apply H6.
    + set (n := so_next (sa_sockets a)) in *.
      assert (forall u, n ∉ deferred u a) as Hn by (intros u Hu; assert (n < n) by (apply H2, H1; by exists u); lia).
      split; cbn [sa_sockets so_open so_next so_bound].
      * intros id. rewrite elem_of_union, elem_of_singleton, H1. setoid_rewrite deferred_insert. split.
        { intros [-> |(u & Hu)]; [exists uid; rewrite decide_True by done; set_solver|].
          exists u. destruct (decide (u = uid)) as [-> |]; [set_solver|done]. }
        { intros (u & Hu). destruct (decide (u = uid)) as [-> |]; [|right; by exists u].
          apply elem_of_cons in Hu as [-> |Hu]; [by left|right; by exists uid]. }
      * intros id [->%elem_of_singleton|Hid]%elem_of_union; [lia|]. apply H2 in Hid. lia.
      * intros u v id. rewrite !deferred_insert. destruct (decide (u = uid)) as [-> |], (decide (v = uid)) as [-> |]; [done| | |apply H3].
        { intros [-> |Hu]%elem_of_cons Hv; [by destruct (Hn v)|by apply (H3 _ _ id)]. }
        { intros Hu [-> |Hv]%elem_of_cons; [by destruct (Hn u)|by apply (H3 _ _ id)]. }
      * intros u id. rewrite deferred_insert. destruct (decide (u = uid)) as [-> |]; [done|apply Hk].
      * intros u Hu. rewrite up_snoc, deferred_insert. cbn [event_uid]. destruct (decide (u = uid)) as [-> |Hne].
        { rewrite bool_decide_true by done. by rewrite lookup_insert_eq. }
        rewrite bool_decide_false by done. rewrite lookup_insert_ne by (intros E; apply Hne; by apply Hu). apply H5. by apply Hmono.
      * intros u. rewrite up_snoc, deferred_insert. cbn [event_uid]. case_bool_decide; [by rewrite decide_True by done|].
        rewrite decide_False by done. apply H6.
  - rewrite stops_exact. split; cbn [sa_sockets so_open so_next so_bound].
    + intros id. rewrite elem_of_difference, elem_of_list_to_set, H1. setoid_rewrite deferred_delete. split.
      { intros [(u & Hu) Hnot]. exists u. destruct (decide (u = uid)) as [-> |]; done. }
      { intros (u & Hu). destruct (decide (u = uid)) as [-> |Hne]; [by apply elem_of_nil in Hu|]. split; [by exists u|].
        intros Hd. apply Hne. by apply (H3 _ _ id). }
    + intros id [Hid _]%elem_of_difference. by apply H2.
    + intros u v id. rewrite !deferred_delete. destruct (decide (u = uid)), (decide (v = uid)); try by intros ?%elem_of_nil. 
      { by intros _ ?%elem_of_nil. } apply H3.
    + intros u id. rewrite deferred_delete. destruct (decide (u = uid)); [by intros ?%elem_of_nil|apply Hk].
    + intros u Hu. rewrite up_snoc, deferred_delete. cbn [event_uid]. case_bool_decide as E.
      * subst u. destruct (deferred uid a) as [|id ids] eqn:Ed; [|apply lookup_delete_eq]. rewrite H5 by (by apply Hmono). destruct (up uid es) eqn:Eu; [|done].
        by destruct (H6 uid Eu).
      * rewrite decide_False by done. destruct (deferred uid a); [|rewrite lookup_delete_ne by (intros E'; symmetry in E'; by apply E; symmetry; apply Hu)]; apply H5; by apply Hmono.
    + intros u. rewrite up_snoc, deferred_delete. cbn [event_uid]. case_bool_decide; [done|]. rewrite decide_False by done. apply H6.
Qed.

Lemma svc_run_ok es : paths_apart (event_uid <$> es) -> svc_ok es (svc_run es).
Proof.
  induction es as [|e es IH] using rev_ind; intros Hap.
  - assert (forall u id, id ∉ deferred u svc_agent_new) as Hd by (intros u id; apply not_elem_of_nil).
    split; cbn.
    + intros id. split; [set_solver|]. intros (u & Hu). by destruct (Hd u id).
    + set_solver.
    + intros u v id Hu. by destruct (Hd u id).
    + intros u id Hu. by destruct (Hd u id).
    + done.
    + done.
  - unfold svc_run. rewrite foldl_app. apply svc_ok_step; [done|]. apply IH. intros u v Hu Hv. apply Hap; rewrite fmap_app; set_solver.
Qed.

(** However the pods' VMs are started again and the pods end, a VM reaches a
    listener of the agent exactly when its pod's last event started one, and
    then the one started last; the listeners that are open are exactly those
    whose stop is still deferred by their pod, and when a pod ends all of its
    own are closed, no other's, and nothing is left at its path. Pods are told
    apart by the first eight characters of their UIDs. *)
Theorem svc_listener_follows_vm es uid :
  paths_apart (uid :: (event_uid <$> es)) ->
  let a := svc_run es in
  dial_svc uid (sa_sockets a) = (if up uid es then head (deferred uid a) else None) /\
  (up uid es = true -> is_Some (dial_svc uid (sa_sockets a))) /\
  (forall id, id ∈ so_open (sa_sockets a) <-> exists u, id ∈ deferred u a) /\
  let s' := sa_sockets (svc_step a (SvcEnd uid)) in
  dial_svc uid s' = None /\
  (forall id, id ∈ so_open s' <-> exists u, u <> uid /\ id ∈ deferred u a).
Proof.
  intros Hap a. assert (paths_apart (event_uid <$> es)) as Hap' by (intros u v Hu Hv; apply Hap; set_solver).
  assert (forall v, v ∈ event_uid <$> es ++ [SvcEnd uid] -> svcSockPath uid = svcSockPath v -> uid = v) as Hu.
  { intros v Hv. rewrite fmap_app in Hv. apply Hap; set_solver. }
  assert (forall v, v ∈ event_uid <$> es -> svcSockPath uid = svcSockPath v -> uid = v) as Hu0 by (intros v Hv; apply Hu; rewrite fmap_app; set_solver).
  pose proof (svc_run_ok es Hap') as Hok. fold a in Hok.
  assert (svc_ok (es ++ [SvcEnd uid]) (svc_step a (SvcEnd uid))) as Hok'.
  { apply svc_ok_step; [|done]. intros u v Hx Hy. rewrite fmap_app in Hx, Hy. apply Hap; set_solver. }
  destruct Hok as [H1 H2 H3 H4 H5 H6].
  assert (dial_svc uid (sa_sockets a) = if up uid es then head (deferred uid a) else None) as Hd.
  { unfold dial_svc. rewrite H5 by done. destruct (up uid es); [|done]. destruct (deferred uid a) as [|id ids] eqn:E; [done|].
    cbn. rewrite decide_True; [done|]. apply H1. exists uid. rewrite E. set_solver. }
  cbn zeta. split_and!; [exact Hd| |exact H1| |].
  - intros Hup. rewrite Hd, Hup. destruct (deferred uid a) eqn:E; [by destruct (H6 uid Hup)|by eexists].
  - unfold dial_svc. rewrite (so_path _ _ Hok' uid Hu), up_snoc. cbn [event_uid]. by rewrite bool_decide_true.
  - intros id. rewrite (so_open_exact _ _ Hok'). cbn [svc_step]. setoid_rewrite deferred_delete. split.
    + intros (u & Hx). exists u. destruct (decide (u = uid)); [by apply elem_of_nil in Hx|done].
    + intros (u & Hne & Hx). exists u. by rewrite decide_False.
Qed.

(** A VM that was started twice, and a start that failed. *)
Definition ex_svc_events : list svc_event :=
  [SvcStart "aaaaaaaa-1" None; SvcStart "bbbbbbbb-1" None; SvcStart "aaaaaaaa-1" None; SvcStart "bbbbbbbb-1" (Some "too many open files")].

Lemma svc_listener_follows_vm_witness :
  dial_svc "aaaaaaaa-1" (sa_sockets (svc_run ex_svc_events)) = Some 2 /\
  dial_svc "aaaaaaaa-1" (sa_sockets (svc_step (svc_run ex_svc_events) (SvcEnd "aaaaaaaa-1"))) = None.
Proof.
  destruct (svc_listener_follows_vm ex_svc_events "aaaaaaaa-1") as (H1 & _ & _ & H2 & _).
  - intros u v Hu Hv E. cbn in Hu, Hv. repeat apply elem_of_cons in Hu as [->|Hu]; try by apply elem_of_nil in Hu.
    all: repeat apply elem_of_cons in Hv as [->|Hv]; try by apply elem_of_nil in Hv.
    all: done || (vm_compute in E; discriminate).
  - split; [|exact H2]. rewrite H1. vm_compute. reflexivity.
Defined.

(** Two pods whose UIDs begin alike share a path: the one that started first
    is not reached any more, and neither is once one of them ended. *)
Example short_uids_collide :
  let a := svc_run [SvcStart "aaaaaaaa-1" None; SvcStart "aaaaaaaa-2" None] in
  dial_svc "aaaaaaaa-1" (sa_sockets a) = Some 1 /\
  dial_svc "aaaaaaaa-2" (sa_sockets (svc_step a (SvcEnd "aaaaaaaa-1"))) = None.
Proof. vm_compute. done. Qed.
