(* ===== verification/ContainerIO.v ===== *)
(** * A container's process and its output (poc/execd/supervisor.go,
      handlers.go, poc/agent/status.go)

    [startOnce] from the command to the exit code, with the copiers that pass
    the process's output on through [Write]: to the container's log file, to
    the console, and to the session attached at that moment ([setAttached]).
    A TTY has one copier, pipes have two, and their writes interleave between
    any two of [Write]'s steps. The log may not have been opened, and a write to
    it or to the console may fail or stop short: [Write] ignores all of that.
    The pipes of a process are taken to be made (their errors are ignored too: a
    copier would read a nil pipe). Last, the final statuses, which [main] writes
    to /status.json and the agent reads from the boot share. *)
From S2P Require Import Prelude GoStrings Json JsonFacts JsonDecode Frames Pod Status Supervisor Boot ControlWire.

(** ** startOnce, up to the start *)

(** What starting the process gives: an error, or the chunks in which its
    output will be read, for a TTY or for stdout and stderr. *)
Inductive started := NoStart (e : string) | Pty (output : list bytes) | Pipes (out errs : list bytes).

Inductive stream := Out | Errs.
#[export] Instance stream_eq_dec : EqDecision stream.
Proof. solve_decision. Defined.

#[export] Instance stream_countable : Countable stream.
Proof.
  refine (inj_countable' (fun s => match s with Out => true | Errs => false end) (fun b : bool => if b then Out else Errs) _). by intros [].
Defined.

(** Where a copier is: about to read, or inside [Write] with a chunk: it is in
    the log, it is on the console, or the attached session has been read. *)
Inductive copier :=
| Reading (rest : list bytes)
| Logged (p : bytes) (rest : list bytes)
| Shown (p : bytes) (rest : list bytes)
| Holding (p : bytes) (fc : option nat) (rest : list bytes)
| Finished.
#[export] Instance copier_eq_dec : EqDecision copier.
Proof. solve_decision. Defined.

(** A chunk handed to a file, and how many of its bytes the file took. *)
Notation filed := (stream * bytes * nat)%type.

(** The container's output: whether its log was opened, its copiers, what the
    log and the console were handed, the attached session (by a number of its
    own), what each session was handed, and the code [startOnce] returned. *)
Record cio := CIO {
  io_logF : bool; io_copiers : gmap stream copier;
  io_log : list filed; io_console : list filed;
  io_attached : option nat; io_sessions : list nat;
  io_taken : list (option nat * (stream * bytes));  (* the session each chunk was taken for *)
  io_sent : list (nat * (stream * bytes)); io_result : option Z
}.
Definition new_io (logF : bool) (copiers : gmap stream copier) (result : option Z) : cio := CIO logF copiers [] [] None [] [] [] result.

(** [startOnce]: 128 when the command cannot be found or started, else the
    copiers run. *)
Definition startOnce (logF : bool) (quote : string -> string) (ci : container_info) (argv0 : string) (args : list string) (start : command -> started) : cio :=
  match container_command quote ci argv0 args with
  | Ok cmd =>
      match start cmd with
      | NoStart _ => new_io logF ∅ (Some 128%Z)
      | Pty output => new_io logF {[Out := Reading output]} None
      | Pipes out errs => new_io logF {[Out := Reading out; Errs := Reading errs]} None
      end
  | _ => new_io logF ∅ (Some 128%Z)
  end.

(** ** The copiers *)

Inductive io_label :=
| LCopy (st : stream) (n : nat)  (* one step of a copier; a file it writes to takes at most n bytes *)
| LAttach (session : nat)      (* [setAttached] with a session, when there is none *)
| LDetach                      (* [setAttached(nil)] *)
| LWait (w : wait_result).     (* the copiers are done, [cmd.Wait] returned *)

Definition with_copier (st : stream) (c : copier) (s : cio) : cio :=
  CIO (io_logF s) (<[st := c]> (io_copiers s)) (io_log s) (io_console s) (io_attached s) (io_sessions s) (io_taken s) (io_sent s) (io_result s).

(** The first statement of [Write]: nothing when the log was not opened. *)
Definition log_write (st : stream) (n : nat) (p : bytes) (s : cio) : cio :=
  if io_logF s then
    CIO (io_logF s) (io_copiers s) (io_log s ++ [(st, p, n)]) (io_console s) (io_attached s) (io_sessions s) (io_taken s) (io_sent s) (io_result s)
  else s.

(** [os.Stdout.Write(p)] *)
Definition console_write (st : stream) (n : nat) (p : bytes) (s : cio) : cio :=
  CIO (io_logF s) (io_copiers s) (io_log s) (io_console s ++ [(st, p, n)]) (io_attached s) (io_sessions s) (io_taken s) (io_sent s) (io_result s).

(** [fc := c.attached] *)
Definition take_session (st : stream) (p : bytes) (s : cio) : cio :=
  CIO (io_logF s) (io_copiers s) (io_log s) (io_console s) (io_attached s) (io_sessions s)
    (io_taken s ++ [(io_attached s, (st, p))]) (io_sent s) (io_result s).

(** [fc.writeFrame(frameStdout, p)], whose error is ignored. *)
Definition session_write (st : stream) (fc : option nat) (p : bytes) (s : cio) : cio :=
  CIO (io_logF s) (io_copiers s) (io_log s) (io_console s) (io_attached s) (io_sessions s) (io_taken s)
    (io_sent s ++ match fc with Some m => [(m, (st, p))] | None => [] end) (io_result s).

(** One step of [io.Copy] and [Write]. *)
Definition copy_step (st : stream) (n : nat) (c : copier) (s : cio) : option cio :=
  match c with
  | Reading [] => Some (with_copier st Finished s)
  | Reading (p :: rest) => Some (with_copier st (Logged p rest) (log_write st n p s))
  | Logged p rest => Some (with_copier st (Shown p rest) (console_write st n p s))
  | Shown p rest => Some (with_copier st (Holding p (io_attached s) rest) (take_session st p s))
  | Holding p fc rest => Some (with_copier st (Reading rest) (session_write st fc p s))
  | Finished => None
  end.

Definition with_session (attached : option nat) (sessions : list nat) (s : cio) : cio :=
  CIO (io_logF s) (io_copiers s) (io_log s) (io_console s) attached sessions (io_taken s) (io_sent s) (io_result s).
Definition with_result (code : Z) (s : cio) : cio :=
  CIO (io_logF s) (io_copiers s) (io_log s) (io_console s) (io_attached s) (io_sessions s) (io_taken s) (io_sent s) (Some code).

Definition io_step (l : io_label) (s : cio) : option cio :=
  match l with
  | LCopy st n => match io_result s, io_copiers s !! st with None, Some c => copy_step st n c s | _, _ => None end
  | LAttach n =>
      if decide (n ∈ io_sessions s \/ io_attached s <> None) then None
      else Some (with_session (Some n) (n :: io_sessions s) s)
  | LDetach => Some (with_session None (io_sessions s) s)
  | LWait w =>
      if decide (io_result s = None /\ map_Forall (fun _ c => c = Finished) (io_copiers s)) then Some (with_result (wait_code w) s) else None
  end.

Fixpoint io_run (l : list io_label) (s : cio) : option cio :=
  match l with [] => Some s | x :: l' => s' ← io_step x s; io_run l' s' end.

(** ** What is where *)

Definition of_stream (st : stream) (l : list (stream * bytes)) : list bytes := snd <$> filter (fun x => x.1 = st) l.
Definition taken_for (n : nat) (st : stream) (s : cio) : list bytes :=
  of_stream st (snd <$> filter (fun x => x.1 = Some n) (io_taken s)).
Definition sent_to (n : nat) (st : stream) (s : cio) : list bytes :=
  of_stream st (snd <$> filter (fun x => x.1 = n) (io_sent s)).

Lemma of_stream_app st l k : of_stream st (l ++ k) = of_stream st l ++ of_stream st k.
Proof. unfold of_stream. by rewrite filter_app, fmap_app. Qed.
Lemma of_stream_one st st' p : of_stream st [(st', p)] = if decide (st' = st) then [p] else [].
Proof. unfold of_stream. rewrite filter_cons, filter_nil. cbn [fst]. by repeat case_decide. Qed.

(** The contents of a file, chunk by chunk, and whether it took all of each. *)
Definition file_of (st : stream) (l : list filed) : list bytes := (fun x : filed => take x.2 x.1.2) <$> filter (fun x : filed => x.1.1 = st) l.
Definition whole (l : list filed) : Prop := Forall (fun x : filed => length x.1.2 <= x.2) l.

Lemma file_of_handed st l :
  Forall2 prefix (file_of st l) (of_stream st l.*1) /\ (whole l -> file_of st l = of_stream st l.*1).
Proof.
  unfold file_of, of_stream, whole. induction l as [|[[st' p] n] l [IH1 IH2]]; [done|]. rewrite fmap_cons, !filter_cons. cbn [fst snd].
  case_decide as Hs; [|split; [done|]; by intros [_ ?]%Forall_cons; apply IH2].
  rewrite !fmap_cons. cbn [fst snd]. split; [constructor; [apply prefix_take|done]|].
  intros [Hn H]%Forall_cons. cbn in Hn. by rewrite take_ge, IH2 by done.
Qed.

Definition to_log (c : copier) : list bytes :=
  match c with Reading r | Logged _ r | Shown _ r | Holding _ _ r => r | Finished => [] end.
Definition to_show (c : copier) : list bytes := match c with Logged p r => p :: r | c => to_log c end.
Definition to_take (c : copier) : list bytes := match c with Logged p r | Shown p r => p :: r | c => to_log c end.
Definition to_send (n : nat) (c : copier) : list bytes := match c with Holding p fc _ => if decide (fc = Some n) then [p] else [] | _ => [] end.

(** What a stream's process prints goes through each of the four places in
    order; [all] gives it per stream. *)
Record io_inv (all : stream -> list bytes) (s : cio) : Prop := IOInv {
  ii_log : forall st, if io_logF s then of_stream st (io_log s).*1 ++ from_option to_log [] (io_copiers s !! st) = all st else io_log s = [];
  ii_show : forall st, of_stream st (io_console s).*1 ++ from_option to_show [] (io_copiers s !! st) = all st;
  ii_take : forall st, of_stream st (snd <$> io_taken s) ++ from_option to_take [] (io_copiers s !! st) = all st;
  ii_send : forall n st, sent_to n st s ++ from_option (to_send n) [] (io_copiers s !! st) = taken_for n st s;
  ii_infix : forall n st, exists a c, of_stream st (snd <$> io_taken s) = a ++ taken_for n st s ++ c /\
    (io_attached s = Some n -> c = []) /\ (n ∉ io_sessions s -> taken_for n st s = []);
  ii_attached : forall n, io_attached s = Some n -> n ∈ io_sessions s
}.

(** A copier's step, seen by the stream it is of and by the others. *)
Lemma with_copier_lookup st c s st' : io_copiers (with_copier st c s) !! st' = if decide (st' = st) then Some c else io_copiers s !! st'.
Proof. cbn. case_decide as E; [subst; by rewrite lookup_insert_eq|by rewrite lookup_insert_ne]. Qed.

Lemma copy_preserves all st n c s s' : io_inv all s -> io_copiers s !! st = Some c -> copy_step st n c s = Some s' -> io_inv all s'.
Proof.
  intros [I1 I2 I3 I4 I5 I6] Hc H. unfold copy_step, log_write in H. destruct (io_logF s) eqn:HF.
  all: destruct c as [[|p rest]|p rest|p rest|p fc rest|]; [..|done]; injection H as <-;
    unfold console_write, take_session, session_write, sent_to, taken_for in *; (split;
    [ intros st'; specialize (I1 st') | intros st'; specialize (I2 st') | intros st'; specialize (I3 st')
    | intros m st'; specialize (I4 m st') | intros m st'; specialize (I5 m st') | exact I6 ]);
    rewrite ?with_copier_lookup; unfold sent_to, taken_for; cbn [with_copier io_logF io_log io_console io_taken io_sent io_attached io_sessions] in *;
    rewrite ?HF, ?filter_app, ?fmap_app, ?of_stream_app, ?of_stream_one; try exact I5; try exact I1.
  all: destruct (decide (st' = st)) as [->|Hne]; [try rewrite Hc in I1; try rewrite Hc in I2; try rewrite Hc in I3; try rewrite Hc in I4|rewrite ?(decide_False (P:=st = st')) by naive_solver]; rewrite ?(decide_True (P:=st = st)) by done;
    cbn [from_option to_log to_show to_take to_send fmap list_fmap fst] in *; rewrite ?app_nil_r, ?filter_cons, ?filter_nil in *; try done.
  all: cbn [fst snd io_copiers] in *; repeat (case_decide; cbn [fmap list_fmap snd fst] in *); rewrite ?of_stream_one in *; repeat (case_decide; [done || simplify_eq|]);
    repeat (case_decide; try done); rewrite ?app_nil_r, <-?app_assoc in *; cbn [app] in *; simplify_eq; try done.
  all: first
    [ by rewrite I4
    | solve [ match goal with Ha : io_attached _ = Some _ |- _ => destruct I5 as (a & c & E & Hl & _); rewrite Hl in E by done;
        exists a, []; rewrite E, !app_nil_r, <-app_assoc; split_and!; [done..|]; intros Hn; by destruct Hn; apply I6 end ]
    | solve [ destruct I5 as (a & c & E & _ & Hs); exists a, (c ++ [p]); rewrite E, <-!app_assoc; by split_and! ]
    | solve [ rewrite filter_cons_True, filter_nil by done; cbn [fmap list_fmap snd]; by rewrite of_stream_one, decide_True ]
    | solve [ destruct fc as [k|]; [|by rewrite filter_nil, app_nil_r]; rewrite filter_cons_False by (cbn; congruence); by rewrite filter_nil, app_nil_r ]
    | solve [ destruct fc as [k|]; [|by rewrite filter_nil]; rewrite <-I4; f_equal; rewrite filter_cons, filter_nil;
        case_decide; cbn [fmap list_fmap snd]; [|done]; by rewrite of_stream_one, decide_False by naive_solver ] ].
Qed.

Lemma io_preserves all l s s' : io_inv all s -> io_step l s = Some s' -> io_inv all s'.
Proof.
  intros I H. destruct l as [st k|n| |w]; cbn [io_step] in H.
  - destruct (io_result s); [done|]. destruct (io_copiers s !! st) as [c|] eqn:Hc; [|done]. by eapply copy_preserves.
  - case_decide as Hn; [done|]. injection H as <-. destruct I as [I1 I2 I3 I4 I5 I6]. split; [exact I1|exact I2|exact I3|exact I4| |cbn; set_solver].
    intros m st. change (exists a c, of_stream st (snd <$> io_taken s) = a ++ taken_for m st s ++ c /\
      (Some n = Some m -> c = []) /\ (m ∉ n :: io_sessions s -> taken_for m st s = [])).
    destruct (I5 m st) as (a & c & E & Ha & Hs). destruct (decide (m = n)) as [->|Hm].
    + exists (of_stream st (snd <$> io_taken s)), []. rewrite Hs by naive_solver. by rewrite !app_nil_r.
    + exists a, c. split_and!; [done|congruence|]. intros Hin. apply Hs. set_solver.
  - injection H as <-. destruct I as [I1 I2 I3 I4 I5 I6]. split; [exact I1|exact I2|exact I3|exact I4| |done].
    intros m st. destruct (I5 m st) as (a & c & E & _ & Hs). by exists a, c.
  - case_decide; [|done]. injection H as <-. destruct I as [I1 I2 I3 I4 I5 I6]. by split.
Qed.

Lemma io_run_inv all l : forall s s', io_inv all s -> io_run l s = Some s' -> io_inv all s'.
Proof.
  induction l as [|x l IH]; intros s s' I H; cbn in H; [by injection H as <-|]. destruct (io_step x s) as [s1|] eqn:E; [|done].
  cbn in H. eapply IH; [|exact H]. by eapply io_preserves.
Qed.

(** The chunks a started process prints on each stream. *)
Definition printed (r : started) (st : stream) : list bytes :=
  match r, st with
  | Pty output, Out => output
  | Pipes out errs, Out => out
  | Pipes out errs, Errs => errs
  | _, _ => []
  end.

Lemma start_inv all logF copiers r : (forall st, from_option to_log [] (copiers !! st) = all st /\ from_option to_show [] (copiers !! st) = all st /\
    from_option to_take [] (copiers !! st) = all st /\ forall n, from_option (to_send n) [] (copiers !! st) = []) -> io_inv all (new_io logF copiers r).
Proof.
  intros H. split; cbn; try done.
  - intros st. destruct logF; [|done]. by destruct (H st).
  - intros st. by destruct (H st) as (? & ? & ?).
  - intros st. by destruct (H st) as (? & ? & ? & ?).
  - intros n st. destruct (H st) as (_ & _ & _ & Hs). by rewrite Hs.
  - intros n st. by exists [], [].
Qed.

Lemma io_run_logF l : forall s s', io_run l s = Some s' -> io_logF s' = io_logF s.
Proof.
  induction l as [|x l IH]; intros s s' H; cbn in H; [by injection H as <-|]. apply bind_Some in H as (s1 & E & H).
  rewrite (IH _ _ H). unfold io_step, copy_step, log_write in E. repeat case_match; by simplify_eq.
Qed.

(** Once there is a result, the copiers are done and it stays. *)
Definition result_ok (s : cio) : Prop := is_Some (io_result s) -> map_Forall (fun _ c => c = Finished) (io_copiers s).

Lemma result_step l s s' : result_ok s -> io_step l s = Some s' ->
  result_ok s' /\ (forall c, io_result s = Some c -> io_result s' = Some c) /\
  (io_result s = None -> forall c, io_result s' = Some c -> exists w, c = wait_code w).
Proof.
  unfold result_ok. intros Hr H. destruct l as [st k|n| |w]; cbn [io_step] in H.
  - destruct (io_result s) as [r|] eqn:Hn; [done|]. destruct (io_copiers s !! st) as [c|]; [|done].
    assert (io_result s' = None) as E by (by unfold copy_step, log_write in H; repeat case_match; simplify_eq). rewrite E. split_and!; [by intros []|done|done].
  - case_decide; [done|]. injection H as <-. cbn. split_and!; [done|done|]. intros E c. by rewrite E.
  - injection H as <-. cbn. split_and!; [done|done|]. intros E c. by rewrite E.
  - case_decide as Hd; [|done]. injection H as <-. cbn. destruct Hd as [Hn Hf]. split_and!; [done|by rewrite Hn|].
    intros _ c [= <-]. by exists w.
Qed.

Lemma result_run l : forall s s', result_ok s -> io_run l s = Some s' ->
  result_ok s' /\ (forall c, io_result s = Some c -> io_result s' = Some c) /\
  (io_result s = None -> forall c, io_result s' = Some c -> exists w, c = wait_code w).
Proof.
  induction l as [|x l IH]; intros s s' Hr H; cbn in H; [injection H as <-; split_and!; [done|done|]; intros E c; by rewrite E|].
  destruct (io_step x s) as [s1|] eqn:E; [|done]. cbn in H. destruct (result_step _ _ _ Hr E) as (R1 & K1 & N1).
  destruct (IH _ _ R1 H) as (R2 & K2 & N2). split_and!; [done|by intros c Hc; apply K2, K1|].
  intros Hn c Hc. destruct (io_result s1) as [r|] eqn:E1; [|by apply N2].
  specialize (K2 r eq_refl). rewrite Hc in K2. injection K2 as ->. by apply (N1 Hn).
Qed.

(** C10 What becomes of a container's output, whatever the interleaving of its
    two streams, of sessions that come and go and of the process's exit, and
    whichever writes fail. Once [startOnce] has returned, the console was
    handed every chunk of each stream, in order, and holds a beginning of each:
    all of it, unless a write of its own fell short. So it is with the log file
    when it was opened, and when it was not nothing is logged; no failure of
    the log, the console or a session costs one of the others anything. At any
    moment before, log and console have got the streams' chunks up to one in
    flight. Each session was handed one contiguous piece of each stream. The
    code returned is the process's, or 128 when it could not be started. *)
Theorem container_output_is_complete logF quote ci argv0 args start cmd l s :
  container_command quote ci argv0 args = Ok cmd -> io_run l (startOnce logF quote ci argv0 args start) = Some s ->
  (forall st, of_stream st (io_log s).*1 `prefix_of` printed (start cmd) st /\ of_stream st (io_console s).*1 `prefix_of` printed (start cmd) st /\
     forall n, exists a c, printed (start cmd) st = a ++ sent_to n st s ++ c) /\
  (forall code, io_result s = Some code ->
     (forall st,
        Forall2 prefix (file_of st (io_console s)) (printed (start cmd) st) /\
        (whole (io_console s) -> file_of st (io_console s) = printed (start cmd) st) /\
        (if logF : bool then
           Forall2 prefix (file_of st (io_log s)) (printed (start cmd) st) /\
           (whole (io_log s) -> file_of st (io_log s) = printed (start cmd) st)
         else io_log s = [])) /\
     match start cmd with NoStart _ => code = 128%Z | _ => exists w, code = wait_code w end).
Proof.
  intros Hcmd Hrun. pose proof (io_run_logF _ _ _ Hrun) as HF. unfold startOnce in Hrun, HF. rewrite Hcmd in Hrun, HF.
  set (s0 := match start cmd with NoStart _ => _ | Pty _ => _ | Pipes _ _ => _ end) in Hrun, HF.
  assert (io_logF s0 = logF) as HF0 by (unfold s0; by destruct (start cmd)). rewrite HF0 in HF.
  assert (io_inv (printed (start cmd)) s0) as I0.
  { unfold s0. destruct (start cmd); apply start_inv; intros []; by split_and!. }
  assert (result_ok s0) as R0 by (unfold s0, result_ok; destruct (start cmd); [intros _; apply map_Forall_empty|by intros []..]).
  pose proof (io_run_inv _ _ _ _ I0 Hrun) as [I1 I2 I3 I4 I5 _]. destruct (result_run _ _ _ R0 Hrun) as (R1 & K & N). rewrite HF in I1. split.
  - intros st. split_and!.
    + specialize (I1 st). destruct logF; [rewrite <-I1; by apply prefix_app_r|]. rewrite I1. apply prefix_nil.
    + rewrite <-I2. by apply prefix_app_r.
    + intros n. destruct (I5 n st) as (a & c & E & _). rewrite <-(I3 st), E. rewrite <-(I4 n st). exists a. eexists. by rewrite <-!app_assoc.
  - intros code Hcode. assert (forall st, from_option to_log [] (io_copiers s !! st) = [] /\ from_option to_show [] (io_copiers s !! st) = []) as Hend.
    { intros st. destruct (io_copiers s !! st) as [c|] eqn:Ec; [|done]. apply R1 in Ec; [|by rewrite Hcode]. by rewrite Ec. }
    split; [|unfold s0 in K, N; destruct (start cmd); [specialize (K _ eq_refl); congruence|by apply N..]].
    intros st. destruct (Hend st) as [E1 E2]. specialize (I1 st). specialize (I2 st). rewrite E2, app_nil_r in I2. rewrite <-I2.
    destruct (file_of_handed st (io_console s)) as [C1 C2]. split_and!; [done|done|].
    destruct logF; [|done]. rewrite E1, app_nil_r in I1. rewrite I2, <-I1. apply file_of_handed.
Qed.

(** ** The final statuses *)

(** [writeFinalStatus]: the bytes of /status.json, when it is written. *)
Definition writeFinalStatus (s : sup) : option bytes := marshal_statuses (statuses s).
(** [readFinalStatus], of what the file holds; no file, or one that does not
    decode, means the VM died on the way. *)
Definition readFinalStatus (file : option bytes) : option (list guestContainerStatus) := file ≫= unmarshal_statuses.

(** C30 The outcome a VM leaves behind: once [run] has returned, the agent reads
    from the share what the supervisor wrote, and the phase it ends the pod
    with is Succeeded exactly when every container exited with code 0, which
    is when [run] returned 0. *)
Theorem final_status_end_to_end pol pod s code vm :
  reachable pol (ct_Name <$> p_InitContainers pod) (ct_Name <$> p_Containers pod) s -> run_at s = Returned code ->
  NoDup (ct_Name <$> allContainers pod) -> Forall status_fits (statuses s) ->
  exists sts, readFinalStatus (writeFinalStatus s) = Some sts /\
    let '(ics, css, _) := translateStatuses pod sts vm in
    finalPhase ics css = (if bool_decide (code = 0%Z) then PodSucceeded else PodFailed).
Proof.
  intros Hr Hc Hn Hf. exists (of_guest <$> statuses s). split; [by apply statuses_decoded|]. by apply (final_phase pol pod s code vm).
Qed.



(** ** Witnesses *)

Definition ex_io_info : container_info := Info None ["A=1"] "".
Definition ex_io_start (_ : command) : started := Pipes [[1]; [2]]%Z [[9]]%Z.
(** A session comes while the first chunk is being written and goes again; the
    disk of the log is full from the second chunk of stdout on. *)
Definition ex_io_labels : list io_label :=
  [LCopy Out 1; LCopy Errs 1; LAttach 7; LCopy Errs 1; LCopy Out 1; LCopy Out 1; LCopy Out 1; LCopy Errs 1; LDetach; LCopy Errs 1; LCopy Out 0;
   LCopy Out 1; LCopy Out 1; LCopy Out 1; LCopy Out 1; LCopy Errs 1; LWait (WaitExit 3)].
Notation ex_io_started logF := (startOnce logF (fun s => s) ex_io_info "/bin/date" ["-u"] ex_io_start).
Definition ex_io_end (logF : bool) : cio := default (ex_io_started logF) (io_run ex_io_labels (ex_io_started logF)).

Lemma container_output_is_complete_witness :
  file_of Out (io_console (ex_io_end true)) = [[1]; [2]]%Z /\ file_of Errs (io_log (ex_io_end true)) `prefix_of` [[9]]%Z /\
  file_of Out (io_log (ex_io_end true)) = [[1]; []]%Z /\
  Forall2 prefix (file_of Out (io_log (ex_io_end true))) [[1]; [2]]%Z /\
  io_log (ex_io_end false) = [] /\ file_of Out (io_console (ex_io_end false)) = [[1]; [2]]%Z /\
  exists a c, [[1]; [2]]%Z = a ++ sent_to 7 Out (ex_io_end true) ++ c.
Proof.
  assert (container_command (fun s => s) ex_io_info "/bin/date" ["-u"] =
    Ok (Command "/bin/date" ["/bin/date"; "-u"] (mergeEnv defaultEnv ["A=1"]) "" false)) as Ecmd by reflexivity.
  assert (forall logF, whole (io_console (ex_io_end logF))) as Hw.
  { intros []; apply (bool_decide_unpack _); vm_compute; exact I. }
  destruct (container_output_is_complete true (fun s => s) ex_io_info "/bin/date" ["-u"] ex_io_start _ ex_io_labels (ex_io_end true) Ecmd
    ltac:(vm_compute; reflexivity)) as [H1 H2].
  destruct (container_output_is_complete false (fun s => s) ex_io_info "/bin/date" ["-u"] ex_io_start _ ex_io_labels (ex_io_end false) Ecmd
    ltac:(vm_compute; reflexivity)) as [_ H3].
  destruct (H2 3%Z ltac:(vm_compute; reflexivity)) as [H4 _]. destruct (H4 Out) as (_ & E1 & E2 & _).
  destruct (H3 3%Z ltac:(vm_compute; reflexivity)) as [H5 _]. destruct (H5 Out) as (_ & E3 & E4).
  split; [exact (E1 (Hw true))|]. split; [vm_compute; by exists []|]. split; [vm_compute; reflexivity|]. split; [exact E2|].
  split; [exact E4|]. split; [exact (E3 (Hw false))|]. destruct (H1 Out) as (_ & _ & H6). exact (H6 7).
Defined.

Definition ex_final_labels : list action :=
  [AContainer true 0 (EvStartOk 5); AContainer true 0 (EvExit 9 WaitOk); ARun; AContainer false 0 (EvStartOk 15);
   AContainer false 0 (EvExit 19 (WaitExit 2)); ARun].
Definition ex_final_sup : sup := default (Supervisor.start "Never" ["i"] ["a"]) (exec_all ex_final_labels (Supervisor.start "Never" ["i"] ["a"])).

Lemma final_status_end_to_end_witness :
  exists sts, readFinalStatus (writeFinalStatus ex_final_sup) = Some sts /\
    let '(ics, css, _) := translateStatuses (ex_pod ["i"] ["a"]) sts (new_vm "uid" "web" "ns" false "") in finalPhase ics css = PodFailed.
Proof.
  assert (reachable "Never" ["i"] ["a"] ex_final_sup) as Hr by (apply (exec_all_rtc ex_final_labels); vm_compute; reflexivity).
  apply (final_status_end_to_end "Never" (ex_pod ["i"] ["a"]) ex_final_sup 2 (new_vm "uid" "web" "ns" false "") Hr).
  - vm_compute. reflexivity.
  - apply (bool_decide_unpack _). vm_compute. exact I.
  - unfold status_fits, int_ok, int32_ok. apply (bool_decide_unpack _). vm_compute. exact I.
Defined.
