(* ===== verification/Erofs.v ===== *)
(** * The EROFS image writer (poc/agent/erofs/erofs.go)

    [Convert] turns a tar stream into an EROFS image: [addEntry] builds the
    tree and streams file data to the output, then [assignNids],
    [writeDirBlocks], [writeInodes] and [writeSuperblock] lay down the
    metadata. Nodes are shared by pointers in the code; here a node is an
    index into [w_nodes] (the root is 0) and [n_parent], [n_children] and
    [n_hardTo] hold indices. The tar reader is the list of the headers and
    contents it yields. [w_limit] is the largest size the output takes before
    a write fails. [ErofsTree], [ErofsOut], [ErofsEntries], [ErofsWalk],
    [ErofsDirs] and [ErofsImage] prove what this file defines, [ErofsSpec]
    states it. *)
From Stdlib Require Import Ascii.
From S2P Require Import Prelude GoStrings.

Definition blockSize : nat := Z.to_nat 4096.
Definition superOffset : nat := Z.to_nat 1024.
Definition magic : Z := 0xE0F5E1E2.
Definition formatExtendedPlain : Z := 1.
Definition inodeSize : nat := 64.
Definition slotSize : nat := 32.

Definition ftReg : Z := 1.
Definition ftDir : Z := 2.
Definition ftChardev : Z := 3.
Definition ftBlkdev : Z := 4.
Definition ftFifo : Z := 5.
Definition ftSymlink : Z := 7.

#[global] Arguments blockSize : simpl never.

(** ** Data *)

Record node := Node {
  n_name : string;
  n_parent : option nat;
  n_children : option (gmap string nat);   (* [None]: the nil map *)
  n_mode : Z; n_uid : Z; n_gid : Z; n_mtime : Z; n_rdev : Z;
  n_size : Z; n_blkaddr : Z; n_nlink : Z; n_ftype : Z;
  n_nid : Z; n_ino : Z;
  n_hardTo : option nat
}.

Definition isDir (n : node) : bool := bool_decide (n_ftype n = ftDir).

Record writer := Writer {
  w_out : bytes; w_pos : nat; w_limit : nat;
  w_nextBlk : Z; w_inoSeq : Z;
  w_nodes : list node;
  w_byPath : gmap string nat
}.

(** Tar type flags the writer distinguishes. *)
Inductive typeflag := TypeDir | TypeReg | TypeSymlink | TypeLink | TypeChar | TypeBlock | TypeFifo | TypeOther.

#[export] Instance typeflag_eq_dec : EqDecision typeflag.
Proof. solve_decision. Defined.

Record header := Header {
  h_Name : string; h_Typeflag : typeflag; h_Linkname : string;
  h_Uid : Z; h_Gid : Z; h_ModTime : Z; h_Mode : Z; h_Devmajor : Z; h_Devminor : Z; h_Size : Z
}.

(** What reading an entry's content yields, and whether it ends in an error. *)
Record content := Content { c_data : bytes; c_err : bool }.

(** ** Node updates *)

Definition set_children (c : option (gmap string nat)) (n : node) : node :=
  Node (n_name n) (n_parent n) c (n_mode n) (n_uid n) (n_gid n) (n_mtime n) (n_rdev n) (n_size n) (n_blkaddr n)
    (n_nlink n) (n_ftype n) (n_nid n) (n_ino n) (n_hardTo n).
Definition set_nlink (f : Z -> Z) (n : node) : node :=
  Node (n_name n) (n_parent n) (n_children n) (n_mode n) (n_uid n) (n_gid n) (n_mtime n) (n_rdev n) (n_size n)
    (n_blkaddr n) (u32 (f (n_nlink n))) (n_ftype n) (n_nid n) (n_ino n) (n_hardTo n).
Definition set_owner (uid gid mtime : Z) (n : node) : node :=
  Node (n_name n) (n_parent n) (n_children n) (n_mode n) uid gid mtime (n_rdev n) (n_size n) (n_blkaddr n)
    (n_nlink n) (n_ftype n) (n_nid n) (n_ino n) (n_hardTo n).
Definition set_kind (mode ftype : Z) (n : node) : node :=
  Node (n_name n) (n_parent n) (n_children n) mode (n_uid n) (n_gid n) (n_mtime n) (n_rdev n) (n_size n) (n_blkaddr n)
    (n_nlink n) ftype (n_nid n) (n_ino n) (n_hardTo n).
Definition set_rdev (rdev : Z) (n : node) : node :=
  Node (n_name n) (n_parent n) (n_children n) (n_mode n) (n_uid n) (n_gid n) (n_mtime n) rdev (n_size n) (n_blkaddr n)
    (n_nlink n) (n_ftype n) (n_nid n) (n_ino n) (n_hardTo n).
Definition set_data (size blkaddr : Z) (n : node) : node :=
  Node (n_name n) (n_parent n) (n_children n) (n_mode n) (n_uid n) (n_gid n) (n_mtime n) (n_rdev n) size blkaddr
    (n_nlink n) (n_ftype n) (n_nid n) (n_ino n) (n_hardTo n).
Definition set_ids (nid ino : Z) (n : node) : node :=
  Node (n_name n) (n_parent n) (n_children n) (n_mode n) (n_uid n) (n_gid n) (n_mtime n) (n_rdev n) (n_size n)
    (n_blkaddr n) (n_nlink n) (n_ftype n) nid ino (n_hardTo n).
Definition set_hardTo (t : nat) (n : node) : node :=
  Node (n_name n) (n_parent n) (n_children n) (n_mode n) (n_uid n) (n_gid n) (n_mtime n) (n_rdev n) (n_size n)
    (n_blkaddr n) (n_nlink n) (n_ftype n) (n_nid n) (n_ino n) (Some t).

Definition set_nodes (l : list node) (w : writer) : writer :=
  Writer (w_out w) (w_pos w) (w_limit w) (w_nextBlk w) (w_inoSeq w) l (w_byPath w).
Definition upd_node (i : nat) (f : node -> node) (w : writer) : writer := set_nodes (alter f i (w_nodes w)) w.

(** A dereferenced pointer. *)
Definition get_node (i : nat) (w : writer) : result string node := deref (w_nodes w !! i).

(** ** Output *)

(** [w.out.Write] *)
Definition out_write (bs : bytes) (w : writer) : result string writer :=
  if bool_decide (w_pos w + length bs <= w_limit w)
  then Ok (Writer (write_at (w_pos w) bs (w_out w)) (w_pos w + length bs) (w_limit w) (w_nextBlk w) (w_inoSeq w)
             (w_nodes w) (w_byPath w))
  else Err "write".

(** [w.out.Seek(off, io.SeekStart)] *)
Definition out_seek (off : nat) (w : writer) : writer :=
  Writer (w_out w) off (w_limit w) (w_nextBlk w) (w_inoSeq w) (w_nodes w) (w_byPath w).

Definition blocks_of (size : Z) : Z := ((size + 4095) `quot` 4096)%Z.

Definition add_blocks (blocks : Z) (w : writer) : writer :=
  Writer (w_out w) (w_pos w) (w_limit w) (u32 (w_nextBlk w + u32 blocks)) (w_inoSeq w) (w_nodes w) (w_byPath w).

Definition padToBlock (size : Z) (w : writer) : result string writer :=
  let blocks := blocks_of size in
  let pad := (blocks * 4096 - size)%Z in
  w ← (if bool_decide (pad > 0)%Z then out_write (replicate (Z.to_nat pad) 0%Z) w else Ok w);
  Ok (add_blocks blocks w).

(** [streamData]; [r] is what [io.Copy] reads. *)
Definition streamData (n : nat) (r : content) (size : Z) (w : writer) : result string writer :=
  if bool_decide (size = 0%Z) then Ok (upd_node n (set_data size 0) w)
  else
    let w := upd_node n (set_data size (w_nextBlk w)) w in
    w ← out_write (c_data r) w;
    if c_err r then Err "read"
    else if bool_decide (Z.of_nat (length (c_data r)) <> size) then Err "short data"
    else padToBlock size w.

(** ** The tree *)

(** [canonical] follows hard links; it never ends on a cycle. *)
Fixpoint canonical_go (fuel i : nat) (l : list node) : result string nat :=
  match fuel with
  | O => Crash Hang
  | S fuel' =>
      n ← deref (l !! i);
      match n_hardTo n with None => Ok i | Some t => canonical_go fuel' t l end
  end.
Definition canonical (i : nat) (w : writer) : result string nat :=
  canonical_go (S (length (w_nodes w))) i (w_nodes w).

Definition dir_node (name : string) (parent : option nat) : node :=
  Node name parent (Some ∅) 0x41ED 0 0 0 0 0 0 2 ftDir 0 0 None.

(** [lookup] after the map lookups missed: create the node in its parent. *)
Definition create_child (p : string) (parent : nat) (w : writer) : result string (writer * nat) :=
  parent ← canonical parent w;
  pn ← get_node parent w;
  if negb (isDir pn) then Err "parent is not a directory"
  else
    let base := Base p in
    if bool_decide (255 < String.length base) then Err "name too long"
    else
      ch ← deref (n_children pn);
      let i := length (w_nodes w) in
      let w := set_nodes (w_nodes w ++ [dir_node base (Some parent)]) w in
      let w := upd_node parent (fun n => set_nlink (Z.add 1) (set_children (Some (<[base := i]> ch)) n)) w in
      Ok (Writer (w_out w) (w_pos w) (w_limit w) (w_nextBlk w) (w_inoSeq w) (w_nodes w) (<[p := i]> (w_byPath w)), i).

Definition clean_name (p : string) : string := Clean (TrimPrefix p "/").

Fixpoint lookup (fuel : nat) (p : string) (create : bool) (w : writer) : result string (writer * nat) :=
  match fuel with
  | O => Crash Hang
  | S fuel' =>
      let p := clean_name p in
      if bool_decide (p = "." \/ p = "") then Ok (w, 0)
      else
        match w_byPath w !! p with
        | Some n => Ok (w, n)
        | None =>
            if negb create then Err "path not found"
            else
              '(w, parent) ← lookup fuel' (Dir p) true w;
              create_child p parent w
        end
  end.

(** Every level of [lookup] drops a component of the cleaned path. *)
Definition lookup_fuel (p : string) : nat := 2 + String.length (clean_name p).

Definition mkdev (major minor : Z) : Z :=
  Z.lor (Z.lor (u32 (Z.land minor 255)) (u32 (Z.shiftl major 8))) (u32 (Z.shiftl (Z.ldiff minor 255) 12)).

(** The check and conversion at the top of [addEntry]. *)
Definition make_nondir (n : nat) (hdr : header) (w : writer) : result string writer :=
  nd ← get_node n w;
  if isDir nd && negb (bool_decide (h_Typeflag hdr = TypeDir)) then
    if bool_decide (default ∅ (n_children nd) <> ∅) then Err "non-directory tar entry over populated directory"
    else
      parent ← deref (n_parent nd);
      let w := upd_node parent (set_nlink (fun k => k - 1)%Z) w in
      Ok (upd_node n (fun nd => set_nlink (fun _ => 1%Z) (set_children None nd)) w)
  else Ok w.

Definition perm_of (hdr : header) : Z := u16 (Z.land (h_Mode hdr) 4095).

(** The switch on the type flag. *)
Definition fill_entry (n : nat) (hdr : header) (r : content) (w : writer) : result string writer :=
  let perm := perm_of hdr in
  let kind mode ft := upd_node n (fun nd => set_nlink (fun _ => 1%Z) (set_kind (Z.lor perm mode) ft nd)) in
  match h_Typeflag hdr with
  | TypeDir =>
      Ok (upd_node n (fun nd =>
            let nd := set_kind (Z.lor perm 0x4000) ftDir nd in
            set_children (Some (default ∅ (n_children nd))) nd) w)
  | TypeReg => streamData n r (h_Size hdr) (kind 0x8000%Z ftReg w)
  | TypeSymlink =>
      streamData n (Content (bytes_of_string (h_Linkname hdr)) false) (Z.of_nat (String.length (h_Linkname hdr)))
        (kind 0xA000%Z ftSymlink w)
  | TypeLink =>
      '(w, target) ← lookup (lookup_fuel (h_Linkname hdr)) (h_Linkname hdr) false w;
      target ← canonical target w;
      Ok (upd_node target (set_nlink (Z.add 1)) (upd_node n (set_hardTo target) w))
  | TypeChar => Ok (upd_node n (set_rdev (mkdev (h_Devmajor hdr) (h_Devminor hdr))) (kind 0x2000%Z ftChardev w))
  | TypeBlock => Ok (upd_node n (set_rdev (mkdev (h_Devmajor hdr) (h_Devminor hdr))) (kind 0x6000%Z ftBlkdev w))
  | TypeFifo => Ok (kind 0x1000%Z ftFifo w)
  | TypeOther => Ok w
  end.

Definition addEntry (hdr : header) (r : content) (w : writer) : result string writer :=
  '(w, n) ← lookup (lookup_fuel (h_Name hdr)) (h_Name hdr) true w;
  w ← make_nondir n hdr w;
  fill_entry n hdr r (upd_node n (set_owner (u32 (h_Uid hdr)) (u32 (h_Gid hdr)) (h_ModTime hdr)) w).

(** ** Walking *)

Definition sorted_children (n : node) : list (string * nat) :=
  merge_sort (fun a b => str_le a.1 b.1) (map_to_list (default ∅ (n_children n))).

Definition is_canonical (l : list node) (c : nat) : bool :=
  match l !! c with Some cn => bool_decide (n_hardTo cn = None) | None => false end.

(** The children [walk] enqueues. *)
Definition kids (l : list node) (i : nat) : list nat :=
  match l !! i with
  | Some n =>
      if isDir n then
        filter (fun c => is_canonical l c = true) (snd <$> sorted_children n)
      else []
  | None => []
  end.

Fixpoint walk_go {St} (get : St -> writer) (fn : nat -> St -> result string St) (fuel : nat) (queue : list nat) (s : St)
  : result string St :=
  match queue with
  | [] => Ok s
  | n :: queue' =>
      match fuel with
      | O => Crash Hang
      | S fuel' =>
          s ← fn n s;
          walk_go get fn fuel' (queue' ++ kids (w_nodes (get s)) n) s
      end
  end.

(** A tree has no more inodes than nodes. *)
Definition walk {St} (get : St -> writer) (fn : nat -> St -> result string St) (s : St) : result string St :=
  walk_go get fn (length (w_nodes (get s))) [0] s.

Definition assign_one (n : nat) (s : writer * Z) : result string (writer * Z) :=
  let '(w, next) := s in
  let seq := u32 (w_inoSeq w + 1) in
  let w := Writer (w_out w) (w_pos w) (w_limit w) (w_nextBlk w) seq (w_nodes w) (w_byPath w) in
  Ok (upd_node n (set_ids next seq) w, u64 (next + 2)).

Definition assignNids (w : writer) : result string writer := fst <$> walk fst assign_one (w, 2%Z).

(** ** Directories *)

Record dirent := Dirent { d_name : string; d_nid : Z; d_ftype : Z }.

Definition child_dirent (w : writer) (x : string * nat) : result string dirent :=
  c ← canonical x.2 w;
  cn ← get_node c w;
  Ok (Dirent x.1 (n_nid cn) (n_ftype cn)).

Fixpoint mapM_result {A B} (f : A -> result string B) (l : list A) : result string (list B) :=
  match l with
  | [] => Ok []
  | x :: l' => y ← f x; ys ← mapM_result f l'; Ok (y :: ys)
  end.

(** The entries of a directory, sorted bytewise. *)
Definition dir_entries (i : nat) (w : writer) : result string (list dirent) :=
  n ← get_node i w;
  pn ← get_node (default i (n_parent n)) w;
  es ← mapM_result (child_dirent w) (map_to_list (default ∅ (n_children n)));
  Ok (merge_sort (fun a b => str_le (d_name a) (d_name b)) (Dirent "." (n_nid n) ftDir :: Dirent ".." (n_nid pn) ftDir :: es)).

(** How many entries fit a block after [used] bytes. *)
Fixpoint fit (used : nat) (es : list dirent) : nat :=
  match es with
  | [] => 0
  | e :: es' =>
      let need := used + 12 + String.length (d_name e) in
      if bool_decide (blockSize < need) then 0 else S (fit need es')
  end.

(** The dirents of a block; [nameoff] is where the first name goes. *)
Fixpoint dirent_headers (nameoff : nat) (es : list dirent) : bytes :=
  match es with
  | [] => []
  | e :: es' =>
      le_bytes 8 (u64 (d_nid e)) ++ le_bytes 2 (u16 (Z.of_nat nameoff)) ++ [d_ftype e; 0%Z] ++
      dirent_headers (nameoff + String.length (d_name e)) es'
  end.
Definition dirent_names (es : list dirent) : bytes := concat ((fun e => bytes_of_string (d_name e)) <$> es).
Definition dir_block (es : list dirent) : bytes := dirent_headers (length es * 12) es ++ dirent_names es.

Fixpoint pack (fuel : nat) (es : list dirent) : result string (list bytes) :=
  match es with
  | [] => Ok []
  | e :: _ =>
      match fuel with
      | O => Crash Hang
      | S fuel' =>
          let count := fit 0 es in
          if bool_decide (count = 0) then Err "dirent does not fit a block"
          else
            rest ← pack fuel' (drop count es);
            Ok (dir_block (take count es) :: rest)
      end
  end.

(** Intermediate blocks are padded; returns the total size. *)
Fixpoint write_blocks (blocks : list bytes) (w : writer) : result string (writer * Z) :=
  match blocks with
  | [] => Ok (w, 0%Z)
  | blk :: blocks' =>
      w ← out_write blk w;
      match blocks' with
      | [] => Ok (w, Z.of_nat (length blk))
      | _ =>
          w ← out_write (replicate (blockSize - length blk) 0%Z) w;
          '(w, total) ← write_blocks blocks' w;
          Ok (w, (4096 + total)%Z)
      end
  end.

Definition writeOneDir (i : nat) (w : writer) : result string writer :=
  entries ← dir_entries i w;
  blocks ← pack (length entries) entries;
  let blkaddr := w_nextBlk w in
  '(w, total) ← write_blocks blocks w;
  padToBlock total (upd_node i (set_data total blkaddr) w).

Definition write_dir (i : nat) (w : writer) : result string writer :=
  n ← get_node i w;
  if isDir n then writeOneDir i w else Ok w.

Definition writeDirBlocks (w : writer) : result string writer := walk id write_dir w.

(** ** Inodes *)

Definition inode_bytes (n : node) : bytes :=
  le_bytes 2 formatExtendedPlain ++ le_bytes 2 0 ++ le_bytes 2 (n_mode n) ++ le_bytes 2 0 ++
  le_bytes 8 (u64 (n_size n)) ++
  le_bytes 4 (if bool_decide (n_ftype n = ftChardev \/ n_ftype n = ftBlkdev) then n_rdev n else n_blkaddr n) ++
  le_bytes 4 (n_ino n) ++ le_bytes 4 (n_uid n) ++ le_bytes 4 (n_gid n) ++ le_bytes 8 (u64 (n_mtime n)) ++
  le_bytes 4 0 ++ le_bytes 4 (n_nlink n) ++ replicate 16 0%Z.

(** The state of [writeInodes]'s walk: writer, inodes, bytes written. *)
Definition write_inode (i : nat) (s : writer * Z * Z) : result string (writer * Z * Z) :=
  let '(w, inos, written) := s in
  n ← get_node i w;
  w ← out_write (inode_bytes n) w;
  Ok (w, u64 (inos + 1), (written + 64)%Z).

Definition writeInodes (w : writer) : result string (writer * Z * Z) :=
  let metaBlk := w_nextBlk w in
  w ← out_write (replicate 64 0%Z) w;
  '(w, inos, written) ← walk (fun s => s.1.1) write_inode (w, 0%Z, 64%Z);
  w ← padToBlock written w;
  Ok (w, metaBlk, inos).

Definition super_bytes (w : writer) (metaBlk inos : Z) (rootNid : Z) : bytes :=
  le_bytes 4 magic ++ replicate 8 0%Z ++ [12; 0]%Z ++ le_bytes 2 (u16 rootNid) ++ le_bytes 8 inos ++
  replicate 12 0%Z ++ le_bytes 4 (w_nextBlk w) ++ le_bytes 4 metaBlk ++ replicate 4 0%Z ++
  bytes_of_string "kube-on-macos---" ++ bytes_of_string "pod-image" ++ replicate 55 0%Z.

Definition writeSuperblock (metaBlk inos : Z) (w : writer) : result string writer :=
  root ← get_node 0 w;
  out_write (super_bytes w metaBlk inos (n_nid root)) (out_seek superOffset w).

(** ** Convert *)

Definition new_writer (limit : nat) : writer :=
  Writer [] blockSize limit 1 0 [dir_node "" None] {[ "." := 0 ]}.

Fixpoint add_entries (es : list (header * content)) (w : writer) : result string writer :=
  match es with
  | [] => Ok w
  | (hdr, r) :: es' => w ← addEntry hdr r w; add_entries es' w
  end.

(** [tar_err]: the tar stream is corrupt after the entries. *)
Definition Convert (es : list (header * content)) (tar_err : bool) (limit : nat) : result string bytes :=
  w ← add_entries es (new_writer limit);
  if tar_err then Err "reading tar"
  else
    w ← assignNids w;
    w ← writeDirBlocks w;
    '(w, metaBlk, inos) ← writeInodes w;
    w ← writeSuperblock metaBlk inos w;
    Ok (w_out w).

(** ** Reading an image back

    A reader of the on-disk format, for the specification: superblock, inode
    at [meta * 4096 + nid * 32], flat data, directory blocks. *)

Definition read_le (off len : nat) (img : bytes) : Z := le_val (slice off len img).

Record super := Super { s_root : Z; s_meta : Z; s_blocks : Z; s_inos : Z }.

Definition read_super (img : bytes) : option super :=
  if bool_decide (read_le superOffset 4 img = magic /\ read_le (superOffset + 12) 1 img = 12%Z)
  then Some (Super (read_le (superOffset + 14) 2 img) (read_le (superOffset + 40) 4 img)
               (read_le (superOffset + 36) 4 img) (read_le (superOffset + 16) 8 img))
  else None.

Record inode := Inode {
  i_format : Z; i_mode : Z; i_size : Z; i_u : Z; i_ino : Z; i_uid : Z; i_gid : Z; i_mtime : Z; i_nlink : Z
}.

Definition inode_off (meta nid : Z) : nat := Z.to_nat (meta * 4096 + nid * 32).

Definition read_inode (img : bytes) (meta nid : Z) : inode :=
  let o := inode_off meta nid in
  Inode (read_le o 2 img) (read_le (o + 4) 2 img) (read_le (o + 8) 8 img) (read_le (o + 16) 4 img)
    (read_le (o + 20) 4 img) (read_le (o + 24) 4 img) (read_le (o + 28) 4 img) (read_le (o + 32) 8 img)
    (read_le (o + 44) 4 img).

(** Flat-plain data: [i_size] bytes from block [i_u]. *)
Definition read_data (img : bytes) (i : inode) : bytes :=
  slice (Z.to_nat (i_u i * 4096)) (Z.to_nat (i_size i)) img.

(** The bytes before the first NUL. *)
Fixpoint cstr (l : bytes) : bytes :=
  match l with [] => [] | b :: l' => if bool_decide (b = 0%Z) then [] else b :: cstr l' end.

Definition header_nid (blk : bytes) (k : nat) : Z := read_le (k * 12) 8 blk.
Definition header_nameoff (blk : bytes) (k : nat) : nat := Z.to_nat (read_le (k * 12 + 8) 2 blk).
Definition header_ftype (blk : bytes) (k : nat) : Z := read_le (k * 12 + 10) 1 blk.

(** Entry [k] of the [count] entries of a block. *)
Definition read_dirent (blk : bytes) (count k : nat) : dirent :=
  let o := header_nameoff blk k in
  let name := if bool_decide (S k < count) then slice o (header_nameoff blk (S k) - o) blk else cstr (drop o blk) in
  Dirent (string_of_bytes name) (header_nid blk k) (header_ftype blk k).

Definition read_dir_block (blk : bytes) : list dirent :=
  let count := header_nameoff blk 0 `div` 12 in
  read_dirent blk count <$> seq 0 count.

Fixpoint read_dir (fuel : nat) (data : bytes) : list dirent :=
  match fuel with
  | O => []
  | S fuel' =>
      match data with
      | [] => []
      | _ => read_dir_block (take blockSize data) ++ read_dir fuel' (drop blockSize data)
      end
  end.

Definition S_IFMT (mode : Z) : Z := Z.land mode 0xF000.

(** Resolution of a path's components from an inode. *)
Fixpoint read_path (img : bytes) (meta nid : Z) (path : list string) : option Z :=
  match path with
  | [] => Some nid
  | c :: path' =>
      let i := read_inode img meta nid in
      if bool_decide (S_IFMT (i_mode i) = 0x4000%Z) then
        match list_find (fun e => d_name e = c) (read_dir (S (length (read_data img i))) (read_data img i)) with
        | Some (_, e) => read_path img meta (d_nid e) path'
        | None => None
        end
      else None
  end.

(** The inode of a path, from the root of the image. *)
Definition stat (img : bytes) (path : list string) : option inode :=
  sb ← read_super img;
  nid ← read_path img (s_meta sb) (s_root sb) path;
  Some (read_inode img (s_meta sb) nid).

Definition read_file (img : bytes) (path : list string) : option bytes := read_data img <$> stat img path.

(** *** A small image *)

Definition ex_hdr (name : string) (t : typeflag) (link : string) (size : Z) : header :=
  Header name t link 0 0 7 0x1FF 0 0 size.
Definition ex_tar : list (header * content) :=
  [ (ex_hdr "etc/passwd" TypeReg "" 3, Content [1; 2; 3]%Z false);
    (ex_hdr "etc" TypeDir "" 0, Content [] false);
    (ex_hdr "bin/sh" TypeLink "etc/passwd" 0, Content [] false);
    (ex_hdr "lib" TypeSymlink "usr/lib" 0, Content [] false) ].

Definition ex_image : bytes :=
  match Convert ex_tar false (Z.to_nat 40000) with Ok img => img | _ => [] end.

Example ex_image_reads :
  read_file ex_image ["etc"; "passwd"] = Some [1; 2; 3]%Z /\ read_file ex_image ["bin"; "sh"] = Some [1; 2; 3]%Z /\
  read_file ex_image ["lib"] = Some (bytes_of_string "usr/lib") /\ stat ex_image ["nope"] = None /\
  i_nlink <$> stat ex_image ["etc"; "passwd"] = Some 2%Z /\ i_nlink <$> stat ex_image [] = Some 4%Z.
Proof. vm_compute. repeat split. Qed.
