(* ===== verification/ErofsTree.v ===== *)
(** * The EROFS writer's tree and output position

    The invariant of the tree that [addEntry] builds ([tree_ok]: parents,
    children, hard links and the path table agree) and of the output
    ([out_ok]: block-aligned, append-only), each preserved by every operation
    of [Erofs]; and what the tree holds for each tar entry ([entry_ok]). *)
From Stdlib Require Import Ascii.
From S2P Require Import Prelude GoStrings Erofs.

(** ** Paths in the tree *)

Definition child (l : list node) (i : nat) (x : string) : option nat :=
  n ← l !! i; ch ← n_children n; ch !! x.

Fixpoint descend (l : list node) (i : nat) (p : list string) : option nat :=
  match p with
  | [] => Some i
  | x :: p' => j ← child l i x; descend l j p'
  end.

(** Names a directory entry can have: a plain component without NUL bytes. *)
Definition dir_name (x : string) : Prop := plain x /\ no_char "000" x.

Record tree_ok (l : list node) (bp : gmap string nat) : Prop := {
  root_ok : exists r, l !! 0 = Some r /\ n_parent r = None /\ isDir r = true /\ n_hardTo r = None;
  parent_ok : forall i n, i <> 0 -> l !! i = Some n ->
    exists p, n_parent n = Some p /\ p < i /\ child l p (n_name n) = Some i;
  child_ok : forall p x c, child l p x = Some c ->
    exists n, l !! c = Some n /\ n_parent n = Some p /\ n_name n = x;
  dirs_ok : forall i n, l !! i = Some n ->
    is_Some (n_children n) <-> isDir n = true /\ n_hardTo n = None;
  links_ok : forall i n t, l !! i = Some n -> n_hardTo n = Some t ->
    exists tn, l !! t = Some tn /\ n_hardTo tn = None /\ isDir tn = false;
  names_ok : forall i n, i <> 0 -> l !! i = Some n -> dir_name (n_name n) /\ String.length (n_name n) <= 255;
  paths_ok : forall p, Forall plain p -> p <> [] -> bp !! rel_path p = descend l 0 p
}.

Lemma descend_app l i p q : descend l i (p ++ q) = (j ← descend l i p; descend l j q).
Proof. revert i. induction p as [|x p IH]; intros i; [done|]. cbn. by destruct (child l i x); cbn. Qed.

Lemma descend_snoc l i p x : descend l i (p ++ [x]) = (j ← descend l i p; child l j x).
Proof. rewrite descend_app. destruct (descend l i p) as [j|]; cbn; [|done]. by destruct (child l j x). Qed.

Lemma child_lt l bp p x c : tree_ok l bp -> child l p x = Some c -> p < c.
Proof.
  intros Ht Hc. destruct (child_ok _ _ Ht _ _ _ Hc) as (n & Hn & Hp & _).
  destruct (decide (c = 0)) as [->|Hc0].
  - destruct (root_ok _ _ Ht) as (r & Hr & Hr' & _). congruence.
  - destruct (parent_ok _ _ Ht _ _ Hc0 Hn) as (q & Hq & Hlt & _). congruence.
Qed.

Lemma descend_valid l bp p i : tree_ok l bp -> descend l 0 p = Some i -> i < length l.
Proof.
  intros Ht. destruct p as [|x p _] using rev_ind.
  - intros [= <-]. destruct (root_ok _ _ Ht) as (r & Hr & _). by apply lookup_lt_Some in Hr.
  - rewrite descend_snoc. destruct (descend l 0 p) as [j|]; [|done]. cbn. intros Hc.
    destruct (child_ok _ _ Ht _ _ _ Hc) as (n & Hn & _). by apply lookup_lt_Some in Hn.
Qed.

Lemma child_None l i x : l !! i = None -> child l i x = None.
Proof. intros H. unfold child. by rewrite H. Qed.

(** A node has one path. *)
Lemma descend_inj l bp p q i : tree_ok l bp -> descend l 0 p = Some i -> descend l 0 q = Some i -> p = q.
Proof.
  intros Ht. revert q i. induction p as [|x p IH] using rev_ind; intros q i.
  - intros [= <-]. destruct q as [|y q _] using rev_ind; [done|]. rewrite descend_snoc.
    destruct (descend l 0 q) as [j|]; [|done]. cbn. intros Hc%(child_lt _ bp); [lia|done].
  - rewrite descend_snoc. destruct (descend l 0 p) as [j|] eqn:Hp; [|done]. cbn. intros Hc.
    destruct q as [|y q _] using rev_ind; [intros [= <-]; apply (child_lt _ bp) in Hc; [lia|done]|].
    rewrite descend_snoc. destruct (descend l 0 q) as [k|] eqn:Hq; [|done]. cbn. intros Hc'.
    destruct (child_ok _ _ Ht _ _ _ Hc) as (n & Hn & Hp1 & <-), (child_ok _ _ Ht _ _ _ Hc') as (n' & Hn' & Hp2 & <-).
    simplify_eq. f_equal. by eapply IH.
Qed.

(** Every node has a path. *)
Lemma descend_complete l bp i : tree_ok l bp -> i < length l -> exists p, descend l 0 p = Some i.
Proof.
  intros Ht. induction (lt_wf i) as [i _ IH]. intros Hi. destruct (decide (i = 0)) as [->|Hi0]; [by exists []|].
  destruct (lookup_lt_is_Some_2 _ _ Hi) as [n Hn]. destruct (parent_ok _ _ Ht _ _ Hi0 Hn) as (q & _ & Hlt & Hc).
  destruct (IH q Hlt) as [p Hp]; [lia|]. exists (p ++ [n_name n]). by rewrite descend_snoc, Hp.
Qed.

Lemma descend_names l bp p i : tree_ok l bp -> descend l 0 p = Some i -> Forall dir_name p.
Proof.
  intros Ht. revert i. induction p as [|x p IH] using rev_ind; intros i; [done|].
  rewrite descend_snoc. destruct (descend l 0 p) as [j|] eqn:Hp; [|done]. cbn. intros Hc.
  apply Forall_app. split; [by apply (IH j)|]. constructor; [|done].
  pose proof (child_lt _ _ _ _ _ Ht Hc). destruct (child_ok _ _ Ht _ _ _ Hc) as (n & Hn & _ & <-).
  apply (names_ok _ _ Ht i); [lia|done].
Qed.

(** [canonical] takes one hop. *)
Lemma canonical_hop i n w :
  w_nodes w !! i = Some n ->
  (forall t, n_hardTo n = Some t -> exists tn, w_nodes w !! t = Some tn /\ n_hardTo tn = None) ->
  canonical i w = Ok (default i (n_hardTo n)).
Proof.
  intros Hn Ht. unfold canonical. pose proof (lookup_lt_Some _ _ _ Hn).
  destruct (length (w_nodes w)) as [|k] eqn:Hl; [lia|]. cbn [canonical_go]. rewrite Hn. cbn.
  destruct (n_hardTo n) as [t|] eqn:Ht'; [|done]. destruct (Ht _ eq_refl) as (tn & -> & Htn). cbn. by rewrite Htn.
Qed.

Lemma canonical_spec l bp i n w :
  tree_ok l bp -> w_nodes w = l -> l !! i = Some n -> canonical i w = Ok (default i (n_hardTo n)).
Proof.
  intros Ht <- Hn. apply canonical_hop; [done|]. intros t Hh.
  destruct (links_ok _ _ Ht _ _ _ Hn Hh) as (tn & ? & ? & _). eauto.
Qed.

(** ** Creating a node *)

Definition add_child (l : list node) (parent : nat) (x : string) : list node :=
  alter (fun n => set_nlink (Z.add 1) (set_children (Some (<[x := length l]> (default ∅ (n_children n)))) n)) parent
    (l ++ [dir_node x (Some parent)]).

Definition is_dir_at (l : list node) (i : nat) : Prop :=
  exists n, l !! i = Some n /\ isDir n = true /\ n_hardTo n = None.

Lemma add_child_lookup l parent x i :
  parent < length l ->
  add_child l parent x !! i =
    (if decide (i = parent)
     then (fun n => set_nlink (Z.add 1) (set_children (Some (<[x := length l]> (default ∅ (n_children n)))) n)) <$> l !! i
     else if decide (i = length l) then Some (dir_node x (Some parent)) else l !! i).
Proof.
  intros Hp. unfold add_child. destruct (decide (i = parent)) as [->|Hi].
  - rewrite list_lookup_alter_eq, lookup_app_l by done. done.
  - rewrite list_lookup_alter_ne by done. destruct (decide (i = length l)) as [->|].
    + by rewrite lookup_app_r, Nat.sub_diag.
    + destruct (decide (i < length l)); [by rewrite lookup_app_l|].
      rewrite !lookup_ge_None_2; [done|lia|rewrite length_app; cbn; lia].
Qed.

Lemma add_child_child l parent x i y :
  is_dir_at l parent ->
  (forall n, l !! parent = Some n -> is_Some (n_children n)) ->
  child (add_child l parent x) i y =
    if decide (i = parent /\ y = x) then Some (length l)
    else if decide (i = length l) then None else child l i y.
Proof.
  intros (pn & Hpn & _) Hch. pose proof (lookup_lt_Some _ _ _ Hpn). destruct (Hch _ Hpn) as [ch Hc].
  unfold child. rewrite add_child_lookup by done.
  destruct (decide (i = parent)) as [->|Hi].
  - rewrite Hpn. cbn. rewrite Hc. cbn. destruct (decide (y = x)) as [->|Hy].
    + rewrite decide_True by done. by rewrite lookup_insert_eq.
    + rewrite decide_False by naive_solver. rewrite decide_False by lia. by rewrite lookup_insert_ne.
  - rewrite (decide_False (P := i = parent /\ y = x)) by (intros [? _]; done). by destruct (decide (i = length l)).
Qed.

Lemma add_child_descend l bp parent q x p :
  tree_ok l bp -> descend l 0 q = Some parent -> is_dir_at l parent -> child l parent x = None ->
  descend (add_child l parent x) 0 p = if decide (p = q ++ [x]) then Some (length l) else descend l 0 p.
Proof.
  intros Ht Hq Hd Hx.
  assert (forall n, l !! parent = Some n -> is_Some (n_children n)) as Hch.
  { intros n Hn. apply (dirs_ok _ _ Ht _ _ Hn). destruct Hd as (n' & Hn' & ? & ?). by simplify_eq. }
  induction p as [|y p IH] using rev_ind; [rewrite decide_False; [done|by destruct q]|].
  rewrite !descend_snoc, IH. destruct (decide (p = q ++ [x])) as [->|Hp].
  - cbn [mbind option_bind]. rewrite add_child_child by done. pose proof (descend_valid _ _ _ _ Ht Hq).
    rewrite decide_False by lia. rewrite decide_True by done.
    rewrite decide_False by (intros ?%(f_equal length); rewrite !length_app in *; cbn in *; lia).
    by rewrite descend_snoc, Hq; cbn; rewrite Hx.
  - destruct (descend l 0 p) as [i|] eqn:Hi; cbn.
    + rewrite add_child_child by done. pose proof (descend_valid _ _ _ _ Ht Hi).
      destruct (decide (i = parent /\ y = x)) as [[-> ->]|Hne].
      * rewrite decide_True; [done|]. f_equal. by eapply descend_inj.
      * rewrite decide_False by lia. rewrite decide_False; [done|].
        intros [-> ->]%List.app_inj_tail. naive_solver.
    + rewrite decide_False; [done|]. intros [-> _]%List.app_inj_tail. congruence.
Qed.

Lemma tree_ok_add_child l bp parent q x :
  tree_ok l bp -> Forall plain q -> descend l 0 q = Some parent -> is_dir_at l parent -> child l parent x = None ->
  dir_name x -> String.length x <= 255 ->
  tree_ok (add_child l parent x) (<[rel_path (q ++ [x]) := length l]> bp).
Proof.
  intros Ht Hpl Hq Hd Hx Hname Hlen. pose proof (descend_valid _ _ _ _ Ht Hq) as Hp.
  assert (forall n, l !! parent = Some n -> is_Some (n_children n)) as Hch.
  { intros n Hn. apply (dirs_ok _ _ Ht _ _ Hn). destruct Hd as (n' & Hn' & ? & ?). by simplify_eq. }
  assert (forall i n, add_child l parent x !! i = Some n -> i = length l /\ n = dir_node x (Some parent) \/
    exists n0, l !! i = Some n0 /\ n_name n = n_name n0 /\ n_parent n = n_parent n0 /\ isDir n = isDir n0 /\
      n_hardTo n = n_hardTo n0 /\ (is_Some (n_children n) <-> is_Some (n_children n0))) as Hold.
  { intros i n. rewrite add_child_lookup by done. destruct (decide (i = parent)) as [->|].
    - intros (n0 & Hn0 & ->)%fmap_Some. right. exists n0. repeat split; try done. intros _. by eapply Hch.
    - destruct (decide (i = length l)) as [->|]; [intros [= <-]; by left|]. intros Hn. right. by exists n. }
  assert (forall i n0, l !! i = Some n0 -> exists n, add_child l parent x !! i = Some n /\ n_name n = n_name n0 /\
    n_parent n = n_parent n0 /\ isDir n = isDir n0 /\ n_hardTo n = n_hardTo n0) as Hnew.
  { intros i n0 Hn0. pose proof (lookup_lt_Some _ _ _ Hn0). rewrite add_child_lookup by done. rewrite Hn0.
    destruct (decide (i = parent)); [by eexists|]. rewrite decide_False by lia. by eexists. }
  split.
  - destruct (root_ok _ _ Ht) as (r & Hr & E1 & E2 & E3). destruct (Hnew _ _ Hr) as (n & Hn & ? & ? & ? & ?).
    exists n. split_and!; congruence.
  - intros i n Hi [[-> ->]|(n0 & Hn0 & -> & -> & _)]%Hold.
    + exists parent. cbn. rewrite add_child_child, decide_True by done. done.
    + destruct (parent_ok _ _ Ht _ _ Hi Hn0) as (p & Hp0 & Hlt & Hc). exists p. split_and!; [done..|].
      rewrite add_child_child by done. rewrite decide_False by (intros [-> E]; congruence).
      pose proof (lookup_lt_Some _ _ _ Hn0). by rewrite decide_False by lia.
  - intros p y c. rewrite add_child_child by done. case_decide as Hpy.
    { destruct Hpy as [-> ->]. intros [= <-]. exists (dir_node x (Some parent)).
      rewrite add_child_lookup by done. by rewrite decide_False, decide_True by lia. }
    case_decide; [done|]. intros Hc. destruct (child_ok _ _ Ht _ _ _ Hc) as (n & Hn & <- & <-).
    destruct (Hnew _ _ Hn) as (n' & ? & ? & ? & ?). by exists n'.
  - intros i n [[-> ->]|(n0 & Hn0 & _ & _ & -> & -> & ->)]%Hold; [cbn; naive_solver|].
    by apply (dirs_ok _ _ Ht _ _ Hn0).
  - intros i n t [[-> ->]|(n0 & Hn0 & _ & _ & _ & -> & _)]%Hold; [done|]. intros Ht0.
    destruct (links_ok _ _ Ht _ _ _ Hn0 Ht0) as (tn & Htn & E1 & E2).
    destruct (Hnew _ _ Htn) as (tn' & ? & ? & ? & ? & ?). exists tn'. split_and!; congruence.
  - intros i n Hi [[-> ->]|(n0 & Hn0 & -> & _)]%Hold; [done|]. by apply (names_ok _ _ Ht i).
  - intros p Hp1 Hp2. rewrite (add_child_descend _ _ _ _ _ _ Ht Hq Hd Hx). case_decide as Hpq.
    + subst p. by rewrite lookup_insert_eq.
    + rewrite lookup_insert_ne; [by apply (paths_ok _ _ Ht)|]. intros E.
      apply rel_path_inj in E; [done|by destruct q|done| |done]. apply Forall_app. split; [done|].
      constructor; [apply Hname|done].
Qed.

(** ** [lookup] *)

(** What later entries leave alone: everything but links, children and ids. *)
Definition data (n : node) :=
  (n_name n, n_parent n, n_mode n, n_uid n, n_gid n, n_mtime n, n_rdev n, n_size n, n_blkaddr n, n_ftype n, n_hardTo n).

(** A directory no entry has described yet. *)
Definition implicit (n : node) : Prop := exists x parent, data n = data (dir_node x parent).

Definition same_out (w w' : writer) : Prop :=
  w_out w' = w_out w /\ w_pos w' = w_pos w /\ w_limit w' = w_limit w /\ w_nextBlk w' = w_nextBlk w /\
  w_inoSeq w' = w_inoSeq w.

Definition grows (l l' : list node) : Prop :=
  (forall i n, l !! i = Some n -> exists n', l' !! i = Some n' /\ data n' = data n) /\
  (forall i n, l !! i = None -> l' !! i = Some n -> implicit n).

(** [w'] and [i] are what looking [p] up with creation makes of [w]. *)
Record looked (w : writer) (p : list string) (w' : writer) (i : nat) : Prop := {
  lk_tree : tree_ok (w_nodes w') (w_byPath w');
  lk_out : same_out w w';
  lk_at : descend (w_nodes w') 0 p = Some i;
  lk_grows : grows (w_nodes w) (w_nodes w');
  lk_old : forall q j, descend (w_nodes w) 0 q = Some j -> descend (w_nodes w') 0 q = Some j;
  lk_new : forall q, is_Some (descend (w_nodes w') 0 q) -> is_Some (descend (w_nodes w) 0 q) \/ q `prefix_of` p
}.

(** The path a tar name stands for; the root is [[]]. *)
Definition names_path (s : string) (p : list string) : Prop :=
  Forall dir_name p /\
  if bool_decide (p = []) then clean_name s = "." \/ clean_name s = "" else clean_name s = rel_path p.

Lemma dir_names_plain p : Forall dir_name p -> Forall plain p.
Proof. intros H. eapply Forall_impl; [exact H|]. by intros x []. Qed.
#[export] Hint Resolve dir_names_plain : kom.

Lemma grows_refl l : grows l l.
Proof. split; [naive_solver|]. intros i n H1 H2. congruence. Qed.

Lemma grows_trans l1 l2 l3 : grows l1 l2 -> grows l2 l3 -> grows l1 l3.
Proof.
  intros [H1 H1'] [H2 H2']. split.
  - intros i n Hn. destruct (H1 _ _ Hn) as (n' & Hn' & E). destruct (H2 _ _ Hn') as (n'' & Hn'' & E').
    exists n''. split; congruence.
  - intros i n Hi Hn. destruct (l2 !! i) as [n2|] eqn:Hn2; [|by eapply H2'].
    destruct (H1' _ _ Hi Hn2) as (x & pa & E). destruct (H2 _ _ Hn2) as (n' & Hn' & E'). exists x, pa. congruence.
Qed.

Lemma same_out_trans w1 w2 w3 : same_out w1 w2 -> same_out w2 w3 -> same_out w1 w3.
Proof. unfold same_out. intuition congruence. Qed.

Lemma grows_add_child l parent x : parent < length l -> grows l (add_child l parent x).
Proof.
  intros Hp. split; intros i n; rewrite add_child_lookup by done.
  - intros Hn. pose proof (lookup_lt_Some _ _ _ Hn). rewrite Hn. destruct (decide (i = parent)); [by eexists|].
    rewrite decide_False by lia. by eexists.
  - intros Hn. destruct (decide (i = parent)) as [->|]; [apply lookup_ge_None in Hn; lia|].
    destruct (decide (i = length l)) as [->|]; [intros [= <-]; by exists x, (Some parent)|congruence].
Qed.

Lemma looked_refl w p i :
  tree_ok (w_nodes w) (w_byPath w) -> descend (w_nodes w) 0 p = Some i -> looked w p w i.
Proof. intros. split; [done|done|done|apply grows_refl|done|]. intros q Hq. by left. Qed.

Lemma names_path_dir q x : Forall dir_name (q ++ [x]) -> names_path (Dir (rel_path (q ++ [x]))) q.
Proof.
  intros H. pose proof (dir_names_plain _ H) as Hpl. split; [by apply Forall_app in H as [? _]|].
  rewrite Dir_rel by done. case_bool_decide as Hq; [by left|]. apply Forall_app in Hpl as [Hpl _].
  unfold clean_name. by rewrite TrimPrefix_rel, Clean_rel.
Qed.

Lemma create_child_spec w q x parent :
  tree_ok (w_nodes w) (w_byPath w) -> Forall dir_name (q ++ [x]) -> descend (w_nodes w) 0 q = Some parent ->
  descend (w_nodes w) 0 (q ++ [x]) = None ->
  match create_child (rel_path (q ++ [x])) parent w with
  | Ok (w', i) => looked w (q ++ [x]) w' i
  | Err _ => True
  | Crash _ => False
  end.
Proof.
  intros Ht Hnm Hq Hx. pose proof (descend_valid _ _ _ _ Ht Hq) as Hlt.
  destruct (lookup_lt_is_Some_2 _ _ Hlt) as [pn Hpn]. unfold create_child.
  rewrite (canonical_spec _ _ _ _ _ Ht eq_refl Hpn). cbn [mbind result_bind].
  destruct (n_hardTo pn) as [t|] eqn:Hh; cbn [from_option id].
  { destruct (links_ok _ _ Ht _ _ _ Hpn Hh) as (tn & Htn & _ & Hd). unfold get_node. rewrite Htn. cbn. by rewrite Hd. }
  unfold get_node. rewrite Hpn. cbn [deref mbind result_bind].
  destruct (isDir pn) eqn:Hd; [|done]. cbn [negb]. rewrite Base_rel by (by apply dir_names_plain).
  case_bool_decide as Hlen; [done|]. destruct (proj2 (dirs_ok _ _ Ht _ _ Hpn) (conj Hd Hh)) as [ch Hch].
  rewrite Hch. cbn [deref mbind result_bind upd_node set_nodes w_nodes w_out w_pos w_limit w_nextBlk w_inoSeq w_byPath].
  assert (is_dir_at (w_nodes w) parent) as Hdir by (by exists pn).
  assert (child (w_nodes w) parent x = None) as Hcx by (by rewrite descend_snoc, Hq in Hx).
  assert (alter (fun n => set_nlink (Z.add 1) (set_children (Some (<[x := length (w_nodes w)]> ch)) n)) parent
    (w_nodes w ++ [dir_node x (Some parent)]) = add_child (w_nodes w) parent x) as ->.
  { unfold add_child. apply list_alter_ext; [|done]. intros n Hn. rewrite lookup_app_l in Hn by done. simplify_eq.
    by rewrite Hch. }
  apply Forall_app in Hnm as Hnm'. destruct Hnm' as [Hnq Hnx]. apply Forall_cons in Hnx as [Hnx _].
  split; cbn [w_nodes w_byPath]; [|done| | | |].
  - apply tree_ok_add_child; [done|by apply dir_names_plain|done..|lia].
  - rewrite (add_child_descend _ _ _ _ _ _ Ht Hq Hdir Hcx). by rewrite decide_True.
  - by apply grows_add_child.
  - intros r j Hr. rewrite (add_child_descend _ _ _ _ _ _ Ht Hq Hdir Hcx). rewrite decide_False; [done|].
    intros ->. congruence.
  - intros r. rewrite (add_child_descend _ _ _ _ _ _ Ht Hq Hdir Hcx). case_decide as Hr; [|by left].
    subst r. by right.
Qed.

Lemma lookup_spec p : forall fuel s w,
  names_path s p -> length p < fuel -> tree_ok (w_nodes w) (w_byPath w) ->
  match lookup fuel s true w with
  | Ok (w', i) => looked w p w' i
  | Err _ => True
  | Crash _ => False
  end.
Proof.
  induction p as [|x p IH] using rev_ind; intros [|fuel] s w [Hnm Hs] Hf Ht; [lia| |lia|]; cbn [lookup].
  - rewrite bool_decide_true in Hs by done. rewrite bool_decide_true by done. by apply looked_refl.
  - assert (p ++ [x] <> []) as Hne by (by destruct p). rewrite bool_decide_false in Hs by done. rewrite Hs.
    pose proof (dir_names_plain _ Hnm) as Hpl. destruct (rel_path_nonempty _ Hne Hpl) as [N1 N2].
    rewrite bool_decide_false by naive_solver. rewrite (paths_ok _ _ Ht) by done.
    destruct (descend (w_nodes w) 0 (p ++ [x])) as [i|] eqn:Hi; [by apply looked_refl|]. cbn [negb].
    specialize (IH fuel (Dir (rel_path (p ++ [x]))) w (names_path_dir _ _ Hnm)).
    rewrite length_app in Hf. cbn in Hf. specialize (IH ltac:(lia) Ht).
    destruct (lookup fuel _ true w) as [[w1 parent]| |]; [|done|done]. cbn [mbind result_bind].
    destruct (descend (w_nodes w1) 0 (p ++ [x])) as [j|] eqn:Hj.
    { destruct (lk_new _ _ _ _ IH (p ++ [x])) as [[? ?]|[r Hr]]; [by eexists|congruence|].
      apply (f_equal length) in Hr. rewrite !length_app in Hr. cbn in Hr. lia. }
    pose proof (create_child_spec w1 p x parent (lk_tree _ _ _ _ IH) Hnm (lk_at _ _ _ _ IH) Hj) as Hc.
    destruct (create_child _ parent w1) as [[w2 i]| |]; [|done|done].
    split; [apply Hc|by eapply same_out_trans; [apply IH|apply Hc]|apply Hc|by eapply grows_trans; [apply IH|apply Hc]| |].
    + intros q j Hq. by apply (lk_old _ _ _ _ Hc), (lk_old _ _ _ _ IH).
    + intros q Hq. destruct (lk_new _ _ _ _ Hc q Hq) as [Hq'|]; [|by right].
      destruct (lk_new _ _ _ _ IH q Hq') as [|Hpre]; [by left|right]. by apply prefix_app_r.
Qed.

(** Without creation: the node at the path, if there is one. *)
Lemma lookup_existing p fuel s w :
  names_path s p -> (forall q, Forall plain q -> q <> [] -> w_byPath w !! rel_path q = descend (w_nodes w) 0 q) ->
  lookup (S fuel) s false w =
    match descend (w_nodes w) 0 p with Some i => Ok (w, i) | None => Err "path not found" end.
Proof.
  intros [Hnm Hs] Ht. cbn [lookup]. case_bool_decide as Hp.
  - subst p. by rewrite bool_decide_true.
  - rewrite Hs. pose proof (dir_names_plain _ Hnm) as Hpl. destruct (rel_path_nonempty _ Hp Hpl) as [N1 N2].
    rewrite bool_decide_false by naive_solver. rewrite Ht by done. by destruct (descend _ 0 p).
Qed.

(** ** Replacing a leaf *)

(** Equal but for the link count. *)
Definition unlinked (n : node) : node := set_nlink (fun _ => 0%Z) n.

Definition others_same (i : nat) (l l' : list node) : Prop :=
  forall j, j <> i -> unlinked <$> l' !! j = unlinked <$> l !! j.

(** What an entry may make of the directory node [n]. *)
Definition refines (l : list node) (i : nat) (n n' : node) : Prop :=
  n_name n' = n_name n /\ n_parent n' = n_parent n /\
  ((n_children n' = n_children n /\ isDir n' = true /\ n_hardTo n' = None) \/
   (i <> 0 /\ n_children n = Some ∅ /\ n_children n' = None /\
    ((isDir n' = false /\ n_hardTo n' = None) \/
     exists t tn, n_hardTo n' = Some t /\ l !! t = Some tn /\ n_hardTo tn = None /\ isDir tn = false))).

Lemma others_same_old i l l' j n :
  others_same i l l' -> j <> i -> l !! j = Some n -> exists n', l' !! j = Some n' /\ unlinked n' = unlinked n.
Proof.
  intros Ho Hj Hn. specialize (Ho j Hj). rewrite Hn in Ho. destruct (l' !! j) as [n'|]; [|done].
  apply (inj Some) in Ho. by exists n'.
Qed.

Lemma others_same_new i l l' j n :
  others_same i l l' -> j <> i -> l' !! j = Some n -> exists n', l !! j = Some n' /\ unlinked n = unlinked n'.
Proof.
  intros Ho Hj Hn. specialize (Ho j Hj). rewrite Hn in Ho. destruct (l !! j) as [n'|]; [|done].
  apply (inj Some) in Ho. by exists n'.
Qed.

Lemma unlinked_fields n n' :
  unlinked n = unlinked n' ->
  n_name n = n_name n' /\ n_parent n = n_parent n' /\ n_children n = n_children n' /\ isDir n = isDir n' /\
  n_hardTo n = n_hardTo n' /\ data n = data n'.
Proof.
  intros H. unfold isDir, data. destruct n, n'. unfold unlinked, set_nlink in H. cbn in *. injection H. intros. by subst.
Qed.

(** Losing an empty map of children changes no path. *)
Definition same_kids (n n' : node) : Prop :=
  n_children n' = n_children n \/ n_children n = Some ∅ /\ n_children n' = None.

Lemma refines_kids l i n n' : refines l i n n' -> same_kids n n'.
Proof. intros (_ & _ & [[H _]|(_ & H & H' & _)]); [by left|by right]. Qed.

Lemma same_kids_child l l' i n n' j x :
  others_same i l l' -> l !! i = Some n -> l' !! i = Some n' -> same_kids n n' -> child l' j x = child l j x.
Proof.
  intros Ho Hn Hn' Hr. unfold child. destruct (decide (j = i)) as [->|Hj].
  - rewrite Hn, Hn'. cbn. destruct Hr as [->|[-> ->]]; [done|]. cbn. by rewrite lookup_empty.
  - specialize (Ho j Hj). destruct (l' !! j), (l !! j); try done.
    apply (inj Some) in Ho; apply unlinked_fields in Ho as (_ & _ & E & _). cbn. by rewrite E.
Qed.

Lemma same_kids_descend l l' i n n' j p :
  others_same i l l' -> l !! i = Some n -> l' !! i = Some n' -> same_kids n n' -> descend l' j p = descend l j p.
Proof.
  intros Ho Hn Hn' Hr. revert j. induction p as [|x p IH]; intros j; [done|]. cbn.
  rewrite (same_kids_child _ _ _ _ _ _ _ Ho Hn Hn' Hr). destruct (child l j x); cbn; [apply IH|done].
Qed.

Lemma tree_ok_refine l l' bp i n n' :
  tree_ok l bp -> others_same i l l' -> l !! i = Some n -> l' !! i = Some n' -> isDir n = true -> n_hardTo n = None ->
  refines l i n n' -> tree_ok l' bp.
Proof.
  intros Ht Ho Hn Hn' Hd Hh Hr. pose proof Hr as (Hname & Hpar & Hcase).
  assert (forall j m, l' !! j = Some m -> exists m0, l !! j = Some m0 /\ n_name m = n_name m0 /\
    n_parent m = n_parent m0 /\ (j <> i -> unlinked m = unlinked m0)) as Hback.
  { intros j m Hm. destruct (decide (j = i)) as [->|Hj]; [exists n; naive_solver|].
    destruct (others_same_new _ _ _ _ _ Ho Hj Hm) as (m0 & Hm0 & E). exists m0.
    destruct (unlinked_fields _ _ E) as (?&?&_). done. }
  assert (forall j m, l !! j = Some m -> isDir m = false -> n_hardTo m = None ->
    exists m', l' !! j = Some m' /\ n_hardTo m' = None /\ isDir m' = false) as Hkeep.
  { intros j m Hm Hdm Hhm. destruct (decide (j = i)) as [->|Hj]; [congruence|].
    destruct (others_same_old _ _ _ _ _ Ho Hj Hm) as (m' & Hm' & E%unlinked_fields). exists m'. intuition congruence. }
  split.
  - destruct (root_ok _ _ Ht) as (r & Hr0 & E1 & E2 & E3). destruct (decide (i = 0)) as [->|Hi].
    + exists n'. split; [done|]. split; [congruence|]. destruct Hcase as [(_ & ? & ?)|[? _]]; done.
    + destruct (others_same_old _ _ _ _ _ Ho (not_eq_sym Hi) Hr0) as (r' & Hr' & E%unlinked_fields).
      exists r'. intuition congruence.
  - intros j m Hj Hm. destruct (Hback _ _ Hm) as (m0 & Hm0 & -> & -> & _).
    destruct (parent_ok _ _ Ht _ _ Hj Hm0) as (p & ? & ? & ?). exists p.
    by rewrite (same_kids_child _ _ _ _ _ _ _ Ho Hn Hn' (refines_kids _ _ _ _ Hr)).
  - intros p x c. rewrite (same_kids_child _ _ _ _ _ _ _ Ho Hn Hn' (refines_kids _ _ _ _ Hr)). intros Hc.
    destruct (child_ok _ _ Ht _ _ _ Hc) as (m & Hm & <- & <-). destruct (decide (c = i)) as [->|Hci].
    + exists n'. simplify_eq. done.
    + destruct (others_same_old _ _ _ _ _ Ho Hci Hm) as (m' & Hm' & E%unlinked_fields). exists m'. naive_solver.
  - intros j m Hm. destruct (decide (j = i)) as [->|Hj].
    + simplify_eq. pose proof (proj2 (dirs_ok _ _ Ht _ _ Hn) (conj Hd Hh)) as [ch Hch].
      destruct Hcase as [(E1 & E2 & E3)|(_ & _ & E & [[E2 E3]|(t & tn & E2 & _)])]; rewrite ?E1, ?E, ?E2, ?E3, ?Hch;
        split; intros H; by destruct H.
    + destruct (others_same_new _ _ _ _ _ Ho Hj Hm) as (m0 & Hm0 & E%unlinked_fields).
      destruct E as (_ & _ & -> & -> & -> & _). by apply (dirs_ok _ _ Ht _ _ Hm0).
  - intros j m t Hm Htm. destruct (decide (j = i)) as [->|Hj].
    + simplify_eq. destruct Hcase as [(_ & _ & E)|(_ & _ & _ & [[_ E]|(t' & tn & E & Htn & E2 & E3)])]; [congruence..|].
      simplify_eq. by apply (Hkeep _ _ Htn).
    + destruct (others_same_new _ _ _ _ _ Ho Hj Hm) as (m0 & Hm0 & E%unlinked_fields).
      destruct (links_ok _ _ Ht j m0 t Hm0) as (tn & Htn & ? & ?); [intuition congruence|]. by apply (Hkeep _ _ Htn).
  - intros j m Hj Hm. destruct (Hback _ _ Hm) as (m0 & Hm0 & -> & _). by apply (names_ok _ _ Ht j).
  - intros p Hp Hne. rewrite (same_kids_descend _ _ _ _ _ _ _ Ho Hn Hn' (refines_kids _ _ _ _ Hr)). by apply (paths_ok _ _ Ht).
Qed.
