(* ===== verification/ErofsOut.v ===== *)
(** * The EROFS writer's output

    The output is written block by block: [raw_ok] says where the position is,
    [out_ok] that it is at the next free block, and [keeps] that what was
    written stays. [streamData] stores exactly the bytes it is given
    ([holds]). *)
From S2P Require Import Prelude GoStrings Erofs ErofsTree.

(** Block numbers fit their 32 bits up to this size (just under 16 TiB). *)
Definition size_limit : Z := 17592186040320%Z.

Record raw_ok (w : writer) : Prop := {
  raw_low : blockSize <= w_pos w;
  raw_end : w_pos w = blockSize \/ length (w_out w) = w_pos w;
  raw_len : length (w_out w) <= w_pos w;
  raw_room : w_pos w <= Nat.max blockSize (w_limit w);
  raw_limit : (Z.of_nat (w_limit w) <= size_limit)%Z
}.

Record out_ok (w : writer) : Prop := {
  out_raw : raw_ok w;
  out_pos : (Z.of_nat (w_pos w) = w_nextBlk w * 4096)%Z
}.

(** The bytes written before are the same. *)
Definition keeps (w w' : writer) : Prop :=
  w_pos w <= w_pos w' /\
  forall off len, blockSize <= off -> off + len <= w_pos w -> slice off len (w_out w') = slice off len (w_out w).

(** Everything but the output and the next block. *)
Definition same_meta (w w' : writer) : Prop :=
  w_limit w' = w_limit w /\ w_inoSeq w' = w_inoSeq w /\ w_nodes w' = w_nodes w /\ w_byPath w' = w_byPath w.

Lemma blockSize_Z : Z.of_nat blockSize = 4096%Z.
Proof. reflexivity. Qed.

Lemma keeps_refl w : keeps w w.
Proof. by split. Qed.
Lemma keeps_trans w1 w2 w3 : keeps w1 w2 -> keeps w2 w3 -> keeps w1 w3.
Proof. intros [H1 H1'] [H2 H2']. split; [lia|]. intros. rewrite H2' by lia. by apply H1'. Qed.
Lemma same_meta_trans w1 w2 w3 : same_meta w1 w2 -> same_meta w2 w3 -> same_meta w1 w3.
Proof. unfold same_meta. intuition congruence. Qed.
Lemma same_out_keeps w w' : same_out w w' -> keeps w w'.
Proof. intros (E1 & E2 & _). split; [lia|]. intros. by rewrite E1. Qed.
Lemma same_out_ok w w' : same_out w w' -> out_ok w -> out_ok w'.
Proof.
  intros (E1 & E2 & E3 & E4 & _) [[] ?]. split; [split|]; rewrite ?E1, ?E2, ?E3, ?E4; assumption.
Qed.

Lemma raw_ok_upd i f w : raw_ok w -> raw_ok (upd_node i f w).
Proof. by intros []. Qed.
Lemma out_ok_upd i f w : out_ok w -> out_ok (upd_node i f w).
Proof. intros [? ?]. split; [by apply raw_ok_upd|done]. Qed.

#[export] Hint Resolve keeps_refl same_out_keeps same_out_ok : kom.

Lemma write_at_before pos bs f off len :
  length f <= pos -> off + len <= length f -> slice off len (write_at pos bs f) = slice off len f.
Proof.
  intros H1 H2. unfold write_at. rewrite (drop_ge f) by lia. rewrite app_nil_r.
  rewrite take_ge by (rewrite length_app, length_replicate; lia). rewrite slice_app_l by (rewrite length_app; lia).
  by rewrite slice_app_l.
Qed.

Lemma write_at_here pos bs f : length f <= pos -> slice pos (length bs) (write_at pos bs f) = bs.
Proof.
  intros H. unfold write_at. rewrite (drop_ge f) by lia. rewrite app_nil_r.
  rewrite take_ge by (rewrite length_app, length_replicate; lia).
  rewrite slice_app_r by (rewrite length_app, length_replicate; lia).
  rewrite length_app, length_replicate. unfold slice.
  replace (pos - (length f + (pos - length f))) with 0 by lia. by rewrite drop_0, take_ge.
Qed.

(** A write at the end: it appends, keeps the rest, or fails. *)
Lemma out_write_spec bs w w' :
  raw_ok w -> out_write bs w = Ok w' ->
  raw_ok w' /\ keeps w w' /\ same_meta w w' /\ w_nextBlk w' = w_nextBlk w /\ w_pos w' = w_pos w + length bs /\
  slice (w_pos w) (length bs) (w_out w') = bs.
Proof.
  intros [H1 H2 H3 H4 H5]. unfold out_write. case_bool_decide as Hl; [|done]. intros [= <-].
  assert (length (write_at (w_pos w) bs (w_out w)) = w_pos w + length bs) as Hlen.
  { rewrite length_write_at. lia. }
  split; [split; cbn; rewrite ?Hlen; lia|]. split; [|split_and!; cbn; try done; by apply write_at_here].
  split; cbn; [lia|]. intros off len Ho Hlen'. destruct (decide (len = 0)) as [->|]; [done|].
  apply write_at_before; lia.
Qed.

Lemma out_write_total bs w c : out_write bs w <> Crash c.
Proof. unfold out_write. by case_bool_decide. Qed.

Lemma blocks_of_spec size :
  (0 <= size)%Z -> (size <= blocks_of size * 4096 < size + 4096)%Z /\ (0 <= blocks_of size)%Z.
Proof.
  intros H. unfold blocks_of. rewrite Z.quot_div_nonneg by lia.
  pose proof (Z.div_mod (size + 4095) 4096 ltac:(lia)). pose proof (Z.mod_pos_bound (size + 4095) 4096 ltac:(lia)). lia.
Qed.

Lemma next_block_range w :
  raw_ok w -> (0 <= w_nextBlk w)%Z -> (w_nextBlk w * 4096 <= Z.of_nat (w_pos w))%Z -> (w_nextBlk w < u32max)%Z.
Proof. intros [H1 H2 H3 H4 H5] Hn Hp. unfold size_limit in *. pose proof blockSize_Z. lia. Qed.

(** [padToBlock] after [size] bytes from a block boundary. *)
Lemma padToBlock_spec size w w' :
  raw_ok w -> (0 <= size)%Z -> (0 <= w_nextBlk w)%Z -> (Z.of_nat (w_pos w) = w_nextBlk w * 4096 + size)%Z ->
  padToBlock size w = Ok w' ->
  out_ok w' /\ keeps w w' /\ same_meta w w' /\ (w_nextBlk w' = w_nextBlk w + blocks_of size)%Z.
Proof.
  intros Hr Hs Hn Hp. unfold padToBlock. destruct (blocks_of_spec size Hs) as [Hb Hb0]. intros H.
  assert (exists w1, (if bool_decide (blocks_of size * 4096 - size > 0)%Z
      then out_write (replicate (Z.to_nat (blocks_of size * 4096 - size)) 0%Z) w else Ok w) = Ok w1 /\
    add_blocks (blocks_of size) w1 = w') as (w1 & Hw1 & <-).
  { ok_inv H. injection H as H. eauto. }
  assert (raw_ok w1 /\ keeps w w1 /\ same_meta w w1 /\ w_nextBlk w1 = w_nextBlk w /\
    (Z.of_nat (w_pos w1) = (w_nextBlk w + blocks_of size) * 4096)%Z) as (R1 & R2 & R3 & R4 & R5).
  { case_bool_decide as Hpad.
    - destruct (out_write_spec _ _ _ Hr Hw1) as (R1 & R2 & R3 & R4 & R5 & _). split_and!; try done.
      rewrite R5, length_replicate. lia.
    - injection Hw1 as <-. split_and!; try done; lia. }
  pose proof R1 as [Q1 Q2 Q3 Q4 Q5]. unfold size_limit in Q5. pose proof blockSize_Z.
  assert (u32 (w_nextBlk w1 + u32 (blocks_of size)) = w_nextBlk w + blocks_of size)%Z as E.
  { rewrite R4, (u32_small (blocks_of size)) by lia. apply u32_small. lia. }
  split; [|split; [exact R2|split; [exact R3|exact E]]].
  split; [split; cbn; assumption|]. cbn [add_blocks w_pos w_nextBlk]. rewrite E. lia.
Qed.

Lemma padToBlock_total size w c : padToBlock size w <> Crash c.
Proof.
  unfold padToBlock. case_bool_decide; [|done].
  destruct (out_write _ w) eqn:E; cbn; try done. by apply out_write_total in E.
Qed.

(** ** File data *)

(** The node's size and block give [bs] in the output. *)
Definition holds (w : writer) (n : node) (bs : bytes) : Prop :=
  n_size n = Z.of_nat (length bs) /\ (0 <= n_blkaddr n < u32max)%Z /\
  (bs <> [] -> blockSize <= Z.to_nat (n_blkaddr n * 4096) /\ Z.to_nat (n_blkaddr n * 4096) + length bs <= w_pos w) /\
  slice (Z.to_nat (n_blkaddr n * 4096)) (length bs) (w_out w) = bs.

Lemma holds_keeps w w' n n' bs : keeps w w' -> data n' = data n -> holds w n bs -> holds w' n' bs.
Proof.
  intros [Hp Hk] Hd (H1 & H2 & H3 & H4). assert (n_size n' = n_size n /\ n_blkaddr n' = n_blkaddr n) as [E1 E2].
  { unfold data in Hd. by injection Hd. }
  unfold holds. rewrite E1, E2. split_and!; try done; try lia.
  - intros Hbs. destruct (H3 Hbs). lia.
  - destruct bs as [|b bs]; [done|]. destruct H3 as [H3 H3']; [done|]. by rewrite Hk.
Qed.

(** [streamData] of a content no longer than its size stores it. *)
Lemma streamData_spec i r size w w' n :
  out_ok w -> w_nodes w !! i = Some n -> (0 <= w_nextBlk w)%Z -> (Z.of_nat (length (c_data r)) <= size)%Z ->
  streamData i r size w = Ok w' ->
  out_ok w' /\ keeps w w' /\ w_limit w' = w_limit w /\ w_inoSeq w' = w_inoSeq w /\ w_byPath w' = w_byPath w /\
  size = Z.of_nat (length (c_data r)) /\
  exists blk, w_nodes w' = alter (set_data size blk) i (w_nodes w) /\ holds w' (set_data size blk n) (c_data r).
Proof.
  intros [Hr Hp] Hn Hb Hlen. unfold streamData. case_bool_decide as Hs.
  { intros [= <-]. destruct (c_data r) as [|b l] eqn:Hd; [|cbn in Hlen; lia].
    split; [by apply out_ok_upd|]. split_and!; try done. by exists 0%Z. }
  pose proof (next_block_range w Hr Hb ltac:(lia)) as Hblk.
  intros H. ok_inv H. destruct (c_err r); [done|]. case_bool_decide as Hsz; [done|].
  pose proof (raw_ok_upd i (set_data size (w_nextBlk w)) w Hr) as Hr'.
  destruct (out_write_spec _ _ _ Hr' Hc) as (R1 & R2 & (R3 & R4 & R5 & R6) & R7 & R8 & R9).
  cbn [upd_node set_nodes w_nextBlk w_pos w_limit w_inoSeq w_nodes w_byPath] in *.
  assert (size = Z.of_nat (length (c_data r))) as -> by (destruct (decide (Z.of_nat (length (c_data r)) = size)); naive_solver).
  apply padToBlock_spec in H; [|done|lia|lia|lia]. destruct H as (S1 & S2 & (S3 & S4 & S5 & S6) & S7).
  assert (Z.to_nat (w_nextBlk w * 4096) = w_pos w) as Epos by lia.
  split; [done|]. split; [eapply keeps_trans; [exact R2|exact S2]|]. split_and!; try congruence.
  exists (w_nextBlk w). split; [congruence|]. unfold holds. cbn [set_data n_size n_blkaddr]. rewrite Epos.
  pose proof (raw_low _ Hr). destruct S2 as [S2 S2'].
  split; [done|]. split; [lia|]. split; [intros _; lia|]. by rewrite S2' by lia.
Qed.

Lemma streamData_total i r size w c : streamData i r size w <> Crash c.
Proof.
  unfold streamData. case_bool_decide; [done|]. destruct (out_write _ _) eqn:E; cbn; try done.
  - destruct (c_err r); [done|]. case_bool_decide; [done|]. apply padToBlock_total.
  - by apply out_write_total in E.
Qed.
