(* ===== verification/ErofsEntries.v ===== *)
(** * From tar entries to the EROFS writer's tree

    [entry_wf] says which entries a flattened image layer has (distinct plain
    paths, hard links to earlier files); for those, [addEntry] never crashes,
    and [built] relates the tree to the entries so far: every entry's node
    carries what its header and content say ([described]), every other node is
    an implicit parent directory, and there are no others. *)
From S2P Require Import Prelude GoStrings Erofs ErofsTree ErofsOut.

Notation entry := (header * content)%type.

Definition path_of (s : string) : list string :=
  if bool_decide (clean_name s = "." \/ clean_name s = "") then [] else Split slash (clean_name s).

Definition entry_path (e : entry) : list string := path_of (h_Name e.1).

(** The file type an entry's type flag stands for: mode bits and dirent type. *)
Definition kind_of (t : typeflag) : option (Z * Z) :=
  match t with
  | TypeDir => Some (0x4000, ftDir) | TypeReg => Some (0x8000, ftReg) | TypeSymlink => Some (0xA000, ftSymlink)
  | TypeChar => Some (0x2000, ftChardev) | TypeBlock => Some (0x6000, ftBlkdev) | TypeFifo => Some (0x1000, ftFifo)
  | TypeLink | TypeOther => None
  end%Z.

Record entry_wf (before : list entry) (e : entry) : Prop := {
  wf_path : Forall dir_name (entry_path e);
  wf_new : forall e', e' ∈ before -> entry_path e' <> entry_path e;
  wf_type : h_Typeflag e.1 <> TypeOther;
  wf_root : entry_path e = [] -> h_Typeflag e.1 = TypeDir;
  wf_link : h_Typeflag e.1 = TypeLink ->
    exists e', e' ∈ before /\ entry_path e' = path_of (h_Linkname e.1) /\ h_Typeflag e'.1 <> TypeDir;
  wf_size : h_Typeflag e.1 = TypeReg -> (Z.of_nat (length (c_data e.2)) <= h_Size e.1)%Z
}.

Fixpoint tar_wf (before es : list entry) : Prop :=
  match es with
  | [] => True
  | e :: es' => entry_wf before e /\ tar_wf (before ++ [e]) es'
  end.

(** So is the beginning of a stream, where the reader stopped early. *)
Lemma tar_wf_take k : forall es before, tar_wf before es -> tar_wf before (take k es).
Proof.
  induction k as [|k IH]; intros es before H; [done|]. destruct es as [|e es]; [done|]. destruct H as [He H]. split; [done|by apply IH].
Qed.

(** What a node of the tree says about the entry it was made from. *)
Definition described (before : list entry) (w : writer) (e : entry) (n : node) : Prop :=
  match kind_of (h_Typeflag e.1) with
  | Some (mode, ft) =>
      n_hardTo n = None /\ n_ftype n = ft /\ n_mode n = Z.lor (perm_of e.1) mode /\
      n_uid n = u32 (h_Uid e.1) /\ n_gid n = u32 (h_Gid e.1) /\ n_mtime n = h_ModTime e.1 /\
      (h_Typeflag e.1 = TypeReg -> holds w n (c_data e.2)) /\
      (h_Typeflag e.1 = TypeSymlink -> holds w n (bytes_of_string (h_Linkname e.1))) /\
      (h_Typeflag e.1 = TypeChar \/ h_Typeflag e.1 = TypeBlock ->
         n_rdev n = mkdev (h_Devmajor e.1) (h_Devminor e.1))
  | None =>
      exists e' j nj, e' ∈ before /\ entry_path e' = path_of (h_Linkname e.1) /\
        descend (w_nodes w) 0 (entry_path e') = Some j /\ w_nodes w !! j = Some nj /\
        n_hardTo n = Some (default j (n_hardTo nj))
  end.

Record built (before : list entry) (w : writer) : Prop := {
  b_tree : tree_ok (w_nodes w) (w_byPath w);
  b_out : out_ok w;
  b_blk : (0 <= w_nextBlk w)%Z;
  b_entry : forall e, e ∈ before -> exists i n,
    descend (w_nodes w) 0 (entry_path e) = Some i /\ w_nodes w !! i = Some n /\ described before w e n;
  b_implicit : forall p i n, descend (w_nodes w) 0 p = Some i -> w_nodes w !! i = Some n ->
    (forall e, e ∈ before -> entry_path e <> p) -> implicit n;
  b_only : forall p, is_Some (descend (w_nodes w) 0 p) ->
    p = [] \/ exists e, e ∈ before /\ p `prefix_of` entry_path e
}.

(** ** Names *)

Lemma Split_ne c s : Split c s <> [].
Proof. destruct s as [|a s]; [done|]. cbn. destruct (Ascii.eqb a c); [done|]. by destruct (Split c s). Qed.

Lemma path_of_names s : Forall dir_name (path_of s) -> names_path s (path_of s).
Proof.
  intros H. split; [done|]. unfold path_of in *. destruct (bool_decide (clean_name s = "." \/ clean_name s = "")) eqn:E.
  - rewrite bool_decide_true by done. by apply bool_decide_eq_true in E.
  - rewrite bool_decide_false by apply Split_ne. unfold rel_path. by rewrite Join_Split.
Qed.

Lemma path_of_fuel s : Forall dir_name (path_of s) -> length (path_of s) < lookup_fuel s.
Proof.
  intros H. destruct (path_of_names _ H) as [_ Hn]. unfold lookup_fuel. case_bool_decide as E; [rewrite E; cbn; lia|].
  pose proof (rel_path_length (path_of s)). rewrite Hn. lia.
Qed.

(** ** Nodes *)

Lemma others_same_trans i l1 l2 l3 : others_same i l1 l2 -> others_same i l2 l3 -> others_same i l1 l3.
Proof. intros H1 H2 j Hj. by rewrite H2, H1. Qed.

Lemma others_same_alter i f l : others_same i l (alter f i l).
Proof. intros j Hj. by rewrite list_lookup_alter_ne. Qed.

Lemma unlinked_nlink f n : unlinked (set_nlink f n) = unlinked n.
Proof. done. Qed.

Lemma others_same_nlink i k f l : others_same i l (alter (set_nlink f) k l).
Proof.
  intros j Hj. destruct (decide (j = k)) as [->|]; [|by rewrite list_lookup_alter_ne].
  rewrite list_lookup_alter_eq. by destruct (l !! k).
Qed.
#[export] Hint Resolve others_same_alter others_same_nlink : kom.

Lemma data_fields n n' :
  data n = data n' -> n_hardTo n = n_hardTo n' /\ isDir n = isDir n' /\ n_name n = n_name n' /\ n_parent n = n_parent n'.
Proof.
  unfold data, isDir. intros H. injection H as E1 E2 E3 E4 E5 E6 E7 E8 E9 E10 E11.
  split; [done|]. split; [by rewrite E10|done].
Qed.

Lemma implicit_dir n : implicit n -> isDir n = true /\ n_hardTo n = None.
Proof. intros (x & pa & E%data_fields). destruct E as (-> & -> & _). done. Qed.

(** [described] survives what keeps the other nodes and the output. *)
Lemma described_mono before before' w w' e n n' :
  described before w e n -> data n' = data n -> keeps w w' -> (forall e, e ∈ before -> e ∈ before') ->
  (forall e j nj, e ∈ before -> descend (w_nodes w) 0 (entry_path e) = Some j -> w_nodes w !! j = Some nj ->
     exists nj', descend (w_nodes w') 0 (entry_path e) = Some j /\ w_nodes w' !! j = Some nj' /\ data nj' = data nj) ->
  described before' w' e n'.
Proof.
  unfold described. intros Hd E Hk Hsub Hold. destruct (kind_of _) as [[mode ft]|].
  - destruct Hd as (H1 & H2 & H3 & H4 & H5 & H6 & H7 & H8 & H9). pose proof E as E'. unfold data in E'.
    injection E' as E1 E2 E3 E4 E5 E6 E7 E8 E9 E10 E11.
    split_and!; try congruence; intros Hx; [eapply holds_keeps; eauto..|]. rewrite E7. by apply H9.
  - destruct Hd as (e' & j & nj & Hin & Hp & Hj & Hnj & Hh).
    destruct (Hold _ _ _ Hin Hj Hnj) as (nj' & Hj' & Hnj' & Ed). exists e', j, nj'.
    apply data_fields in E as (-> & _). apply data_fields in Ed as (-> & _). split_and!; auto.
Qed.

(** ** The steps of [addEntry] *)

(** Making a node a leaf, for any entry that is not a directory. *)
Lemma make_nondir_spec i h w n :
  tree_ok (w_nodes w) (w_byPath w) -> w_nodes w !! i = Some n -> isDir n = true -> n_hardTo n = None ->
  (i = 0 -> h_Typeflag h = TypeDir) ->
  match make_nondir i h w with
  | Ok w' => exists n', others_same i (w_nodes w) (w_nodes w') /\ w_nodes w' !! i = Some n' /\ data n' = data n /\
      same_out w w' /\ w_byPath w' = w_byPath w /\
      (if bool_decide (h_Typeflag h = TypeDir) then n' = n else n_children n = Some ∅ /\ n_children n' = None)
  | Err _ => True
  | Crash _ => False
  end.
Proof.
  intros Ht Hn Hd Hh Hroot. unfold make_nondir, get_node. rewrite Hn. cbn [deref mbind result_bind]. rewrite Hd.
  case_bool_decide as Hdir; cbn [negb andb]; [by exists n|].
  destruct (proj2 (dirs_ok _ _ Ht _ _ Hn) (conj Hd Hh)) as [ch Hch]. rewrite Hch. cbn [default from_option id].
  case_bool_decide as Hemp; [done|]. destruct (decide (ch = ∅)) as [->|]; [|done].
  assert (i <> 0) as Hi by naive_solver. destruct (parent_ok _ _ Ht _ _ Hi Hn) as (p & Hp & Hlt & _). rewrite Hp.
  cbn [deref mbind result_bind upd_node set_nodes w_nodes w_byPath]. eexists. split; [|split].
  - eapply others_same_trans; [apply others_same_nlink|apply others_same_alter].
  - rewrite list_lookup_alter_eq, list_lookup_alter_ne by lia. rewrite Hn. reflexivity.
  - done.
Qed.

(** What [fill_entry] makes of the owned node [n] at [i]. *)
Record filled (before : list entry) (i : nat) (e : entry) (w w' : writer) (n n' : node) : Prop := {
  fl_others : others_same i (w_nodes w) (w_nodes w');
  fl_node : w_nodes w' !! i = Some n';
  fl_paths : w_byPath w' = w_byPath w;
  fl_out : out_ok w';
  fl_keeps : keeps w w';
  fl_name : n_name n' = n_name n /\ n_parent n' = n_parent n /\ n_children n' = n_children n;
  fl_described : described before w' e n';
  fl_kind : if bool_decide (h_Typeflag e.1 = TypeDir) then isDir n' = true /\ n_hardTo n' = None
            else (isDir n' = false /\ n_hardTo n' = None) \/
                 exists t tn, n_hardTo n' = Some t /\ w_nodes w !! t = Some tn /\ n_hardTo tn = None /\ isDir tn = false
}.

Definition owned (e : entry) (n : node) : Prop :=
  n_uid n = u32 (h_Uid e.1) /\ n_gid n = u32 (h_Gid e.1) /\ n_mtime n = h_ModTime e.1.

(** A hard link's target, as the path and node tables give it. *)
Definition link_target (before : list entry) (i : nat) (e : entry) (w : writer) : Prop :=
  exists e' j nj, e' ∈ before /\ entry_path e' = path_of (h_Linkname e.1) /\
    Forall dir_name (entry_path e') /\
    descend (w_nodes w) 0 (entry_path e') = Some j /\ w_nodes w !! j = Some nj /\ j <> i /\
    let t := default j (n_hardTo nj) in
    t <> i /\ exists tn, w_nodes w !! t = Some tn /\ n_hardTo tn = None /\ isDir tn = false.

(** Entries without data. *)
Lemma fill_plain before i (e : entry) w n f mode ft :
  kind_of (h_Typeflag e.1) = Some (mode, ft) -> h_Typeflag e.1 <> TypeReg -> h_Typeflag e.1 <> TypeSymlink ->
  w_nodes w !! i = Some n -> out_ok w -> n_hardTo n = None -> owned e n ->
  (h_Typeflag e.1 <> TypeDir -> n_children n = None) ->
  n_name (f n) = n_name n -> n_parent (f n) = n_parent n -> n_children (f n) = n_children n ->
  n_hardTo (f n) = n_hardTo n -> n_ftype (f n) = ft -> n_mode (f n) = Z.lor (perm_of e.1) mode ->
  owned e (f n) ->
  (h_Typeflag e.1 = TypeChar \/ h_Typeflag e.1 = TypeBlock ->
     n_rdev (f n) = mkdev (h_Devmajor e.1) (h_Devminor e.1)) ->
  filled before i e w (upd_node i f w) n (f n).
Proof.
  intros Hk Hr Hs Hn Ho Hh Hw Hc F1 F2 F3 F4 F5 F6 (F7 & F8 & F9) F10. split.
  - apply others_same_alter.
  - cbn. by rewrite list_lookup_alter_eq, Hn.
  - done.
  - by apply out_ok_upd.
  - by split.
  - done.
  - unfold described. rewrite Hk. split_and!; try done; congruence.
  - unfold isDir. rewrite F4, F5. case_bool_decide as Hd.
    + rewrite Hd in Hk. injection Hk as <- <-. by rewrite bool_decide_true.
    + left. split; [|done]. apply bool_decide_false. intros ->. by destruct (h_Typeflag e.1).
Qed.

(** Entries whose content goes to the output. *)
Lemma fill_data before i (e : entry) w w' n f mode ft r size :
  kind_of (h_Typeflag e.1) = Some (mode, ft) -> ft <> ftDir -> h_Typeflag e.1 <> TypeChar -> h_Typeflag e.1 <> TypeBlock ->
  (h_Typeflag e.1 = TypeReg -> c_data e.2 = c_data r) ->
  (h_Typeflag e.1 = TypeSymlink -> bytes_of_string (h_Linkname e.1) = c_data r) ->
  w_nodes w !! i = Some n -> out_ok w -> (0 <= w_nextBlk w)%Z -> n_hardTo n = None ->
  n_name (f n) = n_name n -> n_parent (f n) = n_parent n -> n_children (f n) = n_children n ->
  n_hardTo (f n) = n_hardTo n -> n_ftype (f n) = ft -> n_mode (f n) = Z.lor (perm_of e.1) mode -> owned e (f n) ->
  (Z.of_nat (length (c_data r)) <= size)%Z ->
  streamData i r size (upd_node i f w) = Ok w' ->
  exists n', filled before i e w w' n n'.
Proof.
  intros Hk Hft Hch Hbl Hreg Hsym Hn Ho Hb Hh F1 F2 F3 F4 F5 F6 (F7 & F8 & F9) Hsz Hs.
  apply (streamData_spec _ _ _ _ _ (f n)) in Hs; [|by apply out_ok_upd| |done|done].
  2: { cbn. by rewrite list_lookup_alter_eq, Hn. }
  destruct Hs as (S1 & S2 & _ & _ & S5 & -> & blk & S6 & S7).
  exists (set_data (Z.of_nat (length (c_data r))) blk (f n)). split.
  - rewrite S6. cbn. intros k Hk'. by rewrite !list_lookup_alter_ne.
  - rewrite S6. cbn. by rewrite !list_lookup_alter_eq, Hn.
  - done.
  - done.
  - done.
  - done.
  - unfold described. rewrite Hk. do 6 (split; [cbn; congruence|]).
    split; [intros E; by rewrite Hreg|]. split; [intros E; by rewrite Hsym|]. intros [?|?]; done.
  - rewrite bool_decide_false by (intros E; rewrite E in Hk; by injection Hk as <- <-). left. cbn.
    unfold isDir. cbn. rewrite F5. split; [by apply bool_decide_false|congruence].
Qed.

(** Hard links. *)
Lemma fill_link before i (e : entry) w n r :
  h_Typeflag e.1 = TypeLink -> w_nodes w !! i = Some n -> out_ok w -> link_target before i e w ->
  (forall q, Forall plain q -> q <> [] -> w_byPath w !! rel_path q = descend (w_nodes w) 0 q) ->
  exists w' n', fill_entry i e.1 r w = Ok w' /\ filled before i e w w' n n'.
Proof.
  intros Hk Hn Ho (e' & j & nj & Hin & Hp & Hnm & Hj & Hnj & Hji & Hti & tn & Htn & Hh & Hd) Hpaths.
  unfold fill_entry, lookup_fuel. rewrite Hk. cbn [Nat.add]. rewrite (lookup_existing (entry_path e')); [|rewrite Hp in *; by apply path_of_names|done].
  rewrite Hj. cbn [mbind result_bind].
  rewrite (canonical_hop _ nj); [|done|intros t E; rewrite E in Htn; cbn in Htn; eauto]. cbn [mbind result_bind].
  set (t := default j (n_hardTo nj)) in *. eexists _, (set_hardTo t n). split; [reflexivity|].
  assert (others_same i (w_nodes w) (alter (set_nlink (Z.add 1)) t (alter (set_hardTo t) i (w_nodes w)))) as Hos.
  { eapply others_same_trans; [apply others_same_alter|apply others_same_nlink]. }
  assert (alter (set_nlink (Z.add 1)) t (alter (set_hardTo t) i (w_nodes w)) !! i = Some (set_hardTo t n)) as Hi.
  { by rewrite list_lookup_alter_ne, list_lookup_alter_eq, Hn. }
  split; cbn [upd_node set_nodes w_nodes w_byPath]; try done.
  - by apply out_ok_upd, out_ok_upd.
  - unfold described. rewrite Hk. cbn [kind_of upd_node set_nodes w_nodes].
    destruct (others_same_old _ _ _ _ _ Hos Hji Hnj) as (nj' & Hnj' & E%unlinked_fields).
    exists e', j, nj'. split_and!; try done.
    + rewrite (same_kids_descend (w_nodes w) _ i n (set_hardTo t n)); [done..|by left].
    + destruct E as (_ & _ & _ & _ & -> & _). done.
  - rewrite bool_decide_false by congruence. right. by exists t, tn.
Qed.

Lemma upd_node_compose i f g w : upd_node i f (upd_node i g w) = upd_node i (f ∘ g) w.
Proof.
  unfold upd_node, set_nodes. cbn. f_equal. apply list_eq. intros j. destruct (decide (j = i)) as [->|].
  - rewrite !list_lookup_alter_eq. by rewrite option_fmap_compose.
  - by rewrite !list_lookup_alter_ne.
Qed.

Lemma fill_entry_spec before i (e : entry) w n :
  entry_wf before e -> w_nodes w !! i = Some n -> out_ok w -> (0 <= w_nextBlk w)%Z -> n_hardTo n = None -> owned e n ->
  (if bool_decide (h_Typeflag e.1 = TypeDir) then is_Some (n_children n) else n_children n = None) ->
  (h_Typeflag e.1 = TypeLink -> link_target before i e w) ->
  (forall q, Forall plain q -> q <> [] -> w_byPath w !! rel_path q = descend (w_nodes w) 0 q) ->
  match fill_entry i e.1 e.2 w with
  | Ok w' => exists n', filled before i e w w' n n'
  | Err _ => True
  | Crash _ => False
  end.
Proof.
  intros Hwf Hn Ho Hb Hh Hw Hc Hl Hpaths. unfold owned in Hw.
  destruct (h_Typeflag e.1) eqn:Hk; [| | |destruct (fill_link before i e w n e.2 Hk Hn Ho (Hl eq_refl) Hpaths) as (w' & n' & -> & ?); eauto| | | |];
    unfold fill_entry; rewrite Hk.
  - destruct Hc as [ch Hch]. eexists. eapply fill_plain; rewrite ?Hk; try done; [cbn; by rewrite Hch|by intros [?|?]].
  - destruct (streamData _ _ _ _) eqn:E; [|done|by apply streamData_total in E].
    eapply (fill_data before i e w a n _ _ _ _ _); [by rewrite Hk|..|exact E]; rewrite ?Hk; try done. by apply Hwf.
  - destruct (streamData _ _ _ _) eqn:E; [|done|by apply streamData_total in E].
    eapply (fill_data before i e w a n _ _ _ _ _); [by rewrite Hk|..|exact E]; rewrite ?Hk; try done.
    cbn. clear. generalize (h_Linkname e.1). intros s. induction s; cbn; lia.
  - rewrite upd_node_compose. eexists. eapply fill_plain; rewrite ?Hk; done.
  - rewrite upd_node_compose. eexists. eapply fill_plain; rewrite ?Hk; done.
  - eexists. eapply fill_plain; rewrite ?Hk; try done. by intros [?|?].
  - by destruct (wf_type _ _ Hwf).
Qed.

(** ** [addEntry] *)

(** Looking a path up keeps what is known of the tree. *)
Lemma looked_back w p w1 i q j m bp :
  tree_ok (w_nodes w) bp -> looked w p w1 i -> descend (w_nodes w1) 0 q = Some j -> w_nodes w !! j = Some m ->
  descend (w_nodes w) 0 q = Some j.
Proof.
  intros Ht Hl Hq Hm. destruct (descend_complete _ _ j Ht (lookup_lt_Some _ _ _ Hm)) as [q' Hq'].
  pose proof (lk_old _ _ _ _ Hl _ _ Hq') as Hq1. by rewrite (descend_inj _ _ _ _ _ (lk_tree _ _ _ _ Hl) Hq Hq1).
Qed.

Lemma looked_implicit before w p w1 i q j m :
  built before w -> looked w p w1 i -> descend (w_nodes w1) 0 q = Some j -> w_nodes w1 !! j = Some m ->
  (forall e, e ∈ before -> entry_path e <> q) -> implicit m.
Proof.
  intros Hb Hl Hq Hm Hne. destruct (w_nodes w !! j) as [m0|] eqn:Hm0.
  - destruct (proj1 (lk_grows _ _ _ _ Hl) _ _ Hm0) as (m' & Hm' & E).
    rewrite Hm in Hm'. apply (inj Some) in Hm' as <-. destruct (b_implicit _ _ Hb q j m0) as (x & pa & E'); [|done|done|].
    + eapply looked_back; [apply Hb|done..].
    + exists x, pa. by rewrite E, E'.
  - by apply (proj2 (lk_grows _ _ _ _ Hl) j).
Qed.

Lemma looked_described before w p w1 i e :
  built before w -> looked w p w1 i -> e ∈ before ->
  exists j m, descend (w_nodes w1) 0 (entry_path e) = Some j /\ w_nodes w1 !! j = Some m /\ described before w1 e m.
Proof.
  intros Hb Hl He. destruct (b_entry _ _ Hb e He) as (j & m & Hj & Hm & Hd).
  destruct (proj1 (lk_grows _ _ _ _ Hl) _ _ Hm) as (m' & Hm' & E).
  exists j, m'. split; [by apply (lk_old _ _ _ _ Hl)|]. split; [done|].
  eapply described_mono; [exact Hd|exact E|apply same_out_keeps, Hl|done|].
  intros e' k nk _ Hk Hnk. destruct (proj1 (lk_grows _ _ _ _ Hl) _ _ Hnk) as (nk' & Hnk' & Ek).
  exists nk'. split; [by apply (lk_old _ _ _ _ Hl)|done].
Qed.

(** Replacing the looked up node by one that describes the entry. *)
Lemma built_refine before w w1 w' e i n n' :
  built before w -> entry_wf before e -> looked w (entry_path e) w1 i -> w_nodes w1 !! i = Some n ->
  others_same i (w_nodes w1) (w_nodes w') -> w_nodes w' !! i = Some n' -> refines (w_nodes w1) i n n' ->
  w_byPath w' = w_byPath w1 -> out_ok w' -> keeps w1 w' -> described before w' e n' ->
  built (before ++ [e]) w'.
Proof.
  intros Hb Hwf Hl Hn Ho Hn' Hr Hbp Hout Hk Hd.
  assert (implicit n) as [Hdir Hh]%implicit_dir.
  { eapply looked_implicit; [done..|apply Hl|done|]. intros e' He'. by apply (wf_new _ _ Hwf). }
  assert (forall q, descend (w_nodes w') 0 q = descend (w_nodes w1) 0 q) as Hdesc.
  { intros q. eapply same_kids_descend; [done..|]. by eapply refines_kids. }
  assert (forall e' j, e' ∈ before -> descend (w_nodes w1) 0 (entry_path e') = Some j -> j <> i) as Hother.
  { intros e' j He' Hj ->. apply (wf_new _ _ Hwf e' He'). eapply descend_inj; [apply Hl|done|apply Hl]. }
  assert (forall e0 m0 m, described before w1 e0 m0 \/ described before w' e0 m0 ->
    data m = data m0 -> described (before ++ [e]) w' e0 m) as Hmono.
  { intros e0 m0 m [H|H] E.
    - eapply described_mono; [exact H|exact E|exact Hk|intros e1 ?; apply elem_of_app; by left|].
      intros e1 j nj He1 Hj Hnj. rewrite Hdesc.
      destruct (others_same_old _ _ _ _ _ Ho (Hother _ _ He1 Hj) Hnj) as (nj' & Hnj' & Ej%unlinked_fields).
      exists nj'. intuition congruence.
    - eapply described_mono; [exact H|exact E|apply keeps_refl|intros e1 ?; apply elem_of_app; by left|].
      intros e1 j nj _ Hj Hnj. by exists nj. }
  split.
  - rewrite Hbp. eapply tree_ok_refine; [apply Hl|done..].
  - done.
  - pose proof (out_pos _ Hout). lia.
  - intros e' He'. apply elem_of_app in He' as [Hin|He'].
    + destruct (looked_described _ _ _ _ _ e' Hb Hl Hin) as (j & m & Hj & Hm & Hdm).
      destruct (others_same_old _ _ _ _ _ Ho (Hother _ _ Hin Hj) Hm) as (m' & Hm' & E%unlinked_fields).
      exists j, m'. rewrite Hdesc. split_and!; [done..|]. apply (Hmono e' m m'); intuition congruence.
    + apply list_elem_of_singleton in He' as ->.
      exists i, n'. rewrite Hdesc. split_and!; [apply Hl|done|]. apply (Hmono e n' n'); [by right|done].
  - intros q j m. rewrite Hdesc. intros Hq Hm Hne. destruct (decide (j = i)) as [->|Hji].
    + exfalso. apply (Hne e); [apply elem_of_app; right; by apply list_elem_of_singleton|].
      eapply descend_inj; [apply Hl|apply Hl|done].
    + destruct (others_same_new _ _ _ _ _ Ho Hji Hm) as (m0 & Hm0 & E%unlinked_fields).
      destruct (looked_implicit _ _ _ _ _ q j m0 Hb Hl Hq Hm0) as (x & pa & Ex).
      { intros e' He'. apply Hne, elem_of_app. by left. }
      exists x, pa. intuition congruence.
  - intros q. rewrite Hdesc. intros [Hq|Hq]%(lk_new _ _ _ _ Hl).
    + destruct (b_only _ _ Hb q Hq) as [|(e' & He' & ?)]; [by left|right]. exists e'. split; [|done].
      apply elem_of_app. by left.
    + right. exists e. split; [|done]. apply elem_of_app. right. by apply list_elem_of_singleton.
Qed.

Lemma described_link_target before w p w1 i (e : entry) :
  built before w -> entry_wf before e -> looked w (entry_path e) w1 i -> h_Typeflag e.1 = TypeLink ->
  p = entry_path e -> link_target before i e w1.
Proof.
  intros Hb Hwf Hl Hk ->. destruct (wf_link _ _ Hwf Hk) as (e' & Hin & Hp & Hdir).
  destruct (looked_described _ _ _ _ _ e' Hb Hl Hin) as (j & nj & Hj & Hnj & Hd).
  assert (j <> i) as Hji.
  { intros ->. apply (wf_new _ _ Hwf e' Hin). eapply descend_inj; [apply Hl|done|apply Hl]. }
  exists e', j, nj. split_and!; [done..| | | | |].
  - eapply descend_names; [apply Hl|done].
  - done.
  - done.
  - done.
  - assert (exists tn, w_nodes w1 !! default j (n_hardTo nj) = Some tn /\ n_hardTo tn = None /\ isDir tn = false)
      as (tn & Htn & Hh & Hnd).
    { destruct (n_hardTo nj) as [t|] eqn:Ht; cbn.
      - by apply (links_ok _ _ (lk_tree _ _ _ _ Hl) _ _ _ Hnj).
      - exists nj. split_and!; [done..|]. unfold described in Hd. destruct (kind_of _) as [[mode ft]|] eqn:Hkd.
        + destruct Hd as (_ & E & _). unfold isDir. rewrite E. apply bool_decide_false. intros ->.
          by destruct (h_Typeflag e'.1).
        + destruct Hd as (? & ? & ? & ? & ? & ? & ? & ?). congruence. }
    split; [|by exists tn]. intros E. rewrite E in Htn.
    assert (implicit tn) as [Hi _]%implicit_dir; [|congruence].
    eapply looked_implicit; [done..|apply Hl|done|]. intros e0 He0. by apply (wf_new _ _ Hwf).
Qed.

Lemma link_target_same before i e w w' :
  link_target before i e w -> others_same i (w_nodes w) (w_nodes w') ->
  (forall q, descend (w_nodes w') 0 q = descend (w_nodes w) 0 q) -> link_target before i e w'.
Proof.
  intros (e' & j & nj & Hin & Hp & Hnm & Hj & Hnj & Hji & Hti & tn & Htn & Hh & Hd) Ho Hdesc.
  destruct (others_same_old _ _ _ _ _ Ho Hji Hnj) as (nj' & Hnj' & (_ & _ & _ & _ & Eh & _)%unlinked_fields).
  destruct (others_same_old _ _ _ _ _ Ho Hti Htn) as (tn' & Htn' & (_ & _ & _ & Ed' & Eh' & _)%unlinked_fields).
  exists e', j, nj'. rewrite Hdesc, Eh. cbn zeta. split_and!; try done. exists tn'. by rewrite Eh', Ed'.
Qed.

(** The looked up node [n] after [make_nondir] and the owner fields: [n3]. *)
Record prepared (e : entry) (i : nat) (w1 w3 : writer) (n n3 : node) : Prop := {
  pr_others : others_same i (w_nodes w1) (w_nodes w3);
  pr_node : w_nodes w3 !! i = Some n3;
  pr_same : n_name n3 = n_name n /\ n_parent n3 = n_parent n /\ n_hardTo n3 = None /\ isDir n3 = true;
  pr_owned : owned e n3;
  pr_out : out_ok w3;
  pr_keeps : keeps w1 w3;
  pr_paths : w_byPath w3 = w_byPath w1;
  pr_kids : if bool_decide (h_Typeflag e.1 = TypeDir) then n_children n3 = n_children n
            else n_children n = Some ∅ /\ n_children n3 = None
}.

Lemma prepared_kids e i w1 w3 n n3 : prepared e i w1 w3 n n3 -> same_kids n n3.
Proof. intros [_ _ _ _ _ _ _ H]. case_bool_decide; [by left|by right]. Qed.

Lemma prepare_spec (e : entry) i w1 n :
  tree_ok (w_nodes w1) (w_byPath w1) -> out_ok w1 -> w_nodes w1 !! i = Some n -> isDir n = true -> n_hardTo n = None ->
  (i = 0 -> h_Typeflag e.1 = TypeDir) ->
  match make_nondir i e.1 w1 with
  | Ok w2 => exists n3,
      prepared e i w1 (upd_node i (set_owner (u32 (h_Uid e.1)) (u32 (h_Gid e.1)) (h_ModTime e.1)) w2) n n3
  | Err _ => True
  | Crash _ => False
  end.
Proof.
  intros Ht Ho Hn Hd Hh Hroot. pose proof (make_nondir_spec i e.1 w1 n Ht Hn Hd Hh Hroot) as Hm.
  destruct (make_nondir i e.1 w1) as [w2| |]; [|done|done]. destruct Hm as (n2 & Ho2 & Hn2 & E2 & Hout2 & Hbp2 & Hc2).
  destruct (data_fields _ _ E2) as (Eh & Ed & En & Ep). eexists. split.
  - eapply others_same_trans; [exact Ho2|apply others_same_alter].
  - cbn. by rewrite list_lookup_alter_eq, Hn2.
  - split_and!; [done|done|by rewrite <-Hh, <-Eh|by rewrite <-Hd, <-Ed].
  - done.
  - apply out_ok_upd. by eapply same_out_ok.
  - by apply (same_out_keeps _ _ Hout2).
  - done.
  - case_bool_decide; [by subst n2|done].
Qed.

(** The last step of [addEntry], from a prepared node. *)
Lemma fill_prepared before w w1 w3 e i n n3 :
  built before w -> entry_wf before e -> looked w (entry_path e) w1 i -> w_nodes w1 !! i = Some n ->
  isDir n = true -> n_hardTo n = None -> (i = 0 -> h_Typeflag e.1 = TypeDir) -> prepared e i w1 w3 n n3 ->
  match fill_entry i e.1 e.2 w3 with
  | Ok w' => built (before ++ [e]) w'
  | Err _ => True
  | Crash _ => False
  end.
Proof.
  intros Hb Hwf Hl Hn Hd Hh Hroot Hp. pose proof (prepared_kids _ _ _ _ _ _ Hp) as Hkids.
  destruct Hp as [P1 P2 (P3 & P4 & P5 & Pd) P6 P7 P8 P9 P10]. pose proof (lk_tree _ _ _ _ Hl) as Ht.
  assert (forall q, descend (w_nodes w3) 0 q = descend (w_nodes w1) 0 q) as Hdesc by (intros; by eapply same_kids_descend).
  assert (is_Some (n_children n)) as Hch by (by apply (dirs_ok _ _ Ht _ _ Hn)).
  assert (0 <= w_nextBlk w3)%Z as Hblk by (pose proof (out_pos _ P7); lia).
  assert (if bool_decide (h_Typeflag e.1 = TypeDir) then is_Some (n_children n3) else n_children n3 = None) as Hc3.
  { case_bool_decide; [by rewrite P10|by destruct P10]. }
  assert (h_Typeflag e.1 = TypeLink -> link_target before i e w3) as Hlink.
  { intros Hk. eapply link_target_same; [|exact P1|exact Hdesc]. by eapply described_link_target. }
  assert (forall q, Forall plain q -> q <> [] -> w_byPath w3 !! rel_path q = descend (w_nodes w3) 0 q) as Hpaths.
  { intros q Hq Hne. rewrite Hdesc, P9. by apply (paths_ok _ _ Ht). }
  pose proof (fill_entry_spec before i e w3 n3 Hwf P2 P7 Hblk P5 P6 Hc3 Hlink Hpaths) as Hf.
  destruct (fill_entry i e.1 e.2 w3) as [w'| |]; [|done|done].
  destruct Hf as (n' & [F1 F2 F3 F4 F5 (F6 & F7 & F8) F9 F10]).
  eapply (built_refine before w w1 w' e i n n'); try done.
  - by eapply others_same_trans.
  - split; [congruence|]. split; [congruence|]. case_bool_decide as Hdir.
    + left. destruct F10. split_and!; congruence.
    + right. destruct P10 as [Q1 Q2]. split; [naive_solver|]. split; [done|]. split; [congruence|].
      destruct F10 as [?|(t & tn & E1 & E2 & E3 & E4)]; [by left|right].
      destruct (decide (t = i)) as [->|Hti].
      { rewrite P2 in E2. apply (inj Some) in E2 as <-. congruence. }
      destruct (others_same_new _ _ _ _ _ P1 Hti E2) as (tn' & Htn' & (_ & _ & _ & Ed' & Eh' & _)%unlinked_fields).
      exists t, tn'. rewrite <-Eh', <-Ed'. split_and!; [congruence|done..].
  - congruence.
  - by eapply keeps_trans.
Qed.

(** One entry: no crash, and the tree describes it too. *)
Lemma addEntry_spec before w (e : entry) :
  built before w -> entry_wf before e ->
  match addEntry e.1 e.2 w with
  | Ok w' => built (before ++ [e]) w'
  | Err _ => True
  | Crash _ => False
  end.
Proof.
  intros Hb Hwf. unfold addEntry. pose proof (wf_path _ _ Hwf) as Hp. unfold entry_path in Hp.
  pose proof (lookup_spec _ _ _ _ (path_of_names _ Hp) (path_of_fuel _ Hp) (b_tree _ _ Hb)) as Hl.
  destruct (lookup _ _ true w) as [[w1 i]| |]; [|done|done]. cbn [mbind result_bind].
  fold (entry_path e) in Hl. pose proof (lk_at _ _ _ _ Hl) as Hat.
  destruct (lookup_lt_is_Some_2 _ _ (descend_valid _ _ _ _ (lk_tree _ _ _ _ Hl) Hat)) as [n Hn].
  assert (implicit n) as [Hd Hh]%implicit_dir by (eapply looked_implicit; [done..|]; intros; by apply (wf_new _ _ Hwf)).
  assert (i = 0 -> h_Typeflag e.1 = TypeDir) as Hroot.
  { intros ->. apply (wf_root _ _ Hwf). eapply descend_inj; [apply Hl|done|done]. }
  pose proof (prepare_spec e i w1 n (lk_tree _ _ _ _ Hl) (same_out_ok _ _ (lk_out _ _ _ _ Hl) (b_out _ _ Hb))
    Hn Hd Hh Hroot) as Hm.
  destruct (make_nondir i e.1 w1) as [w2| |]; [|done|done]. destruct Hm as (n3 & Hm). by eapply fill_prepared.
Qed.

Lemma add_entries_spec es : forall before w,
  built before w -> tar_wf before es ->
  match add_entries es w with
  | Ok w' => built (before ++ es) w'
  | Err _ => True
  | Crash _ => False
  end.
Proof.
  induction es as [|[h r] es IH]; intros before w Hb Hwf; cbn [add_entries]; [by rewrite app_nil_r|].
  destruct Hwf as [Hwf Hwf']. pose proof (addEntry_spec before w (h, r) Hb Hwf) as He. cbn [fst snd] in He.
  destruct (addEntry h r w) as [w1| |]; [|done|done]. cbn [mbind result_bind].
  specialize (IH _ _ He Hwf'). by rewrite <-app_assoc in IH.
Qed.

Lemma tree_ok_root : tree_ok [dir_node "" None] {[ "." := 0 ]}.
Proof.
  assert (forall i n, i <> 0 -> [dir_node "" None] !! i = Some n -> False) as Hi by (by intros [|i]).
  assert (forall p x, child [dir_node "" None] p x = None) as Hc.
  { intros [|p] x; [|done]. unfold child. cbn. apply lookup_empty. }
  split.
  - by eexists.
  - intros i n H1 H2. by destruct (Hi i n).
  - intros p x c. by rewrite Hc.
  - intros [|i] n; [intros [= <-]|done]. cbn. split; [done|by eexists].
  - intros [|i] n t; [intros [= <-]|]; done.
  - intros i n H1 H2. by destruct (Hi i n).
  - intros p Hp Hne. destruct (rel_path_nonempty _ Hne Hp). rewrite lookup_singleton_ne by done.
    destruct p as [|x p]; [done|]. cbn [descend]. by rewrite Hc.
Qed.

Lemma built_new limit : (Z.of_nat limit <= size_limit)%Z -> built [] (new_writer limit).
Proof.
  intros Hlim. unfold new_writer. split; cbn [w_nodes w_byPath w_nextBlk w_out].
  - apply tree_ok_root.
  - split; [split|]; cbn; try lia. reflexivity.
  - lia.
  - intros e []%elem_of_nil.
  - intros [|x p] i n; cbn; [|done]. intros [= <-] [= <-] _. by exists "", None.
  - intros [|x p]; cbn; [by left|]. by intros [].
Qed.
