(* ===== verification/ErofsWalk.v ===== *)
(** * The EROFS writer's breadth-first walk

    On a tree the walk ends, visits every canonical inode exactly once, the
    root first, and in the same order each time ([order]); a walk is a fold of
    its callback over that order ([walk_fold]). [assignNids] numbers the
    inodes by their position in it. *)
From S2P Require Import Prelude GoStrings Erofs ErofsTree ErofsOut.

(** ** The order *)

Fixpoint bfs (fuel : nat) (queue : list nat) (l : list node) : option (list nat) :=
  match queue with
  | [] => Some []
  | n :: queue' =>
      match fuel with
      | O => None
      | S fuel' => cons n <$> bfs fuel' (queue' ++ kids l n) l
      end
  end.

Definition order (l : list node) : list nat := default [] (bfs (length l) [0] l).

Fixpoint foldM {St} (fn : nat -> St -> result string St) (o : list nat) (s : St) : result string St :=
  match o with
  | [] => Ok s
  | n :: o' => s ← fn n s; foldM fn o' s
  end.

Lemma foldM_app {St} (fn : nat -> St -> result string St) o o' s :
  foldM fn (o ++ o') s = (s ← foldM fn o s; foldM fn o' s).
Proof. revert s. induction o as [|n o IH]; intros s; [done|]. cbn. by destruct (fn n s); cbn. Qed.

(** A walk whose callback keeps the children is a fold. *)
Lemma walk_go_fold {St} (get : St -> writer) fn (P : St -> Prop) l :
  (forall s i, P s -> kids (w_nodes (get s)) i = kids l i) ->
  (forall i s s', P s -> fn i s = Ok s' -> P s') ->
  forall fuel queue s o, P s -> bfs fuel queue l = Some o -> walk_go get fn fuel queue s = foldM fn o s.
Proof.
  intros Hk Hfn. induction fuel as [|fuel IH]; intros [|n queue] s o Hs; cbn; try (by intros [= <-]).
  intros (o' & Ho' & ->)%fmap_Some. cbn [foldM]. destruct (fn n s) as [s'| |] eqn:Hn; [|done|done].
  cbn [mbind result_bind]. rewrite (Hk s' n) by eauto. by apply IH; [eauto|].
Qed.

(** ** What the order is *)

Definition canon (l : list node) (i : nat) : Prop := exists n, l !! i = Some n /\ n_hardTo n = None.

Lemma elem_of_kids l bp i k :
  tree_ok l bp -> k ∈ kids l i <-> canon l k /\ exists x, child l i x = Some k.
Proof.
  intros Ht. unfold kids, canon, is_canonical, child. destruct (l !! i) as [n|] eqn:Hn; cbn; [|set_solver].
  destruct (n_children n) as [ch|] eqn:Hch.
  - destruct (proj1 (dirs_ok _ _ Ht _ _ Hn) ltac:(by eexists)) as [-> Hh]. rewrite list_elem_of_filter.
    apply ZifyClasses.and_morph.
    + destruct (l !! k) as [m|]; [|naive_solver]. rewrite bool_decide_eq_true. naive_solver.
    + unfold sorted_children. rewrite Hch. cbn. rewrite list_elem_of_fmap. split.
      * intros ([x k'] & -> & Hin). rewrite merge_sort_Permutation in Hin. apply elem_of_map_to_list in Hin. eauto.
      * intros (x & Hx). exists (x, k). split; [done|]. rewrite merge_sort_Permutation. by apply elem_of_map_to_list.
  - assert (k ∉ (if isDir n then filter (fun c => is_canonical l c = true) (snd <$> sorted_children n) else [])) as Hno.
    { unfold sorted_children. rewrite Hch. cbn. rewrite map_to_list_empty. destruct (isDir n); set_solver. }
    split; [done|]. by intros [_ [x ?]].
Qed.

Record bfs_inv (l : list node) (vis queue : list nat) : Prop := {
  bi_nodup : NoDup (vis ++ queue);
  bi_canon : forall i, i ∈ vis ++ queue -> canon l i;
  bi_parent : forall i, i ∈ vis ++ queue -> i = 0 \/ exists p x, p ∈ vis /\ child l p x = Some i;
  bi_closed : forall i k, i ∈ vis -> k ∈ kids l i -> k ∈ vis ++ queue
}.

Lemma NoDup_snd_sorted_children l bp i : tree_ok l bp -> NoDup (kids l i).
Proof.
  intros Ht. unfold kids. destruct (l !! i) as [n|] eqn:Hn; [|constructor].
  destruct (isDir n); [|constructor]. apply NoDup_filter. unfold sorted_children. rewrite merge_sort_Permutation.
  destruct (n_children n) as [ch|] eqn:Hch; cbn; [|rewrite map_to_list_empty; constructor].
  apply NoDup_fmap_2_strong; [|apply NoDup_map_to_list].
  intros [x1 k1] [x2 k2] H1%elem_of_map_to_list H2%elem_of_map_to_list E. cbn in E. subst k2. f_equal.
  destruct (child_ok _ _ Ht i x1 k1) as (m & Hm & _ & <-); [unfold child; rewrite Hn; cbn; by rewrite Hch|].
  destruct (child_ok _ _ Ht i x2 k1) as (m' & Hm' & _ & <-); [unfold child; rewrite Hn; cbn; by rewrite Hch|].
  congruence.
Qed.

Lemma bfs_inv_step l bp vis n queue :
  tree_ok l bp -> bfs_inv l vis (n :: queue) -> bfs_inv l (vis ++ [n]) (queue ++ kids l n).
Proof.
  intros Ht [B1 B2 B3 B4].
  assert (forall k, k ∈ kids l n -> k ∉ vis ++ n :: queue) as Hfresh.
  { intros k Hk Hin. apply (elem_of_kids _ _ _ _ Ht) in Hk as [_ [x Hx]].
    destruct (B3 k Hin) as [->|(p & y & Hp & Hy)].
    - by apply (child_lt _ _ _ _ _ Ht) in Hx; lia.
    - destruct (child_ok _ _ Ht _ _ _ Hx) as (m & Hm & Hpar & _), (child_ok _ _ Ht _ _ _ Hy) as (m' & Hm' & Hpar' & _).
      assert (p = n) as -> by congruence. apply NoDup_app in B1 as (_ & Hd & _). apply (Hd n Hp). by left. }
  split.
  - rewrite <-app_assoc. cbn. replace (vis ++ n :: queue ++ kids l n) with ((vis ++ n :: queue) ++ kids l n)
      by (by rewrite <-app_assoc). apply NoDup_app. split_and!; [done| |by eapply NoDup_snd_sorted_children].
    intros k Hk Hk'. by apply (Hfresh k).
  - intros i. rewrite <-app_assoc. intros Hi. assert (i ∈ vis ++ n :: queue \/ i ∈ kids l n) as [H|H] by set_solver; [by apply B2|].
    by apply (elem_of_kids _ _ _ _ Ht) in H as [? _].
  - intros i Hi. assert (i ∈ vis ++ n :: queue \/ i ∈ kids l n) as [H|H] by set_solver.
    + destruct (B3 i H) as [|(p & x & ? & ?)]; [by left|right]. exists p, x. set_solver.
    + right. apply (elem_of_kids _ _ _ _ Ht) in H as [_ [x Hx]]. exists n, x. set_solver.
  - intros i k Hi Hk. assert (i ∈ vis \/ i = n) as [H| ->] by set_solver; [|set_solver].
    specialize (B4 i k H Hk). set_solver.
Qed.

Lemma bfs_inv_bound l vis queue : bfs_inv l vis queue -> length vis + length queue <= length l.
Proof.
  intros [B1 B2 _ _]. rewrite <-length_app. rewrite <-(length_seq (length l) 0).
  apply submseteq_length, NoDup_submseteq; [done|]. intros i (n & Hn & _)%B2. apply lookup_lt_Some in Hn.
  apply elem_of_seq. lia.
Qed.

Lemma bfs_spec l bp : tree_ok l bp -> forall fuel vis queue,
  bfs_inv l vis queue -> length l <= fuel + length vis ->
  exists o, bfs fuel queue l = Some o /\ bfs_inv l (vis ++ o) [].
Proof.
  intros Ht. induction fuel as [|fuel IH]; intros vis [|n queue] Hb Hf; cbn [bfs];
    try (exists []; by rewrite app_nil_r).
  - pose proof (bfs_inv_bound l _ _ Hb). cbn in *. lia.
  - destruct (IH (vis ++ [n]) (queue ++ kids l n)) as (o & -> & Ho).
    + by eapply bfs_inv_step.
    + rewrite length_app. cbn. lia.
    + exists (n :: o). by rewrite <-app_assoc in Ho.
Qed.

Lemma bfs_inv_start l bp : tree_ok l bp -> bfs_inv l [] [0].
Proof.
  intros Ht. destruct (root_ok _ _ Ht) as (r & Hr & _ & _ & Hh). split; cbn.
  - apply NoDup_singleton.
  - intros i ->%list_elem_of_singleton. by exists r.
  - intros i ->%list_elem_of_singleton. by left.
  - by intros i k ?%not_elem_of_nil.
Qed.

(** The walk ends, from the root, at every canonical inode, once. *)
Lemma order_spec l bp :
  tree_ok l bp ->
  bfs (length l) [0] l = Some (order l) /\ NoDup (order l) /\ (forall i, i ∈ order l <-> canon l i) /\
  order l !! 0 = Some 0.
Proof.
  intros Ht. destruct (bfs_spec l bp Ht (length l) [] [0]) as (o & Ho & Hinv); [by eapply bfs_inv_start|cbn; lia|].
  cbn in Hinv. unfold order. rewrite Ho. cbn [default from_option id]. destruct Hinv as [B1 B2 B3 B4].
  rewrite app_nil_r in *.
  assert (o !! 0 = Some 0) as H0.
  { destruct (length l) as [|f] eqn:Hl; cbn in Ho; [done|]. apply fmap_Some in Ho as (o' & _ & ->). done. }
  split_and!; [done|done| |done]. intros i. split; [apply B2|].
  induction (lt_wf i) as [i _ IH]. intros Hi. destruct (decide (i = 0)) as [->|Hi0]; [by eapply list_elem_of_lookup_2|].
  destruct Hi as (n & Hn & Hh). destruct (parent_ok _ _ Ht _ _ Hi0 Hn) as (p & _ & Hlt & Hc).
  apply (B4 p); [|apply (elem_of_kids _ _ _ _ Ht); split; [by exists n|eauto]].
  apply IH; [done|]. unfold child in Hc. destruct (l !! p) as [pn|] eqn:Hp; [|done]. cbn in Hc.
  destruct (n_children pn) eqn:Hch; [|done]. exists pn. split; [done|].
  by apply (dirs_ok _ _ Ht _ _ Hp).
Qed.

Lemma order_elem l bp i : tree_ok l bp -> i ∈ order l <-> canon l i.
Proof. intros Ht. apply (order_spec _ _ Ht). Qed.

Lemma walk_fold {St} (get : St -> writer) fn (P : St -> Prop) l bp s :
  tree_ok l bp -> length (w_nodes (get s)) = length l ->
  (forall s i, P s -> kids (w_nodes (get s)) i = kids l i) ->
  (forall i s s', P s -> fn i s = Ok s' -> P s') -> P s ->
  walk get fn s = foldM fn (order l) s.
Proof.
  intros Ht Hlen Hk Hfn Hs. unfold walk. rewrite Hlen. eapply walk_go_fold; [done..|]. by apply (order_spec _ _ Ht).
Qed.

(** ** Shapes *)

(** What the walk and the directories depend on. *)
Definition shape (n : node) := (n_name n, n_parent n, n_children n, n_ftype n, n_hardTo n).
Definition same_shape (l l' : list node) : Prop := shape <$> l = shape <$> l'.

Lemma same_shape_lookup l l' i n :
  same_shape l l' -> l !! i = Some n -> exists n', l' !! i = Some n' /\ shape n' = shape n.
Proof.
  intros H Hn. apply (f_equal (.!! i)) in H. rewrite !list_lookup_fmap, Hn in H.
  destruct (l' !! i) as [n'|]; [|done]. apply (inj Some) in H. by exists n'.
Qed.

Lemma same_shape_length l l' : same_shape l l' -> length l = length l'.
Proof. intros H. apply (f_equal length) in H. by rewrite !length_fmap in H. Qed.

Lemma shape_fields n n' :
  shape n = shape n' -> n_name n = n_name n' /\ n_parent n = n_parent n' /\ n_children n = n_children n' /\
  n_ftype n = n_ftype n' /\ n_hardTo n = n_hardTo n' /\ isDir n = isDir n'.
Proof.
  intros H. unfold shape in H. injection H as E1 E2 E3 E4 E5. unfold isDir. split_and!; try done. by rewrite E4.
Qed.

Lemma same_shape_refl l : same_shape l l.
Proof. done. Qed.
Lemma same_shape_sym l l' : same_shape l l' -> same_shape l' l.
Proof. done. Qed.
Lemma same_shape_trans l1 l2 l3 : same_shape l1 l2 -> same_shape l2 l3 -> same_shape l1 l3.
Proof. unfold same_shape. congruence. Qed.

Lemma same_shape_alter i f l : (forall n, shape (f n) = shape n) -> same_shape l (alter f i l).
Proof.
  intros Hf. apply list_eq. intros j. rewrite !list_lookup_fmap. destruct (decide (j = i)) as [->|].
  - rewrite list_lookup_alter_eq. destruct (l !! i); cbn; [|done]. by rewrite Hf.
  - by rewrite list_lookup_alter_ne.
Qed.

Lemma same_shape_child l l' i x : same_shape l l' -> child l i x = child l' i x.
Proof.
  intros H. unfold child. destruct (l !! i) as [n|] eqn:Hn.
  - destruct (same_shape_lookup _ _ _ _ H Hn) as (n' & -> & (_ & _ & E & _)%shape_fields). cbn. by rewrite E.
  - apply lookup_ge_None in Hn. rewrite (lookup_ge_None_2 l'); [done|]. by rewrite <-(same_shape_length _ _ H).
Qed.

Lemma same_shape_descend l l' i p : same_shape l l' -> descend l i p = descend l' i p.
Proof.
  intros H. revert i. induction p as [|x p IH]; intros i; [done|]. cbn. rewrite (same_shape_child _ _ _ _ H).
  destruct (child l' i x); cbn; [apply IH|done].
Qed.

Lemma same_shape_canon l l' i : same_shape l l' -> canon l i -> canon l' i.
Proof.
  intros H (n & Hn & Hh). destruct (same_shape_lookup _ _ _ _ H Hn) as (n' & Hn' & (_ & _ & _ & _ & E & _)%shape_fields).
  exists n'. split; congruence.
Qed.

Lemma same_shape_kids l l' i : same_shape l l' -> kids l i = kids l' i.
Proof.
  intros H. unfold kids. destruct (l !! i) as [n|] eqn:Hn.
  - destruct (same_shape_lookup _ _ _ _ H Hn) as (n' & -> & (_ & _ & E & _ & _ & E')%shape_fields).
    unfold sorted_children. rewrite E, E'. destruct (isDir n); [|done]. apply list_filter_iff. intros c.
    unfold is_canonical. destruct (l !! c) as [m|] eqn:Hm.
    + destruct (same_shape_lookup _ _ _ _ H Hm) as (m' & -> & (_ & _ & _ & _ & -> & _)%shape_fields). done.
    + apply lookup_ge_None in Hm. rewrite (lookup_ge_None_2 l'); [done|]. by rewrite <-(same_shape_length _ _ H).
  - apply lookup_ge_None in Hn. rewrite (lookup_ge_None_2 l'); [done|]. by rewrite <-(same_shape_length _ _ H).
Qed.

Lemma tree_ok_shape l l' bp : same_shape l l' -> tree_ok l bp -> tree_ok l' bp.
Proof.
  intros H Ht.
  assert (forall i n, l' !! i = Some n -> exists n0, l !! i = Some n0 /\ shape n0 = shape n) as Hback.
  { intros i n. by apply same_shape_lookup. }
  split.
  - destruct (root_ok _ _ Ht) as (r & Hr & E1 & E2 & E3).
    destruct (same_shape_lookup _ _ _ _ H Hr) as (r' & Hr' & (_ & E4 & _ & _ & E5 & E6)%shape_fields).
    exists r'. by rewrite E4, E5, E6.
  - intros i n Hi Hn. destruct (Hback _ _ Hn) as (n0 & Hn0 & (<- & <- & _)%shape_fields).
    destruct (parent_ok _ _ Ht _ _ Hi Hn0) as (p & ? & ? & ?). exists p. by rewrite <-(same_shape_child l).
  - intros p x c. rewrite <-(same_shape_child l) by done. intros Hc.
    destruct (child_ok _ _ Ht _ _ _ Hc) as (n & Hn & <- & <-).
    destruct (same_shape_lookup _ _ _ _ H Hn) as (n' & Hn' & (? & ? & _)%shape_fields). by exists n'.
  - intros i n Hn. destruct (Hback _ _ Hn) as (n0 & Hn0 & (_ & _ & <- & _ & <- & <-)%shape_fields).
    by apply (dirs_ok _ _ Ht _ _ Hn0).
  - intros i n t Hn Hnt. destruct (Hback _ _ Hn) as (n0 & Hn0 & (_ & _ & _ & _ & E & _)%shape_fields).
    destruct (links_ok _ _ Ht _ _ t Hn0) as (tn & Htn & E1 & E2); [congruence|].
    destruct (same_shape_lookup _ _ _ _ H Htn) as (tn' & Htn' & (_ & _ & _ & _ & E3 & E4)%shape_fields).
    exists tn'. by rewrite E3, E4.
  - intros i n Hi Hn. destruct (Hback _ _ Hn) as (n0 & Hn0 & (<- & _)%shape_fields). by apply (names_ok _ _ Ht i).
  - intros p Hp Hne. rewrite <-(same_shape_descend l) by done. by apply (paths_ok _ _ Ht).
Qed.

(** ** [assignNids] *)

Lemma assign_fold o : forall w next,
  NoDup o -> (0 <= next < u64max)%Z -> exists w' next',
  foldM assign_one o (w, next) = Ok (w', next') /\
  w_out w' = w_out w /\ w_pos w' = w_pos w /\ w_limit w' = w_limit w /\ w_nextBlk w' = w_nextBlk w /\
  w_byPath w' = w_byPath w /\ same_shape (w_nodes w) (w_nodes w') /\
  (forall i, i ∉ o -> w_nodes w' !! i = w_nodes w !! i) /\
  (forall k i n, o !! k = Some i -> w_nodes w !! i = Some n ->
     exists ino, w_nodes w' !! i = Some (set_ids (u64 (next + 2 * Z.of_nat k)) ino n)).
Proof.
  induction o as [|i o IH]; intros w next Hnd Hn; cbn [foldM].
  { exists w, next. split_and!; done. }
  apply NoDup_cons in Hnd as [Hi Hnd]. destruct (assign_one i (w, next)) as [[w1 n1]| |] eqn:E; [|done|done].
  cbn [mbind result_bind].
  destruct (IH w1 n1 Hnd) as (w' & next' & -> & E1 & E2 & E3 & E4 & E5 & E6 & E7 & E8).
  - injection E as _ <-. apply Z.mod_pos_bound. lia.
  - injection E as <- <-. exists w', next'. cbn [upd_node set_nodes w_nodes w_out w_pos w_limit w_nextBlk w_byPath] in *.
    do 6 (split; [done|]). split; [|split].
    + eapply same_shape_trans; [|exact E6]. by apply same_shape_alter.
    + intros j Hj. rewrite E7 by set_solver. rewrite list_lookup_alter_ne by set_solver. done.
    + intros [|k] j n Hk Hj; cbn in Hk.
      * injection Hk as <-. eexists. rewrite E7 by done. rewrite list_lookup_alter_eq, Hj. cbn. do 2 f_equal.
        rewrite u64_small by lia. lia.
      * assert (j <> i) as Hji by (intros ->; apply Hi; by eapply list_elem_of_lookup_2).
        destruct (E8 k j n Hk) as (ino & Hino); [by rewrite list_lookup_alter_ne|]. exists ino. rewrite Hino.
        do 2 f_equal. unfold u64. rewrite Zplus_mod_idemp_l. f_equal. lia.
Qed.

Lemma assignNids_spec w bp :
  tree_ok (w_nodes w) bp -> exists w', assignNids w = Ok w' /\
  w_out w' = w_out w /\ w_pos w' = w_pos w /\ w_limit w' = w_limit w /\ w_nextBlk w' = w_nextBlk w /\
  w_byPath w' = w_byPath w /\ same_shape (w_nodes w) (w_nodes w') /\
  (forall i, i ∉ order (w_nodes w) -> w_nodes w' !! i = w_nodes w !! i) /\
  (forall k i n, order (w_nodes w) !! k = Some i -> w_nodes w !! i = Some n ->
     exists ino, w_nodes w' !! i = Some (set_ids (u64 (2 + 2 * Z.of_nat k)) ino n)).
Proof.
  intros Ht. unfold assignNids.
  rewrite (walk_fold fst assign_one (fun s => same_shape (w_nodes w) (w_nodes s.1)) (w_nodes w) bp); [|done|done| | |done].
  - destruct (order_spec _ _ Ht) as (_ & Hnd & _).
    destruct (assign_fold (order (w_nodes w)) w 2 Hnd) as (w' & next & -> & H); [lia|]. by exists w'.
  - intros s i Hs. symmetry. by apply same_shape_kids.
  - intros i [w1 n1] s' Hs. cbn. intros [= <-]. cbn. eapply same_shape_trans; [exact Hs|]. by apply same_shape_alter.
Qed.
