(* ===== verification/ErofsDirs.v ===== *)
(** * EROFS directory blocks

    What [writeOneDir] packs is read back: the entries of a directory, in
    order, from blocks in which no name crosses a boundary ([read_dir_pack]).
    The reader finds the last name of a block by its NUL padding. *)
From Stdlib Require Import Ascii.
From S2P Require Import Prelude GoStrings Erofs.

(** ** Little-endian fields *)

Lemma read_le_app o n h t : length h <= o -> read_le o n (h ++ t) = read_le (o - length h) n t.
Proof. intros H. unfold read_le. by rewrite slice_app_r. Qed.

Lemma read_le_field n z t : read_le 0 n (le_bytes n z ++ t) = (z `mod` u8max ^ Z.of_nat n)%Z.
Proof.
  unfold read_le. rewrite <-le_val_bytes. f_equal. unfold slice. rewrite drop_0.
  by rewrite <-(length_le_bytes n z) at 1; rewrite take_app_length.
Qed.

(** A field of a region of the image. *)
Lemma read_le_slice off o n len img : o + n <= len -> read_le (off + o) n img = read_le o n (slice off len img).
Proof.
  intros H. unfold read_le, slice. f_equal. rewrite skipn_firstn_comm, take_take, drop_drop. f_equal. lia.
Qed.

(** Skips the fields before the one at the offset, then reads it. *)
Ltac read_field :=
  repeat (rewrite read_le_app by (rewrite ?length_le_bytes, ?length_replicate; cbn; lia);
          rewrite ?length_le_bytes, ?length_replicate; cbn [Nat.sub length]);
  rewrite read_le_field.

(** ** Names *)

Lemma cstr_padded s z : no_char "000" s -> cstr (bytes_of_string s ++ replicate z 0%Z) = bytes_of_string s.
Proof.
  induction s as [|a s IH]; cbn [bytes_of_string has_char app].
  { intros _. by destruct z. }
  intros [Ha Hs]%orb_false_iff. cbn [cstr]. rewrite bool_decide_false, IH; [done|done|].
  intros E. apply Ascii.eqb_neq in Ha. apply Ha. rewrite <-(ascii_of_byte_of_ascii a), E. done.
Qed.

Definition names_len (es : list dirent) : nat := sum_list ((fun e => String.length (d_name e)) <$> es).

Lemma length_dirent_headers b es : length (dirent_headers b es) = 12 * length es.
Proof.
  revert b. induction es as [|e es IH]; intros b; [done|]. cbn [dirent_headers].
  rewrite !length_app, !length_le_bytes, IH. cbn. lia.
Qed.

Lemma length_dirent_names es : length (dirent_names es) = names_len es.
Proof.
  unfold dirent_names, names_len. induction es as [|e es IH]; [done|]. cbn.
  by rewrite length_app, IH, length_bytes_of_string.
Qed.

Lemma length_dir_block es : length (dir_block es) = 12 * length es + names_len es.
Proof. unfold dir_block. by rewrite length_app, length_dirent_headers, length_dirent_names. Qed.

Lemma names_len_app es es' : names_len (es ++ es') = names_len es + names_len es'.
Proof. unfold names_len. induction es as [|e es IH]; cbn in *; [done|]. rewrite IH. lia. Qed.

Lemma drop_names k es e t :
  es !! k = Some e ->
  drop (names_len (take k es)) (dirent_names es ++ t) =
    bytes_of_string (d_name e) ++ dirent_names (drop (S k) es) ++ t.
Proof.
  revert k. induction es as [|x es IH]; intros [|k] Hk; try done; cbn in Hk.
  - injection Hk as ->. cbn [take drop]. rewrite drop_0.
    change (dirent_names (e :: es)) with (bytes_of_string (d_name e) ++ dirent_names es). by rewrite <-app_assoc.
  - cbn [take]. change (names_len (x :: take k es)) with (String.length (d_name x) + names_len (take k es)).
    change (dirent_names (x :: es)) with (bytes_of_string (d_name x) ++ dirent_names es).
    rewrite <-app_assoc, <-length_bytes_of_string, <-drop_drop, drop_app_length. by apply IH.
Qed.

(** ** One block *)

Lemma blockSize_u16 : (Z.of_nat blockSize < u16max)%Z.
Proof. reflexivity. Qed.

Record dirent_ok (e : dirent) : Prop := {
  de_nid : (0 <= d_nid e < u64max)%Z;
  de_ftype : (0 <= d_ftype e < u8max)%Z;
  de_name : no_char "000" (d_name e)
}.

Lemma read_header k es b t e :
  es !! k = Some e -> dirent_ok e -> (Z.of_nat (b + names_len es) < u16max)%Z ->
  let blk := dirent_headers b es ++ t in
  header_nid blk k = d_nid e /\ header_nameoff blk k = b + names_len (take k es) /\ header_ftype blk k = d_ftype e.
Proof.
  revert k b. induction es as [|x es IH]; intros [|k] b Hk Hok Hb; try done; cbn [lookup list_lookup] in Hk.
  - injection Hk as ->. destruct Hok as [H1 H2 _].
    cbn [dirent_headers]. rewrite <-!app_assoc. unfold header_nid, header_nameoff, header_ftype. cbn [Nat.mul Nat.add].
    assert (forall r, [d_ftype e; 0%Z] ++ r = le_bytes 1 (d_ftype e) ++ [0%Z] ++ r) as Hft.
    { intros r. cbn. by rewrite Z.mod_small. }
    rewrite Hft. split_and!.
    + read_field. unfold u64. rewrite Z.mod_small; [by apply Z.mod_small|]. by apply Z.mod_pos_bound.
    + read_field. unfold u16. rewrite (Z.mod_small (Z.of_nat b)) by lia. rewrite Z.mod_small by lia. cbn. lia.
    + read_field. by apply Z.mod_small.
  - specialize (IH k (b + String.length (d_name x)) Hk Hok).
    change (names_len (x :: es)) with (String.length (d_name x) + names_len es) in Hb. destruct IH as (I1 & I2 & I3); [lia|].
    cbn [dirent_headers take]. change (names_len (x :: take k es)) with (String.length (d_name x) + names_len (take k es)).
    rewrite <-!app_assoc. unfold header_nid, header_nameoff, header_ftype in *.
    assert (forall o n, read_le (S k * 12 + o) n (le_bytes 8 (u64 (d_nid x)) ++ le_bytes 2 (u16 (Z.of_nat b)) ++
      [d_ftype x; 0%Z] ++ dirent_headers (b + String.length (d_name x)) es ++ t) =
      read_le (k * 12 + o) n (dirent_headers (b + String.length (d_name x)) es ++ t)) as Hskip.
    { intros o n. do 3 (rewrite read_le_app by (rewrite ?length_le_bytes; cbn; lia); rewrite ?length_le_bytes).
      f_equal. cbn. lia. }
    rewrite !Hskip. rewrite <-(Nat.add_0_r (S k * 12)), Hskip, Nat.add_0_r. split_and!; [done| |done].
    rewrite I2. lia.
Qed.

Lemma read_dir_block_spec g z :
  g <> [] -> Forall dirent_ok g -> length (dir_block g) <= blockSize ->
  read_dir_block (dir_block g ++ replicate z 0%Z) = g.
Proof.
  intros Hne Hok Hlen. rewrite length_dir_block in Hlen. pose proof blockSize_u16 as Hbs.
  assert (forall k e, g !! k = Some e -> let blk := dir_block g ++ replicate z 0%Z in
    header_nid blk k = d_nid e /\ header_nameoff blk k = length g * 12 + names_len (take k g) /\
    header_ftype blk k = d_ftype e) as Hh.
  { intros k e Hk. unfold dir_block. rewrite <-app_assoc. apply read_header; [done| |lia].
    rewrite Forall_lookup in Hok. by apply (Hok k). }
  unfold read_dir_block. destruct (g !! 0) as [e0|] eqn:H0; [|by destruct g].
  destruct (Hh 0 e0 H0) as (_ & -> & _). cbn [take]. change (names_len []) with 0.
  rewrite Nat.add_0_r, Nat.div_mul by done. apply list_eq. intros k. rewrite list_lookup_fmap.
  destruct (g !! k) as [e|] eqn:Hk.
  - pose proof (lookup_lt_Some _ _ _ Hk). rewrite lookup_seq_lt by done. cbn. f_equal.
    destruct (Hh k e Hk) as (E1 & E2 & E3). unfold read_dirent. rewrite E1, E2, E3.
    assert (drop (length g * 12 + names_len (take k g)) (dir_block g ++ replicate z 0%Z) =
      bytes_of_string (d_name e) ++ dirent_names (drop (S k) g) ++ replicate z 0%Z) as Hd.
    { unfold dir_block. rewrite <-app_assoc, <-drop_drop.
      rewrite drop_app_length' by (rewrite length_dirent_headers; lia). by apply drop_names. }
    destruct e as [nm nid ft]. cbn [d_name d_nid d_ftype] in *. f_equal. etrans; [|apply string_of_bytes_of_string].
    f_equal. case_bool_decide as Hlast.
    + destruct (lookup_lt_is_Some_2 g (S k) Hlast) as [e' Hk']. destruct (Hh (S k) e' Hk') as (_ & -> & _).
      rewrite (take_S_r _ _ _ Hk), names_len_app. unfold slice. rewrite Hd.
      change (names_len [Dirent nm nid ft]) with (String.length nm + 0). rewrite <-length_bytes_of_string.
      replace (length g * 12 + (names_len (take k g) + (length (bytes_of_string nm) + 0)) -
        (length g * 12 + names_len (take k g))) with (length (bytes_of_string nm)) by lia.
      by rewrite take_app_length.
    + rewrite Hd, (drop_ge g) by lia. cbn [dirent_names fmap list_fmap concat app]. apply cstr_padded.
      rewrite Forall_lookup in Hok. apply (Hok _ _ Hk).
  - rewrite (lookup_ge_None_2 (seq _ _)); [done|]. rewrite length_seq. by apply lookup_ge_None in Hk.
Qed.

(** ** Packing *)

(** The blocks as they are written: all but the last padded. *)
Fixpoint join_blocks (blocks : list bytes) : bytes :=
  match blocks with
  | [] => []
  | [b] => b
  | b :: blocks' => b ++ replicate (blockSize - length b) 0%Z ++ join_blocks blocks'
  end.

(** A good grouping of entries into blocks. *)
Definition group_ok (g : list dirent) : Prop := g <> [] /\ length (dir_block g) <= blockSize.

Lemma fit_spec es used :
  used <= blockSize -> used + length (dir_block (take (fit used es) es)) <= blockSize /\ fit used es <= length es.
Proof.
  revert used. induction es as [|e es IH]; intros used Hu; cbn [fit].
  { rewrite length_dir_block. cbn. lia. }
  case_bool_decide as Hn; [rewrite length_dir_block; cbn; lia|].
  destruct (IH (used + 12 + String.length (d_name e))) as [H1 H2]; [lia|].
  rewrite length_dir_block in *. cbn [take length].
  change (names_len (e :: ?t)) with (String.length (d_name e) + names_len t). split; [|lia].
  set (k := fit _ es) in *. rewrite length_take in *. lia.
Qed.

Lemma fit_pos e es : 12 + String.length (d_name e) <= blockSize -> 0 < fit 0 (e :: es).
Proof. intros H. cbn [fit]. rewrite bool_decide_false; lia. Qed.

(** Packing never fails on entries whose names fit a block. *)
Lemma pack_spec fuel : forall es,
  length es <= fuel -> Forall (fun e => 12 + String.length (d_name e) <= blockSize) es ->
  exists groups, pack fuel es = Ok (dir_block <$> groups) /\ concat groups = es /\ Forall group_ok groups.
Proof.
  induction fuel as [|fuel IH]; intros [|e es] Hf Hok; cbn [pack]; try (by exists []); [cbn in Hf; lia|].
  apply Forall_cons in Hok as Hok'. destruct Hok' as [He _]. pose proof (fit_pos e es He) as Hpos.
  destruct (fit_spec (e :: es) 0) as [Hlen Hle]; [lia|]. rewrite bool_decide_false by lia.
  remember (fit 0 (e :: es)) as k eqn:Ek. clear Ek.
  destruct (IH (drop k (e :: es))) as (groups & -> & Hc & Hg).
  { rewrite length_drop. cbn [length] in *. lia. }
  { by apply Forall_drop. }
  cbn [mbind result_bind]. exists (take k (e :: es) :: groups). split; [done|]. split.
  - cbn [concat]. rewrite Hc. apply take_drop.
  - constructor; [|done]. split; [|lia]. destruct k; [lia|]. done.
Qed.

Lemma read_dir_join groups : forall fuel,
  length groups <= fuel -> Forall group_ok groups -> Forall dirent_ok (concat groups) ->
  read_dir fuel (join_blocks (dir_block <$> groups)) = concat groups.
Proof.
  induction groups as [|g groups IH]; intros fuel Hf Hg Hok; [by destruct fuel|].
  destruct fuel as [|fuel]; [cbn in Hf; lia|]. cbn [length] in Hf.
  apply Forall_cons in Hg as [[Hne Hlen] Hg]. cbn [concat] in *. apply Forall_app in Hok as [Hok1 Hok2].
  assert (0 < length (dir_block g)) as Hpos.
  { rewrite length_dir_block. destruct g; [done|cbn; lia]. }
  assert (join_blocks (dir_block <$> g :: groups) = dir_block g ++
    replicate (if bool_decide (groups = []) then 0 else blockSize - length (dir_block g)) 0%Z ++
    join_blocks (dir_block <$> groups)) as ->.
  { destruct groups; cbn [fmap list_fmap join_blocks]; [|done]. cbn. by rewrite app_nil_r. }
  set (z := if bool_decide (groups = []) then 0 else blockSize - length (dir_block g)).
  cbn [read_dir]. destruct (dir_block g ++ _) as [|b0 data0] eqn:Hdata.
  { apply (f_equal length) in Hdata. rewrite length_app in Hdata. cbn in Hdata. lia. }
  rewrite <-Hdata.
  assert (take blockSize (dir_block g ++ replicate z 0%Z ++ join_blocks (dir_block <$> groups)) =
      dir_block g ++ replicate z 0%Z /\
    drop blockSize (dir_block g ++ replicate z 0%Z ++ join_blocks (dir_block <$> groups)) =
      join_blocks (dir_block <$> groups)) as [-> ->].
  { unfold z. case_bool_decide as Hgs; [subst groups; cbn; rewrite !app_nil_r, take_ge, drop_ge by lia; done|].
    rewrite app_assoc. assert (length (dir_block g ++ replicate (blockSize - length (dir_block g)) 0%Z) = blockSize) as E.
    { rewrite length_app, length_replicate. lia. }
    by rewrite take_app_length', drop_app_length' by done. }
  rewrite read_dir_block_spec by done. f_equal. apply IH; [lia|done..].
Qed.

Lemma join_blocks_length groups :
  Forall group_ok groups -> length groups <= length (join_blocks (dir_block <$> groups)).
Proof.
  induction 1 as [|g groups [Hne Hlen] _ IH]; [done|].
  assert (0 < length (dir_block g)) as Hpos.
  { rewrite length_dir_block. destruct g; [done|cbn; lia]. }
  destruct groups as [|g' groups]; [cbn in *; lia|].
  cbn [fmap list_fmap join_blocks] in *. rewrite !length_app. cbn [length] in *. lia.
Qed.

(** The entries of a directory, packed and read back. *)
Lemma read_dir_pack es :
  Forall dirent_ok es -> Forall (fun e => 12 + String.length (d_name e) <= blockSize) es ->
  exists blocks, pack (length es) es = Ok blocks /\ Forall (fun b => length b <= blockSize) blocks /\
    read_dir (S (length (join_blocks blocks))) (join_blocks blocks) = es.
Proof.
  intros Hok Hlen. destruct (pack_spec (length es) es ltac:(done) Hlen) as (groups & -> & Hc & Hg).
  exists (dir_block <$> groups). split; [done|]. split.
  - apply Forall_fmap. eapply Forall_impl; [exact Hg|]. by intros g [_ ?].
  - rewrite read_dir_join; [done| |done|by rewrite Hc]. pose proof (join_blocks_length groups Hg). lia.
Qed.
