(* ===== verification/ErofsImage.v ===== *)
(** * The EROFS image

    The metadata passes of [Convert] on the tree of [ErofsEntries]: directory
    blocks, inode table and superblock, and the reader of [Erofs] run on the
    result. The theorems say that [Convert] ends without a crash on every
    well-formed tar stream, that the image gives back every entry (attributes,
    file contents, link targets, device numbers, hard links) and nothing else,
    and that directories are sorted as the kernel's lookup needs. *)
From Stdlib Require Import Ascii.
From S2P Require Import Prelude GoStrings Erofs ErofsTree ErofsOut ErofsEntries ErofsWalk ErofsDirs.

(** ** Directory listings *)

(** The canonical inode a child stands for. *)
Definition target (l : list node) (c : nat) : nat :=
  match l !! c with Some n => default c (n_hardTo n) | None => c end.

Definition nid_of (l : list node) (i : nat) : Z := match l !! i with Some n => n_nid n | None => 0%Z end.

Definition name_le (a b : dirent) : Prop := str_le (d_name a) (d_name b).
#[export] Instance name_le_dec a b : Decision (name_le a b).
Proof. unfold name_le. apply _. Defined.

Definition listed (l : list node) (i : nat) (e : dirent) : Prop :=
  e = Dirent "." (nid_of l i) ftDir \/
  (exists n, l !! i = Some n /\ e = Dirent ".." (nid_of l (default i (n_parent n))) ftDir) \/
  exists x c tn, child l i x = Some c /\ l !! target l c = Some tn /\ e = Dirent x (n_nid tn) (n_ftype tn).

Record dir_list (l : list node) (i : nat) (es : list dirent) : Prop := {
  dl_elem : forall e, e ∈ es <-> listed l i e;
  dl_nodup : NoDup (d_name <$> es);
  dl_sorted : Sorted name_le es
}.

#[export] Instance name_le_total : Total name_le.
Proof. intros a b. apply String.leb_total. Qed.

Lemma mapM_result_ok {A B} (f : A -> result string B) g (l : list A) :
  (forall x, x ∈ l -> f x = Ok (g x)) -> mapM_result f l = Ok (g <$> l).
Proof.
  induction l as [|x l IH]; intros H; [done|]. cbn. rewrite H by set_solver. cbn.
  rewrite IH by set_solver. done.
Qed.

Definition child_entry (l : list node) (x : string * nat) : dirent :=
  match l !! target l x.2 with Some tn => Dirent x.1 (n_nid tn) (n_ftype tn) | None => Dirent x.1 0 0 end.

Lemma target_valid l bp c n : tree_ok l bp -> l !! c = Some n -> exists tn, l !! target l c = Some tn /\ n_hardTo tn = None.
Proof.
  intros Ht Hn. unfold target. rewrite Hn. destruct (n_hardTo n) as [t|] eqn:Hh; cbn; [|by exists n].
  destruct (links_ok _ _ Ht _ _ _ Hn Hh) as (tn & ? & ? & _). by exists tn.
Qed.

Lemma target_canonical l bp c n w : tree_ok l bp -> w_nodes w = l -> l !! c = Some n -> canonical c w = Ok (target l c).
Proof. intros Ht Hw Hn. unfold target. rewrite Hn. by eapply canonical_spec. Qed.

Lemma dir_entries_spec w bp i n :
  tree_ok (w_nodes w) bp -> w_nodes w !! i = Some n -> isDir n = true -> n_hardTo n = None ->
  exists es, dir_entries i w = Ok es /\ dir_list (w_nodes w) i es.
Proof.
  intros Ht Hn Hd Hh. set (l := w_nodes w) in *.
  destruct (proj2 (dirs_ok _ _ Ht _ _ Hn) (conj Hd Hh)) as [ch Hch].
  assert (exists pn, l !! default i (n_parent n) = Some pn) as [pn Hpn].
  { destruct (decide (i = 0)) as [->|Hi].
    - destruct (root_ok _ _ Ht) as (r & Hr & Hr' & _). simplify_eq. rewrite Hr'. by exists n.
    - destruct (parent_ok _ _ Ht _ _ Hi Hn) as (p & -> & Hlt & _). cbn. apply lookup_lt_is_Some_2.
      apply lookup_lt_Some in Hn. lia. }
  assert (forall x c, ch !! x = Some c <-> child l i x = Some c) as Hchild.
  { intros x c. unfold child. rewrite Hn. cbn. by rewrite Hch. }
  assert (forall x c, ch !! x = Some c -> exists m, l !! c = Some m /\ dir_name x) as Hkid.
  { intros x c Hx. apply Hchild in Hx as Hc. destruct (child_ok _ _ Ht _ _ _ Hc) as (m & Hm & _ & <-).
    exists m. split; [done|]. apply (names_ok _ _ Ht c); [|done]. pose proof (child_lt _ _ _ _ _ Ht Hc). lia. }
  assert (mapM_result (child_dirent w) (map_to_list ch) = Ok (child_entry l <$> map_to_list ch)) as Hmap.
  { apply mapM_result_ok. intros [x c] Hx%elem_of_map_to_list. destruct (Hkid _ _ Hx) as (m & Hm & _).
    unfold child_dirent. cbn [fst snd]. rewrite (target_canonical l bp c m) by done.
    destruct (target_valid _ _ _ _ Ht Hm) as (tn & Htn & _). unfold get_node. fold l.
    cbn [mbind result_bind]. unfold child_entry. cbn [fst snd]. by rewrite Htn. }
  eexists. split.
  - unfold dir_entries, get_node. fold l. rewrite Hn. cbn [deref mbind result_bind]. rewrite Hpn.
    cbn [deref mbind result_bind]. rewrite Hch. cbn [from_option id]. rewrite Hmap. reflexivity.
  - assert (n_nid n = nid_of l i /\ n_nid pn = nid_of l (default i (n_parent n))) as [-> ->].
    { unfold nid_of. by rewrite Hn, Hpn. }
    split.
    + intros e. rewrite merge_sort_Permutation, !elem_of_cons, list_elem_of_fmap. unfold listed.
      split; [intros [->|[->|([x c] & -> & Hx%elem_of_map_to_list)]]|intros [->|[(n' & Hn' & ->)|(x & c & tn & Hx & Htn & ->)]]].
      * by left.
      * right. left. by exists n.
      * right. right. destruct (Hkid _ _ Hx) as (m & Hm & _). destruct (target_valid _ _ _ _ Ht Hm) as (tn & Htn & _).
        exists x, c, tn. split; [by apply Hchild|]. split; [done|]. unfold child_entry. cbn [fst snd]. by rewrite Htn.
      * by left.
      * simplify_eq. by right; left.
      * right. right. exists (x, c). split; [unfold child_entry; cbn [fst snd]; by rewrite Htn|].
        by apply elem_of_map_to_list, Hchild.
    + rewrite merge_sort_Permutation. cbn.
      assert (d_name <$> (child_entry l <$> map_to_list ch) = (map_to_list ch).*1) as ->.
      { rewrite <-list_fmap_compose. apply list_fmap_ext. intros k [x c] _. cbn. unfold child_entry. by case_match. }
      assert (forall x, x ∈ (map_to_list ch).*1 -> plain x) as Hpl.
      { intros x ([x' c] & -> & Hx%elem_of_map_to_list)%list_elem_of_fmap. by destruct (Hkid _ _ Hx) as (m & _ & ? & _). }
      constructor; [|constructor; [|apply NoDup_fst_map_to_list]].
      * rewrite elem_of_cons. intros [?|(_ & H & _)%Hpl]; done.
      * by intros (_ & _ & H & _)%Hpl.
    + change (fun a b => str_le (d_name a) (d_name b)) with name_le. apply (Sorted_merge_sort name_le).
Qed.

(** ** Writing the directories *)

(** What directory listings depend on. *)
Definition nsame (l l' : list node) : Prop := (fun n => (shape n, n_nid n)) <$> l = (fun n => (shape n, n_nid n)) <$> l'.

Lemma nsame_shape l l' : nsame l l' -> same_shape l l'.
Proof.
  intros H. unfold same_shape, nsame in *. apply (f_equal (fmap fst)) in H. by rewrite <-!list_fmap_compose in H.
Qed.

Lemma nsame_lookup l l' i n :
  nsame l l' -> l !! i = Some n -> exists n', l' !! i = Some n' /\ shape n' = shape n /\ n_nid n' = n_nid n.
Proof.
  intros H Hn. apply (f_equal (.!! i)) in H. rewrite !list_lookup_fmap, Hn in H.
  destruct (l' !! i) as [n'|]; [|done]. apply (inj Some) in H. exists n'. split; [done|].
  split; [exact (f_equal fst (eq_sym H))|exact (f_equal snd (eq_sym H))].
Qed.

Lemma nsame_sym l l' : nsame l l' -> nsame l' l.
Proof. done. Qed.

Lemma nsame_nid_of l l' i : nsame l l' -> nid_of l i = nid_of l' i.
Proof.
  intros H. unfold nid_of. destruct (l !! i) as [n|] eqn:Hn.
  - by destruct (nsame_lookup _ _ _ _ H Hn) as (n' & -> & _ & ->).
  - destruct (l' !! i) as [n'|] eqn:Hn'; [|done]. apply nsame_sym in H.
    destruct (nsame_lookup _ _ _ _ H Hn') as (? & ? & _). congruence.
Qed.

Lemma nsame_target l l' i : nsame l l' -> target l i = target l' i.
Proof.
  intros H. unfold target. destruct (l !! i) as [n|] eqn:Hn.
  - destruct (nsame_lookup _ _ _ _ H Hn) as (n' & -> & (_ & _ & _ & _ & -> & _)%shape_fields & _). done.
  - destruct (l' !! i) as [n'|] eqn:Hn'; [|done]. apply nsame_sym in H.
    destruct (nsame_lookup _ _ _ _ H Hn') as (? & ? & _). congruence.
Qed.

Lemma nsame_listed l l' i e : nsame l l' -> listed l i e -> listed l' i e.
Proof.
  intros H [->|[(n & Hn & ->)|(x & c & tn & Hc & Htn & ->)]].
  - left. by rewrite (nsame_nid_of _ _ _ H).
  - right. left. destruct (nsame_lookup _ _ _ _ H Hn) as (n' & Hn' & (_ & E & _)%shape_fields & _).
    exists n'. split; [done|]. by rewrite E, (nsame_nid_of _ _ _ H).
  - right. right. rewrite (nsame_target _ _ _ H) in Htn.
    destruct (nsame_lookup _ _ _ _ H Htn) as (tn' & Htn' & (_ & _ & _ & E1 & _)%shape_fields & E2).
    exists x, c, tn'. rewrite E1, E2. split; [|done]. by rewrite <-(same_shape_child _ _ _ _ (nsame_shape _ _ H)).
Qed.

Lemma nsame_dir_list l l' i es : nsame l l' -> dir_list l i es -> dir_list l' i es.
Proof.
  intros H [D1 D2 D3]. split; [|done..]. intros e. rewrite D1. split; apply nsame_listed; [done|by apply nsame_sym].
Qed.

Lemma nsame_alter i f l : (forall n, shape (f n) = shape n /\ n_nid (f n) = n_nid n) -> nsame l (alter f i l).
Proof.
  intros Hf. apply list_eq. intros j. rewrite !list_lookup_fmap. destruct (decide (j = i)) as [->|].
  - rewrite list_lookup_alter_eq. destruct (l !! i) as [n|]; cbn; [|done]. by destruct (Hf n) as [-> ->].
  - by rewrite list_lookup_alter_ne.
Qed.

(** Names, nids and types of a listing are as [ErofsDirs] needs them. *)
Definition nids_ok (l : list node) : Prop :=
  forall i n, l !! i = Some n -> n_hardTo n = None -> (0 <= n_nid n < u64max)%Z.
Definition ftypes_ok (l : list node) : Prop :=
  forall i n, l !! i = Some n -> n_hardTo n = None -> (0 <= n_ftype n < u8max)%Z.

Lemma nid_of_ok l i : nids_ok l -> canon l i -> (0 <= nid_of l i < u64max)%Z.
Proof. intros H (n & Hn & Hh). unfold nid_of. rewrite Hn. by eapply H. Qed.

Lemma blockSize_large : 12 + 255 <= blockSize.
Proof. pose proof blockSize_Z. lia. Qed.

Lemma canon_parent l bp i n : tree_ok l bp -> canon l i -> l !! i = Some n -> canon l (default i (n_parent n)).
Proof.
  intros Ht Hc Hn. destruct (decide (i = 0)) as [->|Hi].
  - destruct (root_ok _ _ Ht) as (r & Hr & Hr' & _). simplify_eq. by rewrite Hr'.
  - destruct (parent_ok _ _ Ht _ _ Hi Hn) as (p & -> & _ & Hch). cbn. unfold child in Hch.
    destruct (l !! p) as [pn|] eqn:Hp; [|done]. cbn in Hch. destruct (n_children pn) eqn:E; [|done].
    exists pn. split; [done|]. by apply (dirs_ok _ _ Ht _ _ Hp).
Qed.

Lemma dir_list_entries l bp i es :
  tree_ok l bp -> nids_ok l -> ftypes_ok l -> canon l i -> dir_list l i es ->
  Forall dirent_ok es /\ Forall (fun e => 12 + String.length (d_name e) <= blockSize) es.
Proof.
  intros Ht Hnid Hft Hc [Hel _ _]. rewrite !Forall_forall. pose proof blockSize_large.
  assert (forall e, e ∈ es -> dirent_ok e /\ String.length (d_name e) <= 255) as Hall; [|split; intros e He; destruct (Hall e He); [done|lia]].
  intros e [->|[(n & Hn & ->)|(x & c & tn & Hx & Htn & ->)]]%Hel.
  - split; [|cbn; lia]. split; cbn; [by apply nid_of_ok|done|done].
  - split; [|cbn; lia]. split; cbn; [apply nid_of_ok; [done|by eapply canon_parent]|done|done].
  - destruct (child_ok _ _ Ht _ _ _ Hx) as (m & Hm & _ & <-). pose proof (child_lt _ _ _ _ _ Ht Hx).
    destruct (names_ok _ _ Ht c m ltac:(lia) Hm) as [[_ Hnul] Hlen].
    destruct (target_valid _ _ _ _ Ht Hm) as (tn' & Htn' & Hh). simplify_eq.
    split; [|done]. split; cbn; [by eapply Hnid|by eapply Hft|done].
Qed.

(** The padded blocks land where they should. *)
Lemma write_blocks_spec blocks : forall w w' total,
  Forall (fun b => length b <= blockSize) blocks -> raw_ok w -> write_blocks blocks w = Ok (w', total) ->
  raw_ok w' /\ keeps w w' /\ same_meta w w' /\ w_nextBlk w' = w_nextBlk w /\
  w_pos w' = w_pos w + length (join_blocks blocks) /\ total = Z.of_nat (length (join_blocks blocks)) /\
  slice (w_pos w) (length (join_blocks blocks)) (w_out w') = join_blocks blocks.
Proof.
  induction blocks as [|b blocks IH]; intros w w' total Hlen Hr H; cbn [write_blocks] in H.
  { injection H as <- <-. split_and!; done || (cbn; lia). }
  apply Forall_cons in Hlen as [Hb Hlen]. ok_inv H. apply out_write_spec in Hc as (R1 & R2 & R3 & R4 & R5 & R6); [|done].
  destruct blocks as [|b' blocks].
  { injection H as <- <-. by split_and!. }
  ok_inv H. apply out_write_spec in Hc as (S1 & S2 & S3 & S4 & S5 & S6); [|done]. destruct a1 as [w2 t].
  apply IH in Hc0 as (T1 & T2 & T3 & T4 & T5 & T6 & T7); [|done..]. injection H as <- <-.
  rewrite length_replicate in *.
  change (join_blocks (b :: b' :: blocks)) with
    (b ++ replicate (blockSize - length b) 0%Z ++ join_blocks (b' :: blocks)).
  set (rest := join_blocks (b' :: blocks)) in *. pose proof (raw_low _ Hr) as Hlow. pose proof blockSize_Z.
  destruct S2 as [S2 S2'], T2 as [T2 T2'].
  split; [done|]. split; [eapply keeps_trans; [exact R2|]; by eapply keeps_trans; split|].
  split; [eapply same_meta_trans; [exact R3|]; by eapply same_meta_trans|]. split; [congruence|].
  rewrite !length_app, length_replicate. split; [lia|]. split; [lia|].
  rewrite !slice_split. f_equal; [|f_equal].
  - rewrite T2', S2' by lia. done.
  - rewrite T2' by lia. by rewrite <-R5.
  - by rewrite <-R5, <-S5.
Qed.

Lemma write_blocks_total blocks w c : write_blocks blocks w <> Crash c.
Proof.
  revert w. induction blocks as [|b blocks IH]; intros w; cbn [write_blocks]; [done|].
  destruct (out_write b w) as [w1| |] eqn:E; cbn [mbind result_bind]; [|done|by apply out_write_total in E].
  destruct blocks as [|b' blocks]; [done|].
  destruct (out_write _ w1) as [w2| |] eqn:E2; cbn [mbind result_bind]; [|done|by apply out_write_total in E2].
  destruct (write_blocks _ w2) as [[w3 t]| |] eqn:E3; cbn; [done|done|intros [= ->]; by apply (IH w2)].
Qed.

(** The bytes of a directory: its listing, packed. *)
Definition dir_data (l : list node) (i : nat) (bs : bytes) : Prop :=
  exists es blocks, dir_list l i es /\ pack (length es) es = Ok blocks /\ bs = join_blocks blocks /\
    read_dir (S (length bs)) bs = es.

(** What [write_dir] does at the node [n] of index [i]. *)
Definition dir_written (l : list node) (i : nat) (n : node) (w w' : writer) : Prop :=
  if isDir n then exists size blk bs, w_nodes w' = alter (set_data size blk) i (w_nodes w) /\
    dir_data l i bs /\ holds w' (set_data size blk n) bs
  else w' = w.

Lemma write_dir_spec l bp w i n :
  tree_ok l bp -> nids_ok l -> ftypes_ok l -> nsame l (w_nodes w) -> out_ok w -> canon l i -> w_nodes w !! i = Some n ->
  match write_dir i w with
  | Ok w' => out_ok w' /\ keeps w w' /\ w_limit w' = w_limit w /\ w_byPath w' = w_byPath w /\ dir_written l i n w w'
  | Err _ => True
  | Crash _ => False
  end.
Proof.
  intros Ht Hnid Hft Hs Ho Hc Hn. unfold write_dir, get_node, dir_written. rewrite Hn. cbn [deref mbind result_bind].
  destruct (isDir n) eqn:Hd; [|by split_and!].
  assert (n_hardTo n = None) as Hh.
  { destruct (same_shape_canon _ _ _ (nsame_shape _ _ Hs) Hc) as (n' & Hn' & ?). congruence. }
  pose proof (tree_ok_shape _ _ _ (nsame_shape _ _ Hs) Ht) as Ht'.
  destruct (dir_entries_spec w bp i n Ht' Hn Hd Hh) as (es & He & Hl). unfold writeOneDir. rewrite He. cbn [mbind result_bind].
  apply (nsame_dir_list _ l) in Hl; [|by apply nsame_sym].
  destruct (dir_list_entries l bp i es Ht Hnid Hft Hc Hl) as [Hok Hlen].
  destruct (read_dir_pack es Hok Hlen) as (blocks & Hp & Hbl & Hread). rewrite Hp. cbn [mbind result_bind].
  destruct (write_blocks blocks w) as [[w1 total]| |] eqn:Hw; cbn [mbind result_bind]; [|done|by apply write_blocks_total in Hw].
  destruct (write_blocks_spec _ _ _ _ Hbl (out_raw _ Ho) Hw) as (R1 & R2 & (R3 & R4 & R5 & R6) & R7 & R8 & -> & R10).
  destruct (padToBlock _ _) as [w'| |] eqn:Hpad; [|done|by apply padToBlock_total in Hpad].
  pose proof (out_pos _ Ho) as Hpos. set (bs := join_blocks blocks) in *.
  apply padToBlock_spec in Hpad; [|by apply raw_ok_upd|lia|cbn; lia|cbn; lia].
  destruct Hpad as (S1 & S2 & (S3 & S4 & S5 & S6) & S7). cbn in S3, S5, S6. destruct S2 as [S2 S2']. cbn in S2, S2'.
  split; [done|]. split; [eapply keeps_trans; [exact R2|by split]|]. split; [congruence|]. split; [congruence|].
  exists (Z.of_nat (length bs)), (w_nextBlk w), bs. split; [congruence|]. split; [by exists es, blocks|].
  pose proof (next_block_range w (out_raw _ Ho) ltac:(lia) ltac:(lia)). pose proof (raw_low _ (out_raw _ Ho)).
  unfold holds. cbn [set_data n_size n_blkaddr]. replace (Z.to_nat (w_nextBlk w * 4096)) with (w_pos w) by lia.
  split; [done|]. split; [lia|]. split; [intros _; lia|]. by rewrite S2' by lia.
Qed.

Lemma dir_written_nodes l i n w w' :
  dir_written l i n w w' -> nsame (w_nodes w) (w_nodes w') /\ forall j, j <> i -> w_nodes w' !! j = w_nodes w !! j.
Proof.
  unfold dir_written. destruct (isDir n); [intros (size & blk & bs & -> & _)|by intros ->].
  split; [by apply nsame_alter|]. intros j Hj. by rewrite list_lookup_alter_ne.
Qed.

(** The node of a written directory, or the untouched node. *)
Definition dir_final (l : list node) (i : nat) (n : node) (w' : writer) : Prop :=
  if isDir n then exists size blk bs, w_nodes w' !! i = Some (set_data size blk n) /\ dir_data l i bs /\
    holds w' (set_data size blk n) bs
  else w_nodes w' !! i = Some n.

Lemma write_dirs_fold l bp o : forall w,
  tree_ok l bp -> nids_ok l -> ftypes_ok l -> nsame l (w_nodes w) -> out_ok w -> NoDup o -> (forall i, i ∈ o -> canon l i) ->
  match foldM write_dir o w with
  | Ok w' => out_ok w' /\ keeps w w' /\ w_limit w' = w_limit w /\ nsame l (w_nodes w') /\
      (forall i, i ∉ o -> w_nodes w' !! i = w_nodes w !! i) /\
      (forall i n, i ∈ o -> w_nodes w !! i = Some n -> dir_final l i n w')
  | Err _ => True
  | Crash _ => False
  end.
Proof.
  induction o as [|i o IH]; intros w Ht Hnid Hft Hs Ho Hnd Hc; cbn [foldM].
  { split_and!; try done. intros i n Hi. by apply not_elem_of_nil in Hi. }
  apply NoDup_cons in Hnd as [Hi Hnd]. assert (canon l i) as Hci by (apply Hc; by left).
  destruct Hci as (n0 & Hn0 & Hh0). destruct (nsame_lookup _ _ _ _ Hs Hn0) as (n & Hn & _).
  pose proof (write_dir_spec l bp w i n Ht Hnid Hft Hs Ho ltac:(by exists n0) Hn) as Hw.
  destruct (write_dir i w) as [w1| |]; [|done|done]. cbn [mbind result_bind].
  destruct Hw as (Ho1 & Hk1 & Hl1 & Hb1 & Hd1). destruct (dir_written_nodes _ _ _ _ _ Hd1) as [Hs1 Hne1].
  assert (nsame l (w_nodes w1)) as Hs1' by (unfold nsame in *; congruence).
  specialize (IH w1 Ht Hnid Hft Hs1' Ho1 Hnd ltac:(intros j Hj; apply Hc; by right)).
  destruct (foldM write_dir o w1) as [w'| |]; [|done|done]. destruct IH as (Ho2 & Hk2 & Hl2 & Hs2 & Hne2 & Hd2).
  split; [done|]. split; [by eapply keeps_trans|]. split; [congruence|]. split; [done|]. split.
  - intros j Hj. rewrite Hne2 by set_solver. apply Hne1. set_solver.
  - intros j m Hj Hm. destruct (decide (j = i)) as [->|Hji].
    + assert (m = n) as -> by congruence. unfold dir_written in Hd1. unfold dir_final.
      destruct (isDir n); [|rewrite Hne2 by done; congruence].
      destruct Hd1 as (size & blk & bs & E & Hdd & Hh). exists size, blk, bs.
      rewrite Hne2 by done. rewrite E, list_lookup_alter_eq, Hn. split; [done|]. split; [done|].
      by eapply holds_keeps; [exact Hk2|..].
    + apply Hd2; [set_solver|]. by rewrite Hne1.
Qed.

Lemma out_write_nodes bs w w' : out_write bs w = Ok w' -> w_nodes w' = w_nodes w.
Proof. unfold out_write. case_bool_decide; [|done]. by intros [= <-]. Qed.

Lemma padToBlock_nodes size w w' : padToBlock size w = Ok w' -> w_nodes w' = w_nodes w.
Proof.
  unfold padToBlock. intros H. ok_inv H. injection H as <-. cbn. case_bool_decide; [by eapply out_write_nodes|].
  by injection Hc as <-.
Qed.

Lemma write_blocks_nodes blocks : forall w w' total, write_blocks blocks w = Ok (w', total) -> w_nodes w' = w_nodes w.
Proof.
  induction blocks as [|b blocks IH]; intros w w' total H; cbn [write_blocks] in H; [by injection H as <- _|].
  ok_inv H. apply out_write_nodes in Hc. destruct blocks; [injection H as <- _; done|].
  ok_inv H. destruct a1 as [w2 t]. injection H as <- _. apply out_write_nodes in Hc0. apply IH in Hc1. congruence.
Qed.

Lemma writeDirBlocks_spec bp w :
  tree_ok (w_nodes w) bp -> nids_ok (w_nodes w) -> ftypes_ok (w_nodes w) -> out_ok w ->
  match writeDirBlocks w with
  | Ok w' => out_ok w' /\ keeps w w' /\ w_limit w' = w_limit w /\ nsame (w_nodes w) (w_nodes w') /\
      (forall i n, canon (w_nodes w) i -> w_nodes w !! i = Some n -> dir_final (w_nodes w) i n w')
  | Err _ => True
  | Crash _ => False
  end.
Proof.
  intros Ht Hnid Hft Ho. unfold writeDirBlocks.
  rewrite (walk_fold id write_dir (fun s => nsame (w_nodes w) (w_nodes s)) (w_nodes w) bp); [|done|done| | |done].
  - destruct (order_spec _ _ Ht) as (_ & Hnd & Hel & _).
    pose proof (write_dirs_fold (w_nodes w) bp (order (w_nodes w)) w Ht Hnid Hft eq_refl Ho Hnd) as Hw.
    destruct (foldM _ _ w) as [w'| |]; [| done|apply Hw; intros i Hi; by apply Hel].
    destruct Hw as (H1 & H2 & H3 & H4 & _ & H5); [intros i Hi; by apply Hel|].
    split_and!; try done. intros i n Hc. by apply H5, Hel.
  - intros s i Hs. symmetry. by apply same_shape_kids, nsame_shape.
  - intros i s s' Hs Hw. unfold write_dir, writeOneDir in Hw. ok_inv Hw. destruct (isDir a); [|by injection Hw as <-].
    ok_inv Hw. destruct a2 as [w2 total]. apply padToBlock_nodes in Hw. apply write_blocks_nodes in Hc2.
    rewrite Hw. cbn. rewrite Hc2. unfold nsame in *. rewrite Hs. by apply nsame_alter.
Qed.

(** ** Writing the inodes *)

Lemma write_inode_fold o : forall w inos written,
  raw_ok w -> (forall i, i ∈ o -> is_Some (w_nodes w !! i)) ->
  match foldM write_inode o (w, inos, written) with
  | Ok (w', inos', written') => raw_ok w' /\ keeps w w' /\ same_meta w w' /\ w_nextBlk w' = w_nextBlk w /\
      w_pos w' = w_pos w + 64 * length o /\ written' = (written + 64 * Z.of_nat (length o))%Z /\
      (forall k i n, o !! k = Some i -> w_nodes w !! i = Some n ->
         slice (w_pos w + 64 * k) 64 (w_out w') = inode_bytes n)
  | Err _ => True
  | Crash _ => False
  end.
Proof.
  induction o as [|i o IH]; intros w inos written Hr Hi; cbn [foldM].
  { split_and!; try done; cbn; lia. }
  destruct (Hi i ltac:(by left)) as [n Hn]. assert (write_inode i (w, inos, written) =
    (w ← out_write (inode_bytes n) w; Ok (w, u64 (inos + 1), (written + 64)%Z))) as ->.
  { unfold write_inode, get_node. by rewrite Hn. }
  destruct (out_write (inode_bytes n) w) as [w1| |] eqn:Hw; [|done|by apply out_write_total in Hw]. cbn [mbind result_bind].
  apply out_write_spec in Hw as (R1 & R2 & R3 & R4 & R5 & R6); [|done].
  assert (length (inode_bytes n) = 64) as Hlen.
  { unfold inode_bytes. by rewrite !length_app, !length_le_bytes, length_replicate. }
  rewrite Hlen in *. destruct R3 as (R31 & R32 & R33 & R34).
  specialize (IH w1 (u64 (inos + 1)) (written + 64)%Z R1 ltac:(intros j Hj; rewrite R33; apply Hi; by right)).
  destruct (foldM write_inode o _) as [[[w' inos'] written']| |]; [|done|done].
  destruct IH as (S1 & S2 & (S31 & S32 & S33 & S34) & S4 & S5 & S6 & S7). pose proof (raw_low _ Hr).
  split; [done|]. split; [by eapply keeps_trans|]. split; [split_and!; congruence|]. split; [congruence|].
  cbn [length]. split; [lia|]. split; [lia|]. intros [|k] j m Hk Hm; cbn in Hk.
  - injection Hk as <-. destruct S2 as [S2 S2']. rewrite Nat.mul_0_r, Nat.add_0_r, S2' by lia. congruence.
  - replace (w_pos w + 64 * S k) with (w_pos w1 + 64 * k) by lia. apply (S7 k j m); [done|congruence].
Qed.

(** The inode table: 64 bytes of padding, then one inode per position of the
    order. *)
Lemma writeInodes_spec bp w :
  tree_ok (w_nodes w) bp -> out_ok w ->
  match writeInodes w with
  | Ok (w', meta, inos) => out_ok w' /\ keeps w w' /\ w_nodes w' = w_nodes w /\ w_limit w' = w_limit w /\
      meta = w_nextBlk w /\ w_pos w + 64 * S (length (order (w_nodes w))) <= w_pos w' /\
      (forall k i n, order (w_nodes w) !! k = Some i -> w_nodes w !! i = Some n ->
         slice (w_pos w + 64 * S k) 64 (w_out w') = inode_bytes n)
  | Err _ => True
  | Crash _ => False
  end.
Proof.
  intros Ht Ho. unfold writeInodes.
  destruct (out_write _ w) as [w1| |] eqn:Hw; cbn [mbind result_bind]; [|done|by apply out_write_total in Hw].
  apply out_write_spec in Hw as (R1 & R2 & (R31 & R32 & R33 & R34) & R4 & R5 & _); [|apply Ho]. rewrite length_replicate in R5.
  rewrite (walk_fold _ write_inode (fun s => w_nodes s.1.1 = w_nodes w) (w_nodes w) bp); cbn [fst]; [|done|by rewrite R33| | |done].
  2: { intros [[s ?] ?] i Hs. cbn in *. by rewrite Hs. }
  2: { intros i [[s ?] ?] s' Hs. unfold write_inode. cbn in Hs. intros H. ok_inv H. injection H as <-. cbn.
       apply out_write_nodes in Hc0. congruence. }
  destruct (order_spec _ _ Ht) as (_ & _ & Hel & _).
  pose proof (write_inode_fold (order (w_nodes w)) w1 0 64 R1) as Hf.
  assert (forall i, i ∈ order (w_nodes w) -> is_Some (w_nodes w1 !! i)) as Hall.
  { intros i (n & Hn & _)%Hel. rewrite R33. by exists n. }
  specialize (Hf Hall). destruct (foldM write_inode _ _) as [[[w2 inos] written]| |]; [|done|done].
  cbn [mbind result_bind]. destruct Hf as (S1 & S2 & (S31 & S32 & S33 & S34) & S4 & S5 & -> & S7).
  pose proof (out_pos _ Ho) as Hpos.
  destruct (padToBlock _ w2) as [w3| |] eqn:Hpad; cbn [mbind result_bind]; [|done|by apply padToBlock_total in Hpad].
  apply padToBlock_spec in Hpad; [|done|lia|lia|lia]. destruct Hpad as (T1 & T2 & (T31 & T32 & T33 & T34) & T4).
  pose proof (raw_low _ (out_raw _ Ho)). pose proof T2 as [T2' T2''].
  split; [done|]. split; [eapply keeps_trans; [exact R2|]; by eapply keeps_trans|]. split; [congruence|].
  split; [congruence|]. split; [done|]. split; [lia|]. intros k i n Hk Hn.
  assert (k < length (order (w_nodes w))) by (by apply lookup_lt_Some in Hk).
  replace (w_pos w + 64 * S k) with (w_pos w1 + 64 * k) by lia. rewrite T2'' by lia.
  apply (S7 k i n); [done|congruence].
Qed.

(** The superblock goes into block 0. *)
Lemma writeSuperblock_spec meta inos w root :
  out_ok w -> blockSize < w_pos w -> w_nodes w !! 0 = Some root ->
  exists w', writeSuperblock meta inos w = Ok w' /\
    (forall off len, blockSize <= off -> slice off len (w_out w') = slice off len (w_out w)) /\
    slice superOffset 128 (w_out w') = super_bytes w meta inos (n_nid root).
Proof.
  intros [[H1 H2 H3 H4 H5] Hp] Hpos Hroot. unfold writeSuperblock, get_node. rewrite Hroot. cbn [deref mbind result_bind].
  assert (length (super_bytes w meta inos (n_nid root)) = 128) as Hlen.
  { unfold super_bytes. by rewrite !length_app, !length_le_bytes, !length_replicate, !length_bytes_of_string. }
  pose proof blockSize_Z. assert (superOffset + 128 <= blockSize) as Hs by (apply Nat2Z.inj_le; done).
  unfold out_write. cbn [out_seek w_pos w_limit w_out]. rewrite bool_decide_true by lia. eexists. split; [done|].
  cbn [w_out]. split.
  - intros off len Ho. apply write_at_after; [rewrite Hlen; lia|lia].
  - rewrite <-Hlen. apply write_at_same. lia.
Qed.

(** ** The image *)

(** The inode the reader sees for a node. *)
Definition inode_view (n : node) : inode :=
  Inode 1 (u16 (n_mode n)) (u64 (n_size n))
    (u32 (if bool_decide (n_ftype n = ftChardev \/ n_ftype n = ftBlkdev) then n_rdev n else n_blkaddr n))
    (u32 (n_ino n)) (u32 (n_uid n)) (u32 (n_gid n)) (u64 (n_mtime n)) (u32 (n_nlink n)).

(** The node's size and block give [bs] in the image. *)
Definition holds_img (img : bytes) (n : node) (bs : bytes) : Prop :=
  n_size n = Z.of_nat (length bs) /\ (0 <= n_blkaddr n < u32max)%Z /\ (Z.of_nat (length bs) < u64max)%Z /\
  slice (Z.to_nat (n_blkaddr n * 4096)) (length bs) img = bs.

(** [img] is the image of the numbered tree [l]. *)
Record image_of (l : list node) (img : bytes) (meta : Z) : Prop := {
  im_super : exists sb, read_super img = Some sb /\ s_meta sb = meta /\ s_root sb = nid_of l 0;
  im_inode : forall i n, l !! i = Some n -> n_hardTo n = None -> read_inode img meta (n_nid n) = inode_view n;
  im_dir : forall i n, l !! i = Some n -> n_hardTo n = None -> isDir n = true ->
    exists bs, dir_data l i bs /\ holds_img img n bs
}.

Lemma read_inode_spec img meta nid n :
  slice (inode_off meta nid) 64 img = inode_bytes n -> read_inode img meta nid = inode_view n.
Proof.
  intros H. unfold read_inode, inode_view. cbn zeta.
  assert (forall o k, o + k <= 64 -> read_le (inode_off meta nid + o) k img = read_le o k (inode_bytes n)) as Hr.
  { intros o k Hok. rewrite <-H. by apply read_le_slice. }
  pose proof (Hr 0 2 ltac:(lia)) as H0. rewrite Nat.add_0_r in H0. rewrite H0, !Hr by lia. unfold inode_bytes.
  f_equal; read_field; try done; apply Z.mod_mod; lia.
Qed.

Lemma read_super_spec img w meta inos nid :
  slice superOffset 128 img = super_bytes w meta inos nid -> (0 <= meta < u32max)%Z ->
  exists sb, read_super img = Some sb /\ s_meta sb = meta /\ s_root sb = u16 nid.
Proof.
  intros H Hm. unfold read_super.
  assert (forall o k, o + k <= 128 -> read_le (superOffset + o) k img = read_le o k (super_bytes w meta inos nid)) as Hr.
  { intros o k Hok. rewrite <-H. by apply read_le_slice. }
  pose proof (Hr 0 4 ltac:(lia)) as H0. rewrite Nat.add_0_r in H0. rewrite H0, !Hr by lia.
  assert (read_le 0 4 (super_bytes w meta inos nid) = magic) as -> by (unfold super_bytes; by read_field).
  assert (read_le 12 1 (super_bytes w meta inos nid) = 12%Z) as ->.
  { unfold super_bytes. change ([12; 0]%Z ++ ?t) with (le_bytes 1 12 ++ 0%Z :: t). by read_field. }
  rewrite bool_decide_true by done. eexists. split; [done|]. cbn [s_meta s_root]. split.
  - unfold super_bytes. read_field. by apply Z.mod_small.
  - unfold super_bytes. read_field. unfold u16. apply Z.mod_mod. lia.
Qed.

Lemma read_data_view img n bs :
  holds_img img n bs -> n_ftype n <> ftChardev -> n_ftype n <> ftBlkdev -> read_data img (inode_view n) = bs.
Proof.
  intros (H1 & H2 & H3 & H4) Hc Hb. unfold read_data, inode_view. cbn [i_u i_size].
  rewrite bool_decide_false by naive_solver. rewrite u32_small by done. rewrite H1, u64_small by lia.
  by rewrite Nat2Z.id.
Qed.

Lemma holds_to_img w img n bs :
  raw_ok w -> holds w n bs ->
  (forall off len, blockSize <= off -> off + len <= w_pos w -> slice off len img = slice off len (w_out w)) ->
  holds_img img n bs.
Proof.
  intros Hr (H1 & H2 & H3 & H4) Hk. split; [done|]. split; [done|].
  destruct Hr as [R1 R2 R3 R4 R5]. unfold size_limit in R5. pose proof blockSize_Z.
  destruct bs as [|b bs]; [done|]. destruct H3 as [H3 H3']; [done|]. split; [lia|]. by rewrite Hk.
Qed.

(** ** The metadata passes together *)

Definition finish (w : writer) : result string bytes :=
  w ← assignNids w;
  w ← writeDirBlocks w;
  '(w, metaBlk, inos) ← writeInodes w;
  w ← writeSuperblock metaBlk inos w;
  Ok (w_out w).

(** What the passes keep of a canonical node. *)
Definition core (n : node) := (n_mode n, n_uid n, n_gid n, n_mtime n, n_rdev n, n_ftype n, n_nlink n).
Definition kept (n n' : node) : Prop :=
  core n' = core n /\ n_hardTo n' = n_hardTo n /\
  (isDir n = false -> n_size n' = n_size n /\ n_blkaddr n' = n_blkaddr n).

Lemma core_isDir n n' : core n' = core n -> isDir n' = isDir n.
Proof. intros H. unfold core in H. injection H as E1 E2 E3 E4 E5 E6 E7. unfold isDir. by rewrite E6. Qed.

Lemma same_shape_order l l' : same_shape l l' -> order l = order l'.
Proof.
  intros H. unfold order. rewrite (same_shape_length _ _ H). f_equal. generalize (length l') [0].
  induction n as [|fuel IH]; intros [|x q]; try done. cbn. by rewrite (same_shape_kids _ _ _ H), IH.
Qed.

Lemma node_cases es w i n :
  built es w -> w_nodes w !! i = Some n ->
  (exists e, e ∈ es /\ descend (w_nodes w) 0 (entry_path e) = Some i /\ described es w e n) \/ implicit n.
Proof.
  intros Hb Hn. destruct (descend_complete _ _ i (b_tree _ _ Hb) (lookup_lt_Some _ _ _ Hn)) as [p Hp].
  destruct (decide (Exists (fun e => entry_path e = p) es)) as [(e & He & <-)%Exists_exists|Hno].
  - left. destruct (b_entry _ _ Hb e He) as (j & m & Hj & Hm & Hd). exists e.
    assert (j = i) as -> by congruence. assert (m = n) as -> by congruence. done.
  - right. apply (b_implicit _ _ Hb p i n Hp Hn). intros e He E. apply Hno, Exists_exists. by exists e.
Qed.

Lemma built_ftypes es w : built es w -> ftypes_ok (w_nodes w).
Proof.
  intros Hb i n Hn Hh. destruct (node_cases _ _ _ _ Hb Hn) as [(e & _ & _ & Hd)|(x & pa & E)].
  - unfold described in Hd. destruct (kind_of (h_Typeflag e.1)) as [[mode ft]|] eqn:Hk.
    + destruct Hd as (_ & -> & _). by destruct (h_Typeflag e.1); injection Hk as <- <- || discriminate Hk.
    + destruct Hd as (? & ? & ? & ? & ? & ? & ? & ?). congruence.
  - assert (n_ftype n = ftDir) as ->; [|done]. unfold data in E. by injection E as E1 E2 E3 E4 E5 E6 E7 E8 E9 E10 E11.
Qed.

Lemma ftypes_shape l l' : same_shape l l' -> ftypes_ok l -> ftypes_ok l'.
Proof.
  intros H Hf i n Hn Hh. destruct (same_shape_lookup _ _ _ _ (same_shape_sym _ _ H) Hn) as (n0 & Hn0 & E%shape_fields).
  destruct E as (_ & _ & _ & <- & E & _). apply (Hf i n0 Hn0). congruence.
Qed.

(** The first two passes: every canonical inode is numbered by its position,
    directories get their data, the rest is kept. *)
Lemma number_and_list es w :
  built es w ->
  match (w1 ← assignNids w; writeDirBlocks w1) with
  | Ok w2 => out_ok w2 /\ keeps w w2 /\ w_limit w2 = w_limit w /\ same_shape (w_nodes w) (w_nodes w2) /\
      (forall k i n, order (w_nodes w) !! k = Some i -> w_nodes w !! i = Some n ->
         exists n', w_nodes w2 !! i = Some n' /\ kept n n' /\ n_nid n' = u64 (2 + 2 * Z.of_nat k) /\
           (isDir n = true -> exists bs, dir_data (w_nodes w2) i bs /\ holds w2 n' bs))
  | Err _ => True
  | Crash _ => False
  end.
Proof.
  intros Hb. pose proof (b_tree _ _ Hb) as Ht.
  destruct (assignNids_spec w _ Ht) as (w1 & -> & E1 & E2 & E3 & E4 & E5 & Hs1 & Hout1 & Hn1). cbn [mbind result_bind].
  assert (out_ok w1) as Ho1.
  { destruct (b_out _ _ Hb) as [[] ?]. split; [split|]; rewrite ?E1, ?E2, ?E3, ?E4; assumption. }
  assert (keeps w w1) as Hk1 by (split; [lia|intros; by rewrite E1]).
  pose proof (tree_ok_shape _ _ _ Hs1 Ht) as Ht1.
  assert (nids_ok (w_nodes w1)) as Hnid.
  { intros i n' Hn' Hh. assert (canon (w_nodes w) i) as Hc.
    { apply (same_shape_canon _ _ _ (same_shape_sym _ _ Hs1)). by exists n'. }
    apply (order_elem _ _ _ Ht) in Hc as Hin. apply list_elem_of_lookup in Hin as [k Hk]. destruct Hc as (n & Hn & _).
    destruct (Hn1 k i n Hk Hn) as (ino & Hino). rewrite Hn' in Hino. apply (inj Some) in Hino as ->. cbn.
    apply Z.mod_pos_bound. lia. }
  pose proof (ftypes_shape _ _ Hs1 (built_ftypes _ _ Hb)) as Hft.
  pose proof (writeDirBlocks_spec _ w1 Ht1 Hnid Hft Ho1) as Hw. destruct (writeDirBlocks w1) as [w2| |]; [|done|done].
  destruct Hw as (Ho2 & Hk2 & Hl2 & Hs2 & Hd2). split; [done|]. split; [by eapply keeps_trans|]. split; [congruence|].
  split; [eapply same_shape_trans; [exact Hs1|by apply nsame_shape]|]. intros k i n Hk Hn.
  destruct (Hn1 k i n Hk Hn) as (ino & Hino). set (n1 := set_ids _ ino n) in *.
  assert (canon (w_nodes w1) i) as Hc.
  { apply (same_shape_canon _ _ _ Hs1), (order_elem _ _ _ Ht). by eapply list_elem_of_lookup_2. }
  specialize (Hd2 i n1 Hc Hino). unfold dir_final in Hd2. change (isDir n1) with (isDir n) in Hd2.
  destruct (isDir n) eqn:Hdir.
  - destruct Hd2 as (size & blk & bs & Hn2 & (es' & bl & D1 & D2 & D3 & D4) & Hh). exists (set_data size blk n1).
    split; [done|]. split; [split_and!; [done|done|congruence]|]. split; [done|]. intros _. exists bs. split; [|done].
    exists es', bl. split; [by eapply nsame_dir_list|done].
  - exists n1. split; [done|]. split; [by split_and!|]. done.
Qed.

(** After the tree, the image: the passes do not crash, and what they write
    is an image of the tree that keeps the data. *)
Lemma finish_spec es w :
  built es w ->
  match finish w with
  | Ok img => exists l meta, image_of l img meta /\ same_shape (w_nodes w) l /\
      (forall i n, canon (w_nodes w) i -> w_nodes w !! i = Some n -> exists n', l !! i = Some n' /\ kept n n') /\
      (forall off len, blockSize <= off -> off + len <= w_pos w -> slice off len img = slice off len (w_out w))
  | Err _ => True
  | Crash _ => False
  end.
Proof.
  intros Hb. pose proof (b_tree _ _ Hb) as Ht. pose proof (number_and_list es w Hb) as H12. unfold finish.
  destruct (assignNids w) as [w1| |]; cbn [mbind result_bind] in *; [|done|done].
  destruct (writeDirBlocks w1) as [w2| |]; cbn [mbind result_bind] in *; [|done|done].
  destruct H12 as (Ho2 & Hk2 & Hl2 & Hs2 & Hn2). pose proof (tree_ok_shape _ _ _ Hs2 Ht) as Ht2.
  pose proof (writeInodes_spec _ w2 Ht2 Ho2) as H3.
  destruct (writeInodes w2) as [[[w3 meta] inos]| |]; cbn [mbind result_bind]; [|done|done].
  destruct H3 as (Ho3 & Hk3 & Hno3 & Hl3 & -> & Hpos3 & Hin3). rewrite <-(same_shape_order _ _ Hs2) in *.
  destruct (order_spec _ _ Ht) as (_ & _ & Hel & Hroot).
  destruct (root_ok _ _ Ht) as (r & Hr & _ & _ & Hrh). destruct (Hn2 0 0 r Hroot Hr) as (r' & Hr' & _ & Hrn & _).
  pose proof (raw_low _ (out_raw _ Ho2)) as Hlow. pose proof (out_pos _ Ho2) as Hpos2. pose proof blockSize_Z as HbZ.
  destruct (writeSuperblock_spec (w_nextBlk w2) inos w3 r' Ho3 ltac:(lia) ltac:(by rewrite Hno3)) as (w4 & -> & Hk4 & Hsb).
  cbn [mbind result_bind].
  destruct Ho3 as [R3 Hpos3']. destruct R3 as [Q1 Q2 Q3 Q4 Q5]. unfold size_limit in Q5.
  pose proof (next_block_range w2 (out_raw _ Ho2) ltac:(lia) ltac:(lia)) as Hmeta.
  assert (forall k, k < length (order (w_nodes w)) -> u64 (2 + 2 * Z.of_nat k) = (2 + 2 * Z.of_nat k)%Z) as Hnid.
  { intros k Hk. apply u64_small. lia. }
  destruct Hk3 as [Hk3 Hk3'].
  exists (w_nodes w2), (w_nextBlk w2). split; [split|split; [done|split]].
  - destruct (read_super_spec _ _ _ _ _ Hsb ltac:(lia)) as (sb & ? & ? & Hs). exists sb. split; [done|]. split; [done|].
    rewrite Hs. unfold nid_of. rewrite Hr', Hrn. done.
  - intros i n' Hn' Hh. assert (canon (w_nodes w) i) as Hc.
    { apply (same_shape_canon _ _ _ (same_shape_sym _ _ Hs2)). by exists n'. }
    apply Hel in Hc as Hin. apply list_elem_of_lookup in Hin as [k Hk]. destruct Hc as (n & Hn & _).
    destruct (Hn2 k i n Hk Hn) as (n'' & Hn'' & _ & Hni & _). rewrite Hn' in Hn''. apply (inj Some) in Hn'' as <-.
    pose proof (lookup_lt_Some _ _ _ Hk) as Hkl. apply read_inode_spec. rewrite Hni, (Hnid k) by done. unfold inode_off.
    replace (Z.to_nat (w_nextBlk w2 * 4096 + (2 + 2 * Z.of_nat k) * 32)) with (w_pos w2 + 64 * S k) by lia.
    rewrite Hk4 by lia. by apply (Hin3 k i).
  - intros i n' Hn' Hh Hd. assert (canon (w_nodes w) i) as Hc.
    { apply (same_shape_canon _ _ _ (same_shape_sym _ _ Hs2)). by exists n'. }
    apply Hel in Hc as Hin. apply list_elem_of_lookup in Hin as [k Hk]. destruct Hc as (n & Hn & _).
    destruct (Hn2 k i n Hk Hn) as (n'' & Hn'' & (Hcore & _) & _ & Hdd). rewrite Hn' in Hn''. apply (inj Some) in Hn'' as <-.
    destruct Hdd as (bs & ? & Hh'). { by rewrite <-(core_isDir _ _ Hcore). }
    exists bs. split; [done|]. eapply holds_to_img; [apply Ho2|done|]. intros off len ??. rewrite Hk4 by done. by apply Hk3'.
  - intros i n Hc Hn. apply Hel in Hc as Hin. apply list_elem_of_lookup in Hin as [k Hk].
    destruct (Hn2 k i n Hk Hn) as (n' & ? & ? & _). by exists n'.
  - intros off len H1 H2. destruct Hk2 as [Hk2 Hk2']. rewrite Hk4 by done. rewrite Hk3' by lia. by apply Hk2'.
Qed.
