(* ===== verification/ErofsSpec.v ===== *)
(** * What an EROFS image shows

    The contract of [Convert], against the reader of [Erofs]: the theorems of
    the EROFS part, on top of [ErofsEntries] (tar entries to tree) and
    [ErofsImage] (tree to image). *)
From S2P Require Import Prelude GoStrings Erofs ErofsTree ErofsOut ErofsEntries ErofsWalk ErofsDirs ErofsImage.

(** ** Modes *)

Lemma land_u16 z m : Z.land (u16 z) m = Z.land z (Z.land 0xFFFF m).
Proof. unfold u16. change u16max with (2 ^ 16)%Z. rewrite <-(Z.land_ones z 16) by lia. by rewrite <-Z.land_assoc. Qed.

Lemma perm_of_land h : perm_of h = Z.land (h_Mode h) 4095.
Proof.
  unfold perm_of, u16. change u16max with (2 ^ 16)%Z. rewrite <-(Z.land_ones _ 16) by lia. by rewrite <-Z.land_assoc.
Qed.

(** A mode is its permissions and one file type. *)
Lemma mode_type h t mode ft :
  kind_of t = Some (mode, ft) ->
  u16 (Z.lor (perm_of h) mode) = Z.lor (perm_of h) mode /\ S_IFMT (Z.lor (perm_of h) mode) = mode.
Proof.
  intros Hk. rewrite perm_of_land. unfold S_IFMT, u16. change u16max with (2 ^ 16)%Z.
  rewrite <-(Z.land_ones _ 16), !Z.land_lor_distr_l, <-!Z.land_assoc by lia.
  by destruct t; injection Hk as <- <- || discriminate Hk; cbn; rewrite ?Z.land_0_r.
Qed.

Definition modes_ok (l : list node) : Prop :=
  forall i n, l !! i = Some n -> n_hardTo n = None -> S_IFMT (u16 (n_mode n)) = 0x4000%Z <-> isDir n = true.

Lemma built_modes es w : built es w -> modes_ok (w_nodes w).
Proof.
  intros Hb i n Hn Hh. destruct (node_cases _ _ _ _ Hb Hn) as [(e & _ & _ & Hd)|Himp].
  - unfold described in Hd. destruct (kind_of (h_Typeflag e.1)) as [[mode ft]|] eqn:Hk.
    + destruct Hd as (_ & E1 & E2 & _). destruct (mode_type e.1 _ _ _ Hk) as [E3 E4]. rewrite E2, E3, E4.
      unfold isDir. rewrite E1, bool_decide_eq_true.
      by destruct (h_Typeflag e.1); injection Hk as <- <- || discriminate Hk.
    + destruct Hd as (? & ? & ? & ? & ? & ? & ? & ?). congruence.
  - destruct (implicit_dir _ Himp) as [-> _]. destruct Himp as (x & pa & E). unfold data in E.
    injection E as E1 E2 E3 E4 E5 E6 E7 E8 E9 E10 E11. by rewrite E3.
Qed.

(** ** Paths of the image *)

Lemma image_dir_entries l bp img meta i n :
  tree_ok l bp -> image_of l img meta -> l !! i = Some n -> n_hardTo n = None -> isDir n = true ->
  exists es, dir_list l i es /\
    read_dir (S (length (read_data img (inode_view n)))) (read_data img (inode_view n)) = es.
Proof.
  intros Ht Him Hn Hh Hd. destruct (im_dir _ _ _ Him i n Hn Hh Hd) as (bs & (es & bl & D1 & D2 & D3 & D4) & Hb).
  exists es. split; [done|]. assert (n_ftype n = ftDir) as E by (unfold isDir in Hd; by apply bool_decide_eq_true in Hd).
  rewrite (read_data_view _ _ _ Hb); [done|by rewrite E..].
Qed.

Lemma find_entry l i es x :
  dir_list l i es -> plain x ->
  list_find (fun e => d_name e = x) es ≫= (fun r => Some (d_nid r.2)) =
    (c ← child l i x; tn ← l !! target l c; Some (n_nid tn)).
Proof.
  intros [D1 D2 D3] (_ & P1 & P2 & _).
  assert (forall e, e ∈ es -> d_name e = x ->
    exists c tn, child l i x = Some c /\ l !! target l c = Some tn /\ d_nid e = n_nid tn) as Hin.
  { intros e He Hx. apply D1 in He as [->|[(n & _ & ->)|(y & c & tn & Hc & Htn & ->)]]; cbn in Hx; [by subst x..|].
    subst y. by exists c, tn. }
  destruct (list_find _ es) as [[k e]|] eqn:Hf; cbn.
  - apply list_find_Some in Hf as (Hk & Hx & _). destruct (Hin e) as (c & tn & -> & Htn & ->); [by eapply list_elem_of_lookup_2|done|].
    cbn. by rewrite Htn.
  - apply list_find_None in Hf. destruct (child l i x) as [c|] eqn:Hc; [|done]. cbn.
    destruct (l !! target l c) as [tn|] eqn:Htn; [|done]. exfalso. rewrite Forall_forall in Hf.
    apply (Hf (Dirent x (n_nid tn) (n_ftype tn))); [|done]. apply D1. right. right. by exists x, c, tn.
Qed.

(** Resolving a path in the image is descending the tree. *)
Lemma read_path_spec l bp img meta p :
  tree_ok l bp -> modes_ok l -> image_of l img meta -> Forall plain p ->
  forall c n, l !! c = Some n ->
  read_path img meta (nid_of l (target l c)) p = (fun j => nid_of l (target l j)) <$> descend l c p.
Proof.
  intros Ht Hm Him Hp. induction Hp as [|x p Hx Hp IH]; intros c n Hn; [done|]. cbn [read_path descend].
  destruct (target_valid _ _ _ _ Ht Hn) as (tn & Htn & Hh). 
  assert (read_inode img meta (nid_of l (target l c)) = inode_view tn) as ->.
  { unfold nid_of. rewrite Htn. by apply (im_inode _ _ _ Him _ _ Htn). }
  change (i_mode (inode_view tn)) with (u16 (n_mode tn)).
  destruct (isDir tn) eqn:Hd.
  - rewrite bool_decide_true by (by apply (Hm _ _ Htn Hh)).
    assert (target l c = c) as Etc.
    { unfold target in *. rewrite Hn in *. destruct (n_hardTo n) as [t|] eqn:Hnt; [|done]. cbn in Htn.
      destruct (links_ok _ _ Ht _ _ _ Hn Hnt) as (tn' & ? & _ & ?). congruence. }
    rewrite Etc in Htn. destruct (image_dir_entries _ _ _ _ _ _ Ht Him Htn Hh Hd) as (es & Hl & ->).
    pose proof (find_entry _ _ _ _ Hl Hx) as Hf.
    destruct (list_find _ es) as [[k e]|]; cbn in Hf.
    + destruct (child l c x) as [c'|] eqn:Hc; [|done]. cbn in Hf. cbn [mbind option_bind].
      destruct (child_ok _ _ Ht _ _ _ Hc) as (n' & Hn' & _). rewrite <-(IH c' n' Hn'). f_equal.
      unfold nid_of. destruct (l !! target l c'); [|done]. by apply (inj Some) in Hf.
    + destruct (child l c x) as [c'|] eqn:Hc; [|done]. cbn in Hf.
      destruct (child_ok _ _ Ht _ _ _ Hc) as (n' & Hn' & _). destruct (target_valid _ _ _ _ Ht Hn') as (tn' & Htn' & _).
      by rewrite Htn' in Hf.
  - rewrite bool_decide_false by (intros E; apply (Hm _ _ Htn Hh) in E; congruence).
    assert (child l c x = None) as ->; [|done]. unfold child. rewrite Hn. cbn.
    destruct (n_children n) as [ch|] eqn:Hch; [|done]. exfalso.
    destruct (proj1 (dirs_ok _ _ Ht _ _ Hn) ltac:(by eexists)) as [Hdn Hhn].
    unfold target in Htn. rewrite Hn, Hhn in Htn. cbn in Htn. congruence.
Qed.

Lemma stat_spec l bp img meta p :
  tree_ok l bp -> modes_ok l -> image_of l img meta -> Forall plain p ->
  stat img p = (j ← descend l 0 p; inode_view <$> l !! target l j).
Proof.
  intros Ht Hm Him Hp. destruct (im_super _ _ _ Him) as (sb & Hsb & <- & Hroot). unfold stat. rewrite Hsb. cbn [mbind option_bind].
  destruct (root_ok _ _ Ht) as (r & Hr & _ & _ & Hrh).
  assert (nid_of l 0 = nid_of l (target l 0)) as E by (unfold target; by rewrite Hr, Hrh). rewrite Hroot, E.
  rewrite (read_path_spec l bp img _ p Ht Hm Him Hp 0 r Hr).
  destruct (descend l 0 p) as [j|] eqn:Hj; cbn; [|done].
  destruct (lookup_lt_is_Some_2 _ _ (descend_valid _ _ _ _ Ht Hj)) as [n Hn].
  destruct (target_valid _ _ _ _ Ht Hn) as (tn & Htn & Hh). unfold nid_of. rewrite Htn. cbn.
  f_equal. by apply (im_inode _ _ _ Him _ _ Htn).
Qed.

(** ** The converted image *)

(** Everything known of a successful conversion: the tree of the entries, and
    its image. *)
Record converted (es : list entry) (img : bytes) (w : writer) (l : list node) (meta : Z) : Prop := {
  cv_built : built es w;
  cv_image : image_of l img meta;
  cv_shape : same_shape (w_nodes w) l;
  cv_kept : forall i n, canon (w_nodes w) i -> w_nodes w !! i = Some n -> exists n', l !! i = Some n' /\ kept n n';
  cv_data : forall off len, blockSize <= off -> off + len <= w_pos w -> slice off len img = slice off len (w_out w)
}.

Lemma convert_finish es tar_err limit :
  Convert es tar_err limit =
    (w ← add_entries es (new_writer limit); if tar_err then Err "reading tar" else finish w).
Proof. done. Qed.

Lemma convert_spec es limit :
  tar_wf [] es -> (Z.of_nat limit <= size_limit)%Z ->
  match Convert es false limit with
  | Ok img => exists w l meta, converted es img w l meta
  | Err _ => True
  | Crash _ => False
  end.
Proof.
  intros Hwf Hlim. rewrite convert_finish. pose proof (add_entries_spec es [] _ (built_new _ Hlim) Hwf) as Ha.
  destruct (add_entries es _) as [w| |]; [|done|done]. cbn [mbind result_bind]. cbn in Ha.
  pose proof (finish_spec es w Ha) as Hf. destruct (finish w) as [img| |]; [|done|done].
  destruct Hf as (l & meta & H1 & H2 & H3 & H4). by exists w, l, meta.
Qed.

Lemma converted_modes es img w l meta : converted es img w l meta -> modes_ok l.
Proof.
  intros [Hb _ Hs Hk _] i n' Hn' Hh.
  destruct (same_shape_lookup _ _ _ _ (same_shape_sym _ _ Hs) Hn') as (n & Hn & (_ & _ & _ & _ & E & E')%shape_fields).
  destruct (Hk i n) as (n'' & Hn'' & (Hc & _)); [exists n; split; congruence|done|].
  assert (n'' = n') as -> by congruence. rewrite <-E'. unfold core in Hc. injection Hc as -> _ _ _ _ _ _.
  apply (built_modes _ _ Hb i n Hn). congruence.
Qed.

Lemma converted_stat es img w l meta p :
  converted es img w l meta -> Forall plain p ->
  stat img p = (j ← descend (w_nodes w) 0 p; inode_view <$> l !! target l j).
Proof.
  intros Hc Hp. pose proof Hc as [Hb Hi Hs _ _]. rewrite (same_shape_descend _ _ _ _ Hs).
  eapply stat_spec; [|by eapply converted_modes|done|done]. eapply tree_ok_shape; [done|apply Hb].
Qed.

(** The inode at a canonical node of the tree. *)
Lemma converted_inode es img w l meta p i n :
  converted es img w l meta -> descend (w_nodes w) 0 p = Some i -> w_nodes w !! i = Some n -> n_hardTo n = None ->
  Forall plain p -> exists n', stat img p = Some (inode_view n') /\ kept n n'.
Proof.
  intros Hc Hi Hn Hh Hp. rewrite (converted_stat _ _ _ _ _ _ Hc Hp), Hi. cbn.
  destruct (cv_kept _ _ _ _ _ Hc i n) as (n' & Hn' & Hk); [by exists n|done|]. exists n'. split; [|done].
  assert (target l i = i) as -> by (unfold target; rewrite Hn'; destruct Hk as (_ & -> & _); by rewrite Hh).
  by rewrite Hn'.
Qed.

Lemma u32_lor a b : u32 (Z.lor a b) = Z.lor (u32 a) (u32 b).
Proof. unfold u32. change u32max with (2 ^ 32)%Z. rewrite <-!(Z.land_ones _ 32) by lia. apply Z.land_lor_distr_l. Qed.

Lemma u32_idem z : u32 (u32 z) = u32 z.
Proof. apply Z.mod_mod. lia. Qed.

Lemma u32_mkdev major minor : u32 (mkdev major minor) = mkdev major minor.
Proof. unfold mkdev. by rewrite !u32_lor, !u32_idem. Qed.

(** What the inode of an entry's path shows of the entry. *)
Definition shows (img : bytes) (e : entry) (i : inode) : Prop :=
  match kind_of (h_Typeflag e.1) with
  | Some (mode, _) =>
      i_mode i = Z.lor (perm_of e.1) mode /\ i_uid i = u32 (h_Uid e.1) /\ i_gid i = u32 (h_Gid e.1) /\
      i_mtime i = u64 (h_ModTime e.1) /\
      (h_Typeflag e.1 = TypeReg -> i_size i = Z.of_nat (length (c_data e.2)) /\ read_data img i = c_data e.2) /\
      (h_Typeflag e.1 = TypeSymlink -> read_data img i = bytes_of_string (h_Linkname e.1)) /\
      (h_Typeflag e.1 = TypeChar \/ h_Typeflag e.1 = TypeBlock -> i_u i = mkdev (h_Devmajor e.1) (h_Devminor e.1))
  | None => stat img (path_of (h_Linkname e.1)) = Some i
  end.

Lemma described_shows es img w l meta e n n' :
  converted es img w l meta -> described es w e n -> kept n n' -> n_hardTo n = None -> shows img e (inode_view n').
Proof.
  intros Hc Hd (Hcore & Hh' & Hdata) Hh. unfold described, shows in *.
  destruct (kind_of (h_Typeflag e.1)) as [[mode ft]|] eqn:Hk.
  2: { destruct Hd as (? & ? & ? & ? & ? & ? & ? & ?). congruence. }
  destruct Hd as (_ & E1 & E2 & E3 & E4 & E5 & D1 & D2 & D3). pose proof Hcore as Hcore'. unfold core in Hcore'.
  injection Hcore' as C1 C2 C3 C4 C5 C6 C7. cbn [inode_view i_mode i_uid i_gid i_mtime i_size i_u].
  destruct (mode_type e.1 _ _ _ Hk) as [M1 _].
  rewrite C1, C2, C3, C4, C6, E1, E2, E3, E4, E5, !u32_idem. split; [done|]. do 3 (split; [done|]).
  assert (forall bs, isDir n = false -> holds w n bs -> holds_img img n' bs) as Hholds.
  { intros bs Hnd Hb. eapply (holds_to_img w); [apply (cv_built _ _ _ _ _ Hc)| |apply Hc].
    destruct (Hdata Hnd) as [S1 S2]. destruct Hb as (B1 & B2 & B3 & B4). unfold holds. by rewrite S1, S2. }
  assert (forall t, h_Typeflag e.1 = t -> kind_of t = Some (mode, ft)) as Hkt by (by intros t <-).
  split; [|split].
  - intros Ht. specialize (Hkt _ Ht). injection Hkt as <- <-. specialize (D1 Ht).
    assert (isDir n = false) as Hnd by (unfold isDir; by rewrite E1).
    pose proof (Hholds _ Hnd D1) as Hi. pose proof Hi as (I1 & I2 & I3 & _). split; [rewrite I1; apply u64_small; lia|].
    apply read_data_view; [done|rewrite C6, E1; done..].
  - intros Ht. specialize (Hkt _ Ht). injection Hkt as <- <-. specialize (D2 Ht).
    assert (isDir n = false) as Hnd by (unfold isDir; by rewrite E1).
    apply read_data_view; [by apply Hholds|rewrite C6, E1; done..].
  - intros Ht. rewrite bool_decide_true; [rewrite C5, (D3 Ht); apply u32_mkdev|].
    by destruct Ht as [Ht|Ht]; specialize (Hkt _ Ht); injection Hkt as <- <-; [left|right].
Qed.

Lemma target_shape l l' i : same_shape l l' -> target l i = target l' i.
Proof.
  intros H. unfold target. destruct (l !! i) as [n|] eqn:Hn.
  - destruct (same_shape_lookup _ _ _ _ H Hn) as (n' & -> & (_ & _ & _ & _ & -> & _)%shape_fields). done.
  - apply lookup_ge_None in Hn. rewrite (lookup_ge_None_2 l'); [done|]. by rewrite <-(same_shape_length _ _ H).
Qed.

(** A path of the tree is a path of the image. *)
Lemma converted_some es img w l meta p i :
  converted es img w l meta -> Forall plain p -> descend (w_nodes w) 0 p = Some i -> is_Some (stat img p).
Proof.
  intros Hc Hp Hi. rewrite (converted_stat _ _ _ _ _ _ Hc Hp), Hi. cbn. pose proof (b_tree _ _ (cv_built _ _ _ _ _ Hc)) as Ht.
  destruct (lookup_lt_is_Some_2 _ _ (descend_valid _ _ _ _ Ht Hi)) as [n Hn].
  destruct (target_valid _ _ _ _ Ht Hn) as (tn & Htn & _). rewrite <-(target_shape _ _ _ (cv_shape _ _ _ _ _ Hc)).
  destruct (same_shape_lookup _ _ _ _ (cv_shape _ _ _ _ _ Hc) Htn) as (tn' & -> & _). by eexists.
Qed.

(** ** The theorems *)

(** C3 The image gives back every entry: for a tar stream of distinct plain
    paths whose hard links name earlier files, if [Convert] succeeds then
    every entry's path resolves in the image, to an inode with the entry's
    mode, owner and time, and with the contents (regular files), the target
    (symlinks) or the device number (devices) of the entry; a hard link
    resolves to the inode of its target. *)
Theorem image_gives_back es limit img e :
  tar_wf [] es -> (Z.of_nat limit <= size_limit)%Z -> Convert es false limit = Ok img -> e ∈ es ->
  exists i, stat img (entry_path e) = Some i /\ shows img e i.
Proof.
  intros Hwf Hlim Hok He. pose proof (convert_spec es limit Hwf Hlim) as Hc. rewrite Hok in Hc.
  destruct Hc as (w & l & meta & Hc). pose proof Hc as [Hb _ Hs _ _]. pose proof (b_tree _ _ Hb) as Ht.
  destruct (b_entry _ _ Hb e He) as (i & n & Hi & Hn & Hd).
  pose proof (dir_names_plain _ (descend_names _ _ _ _ Ht Hi)) as Hpl.
  destruct (n_hardTo n) as [t|] eqn:Hh.
  - destruct (converted_some _ _ _ _ _ _ _ Hc Hpl Hi) as [v Hv]. exists v. split; [done|]. unfold shows, described in *.
    destruct (kind_of (h_Typeflag e.1)) as [[mode ft]|] eqn:Hk; [destruct Hd; congruence|].
    destruct Hd as (e' & j & nj & _ & Hp' & Hj & Hnj & Hnt). rewrite <-Hp'.
    pose proof (dir_names_plain _ (descend_names _ _ _ _ Ht Hj)) as Hpl'.
    rewrite (converted_stat _ _ _ _ _ _ Hc Hpl'), Hj. rewrite (converted_stat _ _ _ _ _ _ Hc Hpl), Hi in Hv.
    cbn in *. rewrite <-(target_shape _ _ i Hs) in Hv. rewrite <-(target_shape _ _ j Hs).
    unfold target in *. rewrite Hn, Hnt in Hv. by rewrite Hnj.
  - destruct (converted_inode _ _ _ _ _ _ _ _ Hc Hi Hn Hh Hpl) as (n' & Hst & Hk). exists (inode_view n').
    split; [done|]. by eapply described_shows.
Qed.

(** C27 The image has nothing else: a plain path resolves exactly when it is
    the root, an entry's path or a parent of one; a directory no entry
    describes has mode 0755 and is owned by root. *)
Theorem image_has_nothing_else es limit img p :
  tar_wf [] es -> (Z.of_nat limit <= size_limit)%Z -> Convert es false limit = Ok img -> Forall plain p ->
  (is_Some (stat img p) <-> p = [] \/ exists e, e ∈ es /\ p `prefix_of` entry_path e) /\
  ((forall e, e ∈ es -> entry_path e <> p) -> forall i, stat img p = Some i ->
     i_mode i = 0x41ED%Z /\ i_uid i = 0%Z /\ i_gid i = 0%Z /\ i_mtime i = 0%Z).
Proof.
  intros Hwf Hlim Hok Hp. pose proof (convert_spec es limit Hwf Hlim) as Hc. rewrite Hok in Hc.
  destruct Hc as (w & l & meta & Hc). pose proof Hc as [Hb _ Hs _ _]. split.
  - split.
    + rewrite (converted_stat _ _ _ _ _ _ Hc Hp). intros [i Hi]. apply (b_only _ _ Hb).
      destruct (descend (w_nodes w) 0 p); [by eexists|done].
    + intros Hq. assert (is_Some (descend (w_nodes w) 0 p)) as [i Hi]; [|by eapply converted_some].
      destruct Hq as [->|(e & He & [q Hq])]; [by eexists|].
      destruct (b_entry _ _ Hb e He) as (i & n & Hi & _). rewrite Hq, descend_app in Hi.
      destruct (descend (w_nodes w) 0 p); [by eexists|done].
  - intros Hne v Hv. pose proof Hv as Hv'. rewrite (converted_stat _ _ _ _ _ _ Hc Hp) in Hv'.
    destruct (descend (w_nodes w) 0 p) as [i|] eqn:Hi; [|done].
    destruct (lookup_lt_is_Some_2 _ _ (descend_valid _ _ _ _ (b_tree _ _ Hb) Hi)) as [n Hn].
    pose proof (b_implicit _ _ Hb p i n Hi Hn Hne) as Himp. destruct (implicit_dir _ Himp) as [_ Hh].
    destruct (converted_inode _ _ _ _ _ _ _ _ Hc Hi Hn Hh Hp) as (n' & Hst & (Hcore & _)).
    rewrite Hv in Hst. apply (inj Some) in Hst as ->. destruct Himp as (x & pa & E). unfold data in E. unfold core in Hcore.
    injection E as E1 E2 E3 E4 E5 E6 E7 E8 E9 E10 E11. injection Hcore as C1 C2 C3 C4 C5 C6 C7.
    cbn. by rewrite C1, C2, C3, C4, E3, E4, E5, E6.
Qed.

(** What C16 says; a pull needs it too. *)
Lemma convert_no_crash es tar_err limit c :
  tar_wf [] es -> (Z.of_nat limit <= size_limit)%Z -> Convert es tar_err limit <> Crash c.
Proof.
  intros Hwf Hlim. pose proof (convert_spec es limit Hwf Hlim) as Hc. rewrite convert_finish in *.
  pose proof (add_entries_spec es [] _ (built_new _ Hlim) Hwf) as Ha.
  destruct (add_entries es _) as [w| |]; [|done|done]. cbn [mbind result_bind] in *. destruct tar_err; [done|].
  intros E. by rewrite E in Hc.
Qed.

(** C16 [Convert] ends without a crash on every well-formed stream: no nil
    dereference and no endless loop, whatever the contents, their errors, the
    tar reader's error and the room for the output; it returns the image or
    an error. *)
Theorem convert_never_crashes es tar_err limit c :
  tar_wf [] es -> (Z.of_nat limit <= size_limit)%Z -> Convert es tar_err limit <> Crash c.
Proof. apply convert_no_crash. Qed.

(** C17 Directories are what the kernel's binary search needs: every directory
    of the image lists its names in strictly increasing bytewise order (sorted
    and without duplicates), with [.] and [..], and lists a plain name exactly
    when the path extended by it resolves. *)
Theorem directories_sorted es limit img p i :
  tar_wf [] es -> (Z.of_nat limit <= size_limit)%Z -> Convert es false limit = Ok img -> Forall plain p ->
  stat img p = Some i -> S_IFMT (i_mode i) = 0x4000%Z ->
  let names := d_name <$> read_dir (S (length (read_data img i))) (read_data img i) in
  Sorted str_le names /\ NoDup names /\ "." ∈ names /\ ".." ∈ names /\
  forall x, plain x -> x ∈ names <-> is_Some (stat img (p ++ [x])).
Proof.
  intros Hwf Hlim Hok Hp Hst Hmode. pose proof (convert_spec es limit Hwf Hlim) as Hc. rewrite Hok in Hc.
  destruct Hc as (w & l & meta & Hc). pose proof Hc as [Hb Him Hs _ _].
  pose proof (tree_ok_shape _ _ _ Hs (b_tree _ _ Hb)) as Ht. pose proof (converted_modes _ _ _ _ _ Hc) as Hm.
  rewrite (stat_spec l _ img meta p Ht Hm Him Hp) in Hst.
  destruct (descend l 0 p) as [j|] eqn:Hj; [|done]. cbn in Hst. apply fmap_Some in Hst as (tn & Htn & ->).
  destruct (lookup_lt_is_Some_2 _ _ (descend_valid _ _ _ _ Ht Hj)) as [n Hn].
  destruct (target_valid _ _ _ _ Ht Hn) as (tn' & Htn' & Hh). assert (tn' = tn) as -> by congruence.
  assert (isDir tn = true) as Hd by (by apply (Hm _ _ Htn Hh)).
  assert (target l j = j) as Ej.
  { unfold target in *. rewrite Hn in *. destruct (n_hardTo n) as [t|] eqn:Hnt; [|done]. cbn in Htn.
    destruct (links_ok _ _ Ht _ _ _ Hn Hnt) as (? & ? & _ & ?). congruence. }
  rewrite Ej in Htn. destruct (image_dir_entries _ _ _ _ _ _ Ht Him Htn Hh Hd) as (ls & [D1 D2 D3] & ->).
  split; [|split; [done|]].
  - clear -D3. induction D3 as [|e ls Hs IH Hhd]; cbn; constructor; [done|]. destruct Hhd; cbn; by constructor.
  - split; [apply list_elem_of_fmap; exists (Dirent "." (nid_of l j) ftDir); split; [done|]; apply D1; by left|].
    split; [apply list_elem_of_fmap; eexists (Dirent ".." _ ftDir); split; [done|]; apply D1; right; left; by eexists|].
    intros x Hx. rewrite (stat_spec l _ img meta (p ++ [x]) Ht Hm Him) by (apply Forall_app; split; [done|]; by apply Forall_singleton).
    rewrite descend_snoc, Hj. cbn [mbind option_bind]. rewrite list_elem_of_fmap. split.
    + intros (e & -> & He). apply D1 in He as [->|[(? & _ & ->)|(x & c & ctn & Hcx & Hctn & ->)]]; cbn in Hx.
      * by destruct Hx as (_ & ? & _).
      * by destruct Hx as (_ & _ & ? & _).
      * cbn. rewrite Hcx. cbn. rewrite Hctn. by eexists.
    + destruct (child l j x) as [c|] eqn:Hcx; [|by intros []]. cbn. destruct (l !! target l c) as [ctn|] eqn:Hctn; [|by intros []].
      intros _. exists (Dirent x (n_nid ctn) (n_ftype ctn)). split; [done|]. apply D1. right. right. by exists x, c, ctn.
Qed.

(** ** Witnesses: the stream of [Erofs] *)

#[local] Instance plain_dec x : Decision (plain x).
Proof. unfold plain. apply _. Defined.
#[local] Instance dir_name_dec x : Decision (dir_name x).
Proof. unfold dir_name. apply _. Defined.

Lemma ex_converts : Convert ex_tar false (Z.to_nat 40000) = Ok ex_image.
Proof.
  assert (is_ok (Convert ex_tar false (Z.to_nat 40000)) = true) as H by (vm_compute; reflexivity).
  unfold ex_image. by destruct (Convert ex_tar false (Z.to_nat 40000)).
Qed.

Lemma ex_tar_wf : tar_wf [] ex_tar.
Proof.
  assert (forall before e, Forall dir_name (entry_path e) -> Forall (fun e' => entry_path e' <> entry_path e) before ->
    h_Typeflag e.1 <> TypeOther -> entry_path e <> [] ->
    (h_Typeflag e.1 = TypeLink -> Exists (fun e' => entry_path e' = path_of (h_Linkname e.1) /\ h_Typeflag e'.1 <> TypeDir) before) ->
    Z.of_nat (length (c_data e.2)) = h_Size e.1 -> entry_wf before e) as Hwf.
  { intros before e H1 H2 H3 H4 H5 H6. split; try done; [by apply Forall_forall| |lia].
    intros Hl. apply H5, Exists_exists in Hl. naive_solver. }
  unfold ex_tar. cbn [tar_wf app]. split; [|split; [|split; [|split; [|done]]]]; apply Hwf;
    try (apply (bool_decide_unpack _); vm_compute; exact I); try done; intros _;
    try (apply (bool_decide_unpack _); vm_compute; exact I).
Qed.

Lemma ex_limit : (Z.of_nat (Z.to_nat 40000) <= size_limit)%Z.
Proof. rewrite Z2Nat.id by lia. unfold size_limit. lia. Qed.

Lemma image_gives_back_witness :
  exists i, stat ex_image ["etc"; "passwd"] = Some i /\ read_data ex_image i = [1; 2; 3]%Z.
Proof.
  destruct (image_gives_back ex_tar _ ex_image (ex_hdr "etc/passwd" TypeReg "" 3, Content [1; 2; 3]%Z false)
    ex_tar_wf ex_limit ex_converts ltac:(by left)) as (i & Hi & (_ & _ & _ & _ & Hd & _)).
  exists i. split; [exact Hi|]. apply Hd. reflexivity.
Defined.

Lemma image_has_nothing_else_witness :
  is_Some (stat ex_image ["bin"]) /\ forall i, stat ex_image ["bin"] = Some i -> i_mode i = 0x41ED%Z.
Proof.
  assert (Forall plain ["bin"]) as Hp by (apply (bool_decide_unpack _); vm_compute; exact I).
  destruct (image_has_nothing_else ex_tar _ ex_image ["bin"] ex_tar_wf ex_limit ex_converts Hp) as [H1 H2].
  split.
  - apply H1. right. exists (ex_hdr "bin/sh" TypeLink "etc/passwd" 0, Content [] false).
    split; [by do 2 right; left|]. exists ["sh"]. vm_compute. reflexivity.
  - intros i Hi. apply H2; [|exact Hi]. apply Forall_forall. apply (bool_decide_unpack _). vm_compute. exact I.
Defined.

Lemma convert_never_crashes_witness :
  Convert ex_tar true (Z.to_nat 40000) <> Crash NilDeref /\ Convert ex_tar true (Z.to_nat 40000) <> Crash Hang.
Proof. split; exact (convert_never_crashes ex_tar true _ _ ex_tar_wf ex_limit). Defined.

Lemma directories_sorted_witness : exists i, stat ex_image [] = Some i /\
  Sorted str_le (d_name <$> read_dir (S (length (read_data ex_image i))) (read_data ex_image i)).
Proof.
  assert (exists i, stat ex_image [] = Some i /\ S_IFMT (i_mode i) = 0x4000%Z) as (i & Hi & Hm).
  { eexists. split; vm_compute; reflexivity. }
  exists i. split; [exact Hi|].
  apply (directories_sorted ex_tar _ ex_image [] i ex_tar_wf ex_limit ex_converts ltac:(constructor) Hi Hm).
Defined.
