(* ===== verification/Images.v ===== *)
(** * The image cache (poc/agent/images.go)

    [ensureImage]: where an image is cached, and the pull that converts it
    into a temporary file and renames that into place. Pulls run in the pods'
    goroutines, so the model is a host file system (names, and the contents
    of what they name) under interleaved steps of any number of pulls; the
    agent may die at any point. Fetching is an outcome; what [erofs.Convert]
    writes for an image, in order and at which offsets, and its error, are
    parameters. Also [untar], which unpacks an image in directory mode. *)
From Stdlib Require Import Ascii.
From S2P Require Import Prelude GoStrings StaticPods Erofs.

(** ** Names in the cache *)

(** The characters kept, after lower-casing; references are ASCII, others are
    refused when they are parsed. *)
Definition safe_char (a : ascii) : ascii :=
  let n := Ascii.nat_of_ascii a in
  if bool_decide (97 <= n <= 122 \/ 48 <= n <= 57) then a
  else if bool_decide (a ∈ ["."; "-"; "_"]%char) then a else "-"%char.

Definition cache_dir (Sum256 : string -> bytes) (imagesDir image : string) : string :=
  PathJoin [imagesDir; EncodeToString (take 8 (Sum256 image)) +:+ "-" +:+ map_string safe_char (ToLower image)].

(** ** Pulls *)

(** Names of files, and the files themselves. *)
Record disk := Disk { k_names : gmap string nat; k_inodes : list bytes }.

Definition set_inode (ino : nat) (c : bytes) (d : disk) : disk := Disk (k_names d) (<[ino := c]> (k_inodes d)).
Definition unlink (p : string) (d : disk) : disk := Disk (delete p (k_names d)) (k_inodes d).

(** [os.Create]: an existing file is emptied, a new one gets the next inode. *)
Definition create (p : string) (d : disk) : disk * nat :=
  match k_names d !! p with
  | Some ino => (set_inode ino [] d, ino)
  | None => (Disk (<[p := length (k_inodes d)]> (k_names d)) (k_inodes d ++ [[]]), length (k_inodes d))
  end.

(** Where a pull stands: before looking into the cache, before creating the
    temporary file, converting into it with some writes to go, before the
    rename, or returned, with the error if any. *)
Inductive stage := Checking | Creating | Converting (ino : nat) (todo : list (nat * bytes)) | Renaming | Ended (err : option string).
#[export] Instance stage_eq_dec : EqDecision stage.
Proof. solve_decision. Defined.

Record pull := Pull { pl_image : string; pl_stage : stage }.
Record cache := Cache { ca_disk : disk; ca_pulls : list pull }.

Section Pulls.
Context (dir : string -> string).
(** The writes of the conversion of an image, and its error. *)
Context (writes : string -> list (nat * bytes)) (convert_err : string -> option string).

Definition final (image : string) : string := dir image +:+ ".erofs".
Definition tmp (image : string) : string := dir image +:+ ".erofs.tmp".

(** One step of a pull; [ok]: the call it makes succeeds. *)
Definition pull_step (image : string) (ok : bool) (st : stage) (d : disk) : option (disk * stage) :=
  match st with
  | Checking =>
      Some (match k_names d !! final image with
            | Some _ => (d, Ended None)
            | None => (d, if ok then Creating else Ended (Some "fetching image"))
            end)
  | Creating =>
      Some (if ok then let '(d, ino) := create (tmp image) d in (d, Converting ino (writes image))
            else (d, Ended (Some "create")))
  | Converting ino ((off, bs) :: todo) =>
      Some (if ok then (set_inode ino (write_at off bs (default [] (k_inodes d !! ino))) d, Converting ino todo)
            else (unlink (tmp image) d, Ended (Some "converting image to erofs")))
  | Converting ino [] =>
      Some (match convert_err image with
            | Some e => (unlink (tmp image) d, Ended (Some e))
            | None => if ok then (d, Renaming) else (unlink (tmp image) d, Ended (Some "close"))
            end)
  | Renaming =>
      Some (match k_names d !! tmp image with
            | Some ino => if ok then (Disk (<[final image := ino]> (delete (tmp image) (k_names d))) (k_inodes d), Ended None)
                          else (d, Ended (Some "rename"))
            | None => (d, Ended (Some "rename"))
            end)
  | Ended _ => None
  end.

Inductive cache_action := AStart (image : string) | AStep (k : nat) (ok : bool) | ACrash.

Definition active (image : string) (p : pull) : Prop :=
  pl_image p = image /\ match pl_stage p with Ended _ => False | _ => True end.
#[export] Instance active_dec image p : Decision (active image p).
Proof. unfold active. destruct (pl_stage p); apply _. Defined.

(** [alone]: a pull is only started when none of the same image is going on;
    the code does not see to that. *)
Definition cache_step (alone : bool) (a : cache_action) (c : cache) : option cache :=
  match a with
  | AStart image =>
      if alone && bool_decide (Exists (active image) (ca_pulls c)) then None
      else Some (Cache (ca_disk c) (ca_pulls c ++ [Pull image Checking]))
  | AStep k ok =>
      match ca_pulls c !! k with
      | Some p =>
          match pull_step (pl_image p) ok (pl_stage p) (ca_disk c) with
          | Some (d, st) => Some (Cache d (<[k := Pull (pl_image p) st]> (ca_pulls c)))
          | None => None
          end
      | None => None
      end
  | ACrash => Some (Cache (ca_disk c) [])
  end.

Fixpoint cache_run (alone : bool) (l : list cache_action) (c : cache) : option cache :=
  match l with [] => Some c | a :: l' => cache_step alone a c ≫= cache_run alone l' end.
End Pulls.

(** ** [untar] *)

Inductive untar_op :=
| UMkdirAll (p : string) | UChmod (p : string) | UWrite (p : string) | URemove (p : string)
| USymlink (target p : string) | ULink (src p : string).

(** What [untar] does for one entry: its path is cleaned as an absolute path
    and joined to the destination. *)
Definition untar_target (dest name : string) : string := PathJoin [dest; Clean ("/" +:+ name)].

Definition untar_entry (dest : string) (h : header) : list untar_op :=
  let target := untar_target dest (h_Name h) in
  if negb (HasPrefix target (Clean dest +:+ "/")) && bool_decide (target <> Clean dest) then []
  else match h_Typeflag h with
       | TypeDir => [UMkdirAll target; UChmod target]
       | TypeReg => [UMkdirAll (Dir target); UWrite target]
       | TypeSymlink => [UMkdirAll (Dir target); URemove target; USymlink (h_Linkname h) target]
       | TypeLink => [UMkdirAll (Dir target); URemove target; ULink (untar_target dest (h_Linkname h)) target]
       | _ => []
       end.

(** ** The cache holds whole images only *)

Definition apply_writes (ws : list (nat * bytes)) (c : bytes) : bytes := foldl (fun c w => write_at w.1 w.2 c) c ws.

Section CacheProofs.
Context (dir : string -> string) (writes : string -> list (nat * bytes)) (convert_err : string -> option string).
Notation final := (final dir).
Notation tmp := (tmp dir).
Notation pull_step := (pull_step dir writes convert_err).
Notation cache_step := (cache_step dir writes convert_err).
Notation cache_run := (cache_run dir writes convert_err).

(** The images in use, whose paths in the cache differ. *)
Context (images : list string).
Definition exts : list string := [".erofs"; ".erofs.tmp"].
Definition distinct_dirs : Prop :=
  Forall (fun i => Forall (fun j => Forall (fun e => Forall (fun e' => dir i +:+ e = dir j +:+ e' -> i = j) exts) exts) images) images.

Definition whole (image : string) : bytes := apply_writes (writes image) [].

Lemma distinct_eq i j e e' :
  distinct_dirs -> i ∈ images -> j ∈ images -> e ∈ exts -> e' ∈ exts -> dir i +:+ e = dir j +:+ e' -> i = j.
Proof.
  unfold distinct_dirs. intros Hd Hi Hj He He'. rewrite Forall_forall in Hd. specialize (Hd i Hi). rewrite Forall_forall in Hd.
  specialize (Hd j Hj). rewrite Forall_forall in Hd. specialize (Hd e He). rewrite Forall_forall in Hd. by apply Hd.
Qed.

Lemma final_tmp_ne i j : distinct_dirs -> i ∈ images -> j ∈ images -> final i <> tmp j.
Proof.
  intros Hd Hi Hj E. assert (i = j) as -> by (apply (distinct_eq i j ".erofs" ".erofs.tmp" Hd Hi Hj); [unfold exts; set_solver..|exact E]).
  apply (f_equal String.length) in E. unfold Images.final, Images.tmp in E. rewrite !string_length_app in E. cbn in E. lia.
Qed.

Lemma final_inj i j : distinct_dirs -> i ∈ images -> j ∈ images -> final i = final j -> i = j.
Proof. intros Hd Hi Hj E. apply (distinct_eq i j ".erofs" ".erofs" Hd Hi Hj); [unfold exts; set_solver..|exact E]. Qed.

Lemma tmp_inj i j : distinct_dirs -> i ∈ images -> j ∈ images -> tmp i = tmp j -> i = j.
Proof. intros Hd Hi Hj E. apply (distinct_eq i j ".erofs.tmp" ".erofs.tmp" Hd Hi Hj); [unfold exts; set_solver..|exact E]. Qed.

(** No two names share a file. *)
Record disk_ok (d : disk) : Prop := {
  dk_inj : forall p q ino, k_names d !! p = Some ino -> k_names d !! q = Some ino -> p = q;
  dk_valid : forall p ino, k_names d !! p = Some ino -> ino < length (k_inodes d)
}.

Definition final_ok (d : disk) (i : string) : Prop :=
  forall ino, k_names d !! final i = Some ino -> k_inodes d !! ino = Some (whole i) /\ convert_err i = None.

Definition stage_ok (d : disk) (i : string) (st : stage) : Prop :=
  match st with
  | Converting ino todo =>
      k_names d !! tmp i = Some ino /\ exists before, writes i = before ++ todo /\ k_inodes d !! ino = Some (apply_writes before [])
  | Renaming => exists ino, k_names d !! tmp i = Some ino /\ k_inodes d !! ino = Some (whole i) /\ convert_err i = None
  | Ended None => is_Some (k_names d !! final i)
  | _ => True
  end.

(** What a pull of [i] leaves alone. *)
Definition elsewhere (i : string) (d d' : disk) : Prop :=
  forall p, p <> tmp i -> p <> final i -> k_names d' !! p = k_names d !! p /\
    forall ino, k_names d !! p = Some ino -> k_inodes d' !! ino = k_inodes d !! ino.

Lemma disk_unlink p d : disk_ok d -> disk_ok (unlink p d).
Proof.
  intros [H1 H2]. split; cbn; intros ?; intros *; rewrite ?lookup_delete_Some; [naive_solver|intros [_ H]; by eapply H2].
Qed.

Lemma disk_set ino c d : disk_ok d -> disk_ok (set_inode ino c d).
Proof. intros [H1 H2]. split; cbn; [exact H1|]. intros p i Hp. rewrite length_insert. by eapply H2. Qed.

Lemma set_other ino c d p : disk_ok d -> k_names d !! p = Some ino ->
  forall q i, q <> p -> k_names d !! q = Some i -> k_inodes (set_inode ino c d) !! i = k_inodes d !! i.
Proof. intros Hd Hp q i Hq Hi. cbn. apply list_lookup_insert_ne. intros ->. apply Hq. by eapply dk_inj. Qed.

Lemma create_ok p d d' ino : disk_ok d -> create p d = (d', ino) ->
  disk_ok d' /\ k_names d' !! p = Some ino /\ k_inodes d' !! ino = Some [] /\
  (forall q, q <> p -> k_names d' !! q = k_names d !! q /\ forall i, k_names d !! q = Some i -> k_inodes d' !! i = k_inodes d !! i).
Proof.
  intros Hd E. unfold create in E. destruct (k_names d !! p) as [i|] eqn:Hp; injection E as <- <-.
  - split; [by apply disk_set|]. split; [done|]. split; [cbn; apply list_lookup_insert_eq; by eapply dk_valid|].
    intros q Hq. split; [done|]. intros j Hj. by eapply set_other.
  - destruct Hd as [H1 H2]. split; [split|]; cbn.
    + intros q r i Hq Hr. apply lookup_insert_Some in Hq as [[<- <-]|[Hq Hq']], Hr as [[<- E]|[Hr Hr']]; try done.
      * apply H2 in Hr'. lia.
      * subst. apply H2 in Hq'. lia.
      * by eapply H1.
    + intros q i Hq. rewrite length_app. cbn. apply lookup_insert_Some in Hq as [[<- <-]|[_ Hq]]; [lia|]. apply H2 in Hq. lia.
    + split; [by rewrite lookup_insert_eq|]. split; [by rewrite lookup_app_r, Nat.sub_diag by done|].
      intros q Hq. split; [by rewrite lookup_insert_ne|]. intros i Hi. apply H2 in Hi. by rewrite lookup_app_l.
Qed.

(** One step keeps the disk, what is cached of the pull's own image, its own
    stage, and everything else. *)
Lemma pull_step_ok i ok st d d' st' :
  distinct_dirs -> i ∈ images -> disk_ok d -> final_ok d i -> stage_ok d i st -> pull_step i ok st d = Some (d', st') ->
  disk_ok d' /\ final_ok d' i /\ stage_ok d' i st' /\ elsewhere i d d' /\
  (is_Some (k_names d !! final i) -> is_Some (k_names d' !! final i)).
Proof.
  intros Hdirs Hi Hd Hf Hst E. pose proof (final_tmp_ne i i Hdirs Hi Hi) as Hne.
  assert (elsewhere i d d) as Hid by (intros p _ _; done).
  assert (disk_ok (unlink (tmp i) d) /\ final_ok (unlink (tmp i) d) i /\ elsewhere i d (unlink (tmp i) d) /\
    (is_Some (k_names d !! final i) -> is_Some (k_names (unlink (tmp i) d) !! final i))) as Hun.
  { split_and!; [by apply disk_unlink|intros ino; cbn; rewrite lookup_delete_ne by done; apply Hf| |cbn; by rewrite lookup_delete_ne].
    intros p Hp Hp'. cbn. by rewrite lookup_delete_ne. }
  destruct st as [| |ino [|[off bs] todo]| |e]; cbn [Images.pull_step] in E.
  - destruct (k_names d !! final i) eqn:Hc; injection E as <- <-; (split_and!; [done..| |done|done]); [by eexists|by destruct ok].
  - destruct ok; [|injection E as <- <-; by split_and!]. destruct (create (tmp i) d) as [d1 ino] eqn:Hc. injection E as <- <-.
    destruct (create_ok _ _ _ _ Hd Hc) as (Hd1 & Hn & Hino & Hoth). split; [done|]. destruct (Hoth (final i) Hne) as [Ho1 Ho2].
    split_and!; [intros k Hk; rewrite Ho1 in Hk; rewrite (Ho2 _ Hk); by apply Hf| | |by rewrite Ho1].
    + split; [done|]. by exists [].
    + intros p Hp _. by apply Hoth.
  - destruct Hst as (Hn & before & Hw & Hino). rewrite app_nil_r in Hw.
    destruct (convert_err i) as [e|] eqn:He; [injection E as <- <-; naive_solver|].
    destruct ok; injection E as <- <-; [|naive_solver]. split_and!; [done|done| |done|done]. exists ino. by rewrite <-Hw in Hino.
  - destruct Hst as (Hn & before & Hw & Hino). destruct ok; injection E as <- <-; [|naive_solver]. split; [by apply disk_set|].
    assert (forall q k, q <> tmp i -> k_names d !! q = Some k -> k_inodes (set_inode ino (write_at off bs (default [] (k_inodes d !! ino))) d) !! k = k_inodes d !! k) as Hset.
    { intros q k Hq Hk. by eapply set_other. }
    split_and!; [|split; [done|]| |done].
    + intros k Hk. rewrite (Hset (final i)) by done. by apply Hf.
    + exists (before ++ [(off, bs)]). rewrite <-app_assoc. split; [done|]. rewrite Hino. cbn. unfold apply_writes. rewrite foldl_app. cbn.
      apply list_lookup_insert_eq. by eapply dk_valid.
    + intros p Hp _. split; [done|]. intros k Hk. by eapply Hset.
  - destruct Hst as (ino & Hn & Hino & He). rewrite Hn in E. destruct ok; injection E as <- <-; [|by split_and!].
    destruct Hd as [H1 H2]. split_and!; [split| | | |].
    + intros p q k Hp Hq. cbn in *. apply lookup_insert_Some in Hp as [[<- <-]|[Hp Hp']], Hq as [[<- Hq]|[Hq Hq']];
        rewrite ?lookup_delete_Some in *; try done; subst; naive_solver.
    + intros p k Hp. cbn in *. apply lookup_insert_Some in Hp as [[<- <-]|[_ Hp]]; [by eapply H2|]. apply lookup_delete_Some in Hp as [_ Hp]. by eapply H2.
    + intros k Hk. cbn in *. rewrite lookup_insert_eq in Hk. by injection Hk as <-.
    + cbn. by rewrite lookup_insert_eq.
    + intros p Hp Hp'. cbn. by rewrite lookup_insert_ne, lookup_delete_ne.
    + intros _. cbn. by rewrite lookup_insert_eq.
  - done.
Qed.

(** The whole cache. *)
Record cache_ok (c : cache) : Prop := {
  co_disk : disk_ok (ca_disk c);
  co_final : forall i, i ∈ images -> final_ok (ca_disk c) i;
  co_stage : forall k p, ca_pulls c !! k = Some p -> pl_image p ∈ images /\ stage_ok (ca_disk c) (pl_image p) (pl_stage p);
  co_alone : forall k k' p p' i, ca_pulls c !! k = Some p -> ca_pulls c !! k' = Some p' -> active i p -> active i p' -> k = k'
}.

Lemma stage_elsewhere i j d d' st :
  distinct_dirs -> i ∈ images -> j ∈ images -> i <> j -> elsewhere i d d' -> stage_ok d j st -> stage_ok d' j st.
Proof.
  intros Hd Hi Hj Hij He. assert (tmp j <> tmp i /\ tmp j <> final i /\ final j <> tmp i /\ final j <> final i) as (N1 & N2 & N3 & N4).
  { split_and!; [intros E; by apply Hij, (tmp_inj i j)|intros E; by apply (final_tmp_ne i j)|by apply final_tmp_ne|intros E; by apply Hij, (final_inj i j)]. }
  destruct (He (tmp j)) as [T1 T2]; [done..|]. destruct (He (final j)) as [F1 F2]; [done..|].
  destruct st as [| |ino todo| |[e|]]; cbn; try done.
  - intros (Hn & before & Hw & Hino). split; [by rewrite T1|]. exists before. split; [done|]. by rewrite (T2 _ Hn).
  - intros (ino & Hn & Hino & Hc). exists ino. by rewrite T1, (T2 _ Hn).
  - by rewrite F1.
Qed.

Lemma cache_step_ok a c c' :
  distinct_dirs -> (forall i, a = AStart i -> i ∈ images) -> cache_ok c -> cache_step true a c = Some c' -> cache_ok c'.
Proof.
  intros Hd Ha [Hdisk Hfin Hst Hal] E. destruct a as [i|k ok|]; cbn [Images.cache_step] in E.
  - cbn in E. case_bool_decide as Hact; [done|]. injection E as <-. split; cbn [ca_disk ca_pulls]; [done|done| |].
    + intros k p [Hk|[_ Hk]]%lookup_app_Some; [by eapply Hst|]. apply list_lookup_singleton_Some in Hk as [_ <-]. split; [by apply Ha|done].
    + assert (forall k p, ca_pulls c !! k = Some p -> ~ active i p) as Hno.
      { intros k p Hk Hp. apply Hact, Exists_exists. exists p. split; [by eapply list_elem_of_lookup_2|done]. }
      intros k k' p p' j [Hk|[Hk1 Hk]]%lookup_app_Some [Hk'|[Hk1' Hk']]%lookup_app_Some Hp Hp'; [by eapply Hal|..].
      * apply list_lookup_singleton_Some in Hk' as [_ <-]. destruct Hp' as [<- _]. by destruct (Hno _ _ Hk).
      * apply list_lookup_singleton_Some in Hk as [_ <-]. destruct Hp as [<- _]. by destruct (Hno _ _ Hk').
      * apply list_lookup_singleton_Some in Hk as [Hk _], Hk' as [Hk' _]. lia.
  - destruct (ca_pulls c !! k) as [p|] eqn:Hk; [|done]. destruct (Hst _ _ Hk) as [Hpi Hps].
    destruct (pull_step _ ok _ _) as [[d' st']|] eqn:Hp; [|done]. injection E as <-.
    destruct (pull_step_ok _ _ _ _ _ _ Hd Hpi Hdisk (Hfin _ Hpi) Hps Hp) as (Hd' & Hf' & Hs' & He' & Hsome).
    assert (match pl_stage p with Ended _ => False | _ => True end) as Hlive by (by destruct (pl_stage p)).
    split; cbn [ca_disk ca_pulls]; [done| | |].
    + intros j Hj. destruct (decide (pl_image p = j)) as [<-|Hne]; [done|]. intros ino Hino.
      destruct (He' (final j)) as [H1 H2]; [by apply final_tmp_ne|intros E; by apply Hne, (final_inj (pl_image p) j)|].
      rewrite H1 in Hino. rewrite (H2 _ Hino). by apply (Hfin j).
    + intros k' q Hq. apply list_lookup_insert_Some in Hq as [(<- & <- & _)|(Hne & Hq)]; [done|]. destruct (Hst _ _ Hq) as [Hqi Hqs].
      split; [done|]. destruct (decide (pl_image p = pl_image q)) as [Heq|Hij]; [|by apply (stage_elsewhere (pl_image p) (pl_image q) (ca_disk c) d')].
      destruct (pl_stage q) as [| |ino todo| |[e|]] eqn:Hsq; try done; [..|rewrite <-Heq; apply Hsome; by rewrite Heq].
      all: exfalso; apply Hne, (Hal _ _ _ _ (pl_image p) Hk Hq); [by split|by rewrite Heq; split; [|rewrite Hsq]].
    + assert (forall k1 p1 j, <[k:=Pull (pl_image p) st']> (ca_pulls c) !! k1 = Some p1 -> active j p1 ->
        exists p0, ca_pulls c !! k1 = Some p0 /\ active j p0) as Hback.
      { intros k1 p1 j H1 Hact. apply list_lookup_insert_Some in H1 as [(<- & <- & _)|(_ & H1)]; [|by exists p1].
        exists p. split; [done|]. by split; [apply Hact|]. }
      intros k1 k2 p1 p2 j H1 H2 A1 A2. destruct (Hback _ _ _ H1 A1) as (q1 & Q1 & B1), (Hback _ _ _ H2 A2) as (q2 & Q2 & B2). by eapply Hal.
  - injection E as <-. split; cbn; [done|done|by intros k p ?|by intros k k' p p' i ?].
Qed.

Lemma cache_run_ok l c c' :
  distinct_dirs -> Forall (fun a => forall i, a = AStart i -> i ∈ images) l -> cache_ok c -> cache_run true l c = Some c' -> cache_ok c'.
Proof.
  intros Hd Hl. revert c. induction Hl as [|a l Ha _ IH]; intros c Hc E; cbn in E; [by injection E as <-|].
  apply bind_Some in E as (c1 & E1 & E). by eapply IH; [eapply cache_step_ok|].
Qed.

Lemma cache_ok_empty : cache_ok (Cache (Disk ∅ []) []).
Proof. split; cbn; [split|..]; cbn; intros; done. Qed.

(** C24 The cache holds whole images only: when no two pulls of one image
    overlap, then at every point of any interleaving of pulls, with any calls
    failing and the agent dying at any time, a cached image is a file with
    everything its conversion writes, of a conversion that succeeded; and a
    pull that has returned without an error has its image in the cache. *)
Theorem cache_holds_whole_images l c i ino :
  distinct_dirs -> Forall (fun a => forall j, a = AStart j -> j ∈ images) l ->
  cache_run true l (Cache (Disk ∅ []) []) = Some c -> i ∈ images ->
  (k_names (ca_disk c) !! final i = Some ino -> k_inodes (ca_disk c) !! ino = Some (whole i) /\ convert_err i = None) /\
  (forall k, ca_pulls c !! k = Some (Pull i (Ended None)) -> is_Some (k_names (ca_disk c) !! final i)).
Proof.
  intros Hd Hl Hr Hi. destruct (cache_run_ok l _ c Hd Hl cache_ok_empty Hr) as [_ Hf Hs _]. split; [by apply Hf|].
  intros k Hk. by apply (Hs _ _ Hk).
Qed.
End CacheProofs.

(** *** Examples *)

Definition ex_dir (image : string) : string := cache_dir (fun _ => [171; 205; 1; 2; 3; 4; 5; 6; 7]%Z) "/var/images" image.
Definition ex_writes (_ : string) : list (nat * bytes) := [(2, [7; 8]%Z); (0, [1]%Z)].
Definition ex_err (image : string) : option string := if bool_decide (image = "bad") then Some "reading tar" else None.

Example cache_paths : ex_dir "Docker.io/library/nginx:1.25" = "/var/images/abcd010203040506-docker.io-library-nginx-1.25".
Proof. vm_compute. reflexivity. Qed.

Definition ex_actions : list cache_action :=
  [AStart "nginx"; AStep 0 true; AStep 0 true; AStart "busybox"; AStep 0 true; ACrash; AStart "nginx"; AStep 0 true; AStep 0 true;
   AStep 0 true; AStart "bad"; AStep 0 true; AStep 1 true; AStep 0 true; AStep 0 true].

Lemma cache_holds_whole_images_witness :
  exists c, cache_run ex_dir ex_writes ex_err true ex_actions (Cache (Disk ∅ []) []) = Some c /\
    k_names (ca_disk c) !! (ex_dir "nginx" +:+ ".erofs") = Some 0 /\ k_inodes (ca_disk c) !! 0 = Some (whole ex_writes "nginx").
Proof.
  destruct (cache_run ex_dir ex_writes ex_err true ex_actions (Cache (Disk ∅ []) [])) as [c|] eqn:E; [|vm_compute in E; discriminate E].
  exists c. split; [reflexivity|]. assert (k_names (ca_disk c) !! final ex_dir "nginx" = Some 0) as Hn.
  { vm_compute in E. injection E as <-. vm_compute. reflexivity. }
  split; [exact Hn|]. refine (proj1 (proj1 (cache_holds_whole_images ex_dir ex_writes ex_err ["nginx"; "busybox"; "bad"] ex_actions c "nginx" 0 _ _ E _) Hn)).
  - apply (bool_decide_unpack _). vm_compute. exact I.
  - repeat (apply Forall_cons; split; [intros j [= <-]; apply (bool_decide_unpack _); vm_compute; exact I|]). apply Forall_nil. exact I.
  - apply (bool_decide_unpack _). vm_compute. exact I.
Defined.

(** Two pods that need the same image at once share the temporary file: the
    one that is done first publishes a file the other has emptied, and the
    other's rename fails. Nothing in the code keeps pulls of one image apart. *)
Lemma overlapping_pulls_break_the_cache :
  exists c ino, cache_run ex_dir ex_writes ex_err false
      [AStart "nginx"; AStart "nginx"; AStep 0 true; AStep 1 true; AStep 0 true; AStep 0 true; AStep 0 true; AStep 0 true;
       AStep 1 true; AStep 0 true] (Cache (Disk ∅ []) []) = Some c /\
    ca_pulls c !! 0 = Some (Pull "nginx" (Ended None)) /\
    k_names (ca_disk c) !! (ex_dir "nginx" +:+ ".erofs") = Some ino /\ k_inodes (ca_disk c) !! ino = Some [].
Proof. eexists _, 0. split; [vm_compute; reflexivity|]. split_and!; vm_compute; reflexivity. Qed.

(** ** [untar] stays below its destination, as far as names go *)

Definition op_paths (o : untar_op) : list string :=
  match o with
  | UMkdirAll p | UChmod p | UWrite p | URemove p | USymlink _ p => [p]
  | ULink src p => [src; p]
  end.

Lemma untar_target_abs d name :
  d <> [] -> Forall plain d -> exists l, Forall plain l /\ untar_target (abs_path d) name = abs_path (d ++ l).
Proof.
  intros Hne Hd. unfold untar_target. assert (is_rooted ("/" +:+ name) = true) as Hr by apply HasPrefix_app.
  rewrite (Clean_rooted _ Hr). exists (clean_comps ("/" +:+ name)). pose proof (clean_comps_plain _ Hr).
  split; [done|]. by apply PathJoin_abs.
Qed.

(** The paths of an entry, and the source of a hard link, are inside the
    destination, unless the entry names the destination itself. *)
Lemma untar_names_inside d h :
  d <> [] -> Forall plain d -> untar_target (abs_path d) (h_Name h) <> abs_path d ->
  Forall (fun o => Forall (inside (abs_path d)) (op_paths o)) (untar_entry (abs_path d) h).
Proof.
  intros Hne Hd Ht. destruct (untar_target_abs d (h_Name h) Hne Hd) as (l & Hl & E).
  destruct (untar_target_abs d (h_Linkname h) Hne Hd) as (l' & _ & E').
  assert (inside (abs_path d) (untar_target (abs_path d) (h_Name h))) as H1 by (rewrite E; by apply inside_abs).
  assert (inside (abs_path d) (untar_target (abs_path d) (h_Linkname h))) as H2 by (rewrite E'; by apply inside_abs).
  assert (inside (abs_path d) (Dir (untar_target (abs_path d) (h_Name h)))) as H3.
  { rewrite E. destruct l as [|x l _] using rev_ind; [destruct Ht; by rewrite E, app_nil_r|]. rewrite app_assoc, Dir_abs; [by apply inside_abs|].
    rewrite <-app_assoc. by apply Forall_app. }
  unfold untar_entry. destruct (negb _ && _); [done|]. destruct (h_Typeflag h); cbn; repeat first [apply Forall_nil_2|apply Forall_cons_2|done].
Qed.
