(* ===== verification/ImageDir.v ===== *)
(** * Pulling images, in both modes (poc/agent/images.go, main.go)

    [ensureImage] from the look into the cache to the rename, as the sequence
    of calls it makes, any of which can fail: in block mode the conversion
    into a temporary file, which is [Erofs.Convert] with its crashes, in
    directory mode [untar] into a temporary directory. [Images] has the same pulls in block mode as interleaved steps
    on a disk; here is what one pull does, both modes, every exit. Last,
    [preparePod], which pulls the images of a pod. *)
From Stdlib Require Import Ascii.
From S2P Require Import Prelude GoStrings Pod StaticPods Erofs ErofsOut ErofsEntries ErofsSpec Images.

Inductive img_op :=
| IStat (p : string)                     (* fails when the file is not there *)
| IParse (image : string) | IFetch (image : string)
| IWriteConfig (p : string)
| ICreate (p : string) | IConvert (p : string) | IClose (p : string) | IRemove (p : string)
| IRemoveAll (p : string) | IMkdirAll (p : string) | INext | IUntar (o : untar_op) | IChmod (p : string)
| IRename (from to : string).
#[export] Instance untar_op_eq_dec : EqDecision untar_op.
Proof. solve_decision. Defined.
#[export] Instance img_op_eq_dec : EqDecision img_op.
Proof. solve_decision. Defined.

(** The calls so far. *)
Notation imgM := (stM (list img_op) string).

Section Pull.
Context (img_err : list img_op -> img_op -> option string) (Sum256 : string -> bytes) (imagesDir : string).
(** The platform the image's config names, when it can be read, and the
    entries of its flattened tar, with their contents. *)
Context (platform : string -> option (string * string)) (entries : string -> list (header * content)).
(** The entries after which the reader of the tar fails, if it does, and how
    many bytes the temporary file takes. *)
Context (tar_stop : list img_op -> option nat) (room : list img_op -> nat).

(** A call whose error is returned, wrapped; one whose error is dropped. *)
Definition img (wrap : string) (o : img_op) : imgM () := fun ops =>
  (ops ++ [o], match img_err ops o with Some e => Err (wrap +:+ e) | None => Ok () end).
Definition img_try (o : img_op) : imgM bool := fun ops => (ops ++ [o], Ok (bool_decide (img_err ops o = None))).

(** On an error, a call to clean up before it is returned. *)
Definition or_clean {A} (m : imgM A) (clean : img_op) : imgM A := fun ops =>
  match m ops with
  | (ops', Err e) => (ops' ++ [clean], Err e)
  | r => r
  end.

(** An error that is wrapped before it is returned. *)
Definition wrapped {A} (wrap : string) (m : imgM A) : imgM A := fun ops =>
  match m ops with
  | (ops', Err e) => (ops', Err (wrap +:+ e))
  | r => r
  end.

Fixpoint img_each {A} (f : A -> imgM ()) (l : list A) : imgM () :=
  match l with [] => mret () | x :: l' => f x ≫= fun _ => img_each f l' end.

(** The calls of [untar_entry] whose error ends the extraction. *)
Definition untar_fatal (h : header) (o : untar_op) : bool :=
  match o with
  | UMkdirAll _ => match h_Typeflag h with TypeDir => true | _ => false end
  | UChmod _ | URemove _ => false
  | UWrite _ | USymlink _ _ | ULink _ _ => true
  end.
Definition untar_call (h : header) (o : untar_op) : imgM () :=
  if untar_fatal h o then img "" (IUntar o) else img_try (IUntar o) ≫= fun _ => mret ().

(** [untar]: the reader can fail before each entry and at the end. *)
Definition untar (dest : string) (hs : list header) : imgM () :=
  img_each (fun h => img "" INext ≫= fun _ => img_each (untar_call h) (untar_entry dest h)) hs ≫= fun _ => img "" INext.

Definition image_dir (image : string) : string := cache_dir Sum256 imagesDir image.
Definition cached_at (block : bool) (image : string) : string := if block then image_dir image +:+ ".erofs" else image_dir image.

(** The temporary directories, whether or not the image has them. *)
Definition sticky_dirs (d : string) : imgM () :=
  img_each (fun sub => img_try (IMkdirAll (PathJoin [d; sub])) ≫= fun _ => img_try (IChmod (PathJoin [d; sub])) ≫= fun _ => mret ()) ["tmp"; "var/tmp"].

(** The temporary name of a pull. *)
Definition tmp_of (block : bool) (image : string) : string := image_dir image +:+ (if block then ".erofs.tmp" else ".tmp").

(** The end of both modes. In block mode the file's size is logged, without a
    look at the error of [Stat]. *)
Definition publish (block : bool) (image : string) : imgM string :=
  img "" (IRename (tmp_of block image) (cached_at block image)) ≫= fun _ =>
  if block then
    img_try (IStat (cached_at block image)) ≫= fun there : bool =>
    if there then mret (image_dir image) else st_lift (Crash NilDeref)
  else mret (image_dir image).

(** [erofs.Convert], on what the reader of the tar gives. *)
Definition tar_read (ops : list img_op) (image : string) : list (header * content) * bool :=
  match tar_stop ops with Some k => (take k (entries image), true) | None => (entries image, false) end.
Definition converted (ops : list img_op) (image : string) : result string bytes :=
  Convert (tar_read ops image).1 (tar_read ops image).2 (room ops).
Definition img_convert (image : string) : imgM () := fun ops =>
  (ops ++ [IConvert (tmp_of true image)], (fun _ => ()) <$> map_err (fun e => "converting image to erofs: " +:+ e) (converted ops image)).

Definition pull_block (image : string) : imgM string :=
  let tmp := tmp_of true image in
  img "" (ICreate tmp) ≫= fun _ =>
  or_clean (or_clean (img_convert image) (IClose tmp) ≫= fun _ => img "" (IClose tmp)) (IRemove tmp) ≫= fun _ =>
  publish true image.

Definition pull_dir (image : string) : imgM string :=
  let tmp := tmp_of false image in
  img_try (IRemoveAll tmp) ≫= fun _ =>
  img "" (IMkdirAll tmp) ≫= fun _ =>
  or_clean (wrapped "extracting image: " (untar tmp (entries image).*1)) (IRemoveAll tmp) ≫= fun _ =>
  sticky_dirs tmp ≫= fun _ => publish false image.

Definition ensureImage (block : bool) (image : string) : imgM string :=
  img_try (IStat (cached_at block image)) ≫= fun hit : bool =>
  if hit then mret (image_dir image)
  else
    img "parsing image reference: " (IParse image) ≫= fun _ =>
    img "fetching image: " (IFetch image) ≫= fun _ =>
    match platform image with
    | Some p =>
        if bool_decide (p <> ("linux", "arm64")) then st_fail ("image is " +:+ p.1 +:+ "/" +:+ p.2 +:+ "; this node runs only linux/arm64 microVMs (no emulation)")
        else img_try (IWriteConfig (image_dir image +:+ ".config.json")) ≫= fun _ => mret ()
    | None => mret ()
    end ≫= fun _ =>
    if block then pull_block image else pull_dir image.

(** ** Names in the cache *)

Definition safe_name (image : string) : string := EncodeToString (take 8 (Sum256 image)) +:+ "-" +:+ map_string safe_char (ToLower image).

Lemma EncodeToString_no_slash l : Forall is_byte l -> no_char slash (EncodeToString l).
Proof.
  induction 1 as [|b l Hb _ IH]; [done|]. cbn [EncodeToString has_char].
  pose proof (byte_cases (fun b => negb (Ascii.eqb (hex_char (b / 16)) slash) && negb (Ascii.eqb (hex_char (b mod 16)) slash)) ltac:(vm_compute; reflexivity) b Hb) as H.
  apply andb_true_iff in H as [H1%negb_true_iff H2%negb_true_iff]. by rewrite H1, H2, IH.
Qed.
Lemma safe_no_slash s : no_char slash (map_string safe_char s).
Proof.
  induction s as [|a s IH]; [done|]. cbn [map_string has_char]. rewrite IH, orb_false_r.
  by destruct a as [[] [] [] [] [] [] [] []]; vm_compute.
Qed.

(** Where an image goes, when the directory of the images is an absolute path. *)
Lemma image_dir_abs ds image suffix : imagesDir = abs_path ds -> ds <> [] -> Forall plain ds -> Forall is_byte (Sum256 image) ->
  no_char slash suffix -> image_dir image +:+ suffix = abs_path (ds ++ [safe_name image +:+ suffix]) /\ Forall plain (ds ++ [safe_name image +:+ suffix]).
Proof.
  intros Hdir Hne Hd Hb Hs. assert (no_char slash (safe_name image)) as Hn.
  { unfold safe_name. rewrite !has_char_app, EncodeToString_no_slash, safe_no_slash by (by apply Forall_take). done. }
  assert (forall suffix, no_char slash suffix -> plain (safe_name image +:+ suffix)) as Hp.
  { intros x Hx. assert (has_char "-"%char (safe_name image +:+ x) = true) as Hdash.
    { unfold safe_name. rewrite !has_char_app. cbn [has_char]. by rewrite Ascii.eqb_refl, !orb_true_r. }
    split_and!; [intros E; by rewrite E in Hdash..|]. by rewrite has_char_app, Hn. }
  split; [|apply Forall_app; split; [done|]; by constructor; [apply Hp|]].
  change (image_dir image) with (PathJoin [imagesDir; safe_name image]). rewrite Hdir, (PathJoin_plain ds [safe_name image]); [|done|].
  - rewrite !abs_path_app by done. by rewrite !str_app_assoc.
  - constructor; [|done]. rewrite <-(str_app_nil_r (safe_name image)). by apply Hp.
Qed.

(** ** What a pull has done *)

Definition img_ok (o : img_op) (ops : list img_op) : Prop := exists l1 l2, ops = l1 ++ o :: l2 /\ img_err l1 o = None.

(** [m] only adds calls, none of them a rename. *)
Definition no_rename {A} (m : imgM A) : Prop :=
  forall ops ops' r, m ops = (ops', r) -> exists l, ops' = ops ++ l /\ Forall (fun o => forall a b, o <> IRename a b) l.

Lemma nr_bind {A B} (m : imgM A) (f : A -> imgM B) : no_rename m -> (forall a, no_rename (f a)) -> no_rename (m ≫= f).
Proof.
  intros Hm Hf ops ops' r H. unfold mbind, stM_bind in H. destruct (m ops) as [o1 [a|e|c]] eqn:E; apply Hm in E as (l1 & -> & F1).
  - apply Hf in H as (l2 & -> & F2). exists (l1 ++ l2). rewrite app_assoc. split; [done|by apply Forall_app].
  - injection H as <- <-. by exists l1.
  - injection H as <- <-. by exists l1.
Qed.
Lemma nr_ret {A} (a : A) : no_rename (mret (M:=imgM) a).
Proof. intros ops ops' r [= <- <-]. exists []. by rewrite app_nil_r. Qed.
Lemma nr_img w o : (forall a b, o <> IRename a b) -> no_rename (img w o).
Proof. intros Ho ops ops' r [= <- <-]. exists [o]. by repeat constructor. Qed.
Lemma nr_try o : (forall a b, o <> IRename a b) -> no_rename (img_try o).
Proof. intros Ho ops ops' r [= <- <-]. exists [o]. by repeat constructor. Qed.
Lemma nr_each {A} (f : A -> imgM ()) l : (forall x, no_rename (f x)) -> no_rename (img_each f l).
Proof. intros Hf. induction l as [|x l IH]; [apply nr_ret|]. apply nr_bind; [done|by intros _]. Qed.
Lemma nr_clean {A} (m : imgM A) o : (forall a b, o <> IRename a b) -> no_rename m -> no_rename (or_clean m o).
Proof.
  intros Ho Hm ops ops' r H. unfold or_clean in H. destruct (m ops) as [o1 [a|e|c]] eqn:E; apply Hm in E as (l & -> & F); injection H as <- <-.
  - by exists l.
  - exists (l ++ [o]). rewrite app_assoc. split; [done|]. apply Forall_app. by repeat constructor.
  - by exists l.
Qed.

Lemma nr_wrapped {A} w (m : imgM A) : no_rename m -> no_rename (wrapped w m).
Proof.
  intros Hm ops ops' r H. unfold wrapped in H. destruct (m ops) as [o1 [a|e|c]] eqn:E; apply Hm in E as (l & -> & F); injection H as <- <-; by exists l.
Qed.

Lemma nr_untar dest hs : no_rename (untar dest hs).
Proof.
  apply nr_bind; [|intros _; by apply nr_img]. apply nr_each. intros h. apply nr_bind; [by apply nr_img|]. intros _. apply nr_each. intros o.
  unfold untar_call. destruct (untar_fatal h o); [by apply nr_img|]. apply nr_bind; [by apply nr_try|]. intros _. apply nr_ret.
Qed.

Lemma img_ok_app o l k : img_ok o l -> img_ok o (l ++ k).
Proof. intros (l1 & l2 & -> & He). exists l1, (l2 ++ k). by rewrite <-app_assoc. Qed.
Lemma img_call_ok w o ops ops' : img w o ops = (ops', Ok ()) -> ops' = ops ++ [o] /\ img_ok o ops'.
Proof. unfold img. intros [= <- H]. destruct (img_err ops o) eqn:E; [done|]. split; [done|]. by exists ops, []. Qed.

(** A loop that ends well has had each of its rounds end well. *)
Lemma each_ok {A} (f : A -> imgM ()) l x : (forall x, no_rename (f x)) -> x ∈ l -> forall ops ops', img_each f l ops = (ops', Ok ()) ->
  exists o1 o2 k, f x o1 = (o2, Ok ()) /\ ops' = o2 ++ k.
Proof.
  intros Hf. induction l as [|y l IH]; intros Hx ops ops' H; [by apply elem_of_nil in Hx|].
  apply st_bind_ok in H as (o1 & [] & H1 & H2). apply elem_of_cons in Hx as [->|Hx]; [|by eapply IH].
  destruct (nr_each f l Hf _ _ _ H2) as (k & -> & _). by exists ops, o1, k.
Qed.

Lemma nr_untar_call h o : no_rename (untar_call h o).
Proof. unfold untar_call. destruct (untar_fatal h o); [by apply nr_img|]. apply nr_bind; [by apply nr_try|intros _; apply nr_ret]. Qed.

Lemma untar_ok dest hs ops ops' : untar dest hs ops = (ops', Ok ()) ->
  forall h o, h ∈ hs -> o ∈ untar_entry dest h -> untar_fatal h o = true -> img_ok (IUntar o) ops'.
Proof.
  intros H h o Hh Ho Hf. apply st_bind_ok in H as (s1 & [] & H1 & [-> _]%img_call_ok).
  assert (forall h, no_rename (img "" INext ≫= fun _ => img_each (untar_call h) (untar_entry dest h))) as Hnr.
  { intros h'. apply nr_bind; [by apply nr_img|]. intros _. apply nr_each, nr_untar_call. }
  destruct (each_ok _ hs h Hnr Hh _ _ H1) as (o1 & o2 & k & Hr & ->). apply st_bind_ok in Hr as (o3 & [] & _ & Hr).
  destruct (each_ok _ _ o (nr_untar_call h) Ho _ _ Hr) as (o4 & o5 & k' & Hc & ->). unfold untar_call in Hc. rewrite Hf in Hc.
  apply img_call_ok in Hc as [_ Hc]. rewrite <-!app_assoc. by apply img_ok_app.
Qed.

(** [m] crashes only after calls of which [P] holds. *)
Definition crashes_so (P : list img_op -> Prop) {A} (m : imgM A) : Prop := forall ops ops' c, m ops = (ops', Crash c) -> P ops'.
Section CrashesSo.
Context (P : list img_op -> Prop).
Lemma cs_bind {A B} (m : imgM A) (f : A -> imgM B) : crashes_so P m -> (forall a, crashes_so P (f a)) -> crashes_so P (m ≫= f).
Proof.
  intros Hm Hf ops ops' c. unfold mbind, stM_bind. destruct (m ops) as [o1 [a|e|c']] eqn:E; [apply Hf|done|]. intros [= <- <-]. by eapply Hm.
Qed.
Lemma cs_img w o : crashes_so P (img w o).
Proof. intros ops ops' c. unfold img. by destruct (img_err ops o). Qed.
Lemma cs_each {A} (f : A -> imgM ()) l : (forall x, crashes_so P (f x)) -> crashes_so P (img_each f l).
Proof. intros Hf. induction l as [|x l IH]; [done|]. apply cs_bind; [done|by intros _]. Qed.
Lemma cs_clean {A} (m : imgM A) o : crashes_so P m -> crashes_so P (or_clean m o).
Proof. intros Hm ops ops' c. unfold or_clean. destruct (m ops) as [o1 [b|e|c']] eqn:E; [done|done|]. intros [= <- <-]. by eapply Hm. Qed.
Lemma cs_wrapped {A} w (m : imgM A) : crashes_so P m -> crashes_so P (wrapped w m).
Proof. intros Hm ops ops' c. unfold wrapped. destruct (m ops) as [o1 [b|e|c']] eqn:E; [done|done|]. intros [= <- <-]. by eapply Hm. Qed.
End CrashesSo.
Ltac no_crash := repeat first
  [ done | apply cs_img | apply cs_bind; [|intros ?] | apply cs_each; intros ? | apply cs_clean | apply cs_wrapped | case_match ].

(** The two crashes of a pull, both in block mode: the image just renamed into
    the cache is gone when its size is to be logged, and a conversion of a tar
    stream that is not well-formed (or into a file beyond the format's limit). *)
Definition gone_again (image : string) (ops : list img_op) : Prop :=
  exists pre, let ren := IRename (tmp_of true image) (cached_at true image) in
    ops = pre ++ [ren; IStat (cached_at true image)] /\ img_err pre ren = None /\ img_err (pre ++ [ren]) (IStat (cached_at true image)) <> None.
Definition conversion_crashed (image : string) (ops : list img_op) : Prop :=
  exists pre k, ops = pre ++ [IConvert (tmp_of true image)] /\ converted pre image = Crash k /\
    ~ (tar_wf [] (entries image) /\ (Z.of_nat (room pre) <= size_limit)%Z).
Definition crash_cause (block : bool) (image : string) (ops : list img_op) : Prop :=
  block = true /\ (gone_again image ops \/ conversion_crashed image ops).

Lemma convert_crash_cause image : crashes_so (crash_cause true image) (img_convert image).
Proof.
  intros ops ops' c H. unfold img_convert in H. injection H as <- H. split; [done|]. right. exists ops.
  destruct (converted ops image) as [|e|k] eqn:E; [done..|]. exists k. split_and!; [done|done|]. intros [Hwf Hl].
  revert E. apply convert_no_crash; [|done]. unfold tar_read. destruct (tar_stop ops); [by apply tar_wf_take|done].
Qed.

Lemma publish_crash_cause block image : crashes_so (crash_cause block image) (publish block image).
Proof.
  intros ops ops' c H. unfold publish, mbind, stM_bind, img in H. destruct (img_err ops _) eqn:E; [done|]. destruct block; [|done].
  cbn in H. case_bool_decide as Hs; [done|]. injection H as <- _. split; [done|]. left. exists ops. by rewrite <-app_assoc.
Qed.

Lemma ensureImage_crash block image : crashes_so (crash_cause block image) (ensureImage block image).
Proof.
  unfold ensureImage. apply cs_bind; [done|]. intros []; [done|]. do 3 (apply cs_bind; [no_crash|]; intros _). destruct block.
  - unfold pull_block. cbn zeta. apply cs_bind; [no_crash|]. intros _. apply cs_bind; [|intros _; apply publish_crash_cause].
    apply cs_clean, cs_bind; [|intros _; no_crash]. apply cs_clean, convert_crash_cause.
  - unfold pull_dir, untar, sticky_dirs, untar_call. cbn zeta. do 4 (apply cs_bind; [no_crash|]; intros _). apply publish_crash_cause.
Qed.

(** A failing [m] has renamed nothing. *)
Definition unpublished {A} (m : imgM A) : Prop := forall ops ops' e, m ops = (ops', Err e) ->
  exists l, ops' = ops ++ l /\ forall l1 l2 a b, l = l1 ++ IRename a b :: l2 -> img_err (ops ++ l1) (IRename a b) <> None.

Lemma renames_none {A} (m : imgM A) : no_rename m -> unpublished m.
Proof.
  intros Hm ops ops' e H. apply Hm in H as (l & -> & F). exists l. split; [done|]. intros l1 l2 a b -> _.
  apply Forall_app in F as [_ [F _]%Forall_cons]. by eapply F.
Qed.
Lemma unpublished_bind {A B} (m : imgM A) (f : A -> imgM B) : no_rename m -> (forall a, unpublished (f a)) -> unpublished (m ≫= f).
Proof.
  intros Hm Hf ops ops' e H. unfold mbind, stM_bind in H. destruct (m ops) as [o1 [a|e'|c]] eqn:E; [|injection H as -> ->; by eapply renames_none|done].
  apply Hm in E as (l & -> & F). apply Hf in H as (l' & -> & H). exists (l ++ l'). split; [by rewrite app_assoc|].
  intros l1 l2 x y El. apply app_eq_inv in El as [(k & -> & Ek)|(k & -> & ->)].
  - destruct k as [|o k]; cbn in Ek; [|injection Ek as <- _; apply Forall_app in F as [_ [F _]%Forall_cons]; by destruct (F x y)].
    specialize (H [] l2 x y (eq_sym Ek)). by rewrite !app_nil_r in H.
  - rewrite app_assoc. by apply (H k l2).
Qed.
Lemma unpublished_publish block image : unpublished (publish block image).
Proof.
  intros ops ops' e H. unfold publish, mbind, stM_bind, img in H. destruct (img_err ops (IRename _ _)) eqn:E.
  2: { destruct block; [|done]. cbn in H. by case_bool_decide. }
  injection H as <- _. eexists [_]. split; [done|]. intros [|? [|]] l2 x y [= <- <- ?]; try done. rewrite app_nil_r. by rewrite E.
Qed.

Lemma nr_sticky d : no_rename (sticky_dirs d).
Proof. apply nr_each. intros sub. apply nr_bind; [by apply nr_try|]. intros _. apply nr_bind; [by apply nr_try|]. intros _. apply nr_ret. Qed.

Lemma nr_convert image tmp : no_rename (or_clean (or_clean (img_convert image) (IClose tmp) ≫= fun _ => img "" (IClose tmp)) (IRemove tmp)).
Proof.
  apply nr_clean; [done|]. apply nr_bind; [|intros _; by apply nr_img]. apply nr_clean; [done|].
  intros ops ops' r [= <- <-]. eexists [_]. split; [done|]. by repeat constructor.
Qed.

Lemma nr_platform image : no_rename (match platform image with
    | Some p =>
        if bool_decide (p <> ("linux", "arm64")) then st_fail ("image is " +:+ p.1 +:+ "/" +:+ p.2 +:+ "; this node runs only linux/arm64 microVMs (no emulation)")
        else img_try (IWriteConfig (image_dir image +:+ ".config.json")) ≫= fun _ => mret ()
    | None => mret ()
    end).
Proof.
  destruct (platform image) as [p|]; [|apply nr_ret]. case_bool_decide; [|apply nr_bind; [by apply nr_try|intros _; apply nr_ret]].
  intros ops ops' r [= <- <-]. exists []. by rewrite app_nil_r.
Qed.

Lemma clean_ok {A} (m : imgM A) o ops ops' a : or_clean m o ops = (ops', Ok a) -> m ops = (ops', Ok a).
Proof. unfold or_clean. destruct (m ops) as [o1 [b|e|c]]; [by intros [= <- <-]|done..]. Qed.
Lemma wrapped_ok {A} w (m : imgM A) ops ops' a : wrapped w m ops = (ops', Ok a) -> m ops = (ops', Ok a).
Proof. unfold wrapped. destruct (m ops) as [o1 [b|e|c]]; [by intros [= <- <-]|done..]. Qed.

Lemma Convert_read_error es limit img : Convert es true limit <> Ok img.
Proof. unfold Convert. by destruct (add_entries es _). Qed.
Lemma img_convert_ok image ops ops' : img_convert image ops = (ops', Ok ()) ->
  exists img, ops' = ops ++ [IConvert (tmp_of true image)] /\ Convert (entries image) false (room ops) = Ok img.
Proof.
  unfold img_convert, converted, tar_read. intros [= <- H]. destruct (tar_stop ops).
  - cbn [fst snd] in H. destruct (Convert _ true _) eqn:E; [by apply Convert_read_error in E|done..].
  - cbn [fst snd] in H. destruct (Convert _ false _) as [img| |]; [by exists img|done..].
Qed.

(** What the entry of the tar is unpacked to; other kinds are skipped. *)
Definition delivered (dest : string) (h : header) : option untar_op :=
  let target := untar_target dest (h_Name h) in
  match h_Typeflag h with
  | TypeDir => Some (UMkdirAll target)
  | TypeReg => Some (UWrite target)
  | TypeSymlink => Some (USymlink (h_Linkname h) target)
  | TypeLink => Some (ULink (untar_target dest (h_Linkname h)) target)
  | _ => None
  end.
(** No entry of an absolute destination is skipped for its name. *)
Lemma delivered_entry d h o : d <> [] -> Forall plain d -> delivered (abs_path d) h = Some o ->
  o ∈ untar_entry (abs_path d) h /\ untar_fatal h o = true.
Proof.
  intros Hne Hd Ho. unfold untar_entry. destruct (untar_target_abs d (h_Name h) Hne Hd) as (l & _ & Et).
  rewrite (Clean_abs _ Hd). assert (negb (HasPrefix (untar_target (abs_path d) (h_Name h)) (abs_path d +:+ "/")) &&
    bool_decide (untar_target (abs_path d) (h_Name h) <> abs_path d) = false) as ->.
  { rewrite Et. destruct (inside_abs d l Hne) as [E| ->]; [|done]. rewrite (bool_decide_false (_ <> _)) by (by intros []). apply andb_false_r. }
  unfold delivered, untar_fatal in *. destruct (h_Typeflag h); injection Ho as <- || discriminate Ho; split; try done;
    rewrite ?elem_of_cons; auto.
Qed.

(** The image is whole under its temporary name: in block mode, what [Convert]
    makes of all its entries. *)
Definition unpacked (block : bool) (image : string) (ops : list img_op) : Prop :=
  if block then
    (exists l1 l2 img, ops = l1 ++ IConvert (tmp_of block image) :: l2 /\ Convert (entries image) false (room l1) = Ok img) /\
    img_ok (IClose (tmp_of block image)) ops
  else (forall h o, h ∈ (entries image).*1 -> delivered (tmp_of block image) h = Some o -> img_ok (IUntar o) ops) /\
       Forall (fun sub : string => IChmod (PathJoin [tmp_of block image; sub]) ∈ ops) ["tmp"; "var/tmp"].

(** What follows the rename. *)
Definition after_rename (block : bool) (image : string) : list img_op := if block then [IStat (cached_at block image)] else [].
Definition published (block : bool) (image : string) (ops : list img_op) : Prop :=
  exists pre, let ren := IRename (tmp_of block image) (cached_at block image) in
    ops = pre ++ ren :: after_rename block image /\ img_err pre ren = None /\ unpacked block image pre.

Lemma publish_ok (block : bool) image (pre ops' : list img_op) (d : string) : publish block image pre = (ops', Ok d) ->
  d = image_dir image /\ let ren := IRename (tmp_of block image) (cached_at block image) in
    ops' = pre ++ ren :: after_rename block image /\ img_err pre ren = None.
Proof.
  intros H. apply st_bind_ok in H as (s1 & [] & Hr & H). unfold img in Hr. injection Hr as <- Hr.
  assert (img_err pre (IRename (tmp_of block image) (cached_at block image)) = None) as He by (by destruct (img_err pre _)).
  destruct block; [|by apply st_ret_ok in H as [-> ->]]. apply st_bind_ok in H as (s2 & there & Ht & H). injection Ht as <- <-.
  case_bool_decide; [|done]. apply st_ret_ok in H as [-> ->]. by rewrite <-app_assoc.
Qed.

Lemma pull_ok ds (block : bool) image (ops ops' : list img_op) (d : string) :
  imagesDir = abs_path ds -> ds <> [] -> Forall plain ds -> Forall is_byte (Sum256 image) ->
  (if block then pull_block image else pull_dir image) ops = (ops', Ok d) ->
  d = image_dir image /\ published block image ops'.
Proof.
  intros Hdir Hne Hds Hb. destruct block; intros H.
  - apply st_bind_ok in H as (s1 & [] & _ & H). apply st_bind_ok in H as (s2 & [] & Hc%clean_ok & H). apply publish_ok in H as (-> & -> & He).
    split; [done|]. exists s2. split_and!; [done|done|].
    apply st_bind_ok in Hc as (s3 & [] & Hc%clean_ok%img_convert_ok & [-> Hcl]%img_call_ok). split; [|done].
    destruct Hc as (img & -> & Hc). exists s1, [IClose (tmp_of true image)], img. by rewrite <-app_assoc.
  - apply st_bind_ok in H as (s1 & _ & _ & H). apply st_bind_ok in H as (s2 & [] & _ & H).
    apply st_bind_ok in H as (s3 & [] & Hu%clean_ok%wrapped_ok & H). apply st_bind_ok in H as (s4 & [] & Hs & H). apply publish_ok in H as (-> & -> & He).
    split; [done|]. exists s4. split_and!; [done|done|]. pose proof (untar_ok _ _ _ _ Hu) as Huo.
    injection Hs as <-. split.
    + intros h o Hh Ho. rewrite <-!app_assoc. apply img_ok_app. destruct (image_dir_abs ds image ".tmp" Hdir Hne Hds Hb eq_refl) as [Et Hp].
      unfold tmp_of in Ho, Huo. rewrite Et in Ho, Huo. apply delivered_entry in Ho as [Ho Hf]; [by apply (Huo h o)|by destruct ds|done].
    + repeat constructor; set_solver.
Qed.

(** C25 A pull publishes whole images only: [ensureImage] returns the image's
    place in the cache either because it found it there, or after it renamed
    to it, in block mode, what [Convert] makes of all entries of the image, in
    directory mode a directory where every directory, file, symlink and hard
    link of the image was made and the temporary directories opened up; if the
    image's config could be read it is then for linux/arm64, otherwise that is
    not looked at. When it fails, at whatever call, it has renamed nothing. It
    crashes only in block mode: where a file it has just renamed is gone when
    its size is to be logged, or in a conversion, which is only for a tar
    stream that is not well-formed (as one whose root is a regular file) or a
    file larger than the format allows. *)
Theorem image_pull_exact ds block image ops ops' r :
  imagesDir = abs_path ds -> ds <> [] -> Forall plain ds -> Forall is_byte (Sum256 image) -> ensureImage block image ops = (ops', r) ->
  match r with
  | Ok d => d = image_dir image /\
      (img_err ops (IStat (cached_at block image)) = None /\ ops' = ops ++ [IStat (cached_at block image)] \/
       published block image ops' /\ forall p, platform image = Some p -> p = ("linux", "arm64"))
  | Err e => exists l, ops' = ops ++ l /\ forall l1 l2 a b, l = l1 ++ IRename a b :: l2 -> img_err (ops ++ l1) (IRename a b) <> None
  | Crash _ => block = true /\ (gone_again image ops' \/ conversion_crashed image ops')
  end.
Proof.
  intros Hdir Hne Hds Hb H. destruct r as [d|e|c].
  - unfold ensureImage in H. apply st_bind_ok in H as (s1 & hit & Hh & H). injection Hh as <- <-. case_bool_decide as Hc.
    { apply st_ret_ok in H as [-> ->]. split; [done|]. by left. }
    apply st_bind_ok in H as (s2 & [] & _ & H). apply st_bind_ok in H as (s3 & [] & _ & H). apply st_bind_ok in H as (s4 & [] & Hp & H).
    apply (pull_ok ds) in H as (-> & Hu); [|done..]. split; [done|]. right. split; [done|].
    intros p Ep. rewrite Ep in Hp. case_bool_decide as Hq; [done|]. destruct (decide (p = ("linux", "arm64"))); [done|by destruct Hq].
  - revert ops ops' e H. change (unpublished (ensureImage block image)). unfold ensureImage. apply unpublished_bind; [by apply nr_try|].
    intros []; [apply renames_none, nr_ret|]. apply unpublished_bind; [by apply nr_img|]. intros _. apply unpublished_bind; [by apply nr_img|]. intros _.
    apply unpublished_bind; [apply nr_platform|]. intros _. destruct block.
    + apply unpublished_bind; [by apply nr_img|]. intros _. apply unpublished_bind; [apply nr_convert|]. intros _. apply unpublished_publish.
    + apply unpublished_bind; [by apply nr_try|]. intros _. apply unpublished_bind; [by apply nr_img|]. intros _.
      apply unpublished_bind; [apply nr_clean; [done|apply nr_wrapped, nr_untar]|]. intros _. apply unpublished_bind; [apply nr_sticky|]. intros _. apply unpublished_publish.
  - exact (ensureImage_crash block image _ _ _ H).
Qed.

(** ** [preparePod] *)

Context (quote : string -> string).

Fixpoint prepare_images (block : bool) (images : list string) (bases : gmap string string) : imgM (gmap string string) :=
  match images with
  | [] => mret bases
  | i :: l =>
      match bases !! i with
      | Some _ => prepare_images block l bases
      | None => wrapped ("pulling image " +:+ quote i +:+ ": ") (ensureImage block i) ≫= fun base => prepare_images block l (<[i := base]> bases)
      end
  end.

Definition preparePod (block : bool) (workDir : string) (pod : Pod) : imgM (string * gmap string string) :=
  if bool_decide (p_Containers pod = []) then st_fail "no containers"
  else
    prepare_images block (ct_Image <$> allContainers pod) ∅ ≫= fun bases =>
    let dir := PathJoin [workDir; p_UID pod] in
    img "" (IMkdirAll dir) ≫= fun _ => mret (dir, bases).

Lemma ensureImage_dir block image ops ops' d : ensureImage block image ops = (ops', Ok d) -> d = image_dir image.
Proof.
  intros H. apply st_bind_ok in H as (s1 & hit & _ & H). destruct hit; [by apply st_ret_ok in H as [_ ->]|].
  do 3 apply st_bind_ok in H as (? & ? & _ & H). destruct block.
  - do 2 apply st_bind_ok in H as (? & ? & _ & H). by apply publish_ok in H as [-> _].
  - do 4 apply st_bind_ok in H as (? & ? & _ & H). by apply publish_ok in H as [-> _].
Qed.

(** Pulls, one after the other. *)
Inductive pulled_in_turn (block : bool) : list string -> list img_op -> list img_op -> Prop :=
| pit_nil ops : pulled_in_turn block [] ops ops
| pit_cons i l ops o1 o2 : ensureImage block i ops = (o1, Ok (image_dir i)) -> pulled_in_turn block l o1 o2 -> pulled_in_turn block (i :: l) ops o2.

Lemma prepare_images_ok block l : forall bases have ops ops' b,
  (forall i base, bases !! i = Some base -> base = image_dir i) -> (forall i, is_Some (bases !! i) <-> i ∈ have) ->
  prepare_images block l bases ops = (ops', Ok b) ->
  exists new, foldl (fun acc x => if decide (x ∈ acc) then acc else acc ++ [x]) have l = have ++ new /\ pulled_in_turn block new ops ops' /\
    (forall i base, b !! i = Some base -> base = image_dir i) /\ (forall i, is_Some (b !! i) <-> i ∈ have ++ new).
Proof.
  induction l as [|i l IH]; intros bases have ops ops' b Hb Hh H.
  - apply st_ret_ok in H as [-> ->]. exists []. rewrite app_nil_r. split_and!; [done|constructor|done|done].
  - cbn [prepare_images foldl] in *. destruct (bases !! i) as [base|] eqn:Ei.
    + rewrite decide_True by (apply Hh; by rewrite Ei). by apply (IH bases).
    + rewrite decide_False by (rewrite <-Hh, Ei; by intros [? ?]). apply st_bind_ok in H as (o1 & base & He%wrapped_ok & H).
      pose proof (ensureImage_dir _ _ _ _ _ He) as ->. destruct (IH (<[i := image_dir i]> bases) (have ++ [i]) o1 ops' b) as (new & E & Hp & H1 & H2); [..|done|].
      * intros j y Hy. apply lookup_insert_Some in Hy as [[<- <-]|[_ Hy]]; [done|by apply Hb].
      * intros j. rewrite lookup_insert_is_Some, elem_of_app, list_elem_of_singleton, <-Hh. destruct (decide (i = j)); naive_solver.
      * exists (i :: new). rewrite <-app_assoc in E, H2. split_and!; [done|by econstructor|done|done].
Qed.

(** A pod is prepared exactly: every container's image, those of the init
    containers first, is pulled once, in the order of its first use; every
    container finds its image's place in the cache, nothing else is there;
    and the state directory, named by the pod's UID, is made last. *)
Theorem pod_images_prepared block workDir pod ops ops' dir bases : preparePod block workDir pod ops = (ops', Ok (dir, bases)) ->
  dir = PathJoin [workDir; p_UID pod] /\ p_Containers pod <> [] /\
  (forall image base, bases !! image = Some base <-> image ∈ ct_Image <$> allContainers pod /\ base = image_dir image) /\
  exists ops1, pulled_in_turn block (first_uses (ct_Image <$> allContainers pod)) ops ops1 /\
    ops' = ops1 ++ [IMkdirAll dir] /\ img_err ops1 (IMkdirAll dir) = None.
Proof.
  unfold preparePod. case_bool_decide as Hc; [done|]. intros H. apply st_bind_ok in H as (ops1 & b & Hp & H).
  apply st_bind_ok in H as (ops2 & [] & Hm & H). injection H as <- <- <-.
  destruct (prepare_images_ok block (ct_Image <$> allContainers pod) ∅ [] ops ops1 b) as (new & E & Hpull & H1 & H2); [by intros|intros i; rewrite lookup_empty; split; [by intros [? ?]|by intros ?%elem_of_nil]|done|].
  change (first_uses (ct_Image <$> allContainers pod) = new) in E. subst new. split; [done|]. split; [done|]. split.
  - intros image base. rewrite <-(elem_of_first_uses (ct_Image <$> allContainers pod)), <-(H2 image). split.
    + intros Hi. split; [by exists base|by apply H1].
    + intros [[base' Hi] ->]. pose proof (H1 _ _ Hi) as ->. done.
  - exists ops1. split; [done|]. unfold img in Hm. injection Hm as <- Hm. by destruct (img_err ops1 _).
Qed.
End Pull.

(** ** A pull in directory mode *)

Module ImageExample.
Definition sum (image : string) : bytes := [171; 205; 1; 2; 3; 4; 5; 6; 7]%Z.
Definition fails (ops : list img_op) (o : img_op) : option string := match o with IStat _ => Some "no such file" | _ => None end.
Definition platform (image : string) : option (string * string) := Some ("linux", "arm64").
Definition entries (image : string) : list (header * content) :=
  [(Header "etc" TypeDir "" 0 0 0 493 0 0 0, Content [] false); (Header "etc/hosts" TypeReg "" 0 0 0 420 0 0 1, Content [104]%Z false);
   (Header "dev/null" TypeChar "" 0 0 0 420 1 3 0, Content [] false)].
Definition pull (entries : string -> list (header * content)) (block : bool) : list img_op * result string string :=
  ensureImage fails sum "/images" platform entries (fun _ => None) (fun _ => Z.to_nat 40000) block "nginx" [].
Definition pulled (block : bool) := pull entries block.

(** Finding: an image takes the agent down. Its flattened tar need only have a
    root that is not a directory; [Convert] then counts up the links of a
    parent there is none of. *)
Definition bad_root (image : string) : list (header * content) := [(Header "." TypeReg "" 0 0 0 420 0 0 0, Content [] false)].
Example image_crashes_the_agent : (pull bad_root true).2 = Crash NilDeref.
Proof. vm_compute. reflexivity. Qed.
End ImageExample.

Lemma image_pull_exact_witness :
  let done block := published ImageExample.fails ImageExample.sum "/images" ImageExample.entries (fun _ => Z.to_nat 40000) block "nginx" (ImageExample.pulled block).1 in
  (ImageExample.pulled false).2 = Ok "/images/abcd010203040506-nginx" /\ done false /\
  conversion_crashed ImageExample.sum "/images" ImageExample.bad_root (fun _ => None) (fun _ => Z.to_nat 40000) "nginx" (ImageExample.pull ImageExample.bad_root true).1.
Proof.
  assert ((ImageExample.pulled false).2 = Ok "/images/abcd010203040506-nginx") as E by (vm_compute; reflexivity). split; [done|].
  assert (Forall plain ["images"]) as Hp by (by repeat constructor).
  assert (Forall is_byte (ImageExample.sum "nginx")) as Hb by (unfold is_byte; cbn; repeat constructor; lia).
  pose proof (fun es block => image_pull_exact ImageExample.fails ImageExample.sum "/images" ImageExample.platform es (fun _ => None)
    (fun _ => Z.to_nat 40000) ["images"] block "nginx" [] (ImageExample.pull es block).1 (ImageExample.pull es block).2
    eq_refl ltac:(discriminate) Hp Hb (surjective_pairing _)) as H.
  split.
  - specialize (H ImageExample.entries false). change (ImageExample.pull ImageExample.entries false) with (ImageExample.pulled false) in H.
    rewrite E in H. destruct H as [_ [[H _]|[H _]]]; [discriminate H|exact H].
  - specialize (H ImageExample.bad_root true). rewrite ImageExample.image_crashes_the_agent in H. destruct H as [_ [(pre & Ho & _)|H]]; [|exact H].
    vm_compute in Ho. destruct pre as [|? [|? [|? [|? [|? [|? [|]]]]]]]; discriminate Ho.
Defined.

(** Two containers of one image. *)
Definition ex_prepared_pod : Pod :=
  MkPod "u1" "web" "ns" ∅ [MkContainer "i" "busybox" [] [] false [] "" [] [] None None None None None]
    [MkContainer "a" "nginx" [] [] false [] "" [] [] None None None None None; MkContainer "b" "busybox" [] [] false [] "" [] [] None None None None None]
    "" [] None None false None.
Definition ex_prepared : list img_op * result string (string * gmap string string) :=
  preparePod ImageExample.fails ImageExample.sum "/images" ImageExample.platform ImageExample.entries (fun _ => None) (fun _ => Z.to_nat 40000) (fun s => s) false "/work" ex_prepared_pod [].

Lemma pod_images_prepared_witness :
  exists dir bases, ex_prepared.2 = Ok (dir, bases) /\ dir = "/work/u1" /\ bases !! "busybox" = Some "/images/abcd010203040506-busybox".
Proof.
  destruct ex_prepared as [ops' r] eqn:E. assert (is_ok ex_prepared.2 = true) as Hr by (vm_compute; reflexivity). rewrite E in Hr. cbn [snd] in Hr.
  destruct r as [[dir bases]| |]; try discriminate Hr. exists dir, bases. split; [reflexivity|].
  destruct (pod_images_prepared ImageExample.fails ImageExample.sum "/images" ImageExample.platform ImageExample.entries (fun _ => None) (fun _ => Z.to_nat 40000) (fun s => s)
    false "/work" ex_prepared_pod [] ops' dir bases E) as (-> & _ & Hb & _).
  split; [vm_compute; reflexivity|]. apply Hb. split; [|vm_compute; reflexivity]. apply (bool_decide_unpack _). vm_compute. exact I.
Defined.
